(* ===== verification/_CoqProject ===== *)
-Q . S2P
Prelude.v
Crc32.v
Dll.v
Gd.v
MediaMap.v
MapResize.v
MapProps.v
CMem.v
CString.v
Stand.v
Qdivrem.v
Utf.v
Zalloc.v
Environment.v
Bcache.v
Interp.v
GptIo.v
GptRep.v
GptSpec.v
GptExample.v
GptOpen.v
GptEdit.v
GptAdd.v
GptResize.v
GptLoad.v
GptVerify.v
GptMake.v
BootGpt.v
BootRules.v
BootFind.v
BootTries.v
BootRead.v
BootSync.v
BootConv.v
BootLoad.v
BootHeld.v
BootProps.v
BootFlag.v
