(* ===== verification/Prelude.v ===== *)
(** * A verification of the disk and boot tools of this repository

    The repository holds the partition editor fgdisk (src/sbin/fgdisk), the C library
    routines and the stand-alone library (src/lib/libc, src/lib/libstand) of the boot
    programs, and the boot programs themselves (src/sys/boot).  The development models
    the logic of these parts and proves what makes it correct.

    ** How the parts interact

    fgdisk reads the GUID partition table (GPT) of a device into a map of the media,
    edits both copies of the table, and writes them back with new checksums.  The boot
    program gptboot reads the same table, verifies the same checksums, chooses the
    partition to boot, and records in the table what it tried.  It starts the loader,
    whose command lines are cut into words with the values of environment variables
    replaced, whose disks are read through a block cache, and whose heap, strings,
    numbers and 64-bit divisions are those of libstand and libc.

    ** How code is modelled

    A C function that touches memory is a function in the monad [St] of this file, over a
    state that holds the objects it touches; [None] is undefined behaviour (NULL or
    dangling pointers, accesses outside an object) or a loop without the fuel it needs,
    so that [wp m s Q], and [m s = Some (r, s')], say that the code returns and has
    neither.  Integers are [Z], wrapped to their width ([u32], [u64], [s64], ...) where
    the code can leave it; bytes are [Z] in [0,255]; strings are lists of bytes, with the
    NUL explicit where memory is modelled.  What the environment decides (whether an
    allocation or a transfer succeeds, the clock, the UUIDs drawn) is a class of
    parameters, as are the system headers that are not in the repository, with laws that
    state their documentation ([SysGpt], [SysGptLaws], [Uuid], [DiskMbr], [BootSys]).

    ** The files

    - [Crc32]: sbin/fgdisk/gpt.c and sys/boot/common/crc32.c ([crc32]), sys/libkern/crc32.c,
      sys/libkern/icrc32.c, sys/boot/pc32/boot2/scrc32.c.  The routines compute the
      remainder of the reflected polynomial division ([Crc]); the sliced CRC32C equals the
      byte-wise one; bursts of up to 32 bits are detected.
    - [Dll]: doubly linked lists in a heap, shared by the media map and the environment.
    - [Gd], [MediaMap], [MapResize], [MapProps]: sbin/fgdisk/map.c over the heap of
      fgdisk.  A map refines a list of regions that tile the device ([map_rep], [tiles]);
      map_add, map_alloc, map_resize and the lookups refine operations on that list, and
      the tiling is an invariant of every sequence of calls, but for one branch of
      map_resize that is shown to break it.
    - [GptIo], [GptRep], [GptSpec], [GptExample]: what the commands of fgdisk share
      (gpt.c, gpt.h): transfers, headers and entries as byte strings, checksums ([sealed]),
      and the store that holds both copies ([gpt_rep]).
    - [GptOpen], [GptLoad]: gpt.c: reading the MBR and the GPT into the map; when gpt_mbr
      returns and when it does not.
    - [GptEdit], [GptAdd], [GptResize], [GptVerify], [GptMake]: remove.c, rename.c,
      label.c, flag.c; add.c; resize.c; verify.c; create.c, recover.c, destroy.c.  Each
      command changes the fields it should of exactly the entries selected, in both
      copies, and leaves both sealed and on the device.
    - [CMem], [CString]: lib/libc/string over one array of bytes.
    - [Stand], [Qdivrem], [Utf]: strtol.c, in_cksum.c, random.c, strcasecmp.c, libc/uuid;
      qdivrem.c (Knuth's Algorithm D divides); the UTF-8 and UTF-16 names of gpt.c.
    - [Zalloc]: zalloc.c, zalloc_malloc.c, sbrk.c: the pool as an ordered, coalesced list
      of free blocks threaded through memory; malloc, free and realloc over it.
    - [Environment]: environment.c and strdup.c refine a finite map with owned strings.
    - [Bcache]: sys/boot/common/bcache.c answers what the device would while coherent.
    - [Interp]: interp_backslash.c and interp_parse.c against [unesc] and [words], and
      composed with the environment through the class [Vars].
    - [BootGpt]: sys/boot/common/gpt.c, the transfers of sys/boot/pc32/common/drv.c, and
      gptinit and the retries of main in sys/boot/pc32/gptboot/gptboot.c, over the disk and
      the static variables.
    - [BootRules], [BootFind], [BootTries]: what each of its operations does to the tables
      ([updated], [choose], [touched]), and the order in which partitions are tried
      ([order], [remaining]), with the end of the loop.
    - [BootRead], [BootConv], [BootLoad]: [gptread] accepts a copy exactly if [load] does,
      and converts the partitions of an interrupted boot ([conv_table]).
    - [BootSync], [BootHeld], [BootProps]: memory and disk stay equal, so that the next boot
      reads what the last one wrote ([in_sync], [held]); the theorems on the boot protocol.
    - [BootFlag]: fgdisk and gptboot together: gptboot accepts what fgdisk leaves sealed on
      the disk, and tries first the partition that fgdisk flag marks.

    ** Interfaces

    [Linked] is what an object of a linked list offers to [Dll]; [Vars] what the variables
    offer to the command-line parser, implemented by the environment; [Os], [Bios] and the
    classes of parameters above what the system offers.

    ** Fuel

    Loops over a linked list take one step per node: [map_fuel] is one more than the
    number of nodes, and so for the environment.  Loops over a string or a block read the
    next byte each time: [mem_fuel] is one more than the size of the memory, and twice
    the length for the command lines (a character can be looked at twice).  gpt_mbr follows
    nested partition tables: one step per sector suffices when each table lies behind the
    one before, and no amount of fuel does when one lies in front.  The loops of gptboot
    run over at most 128 entries.  Theorems about code that uses fuel state
    that it returns.

    ** Not modelled

    What is printed, and the parsing of fgdisk's command line by getopt; zlib, bzip2 and
    ACPICA, which are vendored; declarations of EFI; assembly; code whose whole effect is
    calls of the BIOS, of EFI or of device drivers (libi386, libefi, consoles); the
    readers of file systems and the network protocols of libstand; the loading of ELF
    images and modules; the menus of dloader.  The manifest lists each with its reason. *)
From Stdlib Require Import ZArith Lia Ascii String.
From stdpp Require Import base list option gmap strings.
Open Scope Z_scope.

(** ** Machine integers: the value of a C expression of a given width. *)
Definition u8 (z : Z) : Z := z mod 2 ^ 8.
Definition u16 (z : Z) : Z := z mod 2 ^ 16.
Definition u32 (z : Z) : Z := z mod 2 ^ 32.
Definition u64 (z : Z) : Z := z mod 2 ^ 64.
Definition s32 (z : Z) : Z := (z + 2 ^ 31) mod 2 ^ 32 - 2 ^ 31.
Definition s64 (z : Z) : Z := (z + 2 ^ 63) mod 2 ^ 64 - 2 ^ 63.

Lemma u8_small z : 0 <= z < 2 ^ 8 -> u8 z = z.
Proof. apply Z.mod_small. Qed.

Lemma u16_small z : 0 <= z < 2 ^ 16 -> u16 z = z.
Proof. apply Z.mod_small. Qed.

Lemma u32_small z : 0 <= z < 2 ^ 32 -> u32 z = z.
Proof. apply Z.mod_small. Qed.

Lemma u64_small z : 0 <= z < 2 ^ 64 -> u64 z = z.
Proof. apply Z.mod_small. Qed.

Lemma s32_small z : - 2 ^ 31 <= z < 2 ^ 31 -> s32 z = z.
Proof. intros H. unfold s32. rewrite Z.mod_small; lia. Qed.

Lemma s64_small z : - 2 ^ 63 <= z < 2 ^ 63 -> s64 z = z.
Proof. intros H. unfold s64. rewrite Z.mod_small; lia. Qed.

Lemma u8_bound z : 0 <= u8 z < 2 ^ 8.
Proof. apply Z.mod_pos_bound. lia. Qed.

Lemma u16_bound z : 0 <= u16 z < 2 ^ 16.
Proof. apply Z.mod_pos_bound. lia. Qed.

Lemma u32_bound z : 0 <= u32 z < 2 ^ 32.
Proof. apply Z.mod_pos_bound. lia. Qed.

Lemma u64_bound z : 0 <= u64 z < 2 ^ 64.
Proof. apply Z.mod_pos_bound. lia. Qed.

Lemma s64_bound z : - 2 ^ 63 <= s64 z < 2 ^ 63.
Proof. unfold s64. pose proof (Z.mod_pos_bound (z + 2 ^ 63) (2 ^ 64)). lia. Qed.

(** Removes the wrap-around of every word operation whose argument is in range. *)
Ltac word_simpl :=
  repeat match goal with
  | |- context [u8 ?z] => rewrite (u8_small z) by lia
  | |- context [u16 ?z] => rewrite (u16_small z) by lia
  | |- context [u32 ?z] => rewrite (u32_small z) by lia
  | |- context [u64 ?z] => rewrite (u64_small z) by lia
  | |- context [s32 ?z] => rewrite (s32_small z) by lia
  | |- context [s64 ?z] => rewrite (s64_small z) by lia
  end.

(** [lia] for goals with division and modulo. *)
Ltac dlia := Z.to_euclidean_division_equations; lia.

(** Splits every boolean comparison of integers in the goal or the context. *)
Ltac zbool :=
  repeat match goal with
  | H : (_ && _)%bool = true |- _ => apply andb_prop in H; destruct H
  | H : (_ <? _) = true |- _ => apply Z.ltb_lt in H
  | H : (_ <? _) = false |- _ => apply Z.ltb_ge in H
  | H : (_ <=? _) = true |- _ => apply Z.leb_le in H
  | H : (_ <=? _) = false |- _ => apply Z.leb_gt in H
  | H : (_ =? _) = true |- _ => apply Z.eqb_eq in H
  | H : (_ =? _) = false |- _ => apply Z.eqb_neq in H
  | H : negb _ = true |- _ => apply negb_true_iff in H
  | H : negb _ = false |- _ => apply negb_false_iff in H
  end.

Ltac zcase :=
  match goal with
  | |- context [?a <? ?b] => destruct (Z.ltb_spec a b)
  | |- context [?a <=? ?b] => destruct (Z.leb_spec a b)
  | |- context [?a =? ?b] => destruct (Z.eqb_spec a b)
  end.

(** ** Bit operations as arithmetic *)
Lemma lor_add a b k : 0 <= k -> 0 <= b < 2 ^ k -> Z.lor (a * 2 ^ k) b = a * 2 ^ k + b.
Proof.
  intros Hk Hb. assert (E : Z.land (a * 2 ^ k) b = 0).
  { apply Z.bits_inj'. intros i Hi. rewrite Z.land_spec, Z.bits_0.
    destruct (Z.lt_ge_cases i k).
    - by rewrite Z.mul_pow2_bits_low.
    - rewrite andb_false_iff. right. destruct (Z.eq_dec b 0) as [->|]; [apply Z.bits_0|].
      apply Z.bits_above_log2; [lia|]. apply Z.log2_lt_pow2; [lia|].
      apply Z.lt_le_trans with (2 ^ k); [lia|]. apply Z.pow_le_mono_r; lia. }
  by rewrite <- Z.lxor_lor, <- Z.add_nocarry_lxor.
Qed.

Lemma land_low a k : 0 <= k -> Z.land a (2 ^ k - 1) = a mod 2 ^ k.
Proof. intros. rewrite <- Z.land_ones by done. f_equal. rewrite Z.ones_equiv. lia. Qed.

Lemma land_field x k w : 0 <= k <= w ->
  Z.land x (2 ^ w - 2 ^ k) = 2 ^ k * ((x / 2 ^ k) mod 2 ^ (w - k)).
Proof.
  intros H. rewrite <- Z.land_ones, <- Z.shiftr_div_pow2 by lia.
  rewrite Z.mul_comm, <- Z.shiftl_mul_pow2, Z.shiftl_land by lia.
  assert (E : 2 ^ w - 2 ^ k = Z.shiftl (Z.ones (w - k)) k).
  { rewrite Z.shiftl_mul_pow2, Z.ones_equiv by lia.
    replace w with (w - k + k) at 1 by lia. rewrite Z.pow_add_r by lia. lia. }
  rewrite E. apply Z.bits_inj'. intros i Hi. rewrite !Z.land_spec.
  destruct (Z.lt_ge_cases i k).
  - by rewrite (Z.shiftl_spec_low (Z.ones _)), !andb_false_r by lia.
  - rewrite !Z.shiftl_spec, Z.shiftr_spec by lia. by replace (i - k + k) with i by lia.
Qed.

(** ** Bytes and C strings: a byte is an integer of [0,255]. *)
Definition byteb (b : Z) : bool := (0 <=? b) && (b <? 256).
Definition bytes_ok (l : list Z) : Prop := Forall (fun b => 0 <= b < 256) l.

(** The bytes of a string literal, without its terminating NUL. *)
Definition cstr (s : string) : list Z :=
  map (fun c => Z.of_nat (nat_of_ascii c)) (list_ascii_of_string s).

Arguments cstr s%_string.

(** [cbytes s]: what a C string holds up to its first NUL byte. *)
Fixpoint cbytes (l : list Z) : list Z :=
  match l with
  | [] => []
  | b :: r => if b =? 0 then [] else b :: cbytes r
  end.

(** A C string: bytes other than NUL. *)
Definition cstring_ok (l : list Z) : Prop := Forall (fun b => 0 < b < 256) l.

Lemma cstring_ok_bytes l : cstring_ok l -> bytes_ok l.
Proof. intros H. apply (Forall_impl _ _ _ H). lia. Qed.

(** ** Little-endian integers in byte strings. *)
Fixpoint le_dec (l : list Z) : Z :=
  match l with
  | [] => 0
  | b :: r => b + 256 * le_dec r
  end.

Fixpoint le_enc (n : nat) (v : Z) : list Z :=
  match n with
  | O => []
  | S n => v mod 256 :: le_enc n (v / 256)
  end.

Lemma length_le_enc n v : length (le_enc n v) = n.
Proof. revert v; induction n; simpl; intros; auto. Qed.

Lemma le_enc_bytes n v : bytes_ok (le_enc n v).
Proof.
  revert v; induction n; intros v; simpl; constructor; [|apply IHn].
  apply Z.mod_pos_bound. lia.
Qed.

Lemma le_dec_enc n v : le_dec (le_enc n v) = v mod 256 ^ Z.of_nat n.
Proof.
  revert v; induction n; intros v; [by rewrite Z.mod_1_r|].
  simpl le_enc; cbn [le_dec]. rewrite IHn, Nat2Z.inj_succ, Z.pow_succ_r by lia.
  rewrite Z.rem_mul_r; lia.
Qed.

Lemma le_dec_bound l : bytes_ok l -> 0 <= le_dec l < 256 ^ Z.of_nat (length l).
Proof.
  induction 1; cbn [le_dec length]; [lia|].
  rewrite Nat2Z.inj_succ, Z.pow_succ_r by lia. lia.
Qed.

Lemma le_dec_enc_small n v : 0 <= v < 256 ^ Z.of_nat n -> le_dec (le_enc n v) = v.
Proof. intros. rewrite le_dec_enc. by apply Z.mod_small. Qed.

Lemma le_enc_dec l : bytes_ok l -> le_enc (length l) (le_dec l) = l.
Proof.
  induction 1 as [|b l Hb Hl IH]; cbn [length le_enc le_dec]; [done|].
  f_equal.
  - rewrite Z.mul_comm, Z_mod_plus_full. by apply Z.mod_small.
  - rewrite Z.mul_comm, Z_div_plus_full, Z.div_small by lia. exact IH.
Qed.

Lemma le_dec_inj (a b : list Z) : bytes_ok a -> bytes_ok b -> length a = length b ->
  le_dec a = le_dec b -> a = b.
Proof. intros Ha Hb Hl E. rewrite <- (le_enc_dec a Ha), <- (le_enc_dec b Hb). congruence. Qed.

(** ** Windows of a byte buffer *)
Definition sub {A} (off n : nat) (l : list A) : list A := take n (drop off l).

(** [splice off d l]: [l] with the bytes from [off] on overwritten by [d]. *)
Definition splice {A} (off : nat) (d l : list A) : list A :=
  take off l ++ d ++ drop (off + length d) l.

Section windows.
Context {A : Type}.
Implicit Types l d : list A.

Lemma length_sub off n l : (off + n <= length l)%nat -> length (sub off n l) = n.
Proof. intros. unfold sub. rewrite length_take, length_drop. lia. Qed.

Lemma lookup_sub off n l i :
  sub off n l !! i = if decide (i < n)%nat then l !! (off + i)%nat else None.
Proof.
  unfold sub. case_decide.
  - rewrite lookup_take_lt by done. by rewrite lookup_drop.
  - by rewrite lookup_take_ge by lia.
Qed.

Lemma length_splice off d l :
  (off + length d <= length l)%nat -> length (splice off d l) = length l.
Proof.
  intros. unfold splice. rewrite !length_app, length_take, length_drop. lia.
Qed.

Lemma lookup_splice off d l i :
  (off + length d <= length l)%nat ->
  splice off d l !! i =
    if decide (i < off)%nat then l !! i
    else if decide (i < off + length d)%nat then d !! (i - off)%nat else l !! i.
Proof.
  intros Hl. unfold splice. case_decide as H1.
  - rewrite lookup_app_l by (rewrite length_take; lia). by rewrite lookup_take_lt.
  - rewrite lookup_app_r by (rewrite length_take; lia).
    rewrite length_take, Nat.min_l by lia. case_decide as H2.
    + by rewrite lookup_app_l by lia.
    + rewrite lookup_app_r by lia. rewrite lookup_drop. f_equal. lia.
Qed.

Lemma sub_splice_same off d l :
  (off + length d <= length l)%nat -> sub off (length d) (splice off d l) = d.
Proof.
  intros Hl. apply list_eq. intros i. rewrite lookup_sub. case_decide.
  - rewrite lookup_splice by done. rewrite decide_False, decide_True by lia.
    f_equal. lia.
  - symmetry. apply lookup_ge_None. lia.
Qed.

Lemma sub_splice_other off d l o n :
  (off + length d <= length l)%nat ->
  (o + n <= off \/ off + length d <= o)%nat ->
  sub o n (splice off d l) = sub o n l.
Proof.
  intros Hl Hd. apply list_eq. intros i. rewrite !lookup_sub. case_decide; [|done].
  rewrite lookup_splice by done. repeat case_decide; done || lia.
Qed.

Lemma splice_nil (off : nat) (l : list Z) : splice off [] l = l.
Proof. unfold splice. cbn [length app]. rewrite Nat.add_0_r. apply take_drop. Qed.

Lemma splice_splice off d1 d2 l :
  length d1 = length d2 -> (off + length d1 <= length l)%nat ->
  splice off d2 (splice off d1 l) = splice off d2 l.
Proof.
  intros Hd Hl. apply list_eq. intros i.
  rewrite !lookup_splice by (rewrite ?length_splice; lia).
  rewrite Hd. by repeat case_decide.
Qed.

Lemma splice_comm o1 d1 o2 d2 l :
  (o1 + length d1 <= length l)%nat -> (o2 + length d2 <= length l)%nat ->
  (o1 + length d1 <= o2 \/ o2 + length d2 <= o1)%nat ->
  splice o1 d1 (splice o2 d2 l) = splice o2 d2 (splice o1 d1 l).
Proof.
  intros. apply list_eq. intros i.
  rewrite !lookup_splice by (rewrite ?length_splice; lia).
  repeat case_decide; done || lia.
Qed.

Lemma splice_sub off n l :
  (off + n <= length l)%nat -> splice off (sub off n l) l = l.
Proof.
  intros. apply list_eq. intros i.
  rewrite lookup_splice by (rewrite length_sub; lia). rewrite length_sub by lia.
  case_decide; [done|]. case_decide; [|done].
  rewrite lookup_sub, decide_True by lia. f_equal. lia.
Qed.
End windows.

(** Reading and writing an [n]-byte little-endian integer at offset [off]. *)
Definition le_get (off n : nat) (l : list Z) : Z := le_dec (sub off n l).
Definition le_set (off n : nat) (v : Z) (l : list Z) : list Z := splice off (le_enc n v) l.

Lemma length_le_set off n v l :
  (off + n <= length l)%nat -> length (le_set off n v l) = length l.
Proof. intros. apply length_splice. by rewrite length_le_enc. Qed.

Lemma le_get_set off n v l :
  (off + n <= length l)%nat -> le_get off n (le_set off n v l) = v mod 256 ^ Z.of_nat n.
Proof.
  intros. unfold le_get, le_set.
  rewrite <- (length_le_enc n v) at 1. rewrite sub_splice_same.
  - apply le_dec_enc.
  - by rewrite length_le_enc.
Qed.

Lemma le_get_set_other off n v o m l :
  (off + n <= length l)%nat -> (o + m <= off \/ off + n <= o)%nat ->
  le_get o m (le_set off n v l) = le_get o m l.
Proof.
  intros. unfold le_get, le_set. rewrite sub_splice_other; rewrite ?length_le_enc; auto.
Qed.

Lemma bytes_ok_sub off n l : bytes_ok l -> bytes_ok (sub off n l).
Proof. intros. unfold sub. by apply Forall_take, Forall_drop. Qed.

Lemma bytes_ok_splice off d l : bytes_ok d -> bytes_ok l -> bytes_ok (splice off d l).
Proof.
  intros. unfold splice. apply Forall_app; split; [by apply Forall_take|].
  apply Forall_app; split; [done|by apply Forall_drop].
Qed.

Lemma bytes_ok_le_set off n v l : bytes_ok l -> bytes_ok (le_set off n v l).
Proof. intros. apply bytes_ok_splice; [apply le_enc_bytes|done]. Qed.

(** What keeps a string a string of bytes, and its length. *)
Create HintDb bytes.
#[export] Hint Resolve le_enc_bytes length_le_enc bytes_ok_sub bytes_ok_splice
  bytes_ok_le_set cstring_ok_bytes : bytes.

(** ** The monad of stateful code: [None] is C undefined behaviour (a NULL or
    dangling dereference, an access outside an object) or a loop that ran out of
    the fuel it was given, so that a theorem of the form [m s = Some (r, s')]
    says that the code returns and is free of both. *)
Definition St (S A : Type) : Type := S -> option (A * S).

#[export] Instance St_ret S : MRet (St S) := fun A a s => Some (a, s).
#[export] Instance St_bind S : MBind (St S) := fun A B f m s =>
  match m s with
  | Some (a, s') => f a s'
  | None => None
  end.

(** Undefined behaviour. *)
Definition ub {S A} : St S A := fun _ => None.
Definition get_st {S} : St S S := fun s => Some (s, s).
Definition put_st {S} (s : S) : St S unit := fun _ => Some (tt, s).
Definition gets {S A} (f : S -> A) : St S A := fun s => Some (f s, s).
Definition modify {S} (f : S -> S) : St S unit := fun s => Some (tt, f s).
Definition of_opt {S A} (o : option A) : St S A := fun s =>
  match o with Some a => Some (a, s) | None => None end.

(** Total-correctness triple: [m] returns from [s] and its result satisfies [Q]. *)
Definition wp {S A} (m : St S A) (s : S) (Q : A -> S -> Prop) : Prop :=
  match m s with
  | Some (a, s') => Q a s'
  | None => False
  end.

Section wp_rules.
Context {S : Type}.

Lemma wp_ret {A} (a : A) (s : S) (Q : A -> S -> Prop) : Q a s -> wp (mret a) s Q.
Proof. done. Qed.

Lemma wp_bind {A B} (m : St S A) (f : A -> St S B) s (Q : B -> S -> Prop) :
  wp m s (fun a s' => wp (f a) s' Q) -> wp (m ≫= f) s Q.
Proof.
  unfold wp, mbind, St_bind. destruct (m s) as [[a s']|]; done.
Qed.

Lemma wp_mono {A} (m : St S A) s (P Q : A -> S -> Prop) :
  wp m s P -> (forall a s', P a s' -> Q a s') -> wp m s Q.
Proof. unfold wp. destruct (m s) as [[a s']|]; auto. Qed.

Lemma wp_gets {A} (f : S -> A) (s : S) (Q : A -> S -> Prop) :
  Q (f s) s -> wp (gets f) s Q.
Proof. done. Qed.

Lemma wp_modify (f : S -> S) (s : S) (Q : unit -> S -> Prop) :
  Q tt (f s) -> wp (modify f) s Q.
Proof. done. Qed.

Lemma wp_of_opt {A} (o : option A) (a : A) (s : S) (Q : A -> S -> Prop) :
  o = Some a -> Q a s -> wp (of_opt o) s Q.
Proof. by intros -> ?. Qed.

Lemma wp_elim {A} (m : St S A) s (Q : A -> S -> Prop) :
  wp m s Q <-> exists a s', m s = Some (a, s') /\ Q a s'.
Proof.
  unfold wp. destruct (m s) as [[a s']|] eqn:E.
  - split; [eauto|]. intros (?&?&[= <- <-]&?). done.
  - split; [done|]. by intros (?&?&?&?).
Qed.
End wp_rules.
