(* ===== verification/Dll.v ===== *)
(** * Dll: doubly linked lists in a heap

    The partition map of fgdisk (sbin/fgdisk/map.c) and the environment of libstand
    (lib/libstand/environment.c) are both doubly linked lists of heap objects.  The
    class [Linked] is what such an object offers (two link fields and a payload);
    [dll] says that a piece of heap spells out a given list, and the lemmas are the
    pointer surgery both components do. *)
From Stdlib Require Import ZArith Lia.
From stdpp Require Import base list option gmap.
From S2P Require Import Prelude.
Open Scope Z_scope.

(** A heap address: the ordinal of the allocation that returned it. *)
Abbreviation loc := nat.

(** [N]: the C object, with its two link fields; [V]: what it carries besides them. *)
Class Linked (N V : Type) := {
  lk_next : N -> option loc;
  lk_prev : N -> option loc;
  lk_val : N -> V;
  lk_set_next : option loc -> N -> N;
  lk_set_prev : option loc -> N -> N;
  lk_next_next n x : lk_next (lk_set_next x n) = x;
  lk_prev_next n x : lk_prev (lk_set_next x n) = lk_prev n;
  lk_val_next n x : lk_val (lk_set_next x n) = lk_val n;
  lk_next_prev n x : lk_next (lk_set_prev x n) = lk_next n;
  lk_prev_prev n x : lk_prev (lk_set_prev x n) = x;
  lk_val_prev n x : lk_val (lk_set_prev x n) = lk_val n;
}.

Section dll.
Context {N V : Type} {L : Linked N V}.
Implicit Types (h : gmap loc N) (l : list (loc * V)) (p q : option loc).

(** The address of the first (last) element of a segment whose successor
    (predecessor) is [q]. *)
Definition first_of l q : option loc :=
  match l with [] => q | (x, _) :: _ => Some x end.

Fixpoint last_of p l : option loc :=
  match l with [] => p | (x, _) :: r => last_of (Some x) r end.

(** The object at [x] carries [v] and is linked to [p] and [q]. *)
Definition links h (x : loc) (v : V) p q : Prop :=
  exists n, h !! x = Some n /\ lk_val n = v /\ lk_prev n = p /\ lk_next n = q.

(** The heap [h] holds the segment [l], entered from [p] and left to [q]. *)
Fixpoint dll h p l q : Prop :=
  match l with
  | [] => True
  | (x, v) :: r => links h x v p (first_of r q) /\ dll h (Some x) r q
  end.

Lemma first_of_app l1 l2 q : first_of (l1 ++ l2) q = first_of l1 (first_of l2 q).
Proof. by destruct l1 as [|[] ?]. Qed.

Lemma last_of_app p l1 l2 : last_of p (l1 ++ l2) = last_of (last_of p l1) l2.
Proof. revert p; induction l1 as [|[] ? IH]; intros; simpl; auto. Qed.

Lemma last_of_snoc p l x v : last_of p (l ++ [(x, v)]) = Some x.
Proof. by rewrite last_of_app. Qed.

Lemma last_of_in l x : last_of None l = Some x -> x ∈ l.*1.
Proof.
  destruct l as [|[y v] r _] using rev_ind; [done|]. rewrite last_of_snoc.
  intros [= ->]. rewrite fmap_app. apply elem_of_app. right. apply elem_of_cons. by left.
Qed.

Lemma first_of_in l x : first_of l None = Some x -> x ∈ l.*1.
Proof. destruct l as [|[]]; [done|]. intros [= ->]. apply elem_of_cons. by left. Qed.

Lemma dll_app h p l1 l2 q :
  dll h p (l1 ++ l2) q <-> dll h p l1 (first_of l2 q) /\ dll h (last_of p l1) l2 q.
Proof.
  revert p; induction l1 as [|[x v] l1 IH]; intros p; simpl; [tauto|].
  rewrite IH, first_of_app. tauto.
Qed.

Lemma links_insert_ne h x v p q y n :
  x <> y -> links h x v p q -> links (<[y:=n]> h) x v p q.
Proof. intros Hne (m & Hm & ?). exists m. by rewrite lookup_insert_ne by done. Qed.

Lemma links_delete_ne h x v p q y :
  x <> y -> links h x v p q -> links (delete y h) x v p q.
Proof. intros Hne (m & Hm & ?). exists m. by rewrite lookup_delete_ne by done. Qed.

Lemma links_eq h x v p q n :
  lk_val n = v -> lk_prev n = p -> lk_next n = q -> links (<[x:=n]> h) x v p q.
Proof. intros. exists n. by rewrite lookup_insert_eq. Qed.

Lemma dll_insert_ne h p l q y n : y ∉ l.*1 -> dll h p l q -> dll (<[y:=n]> h) p l q.
Proof.
  revert p; induction l as [|[x v] l IH]; intros p Hn; simpl; [done|].
  rewrite fmap_cons, not_elem_of_cons in Hn. destruct Hn as [Hne Hn].
  intros [? ?]. split; [by apply links_insert_ne|by apply IH].
Qed.

Lemma dll_delete_ne h p l q y : y ∉ l.*1 -> dll h p l q -> dll (delete y h) p l q.
Proof.
  revert p; induction l as [|[x v] l IH]; intros p Hn; simpl; [done|].
  rewrite fmap_cons, not_elem_of_cons in Hn. destruct Hn as [Hne Hn].
  intros [? ?]. split; [by apply links_delete_ne|by apply IH].
Qed.

(** Every member of the segment is an object of the heap. *)
Lemma dll_lookup h p l q x : x ∈ l.*1 -> dll h p l q -> is_Some (h !! x).
Proof.
  revert p; induction l as [|[y v] l IH]; intros p; [by intros ?%elem_of_nil|].
  rewrite fmap_cons, elem_of_cons. intros [->|Hx] [(n & Hn & _) ?]; [by eexists|eauto].
Qed.

Lemma dll_fresh h p l q x : h !! x = None -> dll h p l q -> x ∉ l.*1.
Proof. intros Hx Hl Hin. destruct (dll_lookup _ _ _ _ _ Hin Hl). congruence. Qed.

(** [x->next = q'] where [x] ends the segment. *)
Lemma dll_set_next h p l x v q q' n :
  NoDup ((l ++ [(x, v)]).*1) -> h !! x = Some n -> dll h p (l ++ [(x, v)]) q ->
  dll (<[x:=lk_set_next q' n]> h) p (l ++ [(x, v)]) q'.
Proof.
  rewrite fmap_app. intros (_ & Hd & _)%NoDup_app Hx. rewrite !dll_app. simpl.
  intros [Hl [(n' & Hn' & Hv & Hp & Hq) _]]. assert (n' = n) as -> by congruence.
  split; [|split; [|done]].
  - apply dll_insert_ne; [|done]. intros Hin. apply (Hd x Hin), elem_of_cons. by left.
  - apply links_eq; [by rewrite lk_val_next|by rewrite lk_prev_next|apply lk_next_next].
Qed.

(** [x->prev = p'] where [x] starts the segment. *)
Lemma dll_set_prev h p p' l x v q n :
  NoDup (((x, v) :: l).*1) -> h !! x = Some n -> dll h p ((x, v) :: l) q ->
  dll (<[x:=lk_set_prev p' n]> h) p' ((x, v) :: l) q.
Proof.
  rewrite fmap_cons. intros [Hnin _]%NoDup_cons Hx. simpl.
  intros [(n' & Hn' & Hv & Hp & Hq) Hl]. assert (n' = n) as -> by congruence. split.
  - apply links_eq; [by rewrite lk_val_prev|apply lk_prev_prev|by rewrite lk_next_prev].
  - by apply dll_insert_ne.
Qed.

(** A heap that agrees on the members of a segment holds it too. *)
Lemma dll_ext h h' p l q :
  (forall x, x ∈ l.*1 -> h' !! x = h !! x) -> dll h p l q -> dll h' p l q.
Proof.
  revert p; induction l as [|[x v] l IH]; intros p E; simpl; [done|].
  rewrite fmap_cons in E. intros [(n & Hn & ?) ?]. split.
  - exists n. rewrite E by (apply elem_of_cons; by left). done.
  - apply IH; [|done]. intros y Hy. apply E, elem_of_cons. by right.
Qed.

(** A heap that agrees on a segment but for the forward link of its last element. *)
Lemma dll_relink_next h h' p l q q' :
  NoDup l.*1 -> dll h p l q ->
  (forall x n, last_of None l = Some x -> h !! x = Some n -> h' !! x = Some (lk_set_next q' n)) ->
  (forall x, x ∈ l.*1 -> last_of None l <> Some x -> h' !! x = h !! x) ->
  dll h' p l q'.
Proof.
  intros Hnd Hl Hlast Hrest. destruct (decide (l = [])) as [->|Hne]; [done|].
  destruct (exists_last Hne) as (l1 & [x v] & ->). rewrite last_of_snoc in *.
  rewrite fmap_app in Hnd, Hrest. apply NoDup_app in Hnd as (Hnd & Hd & _).
  apply dll_app in Hl as [Hl1 [(n & Hn & Hv & Hp & Hq) _]]. apply dll_app. split.
  - apply (dll_ext h); [|done]. intros y Hy. apply Hrest; [apply elem_of_app; by left|].
    intros [= <-]. apply (Hd x Hy), elem_of_cons. by left.
  - split; [|done]. exists (lk_set_next q' n).
    rewrite (Hlast x n eq_refl Hn), lk_val_next, lk_prev_next. split_and!; try done.
    apply lk_next_next.
Qed.

(** A heap that agrees on a segment but for the backward link of its first element. *)
Lemma dll_relink_prev h h' p p' l q :
  NoDup l.*1 -> dll h p l q ->
  (forall x n, first_of l None = Some x -> h !! x = Some n -> h' !! x = Some (lk_set_prev p' n)) ->
  (forall x, x ∈ l.*1 -> first_of l None <> Some x -> h' !! x = h !! x) ->
  dll h' p' l q.
Proof.
  intros Hnd Hl Hfirst Hrest. destruct l as [|[x v] l]; [done|]. simpl in *.
  destruct Hl as [(n & Hn & Hv & Hp & Hq) Hl]. apply NoDup_cons in Hnd as [Hx Hnd]. split.
  - exists (lk_set_prev p' n).
    rewrite (Hfirst x n eq_refl Hn), lk_val_prev, lk_next_prev. split_and!; try done.
    apply lk_prev_prev.
  - apply (dll_ext h); [|done]. intros y Hy. apply Hrest; [apply elem_of_cons; by right|].
    by intros [= <-].
Qed.

(** [x->f = v] for a field that is not a link. *)
Lemma dll_alter h p l1 x v v' l2 q f :
  NoDup ((l1 ++ (x, v) :: l2).*1) ->
  (forall n, h !! x = Some n -> lk_val n = v ->
    lk_val (f n) = v' /\ lk_next (f n) = lk_next n /\ lk_prev (f n) = lk_prev n) ->
  dll h p (l1 ++ (x, v) :: l2) q -> dll (alter f x h) p (l1 ++ (x, v') :: l2) q.
Proof.
  rewrite fmap_app, fmap_cons. intros (_ & Hd & [Hx _]%NoDup_cons)%NoDup_app Hf.
  rewrite !dll_app. cbn [first_of dll]. intros [H1 [(n & Hn & Hv & Hp & Hq) H2]].
  destruct (Hf n Hn Hv) as (Ev & En & Ep).
  assert (E : forall y, y <> x -> alter f x h !! y = h !! y)
    by (intros; by rewrite lookup_alter_ne).
  split_and!.
  - apply (dll_ext h); [|done]. intros y Hy. apply E. intros ->.
    apply (Hd x Hy), elem_of_cons. by left.
  - exists (f n). rewrite lookup_alter_eq, Hn, En, Ep. done.
  - apply (dll_ext h); [|done]. intros y Hy. apply E. by intros ->.
Qed.

(** Linking [x] in between two parts of a list. *)
Lemma dll_link h h' l1 l2 x v n :
  NoDup (l1 ++ l2).*1 -> dll h None (l1 ++ l2) None ->
  h' !! x = Some n -> lk_val n = v -> lk_prev n = last_of None l1 -> lk_next n = first_of l2 None ->
  (forall y m, last_of None l1 = Some y -> h !! y = Some m ->
    h' !! y = Some (lk_set_next (Some x) m)) ->
  (forall y m, first_of l2 None = Some y -> h !! y = Some m ->
    h' !! y = Some (lk_set_prev (Some x) m)) ->
  (forall y, y ∈ (l1 ++ l2).*1 -> last_of None l1 <> Some y -> first_of l2 None <> Some y ->
    h' !! y = h !! y) ->
  dll h' None (l1 ++ (x, v) :: l2) None.
Proof.
  rewrite fmap_app. intros (N1 & Hd & N2)%NoDup_app [H1 H2]%dll_app Hx Ev Ep En Hl Hf Ho.
  apply dll_app. cbn [first_of dll]. split_and!.
  - apply (dll_relink_next h _ _ _ (first_of l2 None)); try done. intros y Hy Hne.
    apply Ho; [apply elem_of_app; by left|done|]. intros Hc%first_of_in. by apply (Hd y).
  - by exists n.
  - apply (dll_relink_prev h _ (last_of None l1)); try done. intros y Hy Hne.
    apply Ho; [apply elem_of_app; by right| |done]. intros Hc%last_of_in. by apply (Hd y).
Qed.

(** Unlinking [x] from between two parts of a list. *)
Lemma dll_unlink h h' l1 l2 x v :
  NoDup (l1 ++ (x, v) :: l2).*1 -> dll h None (l1 ++ (x, v) :: l2) None ->
  (forall y m, last_of None l1 = Some y -> h !! y = Some m ->
    h' !! y = Some (lk_set_next (first_of l2 None) m)) ->
  (forall y m, first_of l2 None = Some y -> h !! y = Some m ->
    h' !! y = Some (lk_set_prev (last_of None l1) m)) ->
  (forall y, y ∈ (l1 ++ l2).*1 -> last_of None l1 <> Some y -> first_of l2 None <> Some y ->
    h' !! y = h !! y) ->
  dll h' None (l1 ++ l2) None.
Proof.
  rewrite fmap_app, fmap_cons. intros (N1 & Hd & [Hx N2]%NoDup_cons)%NoDup_app [H1 H2]%dll_app.
  intros Hl Hf Ho. cbn [dll first_of] in H1, H2. destruct H2 as [_ H2].
  rewrite fmap_app in Ho. apply dll_app. split.
  - apply (dll_relink_next h _ _ _ (Some x)); try done. intros y Hy Hne.
    apply Ho; [apply elem_of_app; by left|done|]. intros Hc%first_of_in.
    apply (Hd y Hy), elem_of_cons. by right.
  - apply (dll_relink_prev h _ (Some x)); try done. intros y Hy Hne.
    apply Ho; [apply elem_of_app; by right| |done]. intros Hc%last_of_in.
    apply (Hd y Hc), elem_of_cons. by right.
Qed.

(** The list is no longer than the heap is large, which is the fuel of its loops. *)
Lemma dll_length h p l q : NoDup l.*1 -> dll h p l q -> (length l <= size h)%nat.
Proof.
  intros Hnd Hl. rewrite <- (length_fmap fst l), <- (size_list_to_set (C := gset loc)) by done.
  rewrite <- size_dom. apply subseteq_size. intros x Hx%elem_of_list_to_set.
  apply elem_of_dom. by eapply dll_lookup.
Qed.

(** The object of the last element, if the segment has one. *)
Lemma dll_last_lookup h p l q x :
  dll h p l q -> l <> [] -> last_of p l = Some x ->
  exists l' v n, l = l' ++ [(x, v)] /\ h !! x = Some n.
Proof.
  intros Hl Hne Hx. destruct (exists_last Hne) as (l' & [y v] & ->).
  rewrite last_of_snoc in Hx. injection Hx as ->.
  apply dll_app in Hl as [_ [(n & Hn & _) _]]. by exists l', v, n.
Qed.
End dll.
