(* ===== verification/Gd.v ===== *)
(** * Gd: the state of fgdisk

    The structures of sbin/fgdisk/gpt_private.h and map.h, the heap they live in, and
    the C library and operating system calls the program makes on them.  The outcome
    of an allocation and of a transfer is decided by the environment ([Os]). *)
From Stdlib Require Import ZArith Lia.
From stdpp Require Import base list option gmap.
From S2P Require Import Prelude Dll.
Open Scope Z_scope.

(** A [void *]: NULL, a place in a malloc'ed buffer, or a [struct map]. *)
Inductive ptr : Type :=
| PNull
| PBuf (b : loc) (ofs : Z)
| PMap (m : loc).

#[export] Instance ptr_eq_dec : EqDecision ptr.
Proof. solve_decision. Defined.

(** [struct map]. *)
Record map_node := MapNode {
  map_start : Z;
  map_size : Z;
  map_next : option loc;
  map_prev : option loc;
  map_type : Z;
  map_index : Z;
  map_data : ptr;
  map_alloc_flag : Z;
}.

Definition MAP_TYPE_UNUSED := 0.
Definition MAP_TYPE_MBR := 1.
Definition MAP_TYPE_MBR_PART := 2.
Definition MAP_TYPE_PRI_GPT_HDR := 3.
Definition MAP_TYPE_SEC_GPT_HDR := 4.
Definition MAP_TYPE_PRI_GPT_TBL := 5.
Definition MAP_TYPE_SEC_GPT_TBL := 6.
Definition MAP_TYPE_GPT_PART := 7.
Definition MAP_TYPE_PMBR := 8.

Definition set_map_start (v : Z) (n : map_node) : map_node :=
  MapNode v (map_size n) (map_next n) (map_prev n) (map_type n) (map_index n)
    (map_data n) (map_alloc_flag n).
Definition set_map_size (v : Z) (n : map_node) : map_node :=
  MapNode (map_start n) v (map_next n) (map_prev n) (map_type n) (map_index n)
    (map_data n) (map_alloc_flag n).
Definition set_map_next (v : option loc) (n : map_node) : map_node :=
  MapNode (map_start n) (map_size n) v (map_prev n) (map_type n) (map_index n)
    (map_data n) (map_alloc_flag n).
Definition set_map_prev (v : option loc) (n : map_node) : map_node :=
  MapNode (map_start n) (map_size n) (map_next n) v (map_type n) (map_index n)
    (map_data n) (map_alloc_flag n).
Definition set_map_type (v : Z) (n : map_node) : map_node :=
  MapNode (map_start n) (map_size n) (map_next n) (map_prev n) v (map_index n)
    (map_data n) (map_alloc_flag n).
Definition set_map_index (v : Z) (n : map_node) : map_node :=
  MapNode (map_start n) (map_size n) (map_next n) (map_prev n) (map_type n) v
    (map_data n) (map_alloc_flag n).
Definition set_map_data (d : ptr) (a : Z) (n : map_node) : map_node :=
  MapNode (map_start n) (map_size n) (map_next n) (map_prev n) (map_type n)
    (map_index n) d a.

(** [gd->flags]. *)
Definition GPT_READONLY := 0x01.
Definition GPT_MODIFIED := 0x02.
Definition GPT_QUIET := 0x04.
Definition GPT_NOMBR := 0x08.
Definition GPT_FILE := 0x10.

(** [struct gd], less the name, the descriptor and the stat buffer of the device. *)
Record gd := Gd {
  gd_flags : Z;
  gd_verbose : Z;
  gd_lbawidth : Z;
  gd_mediamap : option loc;
  gd_tbl : option loc;
  gd_lbt : option loc;
  gd_gpt : option loc;
  gd_tpg : option loc;
  gd_secsz : Z;
  gd_mediasz : Z;
}.

(** The program's memory and the device it works on: the [struct map] objects and the
    malloc'ed buffers by address, the number of allocations made so far (the next
    address), the open [struct gd], and the bytes of the device. *)
Record store := Store {
  s_maps : gmap loc map_node;
  s_bufs : gmap loc (list Z);
  s_brk : loc;
  s_gd : gd;
  s_disk : list Z;
}.

Definition on_maps (f : gmap loc map_node -> gmap loc map_node) (s : store) : store :=
  Store (f (s_maps s)) (s_bufs s) (s_brk s) (s_gd s) (s_disk s).
Definition on_bufs (f : gmap loc (list Z) -> gmap loc (list Z)) (s : store) : store :=
  Store (s_maps s) (f (s_bufs s)) (s_brk s) (s_gd s) (s_disk s).
Definition on_brk (f : loc -> loc) (s : store) : store :=
  Store (s_maps s) (s_bufs s) (f (s_brk s)) (s_gd s) (s_disk s).
Definition on_gd (f : gd -> gd) (s : store) : store :=
  Store (s_maps s) (s_bufs s) (s_brk s) (f (s_gd s)) (s_disk s).
Definition on_disk (f : list Z -> list Z) (s : store) : store :=
  Store (s_maps s) (s_bufs s) (s_brk s) (s_gd s) (f (s_disk s)).

Definition set_gd_flags (v : Z) (g : gd) : gd :=
  Gd v (gd_verbose g) (gd_lbawidth g) (gd_mediamap g) (gd_tbl g) (gd_lbt g) (gd_gpt g)
    (gd_tpg g) (gd_secsz g) (gd_mediasz g).
Definition set_gd_lbawidth (v : Z) (g : gd) : gd :=
  Gd (gd_flags g) (gd_verbose g) v (gd_mediamap g) (gd_tbl g) (gd_lbt g) (gd_gpt g)
    (gd_tpg g) (gd_secsz g) (gd_mediasz g).
Definition set_gd_mediamap (v : option loc) (g : gd) : gd :=
  Gd (gd_flags g) (gd_verbose g) (gd_lbawidth g) v (gd_tbl g) (gd_lbt g) (gd_gpt g)
    (gd_tpg g) (gd_secsz g) (gd_mediasz g).
Definition set_gd_tbl (v : option loc) (g : gd) : gd :=
  Gd (gd_flags g) (gd_verbose g) (gd_lbawidth g) (gd_mediamap g) v (gd_lbt g) (gd_gpt g)
    (gd_tpg g) (gd_secsz g) (gd_mediasz g).
Definition set_gd_lbt (v : option loc) (g : gd) : gd :=
  Gd (gd_flags g) (gd_verbose g) (gd_lbawidth g) (gd_mediamap g) (gd_tbl g) v (gd_gpt g)
    (gd_tpg g) (gd_secsz g) (gd_mediasz g).
Definition set_gd_gpt (v : option loc) (g : gd) : gd :=
  Gd (gd_flags g) (gd_verbose g) (gd_lbawidth g) (gd_mediamap g) (gd_tbl g) (gd_lbt g) v
    (gd_tpg g) (gd_secsz g) (gd_mediasz g).
Definition set_gd_tpg (v : option loc) (g : gd) : gd :=
  Gd (gd_flags g) (gd_verbose g) (gd_lbawidth g) (gd_mediamap g) (gd_tbl g) (gd_lbt g)
    (gd_gpt g) v (gd_secsz g) (gd_mediasz g).

Definition upd_gd (f : gd -> gd) : St store unit := modify (on_gd f).

(** What the operating system decides: whether the [k]-th allocation succeeds, and
    whether a transfer of [count] bytes at byte [ofs] of the device is carried out. *)
Class Os := {
  os_alloc : loc -> bool;
  os_read : Z -> Z -> bool;
  os_write : Z -> Z -> bool;
}.

Section calls.
Context {os : Os}.

(** [m->...]: reading a [struct map] through a pointer that must be valid. *)
Definition load (m : loc) : St store map_node := fun s => of_opt (s_maps s !! m) s.

(** [m->f = v]. *)
Definition update (m : loc) (f : map_node -> map_node) : St store unit := fun s =>
  _ ← s_maps s !! m; Some (tt, on_maps (alter f m) s).

(** [calloc(1, sizeof(struct map))]. *)
Definition calloc_map (n : map_node) : St store (option loc) := fun s =>
  let k := s_brk s in
  let s := on_brk S s in
  if os_alloc k then Some (Some k, on_maps <[k := n]> s)
  else Some (None, s).

(** [malloc]/[calloc] of a buffer holding [d]. *)
Definition alloc_buf (d : list Z) : St store (option loc) := fun s =>
  let k := s_brk s in
  let s := on_brk S s in
  if os_alloc k then Some (Some k, on_bufs <[k := d]> s)
  else Some (None, s).

(** [free(p)]: only the address an allocation returned, and only once. *)
Definition free_ptr (p : ptr) : St store unit := fun s =>
  match p with
  | PNull => Some (tt, s)
  | PBuf b ofs =>
    if ofs =? 0 then _ ← s_bufs s !! b; Some (tt, on_bufs (delete b) s)
    else None
  | PMap m => None
  end.

(** [free(m)] of a [struct map]. *)
Definition free_map (m : loc) : St store unit := fun s =>
  _ ← s_maps s !! m; Some (tt, on_maps (delete m) s).

(** [lseek(fd, ofs, SEEK_SET) == ofs && read(fd, buf, count) == count]. *)
Definition pread (ofs count : Z) : St store (option (list Z)) := fun s =>
  if (0 <=? ofs) && (ofs + count <=? Z.of_nat (length (s_disk s))) && os_read ofs count
  then Some (Some (sub (Z.to_nat ofs) (Z.to_nat count) (s_disk s)), s)
  else Some (None, s).

(** [lseek(fd, ofs, SEEK_SET) == ofs && write(fd, d, count) == count], where [d] is the
    memory written from; reading past its end is undefined. *)
Definition pwrite (ofs count : Z) (d : list Z) : St store bool := fun s =>
  if Z.of_nat (length d) <? count then None
  else if (0 <=? ofs) && (ofs + count <=? Z.of_nat (length (s_disk s))) &&
          negb (Z.testbit (gd_flags (s_gd s)) 0) && os_write ofs count
  then Some (true, on_disk (splice (Z.to_nat ofs) (take (Z.to_nat count) d)) s)
  else Some (false, s).
End calls.

(** ** A [struct map] as a member of a doubly linked list *)
Record seg := Seg {
  sg_start : Z;
  sg_size : Z;
  sg_type : Z;
  sg_index : Z;
  sg_data : ptr;
  sg_alloc : Z;
}.

Definition seg_of (n : map_node) : seg :=
  Seg (map_start n) (map_size n) (map_type n) (map_index n) (map_data n) (map_alloc_flag n).

#[export] Instance map_linked : Linked map_node seg.
Proof.
  by refine {| lk_next := map_next; lk_prev := map_prev; lk_val := seg_of;
    lk_set_next := set_map_next; lk_set_prev := set_map_prev |}.
Defined.

(** ** Rules for the calls *)
Section call_rules.
Context {os : Os}.
Implicit Types s : store.

Lemma wp_load m n s (Q : map_node -> store -> Prop) :
  s_maps s !! m = Some n -> Q n s -> wp (load m) s Q.
Proof. intros H HQ. unfold wp, load, of_opt. by rewrite H. Qed.

Lemma wp_update m f s (Q : unit -> store -> Prop) :
  is_Some (s_maps s !! m) -> Q tt (on_maps (alter f m) s) -> wp (update m f) s Q.
Proof. intros [n H] HQ. unfold wp, update. by rewrite H. Qed.

Lemma wp_upd_gd f s (Q : unit -> store -> Prop) :
  Q tt (on_gd f s) -> wp (upd_gd f) s Q.
Proof. done. Qed.

Lemma wp_calloc_map n s (Q : option loc -> store -> Prop) :
  (os_alloc (s_brk s) = true ->
   Q (Some (s_brk s)) (on_maps <[s_brk s := n]> (on_brk S s))) ->
  (os_alloc (s_brk s) = false -> Q None (on_brk S s)) ->
  wp (calloc_map n) s Q.
Proof. intros H1 H2. unfold wp, calloc_map. destruct (os_alloc _); auto. Qed.

Lemma wp_alloc_buf d s (Q : option loc -> store -> Prop) :
  (os_alloc (s_brk s) = true ->
   Q (Some (s_brk s)) (on_bufs <[s_brk s := d]> (on_brk S s))) ->
  (os_alloc (s_brk s) = false -> Q None (on_brk S s)) ->
  wp (alloc_buf d) s Q.
Proof. intros H1 H2. unfold wp, alloc_buf. destruct (os_alloc _); auto. Qed.

Lemma wp_free_map m s (Q : unit -> store -> Prop) :
  is_Some (s_maps s !! m) -> Q tt (on_maps (delete m) s) -> wp (free_map m) s Q.
Proof. intros [n H] HQ. unfold wp, free_map. by rewrite H. Qed.

(** A pointer that [free] accepts. *)
Definition owned (s : store) (p : ptr) : Prop :=
  match p with
  | PNull => True
  | PBuf b ofs => ofs = 0 /\ is_Some (s_bufs s !! b)
  | PMap _ => False
  end.

(** The buffers left by [free(p)]. *)
Definition bufs_free (p : ptr) (h : gmap loc (list Z)) : gmap loc (list Z) :=
  match p with PBuf b _ => delete b h | _ => h end.

Lemma wp_free_ptr p s (Q : unit -> store -> Prop) :
  owned s p -> Q tt (on_bufs (bufs_free p) s) -> wp (free_ptr p) s Q.
Proof.
  destruct p as [|b ofs|]; simpl; [intros _ HQ|intros [-> [d H]] HQ|done]; unfold wp; simpl.
  - by destruct s.
  - by rewrite H.
Qed.
End call_rules.

(** Symbolic execution of one statement. *)
Ltac st_step :=
  cbv beta iota;
  lazymatch goal with
  | |- wp (mbind _ _) _ _ => apply wp_bind; st_step
  | |- wp (mret _) _ _ => apply wp_ret
  | |- wp (gets _) _ _ => apply wp_gets
  | |- wp (upd_gd _) _ _ => apply wp_upd_gd
  | |- wp (load _) _ _ => eapply wp_load
  | |- wp (update _ _) _ _ => apply wp_update
  | |- wp (free_map _) _ _ => apply wp_free_map
  end.
