(* ===== verification/MediaMap.v ===== *)
(** * MediaMap: the map of the device (sbin/fgdisk/map.c)

    The media map is a doubly linked list of regions that tile the device.  The first
    part translates map.c statement by statement over the heap of [Gd]; the second
    part is the abstract account, on the list of regions the heap spells out. *)
From Stdlib Require Import ZArith Lia.
From stdpp Require Import base list option gmap.
From S2P Require Import Prelude Dll Gd.
Open Scope Z_scope.

Definition map_end (n : map_node) : Z := s64 (map_start n + map_size n).

(** The loops over the map stop at its end; the fuel is the number of [struct map]
    objects, which bounds the length of the list. *)
Definition map_fuel (s : store) : nat := S (size (s_maps s)).

Section code.
Context {os : Os}.

Definition map_create (start size type : Z) : St store (option loc) :=
  calloc_map (MapNode start size None None type 0 PNull 0).

Definition map_destroy (m : option loc) : St store unit :=
  match m with
  | None => mret tt
  | Some m =>
    n ← load m;
    (if map_alloc_flag n =? 0 then mret tt else free_ptr (map_data n));;
    free_map m
  end.

(** [while (n != NULL && n->map_start + n->map_size <= start) n = n->map_next;] *)
Fixpoint map_skip (fuel : nat) (n : option loc) (start : Z) : St store (option loc) :=
  match fuel with
  | O => ub
  | S fuel =>
    match n with
    | None => mret None
    | Some x =>
      nd ← load x;
      if map_end nd <=? start then map_skip fuel (map_next nd) start else mret (Some x)
    end
  end.

(** [if (x != NULL) x->map_next = v; else gd->mediamap = v;] *)
Definition link_next (x : option loc) (v : option loc) : St store unit :=
  match x with
  | Some x => update x (set_map_next v)
  | None => upd_gd (set_gd_mediamap v)
  end.

(** [if (x != NULL) x->map_prev = v;] *)
Definition link_prev (x : option loc) (v : option loc) : St store unit :=
  match x with
  | Some x => update x (set_map_prev v)
  | None => mret tt
  end.

(** The rest of [map_add], from the [map_create] on: [n] is an unused region that
    strictly contains the new one. *)
Definition map_split (n : loc) (start size type : Z) (data : ptr) (alloc : Z)
    : St store (option loc) :=
  om ← map_create start size type;
  match om with
  | None => mret None
  | Some m =>
    update m (set_map_data data alloc);;
    nd ← load n;
    if start =? map_start nd then
      update m (set_map_prev (map_prev nd));;
      update m (set_map_next (Some n));;
      link_next (map_prev nd) (Some m);;
      update n (set_map_prev (Some m));;
      update n (set_map_start (s64 (map_start nd + size)));;
      update n (set_map_size (s64 (map_size nd - size)));;
      mret (Some m)
    else if s64 (start + size) =? map_end nd then
      update m (set_map_next (map_next nd));;
      update m (set_map_prev (Some n));;
      link_prev (map_next nd) (Some m);;
      update n (set_map_next (Some m));;
      update n (set_map_size (s64 (map_size nd - size)));;
      mret (Some m)
    else
      op ← map_create (map_start nd) (s64 (start - map_start nd)) (map_type nd);
      match op with
      | None => map_destroy (Some m);; mret None
      | Some p =>
        let psz := s64 (start - map_start nd) in
        update n (set_map_start (s64 (map_start nd + s64 (psz + size))));;
        update n (set_map_size (s64 (map_size nd - s64 (psz + size))));;
        update p (set_map_prev (map_prev nd));;
        update m (set_map_prev (Some p));;
        update n (set_map_prev (Some m));;
        update m (set_map_next (Some n));;
        update p (set_map_next (Some m));;
        link_next (map_prev nd) (Some p);;
        mret (Some m)
      end
  end.

Definition map_add (start size type : Z) (data : ptr) (alloc : Z) : St store (option loc) :=
  fuel ← gets map_fuel;
  head ← gets (fun s => gd_mediamap (s_gd s));
  on ← map_skip fuel head start;
  match on with
  | None => mret None
  | Some n =>
    nd ← load n;
    if map_end nd <? s64 (start + size) then
      flags ← gets (fun s => gd_flags (s_gd s));
      (* the warning looks at the type of the next map *)
      match map_next nd with
      | Some x => if Z.land flags GPT_QUIET =? 0 then load x;; mret None else mret None
      | None => mret None
      end
    else if (map_start nd =? start) && (map_size nd =? size) then
      update n (set_map_type type);;
      update n (set_map_data data alloc);;
      mret (Some n)
    else if negb (map_type nd =? MAP_TYPE_UNUSED) then
      if negb (map_type nd =? MAP_TYPE_MBR_PART) || negb (type =? MAP_TYPE_GPT_PART)
      then mret None
      else update n (set_map_type MAP_TYPE_UNUSED);; map_split n start size type data alloc
    else map_split n start size type data alloc
  end.

(** The loop of [map_alloc], [start] and [size] already rounded. *)
Fixpoint map_alloc_loop (fuel : nat) (m : option loc) (start size alignment : Z)
    : St store (option loc) :=
  match fuel with
  | O => ub
  | S fuel =>
    match m with
    | None => mret None
    | Some x =>
      nd ← load x;
      let next := map_alloc_loop fuel (map_next nd) start size alignment in
      if negb (map_type nd =? MAP_TYPE_UNUSED) || (map_start nd <? 2) then next
      else if negb (start =? 0) && (start <? map_start nd) then mret None
      else
        let delta :=
          if negb (start =? 0) then s64 (start - map_start nd)
          else if (0 <? alignment) && negb (Z.rem (map_start nd) alignment =? 0) then
            s64 (s64 (Z.quot (s64 (map_start nd + alignment)) alignment * alignment)
                 - map_start nd)
          else 0 in
        let room := s64 (map_size nd - delta) in
        if (size =? 0) || (size <=? room) then
          if room <? alignment then next
          else
            let size :=
              if size =? 0 then
                if (0 <? alignment) && negb (Z.rem room alignment =? 0)
                then s64 (Z.quot room alignment * alignment) else room
              else size in
            map_add (s64 (map_start nd + delta)) size MAP_TYPE_GPT_PART PNull 0
        else next
    end
  end.

(** [if ((v % alignment) != 0) v = (v + alignment) / alignment * alignment;] *)
Definition align_up (v alignment : Z) : Z :=
  if (0 <? alignment) && negb (Z.rem v alignment =? 0)
  then s64 (Z.quot (s64 (v + alignment)) alignment * alignment) else v.

Definition map_alloc (start size alignment : Z) : St store (option loc) :=
  fuel ← gets map_fuel;
  head ← gets (fun s => gd_mediamap (s_gd s));
  map_alloc_loop fuel head (align_up start alignment) (align_up size alignment) alignment.

(** [m->map_next = n->map_next; if (n->map_next != NULL) n->map_next->map_prev = m;
    map_destroy(n);] *)
Definition map_unlink (m n : loc) : St store unit :=
  nn ← load n;
  update m (set_map_next (map_next nn));;
  link_prev (map_next nn) (Some m);;
  map_destroy (Some n).

(** [map_resize] with [size == 0]: take over the unused map that follows. *)
Definition map_coalesce (m : loc) (alignment : Z) : St store Z :=
  md ← load m;
  match map_next md with
  | None => mret (-1)
  | Some n =>
    nn ← load n;
    if negb (map_type nn =? MAP_TYPE_UNUSED) then mret (-1)
    else if alignment =? 0 then
      let size := s64 (map_size md + map_size nn) in
      update m (set_map_size size);;
      map_unlink m n;;
      mret size
    else
      let prevsize := map_size md in
      let size := s64 (Z.quot (s64 (map_size md + map_size nn)) alignment * alignment) in
      if size <=? prevsize then mret (-1)
      else
        update m (set_map_size size);;
        update n (set_map_start (s64 (map_start nn + s64 (size - prevsize))));;
        update n (set_map_size (s64 (map_size nn - s64 (size - prevsize))));;
        nn ← load n;
        (if map_size nn =? 0 then map_unlink m n else mret tt);;
        mret size
  end.

(** The branch of [map_resize] that shrinks the map. *)
Definition map_shrink (m : loc) (alignsize : Z) : St store Z :=
  md ← load m;
  let prevsize := map_size md in
  update m (set_map_size alignsize);;
  nun ← (match map_next md with
         | None => mret None
         | Some n => nn ← load n;
             mret (if map_type nn =? MAP_TYPE_UNUSED then Some (n, nn) else None)
         end);
  match nun with
  | None =>
    oo ← map_create (s64 (map_start md + alignsize)) (s64 (prevsize - alignsize))
           MAP_TYPE_UNUSED;
    match oo with
    | None => mret (-1)
    | Some o =>
      update m (set_map_next (Some o));;
      update o (set_map_prev (Some m));;
      update o (set_map_next (map_next md));;
      link_prev (map_next md) (Some o);;
      mret alignsize
    end
  | Some (n, nn) =>
    update n (set_map_start (s64 (map_start nn - alignsize)));;
    update n (set_map_size (s64 (map_size nn + alignsize)));;
    mret alignsize
  end.

(** The branch of [map_resize] that expands the map. *)
Definition map_expand (m : loc) (alignsize : Z) : St store Z :=
  md ← load m;
  match map_next md with
  | None => mret (-1)
  | Some n =>
    nn ← load n;
    let grow := s64 (alignsize - map_size md) in
    if negb (map_type nn =? MAP_TYPE_UNUSED) then mret (-1)
    else if map_size nn <? grow then mret (-1)
    else
      update n (set_map_size (s64 (map_size nn - grow)));;
      update n (set_map_start (s64 (map_start nn + grow)));;
      nn ← load n;
      (if map_size nn =? 0 then map_unlink m n else mret tt);;
      update m (set_map_size alignsize);;
      mret alignsize
  end.

(** [alignsize = size; if (alignment % size != 0) alignsize = ...] *)
Definition resize_round (size alignment : Z) : Z :=
  if negb (Z.rem alignment size =? 0)
  then s64 (Z.quot (s64 (size + alignment)) alignment * alignment) else size.

Definition map_resize (m : loc) (size alignment : Z) : St store Z :=
  md ← load m;
  if (size <? 0) || (alignment <? 0) then mret (-1)
  else if size =? 0 then map_coalesce m alignment
  else
    let alignsize := resize_round size alignment in
    if alignsize <? map_size md then map_shrink m alignsize
    else if map_size md <? alignsize then map_expand m alignsize
    else mret alignsize.

(** [while (m != NULL && m->map_type != type) m = m->map_next;] *)
Fixpoint map_find_loop (fuel : nat) (m : option loc) (type : Z) : St store (option loc) :=
  match fuel with
  | O => ub
  | S fuel =>
    match m with
    | None => mret None
    | Some x =>
      nd ← load x;
      if map_type nd =? type then mret (Some x) else map_find_loop fuel (map_next nd) type
    end
  end.

Definition map_find (type : Z) : St store (option loc) :=
  fuel ← gets map_fuel;
  head ← gets (fun s => gd_mediamap (s_gd s));
  map_find_loop fuel head type.

Definition map_first : St store (option loc) := gets (fun s => gd_mediamap (s_gd s)).

(** [while (m != NULL && m->map_next != NULL) m = m->map_next;] *)
Fixpoint map_last_loop (fuel : nat) (m : option loc) : St store (option loc) :=
  match fuel with
  | O => ub
  | S fuel =>
    match m with
    | None => mret None
    | Some x =>
      nd ← load x;
      match map_next nd with
      | Some y => map_last_loop fuel (Some y)
      | None => mret (Some x)
      end
    end
  end.

Definition map_last : St store (option loc) :=
  fuel ← gets map_fuel;
  head ← gets (fun s => gd_mediamap (s_gd s));
  map_last_loop fuel head.

Definition map_free (start size : Z) : St store Z :=
  fuel ← gets map_fuel;
  head ← gets (fun s => gd_mediamap (s_gd s));
  om ← map_skip fuel head start;
  match om with
  | None => mret 0
  | Some m =>
    md ← load m;
    if negb (map_type md =? MAP_TYPE_UNUSED) then mret 0
    else if negb (size =? 0) then
      mret (if s64 (start + size) <=? map_end md then 1 else 0)
    else mret (s64 (map_size md - s64 (start - map_start md)))
  end.

(** The number of decimal digits of [v], which [snprintf("%ju")] returns. *)
Fixpoint digits10 (fuel : nat) (v : Z) : Z :=
  match fuel with
  | O => 1
  | S fuel => if v <? 10 then 1 else 1 + digits10 fuel (v / 10)
  end.

Definition map_init (size : Z) : St store Z :=
  om ← map_create 0 size MAP_TYPE_UNUSED;
  upd_gd (set_gd_mediamap om);;
  match om with
  | None => mret (-1)
  | Some _ =>
    let w := digits10 20 (u64 size) in
    upd_gd (set_gd_lbawidth (if w <? 5 then 5 else w));;
    mret 0
  end.
End code.

(** ** The abstract map: the list of regions *)
Abbreviation segs := (list (loc * seg)).

Definition sg_end (v : seg) : Z := sg_start v + sg_size v.

(** The store spells out [l]: the list is well linked from [gd->mediamap], and no
    address that was not allocated yet is in use. *)
Record map_rep (s : store) (l : segs) : Prop := {
  rep_dll : dll (s_maps s) None l None;
  rep_head : gd_mediamap (s_gd s) = first_of l None;
  rep_nodup : NoDup l.*1;
  rep_fresh : forall x, (s_brk s <= x)%nat -> s_maps s !! x = None;
}.

(** The regions of [l] tile the sectors [a, b) in order. *)
Fixpoint tiles (a : Z) (l : segs) (b : Z) : Prop :=
  match l with
  | [] => a = b
  | (_, v) :: r => sg_start v = a /\ 0 < sg_size v /\ tiles (sg_end v) r b
  end.

(** A store whose map tiles a device of [total] sectors. *)
Definition map_ok (s : store) (l : segs) (total : Z) : Prop :=
  map_rep s l /\ tiles 0 l total /\ total < 2 ^ 62.

(** The region of sector [x]. *)
Fixpoint seg_at (x : Z) (l : segs) : option seg :=
  match l with
  | [] => None
  | (_, v) :: r => if x <? sg_end v then Some v else seg_at x r
  end.

(** The type of the region of sector [x]. *)
Definition type_at (x : Z) (l : segs) : option Z := sg_type <$> seg_at x l.

(** What [map_skip] finds: the regions before, the one reached, those after. *)
Fixpoint seg_split (x : Z) (l : segs) : option (segs * (loc * seg) * segs) :=
  match l with
  | [] => None
  | (n, v) :: r =>
    if sg_end v <=? x then
      match seg_split x r with
      | Some (l1, nv, l2) => Some ((n, v) :: l1, nv, l2)
      | None => None
      end
    else Some ([], (n, v), r)
  end.

Definition seg_with_type (t : Z) (v : seg) : seg :=
  Seg (sg_start v) (sg_size v) t (sg_index v) (sg_data v) (sg_alloc v).

(** The same region object with other bounds. *)
Definition seg_resize (start size : Z) (v : seg) : seg :=
  Seg start size (sg_type v) (sg_index v) (sg_data v) (sg_alloc v).

(** A region that [map_add] may cut a [type] region out of. *)
Definition may_split (v : seg) (type : Z) : bool :=
  (sg_type v =? MAP_TYPE_UNUSED) ||
  ((sg_type v =? MAP_TYPE_MBR_PART) && (type =? MAP_TYPE_GPT_PART)).

(** The outcome of [map_add]: what it returns, the map, the allocations made, and
    whether [data] was freed. *)
Record add_out := AddOut {
  ao_ret : option loc;
  ao_map : segs;
  ao_brk : loc;
  ao_freed : bool;
}.

(** [map_find] and [map_free] on the list. *)
Definition seg_find (t : Z) (l : segs) : option (loc * seg) :=
  List.find (fun nv => sg_type nv.2 =? t) l.

Definition seg_free (start size : Z) (l : segs) : Z :=
  match seg_at start l with
  | None => 0
  | Some v =>
    if negb (sg_type v =? MAP_TYPE_UNUSED) then 0
    else if negb (size =? 0) then (if start + size <=? sg_end v then 1 else 0)
    else sg_end v - start
  end.

(** The region that [map_add] can place [start, start + size) in, if there is one. *)
Definition accepts (v : seg) (start size type : Z) : bool :=
  (start + size <=? sg_end v) &&
  (((sg_start v =? start) && (sg_size v =? size)) || may_split v type).

Section spec.
Context {os : Os}.

(** [map_split] on the list, [v] being the unused region cut at [k]. *)
Definition seg_cut (k : loc) (start size type : Z) (data : ptr) (alloc : Z)
    (l1 : segs) (n : loc) (v : seg) (l2 : segs) : add_out :=
  let new := Seg start size type 0 data alloc in
  if negb (os_alloc k) then AddOut None (l1 ++ (n, v) :: l2) (S k) false
  else if start =? sg_start v then
    AddOut (Some k)
      (l1 ++ (k, new) :: (n, seg_resize (start + size) (sg_size v - size) v) :: l2)
      (S k) false
  else if start + size =? sg_end v then
    AddOut (Some k)
      (l1 ++ (n, seg_resize (sg_start v) (sg_size v - size) v) :: (k, new) :: l2)
      (S k) false
  else if negb (os_alloc (S k)) then
    AddOut None (l1 ++ (n, v) :: l2) (S (S k)) (negb (alloc =? 0))
  else
    AddOut (Some k)
      (l1 ++ (S k, Seg (sg_start v) (start - sg_start v) (sg_type v) 0 PNull 0) ::
             (k, new) ::
             (n, seg_resize (start + size) (sg_end v - (start + size)) v) :: l2)
      (S (S k)) false.

(** [map_add] on the list. *)
Definition seg_add (k : loc) (start size type : Z) (data : ptr) (alloc : Z) (l : segs)
    : add_out :=
  match seg_split start l with
  | None => AddOut None l k false
  | Some (l1, (n, v), l2) =>
    if sg_end v <? start + size then AddOut None l k false
    else if (sg_start v =? start) && (sg_size v =? size) then
      AddOut (Some n) (l1 ++ (n, Seg start size type (sg_index v) data alloc) :: l2) k false
    else if negb (may_split v type) then AddOut None l k false
    else seg_cut k start size type data alloc l1 n (seg_with_type MAP_TYPE_UNUSED v) l2
  end.
End spec.

(** ** Facts about tilings *)
Lemma tiles_app a l1 l2 b : tiles a (l1 ++ l2) b <-> exists c, tiles a l1 c /\ tiles c l2 b.
Proof.
  revert a; induction l1 as [|[n v] l1 IH]; intros a; simpl.
  - split; [eauto|]. by intros (c & -> & ?).
  - rewrite IH. firstorder.
Qed.

Lemma tiles_mono a l b : tiles a l b -> a <= b.
Proof.
  revert a; induction l as [|[n v] l IH]; intros a; simpl; [lia|].
  intros (<- & ? & ?%IH). unfold sg_end in *. lia.
Qed.

Lemma seg_split_app x l l1 n v l2 :
  seg_split x l = Some (l1, (n, v), l2) -> l = l1 ++ (n, v) :: l2.
Proof.
  revert l1; induction l as [|[n' v'] l IH]; intros l1; simpl; [done|].
  case_match; [|by intros [= <- -> -> ->]].
  destruct (seg_split x l) as [[[? ?] ?]|]; [|done].
  intros [= <- -> ->]. simpl. f_equal. by apply IH.
Qed.

(** The region found covers the sector looked for. *)
Lemma seg_split_bounds x l l1 n v l2 a b :
  tiles a l b -> a <= x -> seg_split x l = Some (l1, (n, v), l2) ->
  sg_start v <= x < sg_end v /\ 0 < sg_size v /\ a <= sg_start v /\ sg_end v <= b /\
  tiles a l1 (sg_start v) /\ tiles (sg_end v) l2 b.
Proof.
  revert a l1; induction l as [|[n' v'] l IH]; intros a l1; simpl; [done|].
  intros (Hs & Hsz & Ht) Hx. unfold sg_end in *. case_match eqn:E; zbool.
  - destruct (seg_split x l) as [[[l1' [??]] ?]|] eqn:Es; [|done].
    intros [= <- -> -> ->].
    destruct (IH (sg_start v' + sg_size v') l1' Ht E eq_refl) as (? & ? & ? & ? & ? & ?).
    simpl. unfold sg_end in *. split_and!; (done || lia).
  - intros [= <- -> -> ->]. pose proof (tiles_mono _ _ _ Ht). simpl.
    split_and!; (done || lia).
Qed.

Lemma seg_split_none x l a b : tiles a l b -> a <= x -> seg_split x l = None -> b <= x.
Proof.
  revert a; induction l as [|[n' v'] l IH]; intros a; simpl; [lia|].
  intros (Hs & Hsz & Ht) Hx. case_match; zbool; [|done].
  destruct (seg_split x l) as [[[??]?]|] eqn:Es; [done|]. intros _. eauto.
Qed.

(** ** Refinement: map.c implements the list operations *)
Section refinement.
Context {os : Os}.
Implicit Types (s : store) (l : segs).

Lemma rep_member s l l1 n v l2 :
  map_rep s l -> l = l1 ++ (n, v) :: l2 ->
  exists nd, s_maps s !! n = Some nd /\ seg_of nd = v /\
    map_prev nd = last_of None l1 /\ map_next nd = first_of l2 None.
Proof.
  intros [Hd _ _ _] ->. apply dll_app in Hd as [_ Hd]. exact (proj1 Hd).
Qed.

Lemma rep_fuel s l : map_rep s l -> (length l < map_fuel s)%nat.
Proof. intros [Hd _ Hn _]. pose proof (dll_length _ _ _ _ Hn Hd). unfold map_fuel. lia. Qed.

Lemma rep_not_fresh s l x : map_rep s l -> (s_brk s <= x)%nat -> x ∉ l.*1.
Proof. intros [Hd _ _ Hf] Hx. eapply dll_fresh; [|done]. by apply Hf. Qed.

Lemma map_end_eq nd : - 2 ^ 63 <= sg_end (seg_of nd) < 2 ^ 63 -> map_end nd = sg_end (seg_of nd).
Proof. unfold map_end, sg_end. simpl. apply s64_small. Qed.

Definition split_loc (r : option (segs * (loc * seg) * segs)) : option loc :=
  match r with Some (_, (n, _), _) => Some n | None => None end.

Lemma wp_map_skip fuel s p l start a b (Q : option loc -> store -> Prop) :
  dll (s_maps s) p l None -> tiles a l b -> 0 <= a -> b < 2 ^ 62 ->
  (length l < fuel)%nat -> Q (split_loc (seg_split start l)) s ->
  wp (map_skip fuel (first_of l None) start) s Q.
Proof.
  revert fuel p a. induction l as [|[n v] l IH]; intros [|fuel] p a Hd Ht Ha Hb Hf HQ;
    cbn [length] in Hf; try lia; [done|].
  destruct Hd as [(nd & Hn & Hv & Hp & Hx) Hd]. destruct Ht as (Hs & Hsz & Ht).
  pose proof (tiles_mono _ _ _ Ht) as Hm. simpl.
  st_step; [done|]. simpl in Hv, Hx. subst v.
  rewrite map_end_eq by (unfold sg_end in *; simpl in *; lia).
  simpl in HQ. case_match eqn:E.
  - rewrite Hx. eapply (IH fuel); try done; [|lia|].
    + unfold sg_end in *; simpl in *; lia.
    + by destruct (seg_split start l) as [[[? [??]] ?]|].
  - by apply wp_ret.
Qed.

(** The state after [link_next] and [link_prev]. *)
Definition st_link_next (x v : option loc) (s : store) : store :=
  match x with
  | Some x => on_maps (alter (set_map_next v) x) s
  | None => on_gd (set_gd_mediamap v) s
  end.

Definition st_link_prev (x v : option loc) (s : store) : store :=
  match x with
  | Some x => on_maps (alter (set_map_prev v) x) s
  | None => s
  end.

Lemma wp_link_next x v s (Q : unit -> store -> Prop) :
  (forall y, x = Some y -> is_Some (s_maps s !! y)) ->
  Q tt (st_link_next x v s) -> wp (link_next x v) s Q.
Proof.
  intros H HQ. destruct x as [x|]; simpl; [|done]. apply wp_update; auto.
Qed.

Lemma wp_link_prev x v s (Q : unit -> store -> Prop) :
  (forall y, x = Some y -> is_Some (s_maps s !! y)) ->
  Q tt (st_link_prev x v s) -> wp (link_prev x v) s Q.
Proof.
  intros H HQ. destruct x as [x|]; simpl; [|done]. apply wp_update; auto.
Qed.

Lemma maps_link_next x v s y :
  s_maps (st_link_next x v s) !! y =
  if decide (x = Some y) then set_map_next v <$> s_maps s !! y else s_maps s !! y.
Proof.
  destruct x as [x|]; simpl; [|done]. rewrite lookup_alter.
  by repeat case_decide; simplify_eq.
Qed.

Lemma maps_link_prev x v s y :
  s_maps (st_link_prev x v s) !! y =
  if decide (x = Some y) then set_map_prev v <$> s_maps s !! y else s_maps s !! y.
Proof.
  destruct x as [x|]; simpl; [|done]. rewrite lookup_alter.
  by repeat case_decide; simplify_eq.
Qed.

Lemma link_next_proj x v s :
  s_bufs (st_link_next x v s) = s_bufs s /\ s_brk (st_link_next x v s) = s_brk s /\
  s_disk (st_link_next x v s) = s_disk s.
Proof. by destruct x. Qed.

Lemma link_prev_proj x v s :
  s_bufs (st_link_prev x v s) = s_bufs s /\ s_brk (st_link_prev x v s) = s_brk s /\
  s_disk (st_link_prev x v s) = s_disk s /\ s_gd (st_link_prev x v s) = s_gd s.
Proof. by destruct x. Qed.
End refinement.

(** Computes a lookup in a heap after a sequence of updates. *)
Ltac heap_lookup :=
  repeat first
    [ progress cbn [s_maps on_maps on_brk on_gd on_bufs s_brk s_gd s_bufs]
    | rewrite maps_link_next | rewrite maps_link_prev
    | rewrite lookup_alter | rewrite lookup_insert | rewrite lookup_delete ];
  repeat (case_decide; try done); simplify_eq; try done.

(** The same, at an address known to be or not to be each of the updated ones. *)
Ltac heap_at :=
  repeat first
    [ progress cbn [s_maps on_maps on_brk on_gd on_bufs s_brk s_gd s_bufs]
    | rewrite maps_link_next | rewrite lookup_alter_eq | rewrite lookup_insert_eq
    | rewrite lookup_alter_ne by fast_done | rewrite lookup_insert_ne by fast_done ].

(** Closes [is_Some (h !! x)] for such a heap. *)
Ltac heap_some :=
  heap_lookup;
  repeat match goal with
  | H : ?h !! ?x = Some _ |- context [?h !! ?x] => rewrite H
  end;
  simpl; eauto using mk_is_Some.

Section surgery.
Context {os : Os}.
Implicit Types (s : store) (l : segs).

Lemma set_map_next_id n q : map_next n = q -> set_map_next q n = n.
Proof. intros <-. by destruct n. Qed.

Lemma set_map_prev_id n q : map_prev n = q -> set_map_prev q n = n.
Proof. intros <-. by destruct n. Qed.

Lemma last_of_app_ne p q l1 l2 : l2 <> [] -> last_of p (l1 ++ l2) = last_of q l2.
Proof.
  intros H. rewrite last_of_app. destruct l2 as [|[x v] l2]; [done|]. done.
Qed.

Lemma last_of_ne p q l : l <> [] -> last_of p l = last_of q l.
Proof. destruct l as [|[]]; done. Qed.

Lemma first_of_ne p q l : l <> [] -> first_of l p = first_of l q.
Proof. destruct l as [|[]]; done. Qed.

Lemma first_of_none l q : first_of l None = None -> first_of l q = q.
Proof. by destruct l as [|[]]. Qed.

(** The neighbours of a run of regions point at it. *)
Lemma rep_before s l1 mid l2 x n :
  map_rep s (l1 ++ mid ++ l2) -> last_of None l1 = Some x -> s_maps s !! x = Some n ->
  map_next n = first_of (mid ++ l2) None.
Proof.
  intros [Hd _ _ _] Hx Hn. apply dll_app in Hd as [Hd _].
  destruct (decide (l1 = [])) as [->|Hne]; [done|].
  destruct (dll_last_lookup _ _ _ _ _ Hd Hne Hx) as (l' & v & n' & -> & Hn').
  apply dll_app in Hd as [_ [(n'' & ? & _ & _ & Hq) _]].
  rewrite Hn in *. simplify_eq. done.
Qed.

Lemma rep_after s l1 mid l2 x n :
  map_rep s (l1 ++ mid ++ l2) -> mid <> [] -> first_of l2 None = Some x ->
  s_maps s !! x = Some n -> map_prev n = last_of None mid.
Proof.
  intros [Hd _ _ _] Hm Hx Hn. rewrite !dll_app in Hd. destruct Hd as [_ [_ Hd]].
  destruct l2 as [|[y v] l2]; [done|]. injection Hx as <-.
  destruct Hd as [(n' & ? & _ & Hp & _) _]. rewrite Hn in *. simplify_eq.
  rewrite <- (last_of_ne (last_of None l1)) by done. done.
Qed.

Lemma rep_replace s s' l1 mid mid' l2 :
  map_rep s (l1 ++ mid ++ l2) -> mid' <> [] ->
  dll (s_maps s') (last_of None l1) mid' (first_of l2 None) ->
  (forall x n, last_of None l1 = Some x -> s_maps s !! x = Some n ->
    s_maps s' !! x = Some (set_map_next (first_of mid' None) n)) ->
  (forall x n, first_of l2 None = Some x -> s_maps s !! x = Some n ->
    s_maps s' !! x = Some (set_map_prev (last_of None mid') n)) ->
  (forall x, x ∈ l1.*1 -> last_of None l1 <> Some x -> s_maps s' !! x = s_maps s !! x) ->
  (forall x, x ∈ l2.*1 -> first_of l2 None <> Some x -> s_maps s' !! x = s_maps s !! x) ->
  gd_mediamap (s_gd s') = first_of (l1 ++ mid' ++ l2) None ->
  NoDup mid'.*1 -> (forall x, x ∈ mid'.*1 -> x ∈ mid.*1 \/ (s_brk s <= x)%nat) ->
  (forall x, (s_brk s' <= x)%nat -> s_maps s' !! x = None) ->
  map_rep s' (l1 ++ mid' ++ l2).
Proof.
  intros Hrep Hne Hmid Hlast Hfirst H1 H2 Hhead Hnd Hin Hfresh.
  pose proof (fun x => rep_not_fresh _ _ x Hrep) as Hnf.
  destruct Hrep as [Hd _ HND _]. rewrite !fmap_app in HND, Hnf.
  apply NoDup_app in HND as (N1 & N12 & HND). apply NoDup_app in HND as (Nm & Nm2 & N2).
  rewrite !dll_app in Hd. destruct Hd as (D1 & Dm & D2).
  split.
  - rewrite !dll_app. split_and!.
    + apply (dll_relink_next (s_maps s) _ _ _ _ _ N1 D1); [|done].
      intros x n Hx Hn. rewrite first_of_app, (first_of_ne _ None) by done.
      by apply Hlast.
    + by rewrite first_of_app in *.
    + apply (dll_relink_prev (s_maps s) _ _ _ _ _ N2 D2); [|done].
      intros x n Hx Hn. rewrite (last_of_ne _ None) by done. by apply Hfirst.
  - done.
  - rewrite !fmap_app. apply NoDup_app. split_and!; [done| |apply NoDup_app; split_and!; try done].
    + intros x Hx [Hx'|Hx']%elem_of_app.
      * destruct (Hin x Hx') as [?|?]; [apply (N12 x Hx), elem_of_app; by left|].
        apply (Hnf x); [done|]. apply elem_of_app. by left.
      * apply (N12 x Hx), elem_of_app. by right.
    + intros x Hx Hx'. destruct (Hin x Hx) as [?|?]; [by apply (Nm2 x)|].
      apply (Hnf x); [done|]. rewrite !elem_of_app. by right; right.
  - done.
Qed.
End surgery.

Section split.
Context {os : Os}.
Implicit Types (s : store) (l : segs).

(** What an operation that only touches the map and at most frees [data] leaves of the
    rest of the state. *)
Definition add_post (s : store) (data : ptr) (o : add_out) (r : option loc) (s' : store)
    : Prop :=
  r = ao_ret o /\ map_rep s' (ao_map o) /\ s_brk s' = ao_brk o /\
  s_bufs s' = (if ao_freed o then bufs_free data (s_bufs s) else s_bufs s) /\
  s_disk s' = s_disk s /\
  s_gd s' = set_gd_mediamap (gd_mediamap (s_gd s')) (s_gd s).

Lemma set_gd_mediamap_id g : g = set_gd_mediamap (gd_mediamap g) g.
Proof. by destruct g. Qed.

Lemma rep_with_brk s l k : map_rep s l -> (s_brk s <= k)%nat -> map_rep (on_brk (fun _ => k) s) l.
Proof. intros [? ? ? Hf] Hk. split; try done. simpl. intros x Hx. apply Hf. lia. Qed.

Lemma gd_link_next x v s :
  s_gd (st_link_next x v s) =
  set_gd_mediamap (match x with None => v | Some _ => gd_mediamap (s_gd s) end) (s_gd s).
Proof. destruct x; simpl; [apply set_gd_mediamap_id|done]. Qed.

(** The other regions are at other addresses, allocated ones. *)
Lemma rep_ne s l1 n v l2 x :
  map_rep s (l1 ++ (n, v) :: l2) -> x ∈ l1.*1 \/ x ∈ l2.*1 -> x <> n /\ (x < s_brk s)%nat.
Proof.
  intros Hrep Hx. split.
  - intros ->. destruct Hrep as [_ _ Hnd _]. rewrite fmap_app, fmap_cons in Hnd.
    apply NoDup_app in Hnd as (_ & Hd & Hnd). apply NoDup_cons in Hnd as [Hn _].
    destruct Hx as [Hx|Hx]; [|done]. apply (Hd _ Hx), elem_of_cons. by left.
  - destruct (decide (x < s_brk s)%nat); [done|]. exfalso.
    apply (rep_not_fresh s _ x Hrep ltac:(lia)).
    rewrite fmap_app, fmap_cons, elem_of_app, elem_of_cons. tauto.
Qed.

Lemma rep_ne_sides s l1 n v l2 x :
  map_rep s (l1 ++ (n, v) :: l2) -> x ∈ l1.*1 -> x ∈ l2.*1 -> False.
Proof.
  intros [_ _ Hnd _]. rewrite fmap_app, fmap_cons in Hnd.
  apply NoDup_app in Hnd as (_ & Hd & _). intros H1 H2. apply (Hd _ H1), elem_of_cons.
  by right.
Qed.

Lemma rep_n_lt s l1 n v l2 : map_rep s (l1 ++ (n, v) :: l2) -> (n < s_brk s)%nat.
Proof.
  intros Hrep. destruct (decide (n < s_brk s)%nat); [done|]. exfalso.
  apply (rep_not_fresh s _ n Hrep ltac:(lia)).
  rewrite fmap_app, fmap_cons, elem_of_app, elem_of_cons. auto.
Qed.

Lemma rep_neighbour s l1 n v l2 y :
  map_rep s (l1 ++ (n, v) :: l2) ->
  last_of None l1 = Some y \/ first_of l2 None = Some y -> is_Some (s_maps s !! y).
Proof.
  intros [Hd _ _ _] Hy. eapply dll_lookup; [|done].
  rewrite fmap_app, fmap_cons, elem_of_app, elem_of_cons.
  destruct Hy as [?%last_of_in|?%first_of_in]; auto.
Qed.
End split.

(** Brings the address of a neighbour apart from every address of the operation. *)
Ltac rep_sides Hrep x :=
  lazymatch type of Hrep with
  | map_rep _ (?l1 ++ (?n, _) :: ?l2) =>
    let H := fresh in
    assert (H : x ∈ l1.*1 \/ x ∈ l2.*1) by
      first [left; by apply last_of_in | right; by apply first_of_in
            | left; assumption | right; assumption];
    destruct (rep_ne _ _ _ _ _ x Hrep H); clear H
  end.

(** [x] cannot be on both sides of the region. *)
Ltac sides_absurd Hrep x :=
  exfalso; eapply (rep_ne_sides _ _ _ _ _ x Hrep);
  first [assumption | by apply last_of_in | by apply first_of_in].

(** Two bounds on an address that contradict each other. *)
Ltac lt_absurd :=
  exfalso;
  match goal with
  | H : (_ < _)%nat |- _ =>
    first [exact (Nat.lt_irrefl _ H) | exact (Nat.nlt_succ_diag_l _ H)]
  end.

(** The member [x] of one side is where it was, but for a link that was set. *)
Ltac side_member Hrep x :=
  rep_sides Hrep x; heap_lookup; try congruence; try lt_absurd;
  try (sides_absurd Hrep x);
  repeat match goal with H : ?h !! ?y = Some _ |- context [?h !! ?y] => rewrite H end;
  rewrite ?set_map_prev_id, ?set_map_next_id by done; try done.

Section cuts.
Context {os : Os}.
Implicit Types (s : store) (l : segs).

Lemma links_lookup (h : gmap loc map_node) x v p q :
  match h !! x with
  | Some n => seg_of n = v /\ map_prev n = p /\ map_next n = q
  | None => False
  end -> links h x v p q.
Proof. unfold links. destruct (h !! x) as [n|]; [|done]. intros. by exists n. Qed.

(** The head of the list after a run that starts at [x] was linked in. *)
Lemma head_link s l1 n v l2 mid' x :
  map_rep s (l1 ++ (n, v) :: l2) -> first_of mid' None = Some x ->
  match last_of None l1 with None => Some x | Some _ => gd_mediamap (s_gd s) end =
  first_of (l1 ++ mid' ++ l2) None.
Proof.
  intros [_ -> _ _] Hx. destruct l1 as [|[y w] l1]; simpl.
  - by destruct mid' as [|[] ?].
  - destruct (decide (l1 = [])) as [->|Hne]; [done|].
    destruct (exists_last Hne) as (l' & [z w'] & ->). by rewrite last_of_snoc.
Qed.

Lemma head_keep s l1 n v l2 mid' :
  map_rep s (l1 ++ (n, v) :: l2) -> first_of mid' None = Some n ->
  gd_mediamap (s_gd s) = first_of (l1 ++ mid' ++ l2) None.
Proof.
  intros [_ -> _ _] Hx. destruct l1 as [|[y w] l1]; [|done].
  by destruct mid' as [|[] ?].
Qed.

(** The cut at the start of the region. *)
Lemma wp_cut_left s l1 n v l2 nd m size type data alloc (Q : option loc -> store -> Prop) s1 :
  map_rep s (l1 ++ (n, v) :: l2) -> s_maps s !! n = Some nd -> seg_of nd = v ->
  m = s_brk s ->
  s1 = on_maps <[m := MapNode (sg_start v) size None None type 0 data alloc]> (on_brk S s) ->
  sg_end v < 2 ^ 62 -> 0 <= sg_start v -> 0 < size -> size < sg_size v ->
  (forall s', map_rep s' (l1 ++ (m, Seg (sg_start v) size type 0 data alloc) ::
                            (n, seg_resize (sg_start v + size) (sg_size v - size) v) :: l2) ->
    s_brk s' = S m -> s_bufs s' = s_bufs s -> s_disk s' = s_disk s ->
    s_gd s' = set_gd_mediamap (gd_mediamap (s_gd s')) (s_gd s) -> Q (Some m) s') ->
  wp (update m (set_map_prev (map_prev nd));;
      update m (set_map_next (Some n));;
      link_next (map_prev nd) (Some m);;
      update n (set_map_prev (Some m));;
      update n (set_map_start (s64 (map_start nd + size)));;
      update n (set_map_size (s64 (map_size nd - size)));;
      mret (Some m)) s1 Q.
Proof.
  intros Hrep Hnd Hv Hm -> He H0 Hs1 Hs2 HQ.
  destruct (rep_member s _ _ _ _ _ Hrep eq_refl) as (nd' & ? & _ & Hp & Hx). simplify_eq.
  pose proof (rep_n_lt _ _ _ _ _ Hrep) as Hmn. set (m := s_brk s) in *.
  assert (m <> n /\ n <> m) as [Hmn1 Hmn2] by lia.
  assert (map_prev nd <> Some m /\ map_prev nd <> Some n) as [Hpm Hpn].
  { rewrite Hp. split; intros E; [rep_sides Hrep m; subst m; lia|by rep_sides Hrep n]. }
  do 2 (st_step; [heap_some|]). apply wp_bind, wp_link_next.
  { intros y Hy. rewrite Hp in Hy. destruct (rep_neighbour _ _ _ _ _ y Hrep); auto.
    heap_some. }
  do 3 (st_step; [heap_some|]). st_step.
  apply HQ; cbn [s_brk s_bufs s_disk s_gd on_maps];
    rewrite ?(proj1 (link_next_proj _ _ _)), ?(proj1 (proj2 (link_next_proj _ _ _))),
      ?(proj2 (proj2 (link_next_proj _ _ _))), ?gd_link_next; try done.
  apply (rep_replace s _ l1 [(n, seg_of nd)] [(m, _); (n, _)] l2 Hrep); try done.
  - simpl. split; [|split; [|done]]; apply links_lookup; heap_lookup.
    all: rewrite ?Hnd; simpl; unfold seg_of, seg_resize, sg_end in *; simpl in *;
      word_simpl; auto.
  - intros x n0 Hx0 Hn0. side_member Hrep x.
  - intros x n0 Hx0 Hn0.
    pose proof (rep_after s l1 [(n, seg_of nd)] l2 x n0 Hrep ltac:(done) Hx0 Hn0).
    rewrite Hp in *. side_member Hrep x.
  - intros x Hx0 Hne. side_member Hrep x.
  - intros x Hx0 Hne. rewrite Hp in *. side_member Hrep x.
  - cbn [on_maps s_gd]. rewrite gd_link_next, Hp.
    cbn [gd_mediamap set_gd_mediamap s_gd on_maps on_brk].
    exact (head_link s l1 n _ l2 [(m, _); (n, _)] m Hrep eq_refl).
  - simpl. by rewrite NoDup_cons, list_elem_of_singleton; split; [|apply NoDup_singleton].
  - intros x. simpl. rewrite !elem_of_cons, elem_of_nil. intuition (subst; auto).
  - cbn [s_brk on_maps]. rewrite (proj1 (proj2 (link_next_proj _ _ _))). simpl.
    intros x Hx0. destruct Hrep as [_ _ _ Hf].
    heap_lookup; try lia; by rewrite Hf by lia.
Qed.

(** The cut at the end of the region. *)
Lemma wp_cut_right s l1 n v l2 nd m start size type data alloc
    (Q : option loc -> store -> Prop) s1 :
  map_rep s (l1 ++ (n, v) :: l2) -> s_maps s !! n = Some nd -> seg_of nd = v ->
  m = s_brk s ->
  s1 = on_maps <[m := MapNode start size None None type 0 data alloc]> (on_brk S s) ->
  sg_end v < 2 ^ 62 -> 0 <= sg_start v -> 0 < size -> size < sg_size v ->
  (forall s', map_rep s' (l1 ++ (n, seg_resize (sg_start v) (sg_size v - size) v) ::
                            (m, Seg start size type 0 data alloc) :: l2) ->
    s_brk s' = S m -> s_bufs s' = s_bufs s -> s_disk s' = s_disk s ->
    s_gd s' = set_gd_mediamap (gd_mediamap (s_gd s')) (s_gd s) -> Q (Some m) s') ->
  wp (update m (set_map_next (map_next nd));;
      update m (set_map_prev (Some n));;
      link_prev (map_next nd) (Some m);;
      update n (set_map_next (Some m));;
      update n (set_map_size (s64 (map_size nd - size)));;
      mret (Some m)) s1 Q.
Proof.
  intros Hrep Hnd Hv Hm -> He H0 Hs1 Hs2 HQ.
  destruct (rep_member s _ _ _ _ _ Hrep eq_refl) as (nd' & ? & _ & Hp & Hx). simplify_eq.
  pose proof (rep_n_lt _ _ _ _ _ Hrep) as Hmn. set (m := s_brk s) in *.
  assert (m <> n /\ n <> m) as [Hmn1 Hmn2] by lia.
  assert (map_next nd <> Some m /\ map_next nd <> Some n) as [Hpm Hpn].
  { rewrite Hx. split; intros E; [rep_sides Hrep m; subst m; lia|by rep_sides Hrep n]. }
  do 2 (st_step; [heap_some|]). apply wp_bind, wp_link_prev.
  { intros y Hy. rewrite Hx in Hy. destruct (rep_neighbour _ _ _ _ _ y Hrep); auto.
    heap_some. }
  do 2 (st_step; [heap_some|]). st_step.
  destruct (link_prev_proj (map_next nd) (Some m) (on_maps (alter (set_map_prev (Some n)) m)
    (on_maps (alter (set_map_next (map_next nd)) m)
       (on_maps <[m:=MapNode start size None None type 0 data alloc]> (on_brk S s)))))
    as (E1 & E2 & E3 & E4).
  apply HQ; cbn [s_brk s_bufs s_disk s_gd on_maps]; rewrite ?E1, ?E2, ?E3, ?E4;
    try apply set_gd_mediamap_id; try done.
  apply (rep_replace s _ l1 [(n, seg_of nd)] [(n, _); (m, _)] l2 Hrep); try done.
  - simpl. split; [|split; [|done]]; apply links_lookup; heap_lookup.
    all: rewrite ?Hnd; simpl; unfold seg_of, seg_resize, sg_end in *; simpl in *;
      word_simpl; auto.
  - intros x n0 Hx0 Hn0. pose proof (rep_before s l1 [(n, seg_of nd)] l2 x n0 Hrep Hx0 Hn0).
    rewrite Hx in *. side_member Hrep x.
  - intros x n0 Hx0 Hn0. side_member Hrep x.
  - intros x Hx0 Hne. rewrite Hx in *. side_member Hrep x.
  - intros x Hx0 Hne. side_member Hrep x.
  - cbn [on_maps s_gd]. rewrite E4. cbn [s_gd on_maps on_brk].
    exact (head_keep s l1 n _ l2 [(n, _); (m, _)] Hrep eq_refl).
  - simpl. by rewrite NoDup_cons, list_elem_of_singleton; split; [|apply NoDup_singleton].
  - intros x. simpl. rewrite !elem_of_cons, elem_of_nil. intuition (subst; auto).
  - cbn [s_brk on_maps]. rewrite E2. simpl. intros x Hx0. destruct Hrep as [_ _ _ Hf].
    heap_lookup; try lia; by rewrite Hf by lia.
Qed.

(** The cut in the middle of the region, [p] being the part before. *)
Lemma wp_cut_mid s l1 n v l2 nd m p start size type data alloc
    (Q : option loc -> store -> Prop) s1 :
  map_rep s (l1 ++ (n, v) :: l2) -> s_maps s !! n = Some nd -> seg_of nd = v ->
  m = s_brk s -> p = S m ->
  s1 = on_maps <[p := MapNode (sg_start v) (start - sg_start v) None None (sg_type v) 0 PNull 0]>
         (on_brk S
           (on_maps <[m := MapNode start size None None type 0 data alloc]> (on_brk S s))) ->
  sg_end v < 2 ^ 62 -> 0 <= sg_start v -> sg_start v < start -> 0 < size ->
  start + size < sg_end v ->
  (forall s', map_rep s' (l1 ++ (p, Seg (sg_start v) (start - sg_start v) (sg_type v) 0 PNull 0) ::
                            (m, Seg start size type 0 data alloc) ::
                            (n, seg_resize (start + size) (sg_end v - (start + size)) v) :: l2) ->
    s_brk s' = S p -> s_bufs s' = s_bufs s -> s_disk s' = s_disk s ->
    s_gd s' = set_gd_mediamap (gd_mediamap (s_gd s')) (s_gd s) -> Q (Some m) s') ->
  wp (update n (set_map_start (s64 (map_start nd + s64 (s64 (start - map_start nd) + size))));;
      update n (set_map_size (s64 (map_size nd - s64 (s64 (start - map_start nd) + size))));;
      update p (set_map_prev (map_prev nd));;
      update m (set_map_prev (Some p));;
      update n (set_map_prev (Some m));;
      update m (set_map_next (Some n));;
      update p (set_map_next (Some m));;
      link_next (map_prev nd) (Some p);;
      mret (Some m)) s1 Q.
Proof.
  intros Hrep Hnd Hv Hm Hpm -> He H0 Hs0 Hs1 Hs2 HQ.
  destruct (rep_member s _ _ _ _ _ Hrep eq_refl) as (nd' & ? & _ & Hp & Hx). simplify_eq.
  pose proof (rep_n_lt _ _ _ _ _ Hrep) as Hmn.
  assert (Hnew : forall x, (s_brk s <= x)%nat -> s_maps s !! x = None) by apply Hrep.
  assert (Hside : forall x, x ∈ l1.*1 \/ x ∈ l2.*1 ->
    x <> n /\ x <> s_brk s /\ x <> S (s_brk s)).
  { intros x Hx0. destruct (rep_ne _ _ _ _ _ x Hrep Hx0). lia. }
  assert (Hprev : forall y, map_prev nd = Some y ->
    (y <> n /\ y <> s_brk s /\ y <> S (s_brk s)) /\ is_Some (s_maps s !! y)).
  { intros y Hy. rewrite Hp in Hy. split; [|by eapply rep_neighbour; [exact Hrep|left]].
    apply Hside. left. by apply last_of_in. }
  remember (s_brk s) as m eqn:Em. remember (S m) as p eqn:Ep.
  assert (m <> n /\ p <> n /\ p <> m) as (? & ? & ?) by lia.
  assert (map_prev nd <> Some m /\ map_prev nd <> Some n /\ map_prev nd <> Some p)
    as (? & ? & ?) by (split_and!; intros E; destruct (Hprev _ E) as [(? & ? & ?) _]; done).
  do 7 (st_step; [heap_at; rewrite ?Hnd; eauto using mk_is_Some|]). apply wp_bind, wp_link_next.
  { intros y Hy. destruct (Hprev y Hy) as [(? & ? & ?) Hs]. by heap_at. }
  st_step.
  apply HQ; cbn [s_brk s_bufs s_disk s_gd on_maps];
    rewrite ?(proj1 (link_next_proj _ _ _)), ?(proj1 (proj2 (link_next_proj _ _ _))),
      ?(proj2 (proj2 (link_next_proj _ _ _))), ?gd_link_next; try done;
    [|by cbn; rewrite Ep, Em].
  apply (rep_replace s _ l1 [(n, seg_of nd)] [(p, _); (m, _); (n, _)] l2 Hrep); try done.
  - simpl. split; [|split; [|split; [|done]]]; apply links_lookup; heap_at;
      rewrite decide_False by done; heap_at; rewrite ?Hnd; simpl;
      unfold seg_of, seg_resize, sg_end in *; simpl in *;
      clear - Hp Hx He H0 Hs0 Hs1 Hs2; word_simpl; split_and!; try done; f_equal; lia.
  - intros x n0 Hx0 Hn0. destruct (Hside x) as (? & ? & ?); [left; by apply last_of_in|].
    heap_at. rewrite decide_True by congruence. heap_at. by rewrite Hn0.
  - intros x n0 Hx0 Hn0. destruct (Hside x) as (? & ? & ?); [right; by apply first_of_in|].
    pose proof (rep_after s l1 [(n, seg_of nd)] l2 x n0 Hrep ltac:(done) Hx0 Hn0).
    heap_at. rewrite decide_False; [heap_at; by rewrite Hn0, set_map_prev_id|].
    rewrite Hp. intros E. by sides_absurd Hrep x.
  - intros x Hx0 Hne. destruct (Hside x) as (? & ? & ?); [by left|].
    heap_at. rewrite decide_False by congruence. by heap_at.
  - intros x Hx0 Hne. destruct (Hside x) as (? & ? & ?); [by right|].
    heap_at. rewrite decide_False; [by heap_at|].
    rewrite Hp. intros E. by sides_absurd Hrep x.
  - rewrite gd_link_next, Hp. cbn [gd_mediamap set_gd_mediamap s_gd on_maps on_brk].
    exact (head_link s l1 n _ l2 [(p, _); (m, _); (n, _)] p Hrep eq_refl).
  - simpl. repeat (apply NoDup_cons; split); rewrite ?elem_of_cons, ?elem_of_nil;
      try apply NoDup_nil_2; intuition congruence.
  - intros x. simpl. rewrite <- Em, !elem_of_cons, elem_of_nil.
    clear - Ep. intros [->|[->|[->|[]]]]; [right; lia|right; lia|auto].
  - rewrite (proj1 (proj2 (link_next_proj _ _ _))). simpl.
    intros x Hx0. assert (p <> x /\ m <> x /\ n <> x /\ s_maps s !! x = None) as (? & ? & ? & E).
    { split_and!; [lia..|]. apply Hnew. lia. }
    heap_at. rewrite decide_False; [heap_at; by rewrite E|].
    intros Ex. destruct (Hprev x Ex) as [_ [? ?]]. congruence.
Qed.

Lemma rep_ext s s' l :
  map_rep s l -> gd_mediamap (s_gd s') = gd_mediamap (s_gd s) ->
  (forall x, x ∈ l.*1 -> s_maps s' !! x = s_maps s !! x) ->
  (forall x, (s_brk s' <= x)%nat -> s_maps s' !! x = None) -> map_rep s' l.
Proof.
  intros [Hd Hh Hn Hf] Hg He Hf'. split; [|by rewrite Hg|done|done]. by eapply dll_ext.
Qed.

Lemma on_maps_alter_insert f m n s :
  on_maps (alter f m) (on_maps <[m := n]> s) = on_maps <[m := f n]> s.
Proof.
  unfold on_maps. simpl. f_equal. apply map_eq. intros i.
  rewrite lookup_alter, !lookup_insert. by repeat case_decide; simplify_eq.
Qed.

Lemma wp_map_split s l1 n v l2 start size type data alloc :
  map_rep s (l1 ++ (n, v) :: l2) -> sg_end v < 2 ^ 62 -> 0 <= sg_start v ->
  sg_start v <= start -> 0 < size -> start + size <= sg_end v -> size < sg_size v ->
  (alloc <> 0 -> owned s data) ->
  wp (map_split n start size type data alloc) s
     (add_post s data (seg_cut (s_brk s) start size type data alloc l1 n v l2)).
Proof.
  intros Hrep He H0 Hst Hsz Hfit Hlt Hown. unfold map_split, seg_cut.
  destruct (rep_member s _ _ _ _ _ Hrep eq_refl) as (nd & Hnd & Hv & Hp & Hx). subst v.
  pose proof (rep_n_lt _ _ _ _ _ Hrep) as Hmn.
  apply wp_bind. unfold map_create. apply wp_calloc_map; intros Ha; rewrite Ha; simpl negb.
  2: { apply wp_ret. split_and!; try done; [|apply set_gd_mediamap_id].
       apply (rep_ext s); try done. simpl. intros x Hx0. apply Hrep. lia. }
  st_step; [heap_some|]. rewrite on_maps_alter_insert.
  apply wp_bind, (wp_load n nd); [heap_lookup; try lia|].
  change (map_start nd) with (sg_start (seg_of nd)) at 1. destruct (Z.eqb_spec start (sg_start (seg_of nd))) as [->|].
  { eapply (wp_cut_left s l1 n _ l2 nd _ size); [done..|]. intros s' ?????. by split_and!. }
  rewrite (s64_small (start + size)), map_end_eq by lia.
  destruct (Z.eqb_spec (start + size) (sg_end (seg_of nd))).
  { eapply (wp_cut_right s l1 n _ l2 nd _ start size); [done..|]. intros s' ?????. by split_and!. }
  apply wp_bind, wp_calloc_map; cbn [s_brk on_maps on_brk]; intros Hb; rewrite Hb; simpl negb.
  - eapply (wp_cut_mid s l1 n _ l2 nd _ _ start size); try done; try lia.
    rewrite s64_small by (simpl in *; unfold sg_end in *; simpl in *; lia). done.
  - apply wp_bind. unfold map_destroy.
    apply wp_bind, (wp_load _ (MapNode start size None None type 0 data alloc));
      [by heap_lookup|]. simpl map_alloc_flag.
    assert (Hdone : forall h, map_rep
      (on_maps (delete (s_brk s)) (on_bufs h (on_brk S
        (on_maps <[s_brk s:=MapNode start size None None type 0 data alloc]> (on_brk S s)))))
      (l1 ++ (n, seg_of nd) :: l2)).
    { intros h. apply (rep_ext s); [done..| |].
      - intros x Hx0. heap_lookup. exfalso. by apply (rep_not_fresh _ _ _ Hrep (le_n _)).
      - simpl. intros x Hx0. heap_lookup; try lia. apply Hrep. lia. }
    destruct (Z.eqb_spec alloc 0) as [->|Hne]; simpl negb.
    + st_step. st_step; [heap_some|]. st_step.
      split_and!; try done; [apply (Hdone id)|apply set_gd_mediamap_id].
    + apply wp_bind. eapply wp_free_ptr; [by apply Hown|]. st_step; [heap_some|]. st_step.
      split_and!; try done; apply Hdone || apply set_gd_mediamap_id.
Qed.
End cuts.

Section add.
Context {os : Os}.
Implicit Types (s : store) (l : segs).

(** [n->f = ...] for fields other than the links. *)
Lemma rep_update s l1 n v l2 f v' :
  map_rep s (l1 ++ (n, v) :: l2) ->
  (forall nd, seg_of nd = v ->
    seg_of (f nd) = v' /\ map_next (f nd) = map_next nd /\ map_prev (f nd) = map_prev nd) ->
  map_rep (on_maps (alter f n) s) (l1 ++ (n, v') :: l2).
Proof.
  intros Hrep Hf.
  destruct (rep_member s _ _ _ _ _ Hrep eq_refl) as (nd & Hnd & Hv & Hp & Hx).
  destruct (Hf nd Hv) as (Hf1 & Hf2 & Hf3).
  pose proof (rep_n_lt _ _ _ _ _ Hrep) as Hmn.
  apply (rep_replace s _ l1 [(n, v)] [(n, v')] l2 Hrep); try done.
  - simpl. split; [|done]. apply links_lookup. heap_lookup. rewrite Hnd. simpl.
    by rewrite Hf2, Hf3.
  - intros x n0 Hx0 Hn0. pose proof (rep_before s l1 [(n, v)] l2 x n0 Hrep Hx0 Hn0).
    side_member Hrep x.
  - intros x n0 Hx0 Hn0.
    pose proof (rep_after s l1 [(n, v)] l2 x n0 Hrep ltac:(done) Hx0 Hn0).
    side_member Hrep x.
  - intros x Hx0 Hne. side_member Hrep x.
  - intros x Hx0 Hne. side_member Hrep x.
  - exact (head_keep s l1 n _ l2 [(n, v')] Hrep eq_refl).
  - apply NoDup_singleton.
  - intros x Hx0. by left.
  - simpl. intros x Hx0. destruct Hrep as [_ _ _ Hf0]. heap_lookup; try lia.
    by rewrite Hf0 by lia.
Qed.

Lemma seg_with_type_id v t : sg_type v = t -> seg_with_type t v = v.
Proof. intros <-. by destruct v. Qed.

Lemma wp_map_add s l total start size type data alloc :
  map_ok s l total -> 0 <= start -> 0 < size -> start + size < 2 ^ 62 ->
  (alloc <> 0 -> owned s data) ->
  wp (map_add start size type data alloc) s
     (add_post s data (seg_add (s_brk s) start size type data alloc l)).
Proof.
  intros (Hrep & Ht & Htot) Hst Hsz Hend Hown. unfold map_add, seg_add.
  st_step. st_step. apply wp_bind. rewrite (rep_head _ _ Hrep).
  eapply (wp_map_skip _ s None l start 0 total);
    [apply Hrep|done|lia|lia|by apply rep_fuel|].
  destruct (seg_split start l) as [[[l1 [n v]] l2]|] eqn:Es; simpl split_loc.
  2: { st_step. split_and!; try done. apply set_gd_mediamap_id. }
  destruct (seg_split_bounds _ _ _ _ _ _ _ _ Ht Hst Es) as (Hb & Hvs & Hv0 & Hvt & _).
  apply seg_split_app in Es as ->.
  destruct (rep_member s _ _ _ _ _ Hrep eq_refl) as (nd & Hnd & Hv & Hp & Hx). subst v.
  apply wp_bind, (wp_load n nd); [done|].
  rewrite (s64_small (start + size)), map_end_eq by lia.
  assert (Hsame : add_post s data
    (AddOut None (l1 ++ (n, seg_of nd) :: l2) (s_brk s) false) None s)
    by (split_and!; try done; apply set_gd_mediamap_id).
  case_match eqn:E1; zbool.
  { st_step. rewrite Hx. destruct (first_of l2 None) as [y|] eqn:Ey; [|by apply wp_ret].
    case_match; [|by apply wp_ret].
    destruct (rep_neighbour _ _ _ _ _ y Hrep ltac:(auto)) as [ny Hny].
    apply wp_bind, (wp_load y ny); [done|]. by apply wp_ret. }
  cbn [sg_start sg_size seg_of] in *.
  case_match eqn:E2; zbool.
  { st_step; [heap_some|]. st_step; [heap_some|]. st_step.
    split_and!; try done; [|apply set_gd_mediamap_id].
    apply (rep_update _ _ _ (seg_with_type type (seg_of nd)));
      [apply (rep_update _ _ _ (seg_of nd)); [done|]|];
      intros nd' E; unfold seg_of, seg_with_type in *; simpl in *; split_and!; congruence. }
  assert (Hlt : map_size nd < sg_size (seg_of nd) \/ size < sg_size (seg_of nd)).
  { right. unfold sg_end in *. simpl in *. apply andb_false_iff in E2 as [?|?]; zbool; lia. }
  assert (Hlt' : size < sg_size (seg_of nd)) by (simpl in *; lia). clear Hlt.
  unfold may_split. cbn [sg_type seg_of].
  destruct (Z.eqb_spec (map_type nd) MAP_TYPE_UNUSED) as [Hu|Hu]; simpl.
  - rewrite (seg_with_type_id (seg_of nd)) by done.
    eapply wp_map_split; done || (cbn [sg_start sg_size seg_of]; lia).
  - destruct (Z.eqb_spec (map_type nd) MAP_TYPE_MBR_PART), (Z.eqb_spec type MAP_TYPE_GPT_PART);
      simpl; try by apply wp_ret.
    st_step; [heap_some|].
    pose proof (rep_update s l1 n (seg_of nd) l2 (set_map_type MAP_TYPE_UNUSED)
      (seg_with_type MAP_TYPE_UNUSED (seg_of nd)) Hrep) as Hrep'.
    eapply wp_mono; [eapply (wp_map_split _ l1 n (seg_with_type MAP_TYPE_UNUSED (seg_of nd)) l2);
      try done; try (unfold sg_end in *; simpl in *; lia)|].
    + apply Hrep'. intros nd' Hnd'. rewrite <- Hnd'. done.
    + intros r s'. by unfold add_post.
Qed.

(** C3: [map_add] of map.c implements the list operation [seg_add]: on a well-formed
    map it returns, never touches freed or foreign memory, returns what the list
    operation returns and leaves its list, whatever allocations succeed; the device and
    the rest of [struct gd] are unchanged, and [data] is freed only with the region
    object when the second allocation fails. *)
Theorem map_add_refines s l total start size type data alloc :
  map_ok s l total -> 0 <= start -> 0 < size -> start + size < 2 ^ 62 ->
  (alloc <> 0 -> owned s data) ->
  exists s',
    let o := seg_add (s_brk s) start size type data alloc l in
    map_add start size type data alloc s = Some (ao_ret o, s') /\
    map_rep s' (ao_map o) /\ s_brk s' = ao_brk o /\
    s_bufs s' = (if ao_freed o then bufs_free data (s_bufs s) else s_bufs s) /\
    s_disk s' = s_disk s /\
    s_gd s' = set_gd_mediamap (gd_mediamap (s_gd s')) (s_gd s).
Proof.
  intros Hok H1 H2 H3 H4.
  destruct (proj1 (wp_elim _ _ _) (wp_map_add s l total start size type data alloc Hok H1 H2 H3 H4))
    as (r & s' & Hr & -> & Hpost).
  by exists s'.
Qed.
End add.

Lemma seg_at_of_split x (l : segs) :
  seg_at x l = match seg_split x l with Some (_, (_, v), _) => Some v | None => None end.
Proof.
  induction l as [|[n v] l IH]; simpl; [done|].
  destruct (Z.ltb_spec x (sg_end v)), (Z.leb_spec (sg_end v) x); try lia; [done|].
  rewrite IH. by destruct (seg_split x l) as [[[? []] ?]|].
Qed.

(** ** What the list operation does to the device *)

(** Closes [tiles a l b] for a list of given regions. *)
Ltac tiles_tac := simpl in *; unfold sg_end in *; simpl in *; split_and!; lia.

Section tilings.
Context {os : Os}.
Implicit Types l : segs.

Lemma seg_add_tiles k start size type data alloc l total :
  tiles 0 l total -> 0 <= start -> 0 < size ->
  tiles 0 (ao_map (seg_add k start size type data alloc l)) total.
Proof.
  intros Ht Hst Hsz. unfold seg_add.
  destruct (seg_split start l) as [[[l1 [n v]] l2]|] eqn:Es; [|done].
  destruct (seg_split_bounds _ _ _ _ _ _ _ _ Ht Hst Es) as (Hb & Hvs & _ & _ & T1 & T2).
  apply seg_split_app in Es as ->.
  assert (K : forall mid, tiles (sg_start v) mid (sg_end v) -> tiles 0 (l1 ++ mid ++ l2) total).
  { intros mid Hm. apply tiles_app. exists (sg_start v). split; [done|].
    apply tiles_app. eauto. }
  unfold seg_cut, seg_with_type, seg_resize, sg_end in *.
  repeat case_match; zbool; try done;
    repeat match goal with
    | |- tiles 0 (ao_map (AddOut _ (?a ++ ?b :: ?c :: ?d :: l2) _ _)) _ =>
      apply (K [b; c; d])
    | |- tiles 0 (ao_map (AddOut _ (?a ++ ?b :: ?c :: l2) _ _)) _ => apply (K [b; c])
    | |- tiles 0 (ao_map (AddOut _ (?a ++ ?b :: l2) _ _)) _ => apply (K [b])
    end; tiles_tac.
Qed.

Lemma seg_at_app (a b : Z) l1 l2 (y : Z) :
  tiles a l1 b -> a <= y -> seg_at y (l1 ++ l2) = if y <? b then seg_at y l1 else seg_at y l2.
Proof.
  revert a. induction l1 as [|[n v] l1 IH]; intros a; simpl.
  - intros -> Hy. by destruct (Z.ltb_spec y b); [lia|].
  - intros (Hs & Hsz & Ht) Hy. pose proof (tiles_mono _ _ _ Ht).
    destruct (Z.ltb_spec y (sg_end v)).
    + by destruct (Z.ltb_spec y b); [|lia].
    + by apply (IH (sg_end v)).
Qed.

(** In a tiling the region of a sector is the one whose bounds hold it. *)
Lemma type_at_replace (a : Z) l1 mid mid' l2 (p q y : Z) :
  tiles a l1 p -> tiles p mid q -> tiles p mid' q -> a <= y ->
  type_at y (l1 ++ mid' ++ l2) =
  if (p <=? y) && (y <? q) then type_at y mid' else type_at y (l1 ++ mid ++ l2).
Proof.
  intros H1 Hm Hm' Hy. unfold type_at.
  rewrite !(seg_at_app a p l1) by done. destruct (Z.ltb_spec y p).
  - by destruct (Z.leb_spec p y); [lia|].
  - rewrite !(seg_at_app p q) by done. destruct (Z.leb_spec p y); [|lia]. simpl.
    by destruct (Z.ltb_spec y q).
Qed.

Lemma seg_at_split l1 n v l2 x total :
  tiles 0 (l1 ++ (n, v) :: l2) total -> sg_start v <= x < sg_end v ->
  seg_at x (l1 ++ (n, v) :: l2) = Some v.
Proof.
  intros (c & H1 & (Hc & ? & ?))%tiles_app Hx.
  pose proof (tiles_mono _ _ _ H1).
  rewrite (seg_at_app 0 c) by (done || lia). simpl.
  destruct (Z.ltb_spec x c); [lia|]. by destruct (Z.ltb_spec x (sg_end v)); [|lia].
Qed.

Lemma seg_add_types k start size type data alloc l total x :
  tiles 0 l total -> 0 <= start -> 0 < size ->
  ao_ret (seg_add k start size type data alloc l) = Some x ->
  exists v, seg_at start l = Some v /\ accepts v start size type = true /\
    (exists i, (x, Seg start size type i data alloc) ∈
      ao_map (seg_add k start size type data alloc l)) /\
    forall y, 0 <= y ->
      type_at y (ao_map (seg_add k start size type data alloc l)) =
      if (start <=? y) && (y <? start + size) then Some type
      else if (sg_start v <=? y) && (y <? sg_end v) then Some MAP_TYPE_UNUSED
      else type_at y l.
Proof.
  intros Ht Hst Hsz. unfold seg_add, accepts.
  destruct (seg_split start l) as [[[l1 [n v]] l2]|] eqn:Es; [|done].
  destruct (seg_split_bounds _ _ _ _ _ _ _ _ Ht Hst Es) as (Hb & Hvs & _ & _ & T1 & T2).
  apply seg_split_app in Es as ->. intros Hr. exists v.
  split; [by eapply seg_at_split|].
  assert (Tv : tiles (sg_start v) [(n, v)] (sg_end v)) by (simpl; auto).
  assert (K : forall r mid y, tiles (sg_start v) mid (sg_end v) -> 0 <= y -> r = mid ++ l2 ->
    type_at y (l1 ++ r) = if (sg_start v <=? y) && (y <? sg_end v)
      then type_at y mid else type_at y (l1 ++ (n, v) :: l2)).
  { intros r mid y Hm Hy ->. by apply (type_at_replace 0 l1 [(n, v)]). }
  unfold seg_cut, seg_with_type, seg_resize, sg_end in *.
  repeat (case_match; zbool; simpl in Hr; try done);
    (split; [apply andb_true_intro; split; [lia|done]|]);
    (split; [eexists; injection Hr as <-; simpl; rewrite elem_of_app, !elem_of_cons;
      right; eauto|]);
    intros y Hy; simpl ao_map;
    match goal with
    | |- type_at y (?a ++ ?b :: ?c :: ?d :: l2) = _ => rewrite (K _ [b; c; d])
    | |- type_at y (?a ++ ?b :: ?c :: l2) = _ => rewrite (K _ [b; c])
    | |- type_at y (?a ++ ?b :: l2) = _ => rewrite (K _ [b])
    end; try done; try tiles_tac; unfold type_at, sg_end; simpl in *;
    repeat zcase; unfold sg_end in *; simpl in *; lia || done.
Qed.

Lemma seg_find_app t l1 l2 : seg_find t (l1 ++ l2) =
  match seg_find t l1 with Some nv => Some nv | None => seg_find t l2 end.
Proof. unfold seg_find. induction l1 as [|nv l1 IH]; simpl; [done|]. by destruct (_ =? t). Qed.

Lemma seg_find_cons t n (v : seg) l : seg_find t ((n, v) :: l) =
  if sg_type v =? t then Some (n, v) else seg_find t l.
Proof. done. Qed.

(** A type that is neither the new one nor the one cut is found where it was. *)
Lemma seg_add_find k start size type data alloc l t :
  t <> type -> t <> MAP_TYPE_UNUSED ->
  (forall v, seg_at start l = Some v -> sg_type v <> t) ->
  seg_find t (ao_map (seg_add k start size type data alloc l)) = seg_find t l.
Proof.
  intros H1 H2 H3. unfold seg_add. rewrite seg_at_of_split in H3.
  destruct (seg_split start l) as [[[l1 [n v]] l2]|] eqn:Es; [|done].
  specialize (H3 v eq_refl). apply seg_split_app in Es as ->.
  assert (forall mid, Forall (fun nv => sg_type nv.2 <> t) mid ->
    seg_find t (l1 ++ mid ++ l2) = seg_find t (l1 ++ (n, v) :: l2)) as K.
  { intros mid Hm. rewrite !seg_find_app. case_match; [done|]. rewrite seg_find_cons.
    destruct (Z.eqb_spec (sg_type v) t); [done|].
    induction Hm as [|[m w] mid Hw _ IH]; [done|]. simpl app. rewrite seg_find_cons.
    by destruct (Z.eqb_spec (sg_type w) t). }
  unfold seg_cut, seg_with_type, seg_resize in *. repeat case_match; try done; simpl ao_map;
    match goal with
    | |- seg_find _ (_ ++ ?b :: ?c :: ?d :: l2) = _ => apply (K [b; c; d])
    | |- seg_find _ (_ ++ ?b :: ?c :: l2) = _ => apply (K [b; c])
    | |- seg_find _ (_ ++ ?b :: l2) = _ => apply (K [b])
    end; repeat constructor; simpl; congruence.
Qed.

Lemma seg_add_none k start size type data alloc l total :
  tiles 0 l total -> 0 <= start -> 0 < size -> (forall i, os_alloc i = true) ->
  ao_ret (seg_add k start size type data alloc l) = None <->
  forall v, seg_at start l = Some v -> accepts v start size type = false.
Proof.
  intros Ht Hst Hsz Hos. unfold seg_add, accepts.
  destruct (seg_split start l) as [[[l1 [n v]] l2]|] eqn:Es.
  - destruct (seg_split_bounds _ _ _ _ _ _ _ _ Ht Hst Es) as (Hb & Hvs & _).
    apply seg_split_app in Es as ->. rewrite (seg_at_split _ _ _ _ _ _ Ht Hb).
    unfold seg_cut. rewrite !Hos. simpl.
    destruct (Z.ltb_spec (sg_end v) (start + size)) as [E|E].
    + split; [|done]. intros _ w [= <-]. by destruct (Z.leb_spec (start + size) (sg_end v)); [lia|].
    + assert (F : (start + size <=? sg_end v) = true) by by apply Z.leb_le.
      destruct ((sg_start v =? start) && (sg_size v =? size)) eqn:X; simpl.
      * split; [done|]. intros H. specialize (H v eq_refl). by rewrite F, X in H.
      * destruct (may_split v type) eqn:Y; simpl.
        -- split; [by repeat case_match|].
           intros H. specialize (H v eq_refl). by rewrite F, X, Y in H.
        -- split; [|done]. intros _ w [= <-]. by rewrite F, X, Y.
  - split; [|done]. intros _ v Hv. exfalso.
    enough (seg_at start l = None) by congruence. clear Hv.
    pose proof (seg_split_none _ _ _ _ Ht Hst Es) as Hx. revert Ht Hx Es. generalize 0.
    induction l as [|[m w] l IH]; intros a; simpl; [done|]. intros (_ & _ & Ht) Hx.
    pose proof (tiles_mono _ _ _ Ht).
    destruct (Z.leb_spec (sg_end w) start); [|done].
    destruct (seg_split start l) as [[[??]?]|]; [done|].
    intros _. destruct (Z.ltb_spec start (sg_end w)); [lia|]. by eapply IH.
Qed.
End tilings.

(** ** The other traversals *)
Section traversals.
Context {os : Os}.
Implicit Types (s : store) (l : segs).

Lemma wp_map_find_loop fuel s p l t (Q : option loc -> store -> Prop) :
  dll (s_maps s) p l None -> (length l < fuel)%nat -> Q (fst <$> seg_find t l) s ->
  wp (map_find_loop fuel (first_of l None) t) s Q.
Proof.
  revert fuel p. induction l as [|[n v] l IH]; intros [|fuel] p Hd Hf HQ;
    cbn [length] in Hf; try lia; [done|].
  destruct Hd as [(nd & Hn & Hv & Hp & Hx) Hd]. simpl.
  apply wp_bind, (wp_load n nd); [done|]. simpl in Hv, Hx. subst v.
  unfold seg_find in HQ. simpl in HQ. destruct (map_type nd =? t); [by apply wp_ret|].
  rewrite Hx. eapply IH; [done|lia|done].
Qed.

Lemma wp_map_find s l t (Q : option loc -> store -> Prop) :
  map_rep s l -> Q (fst <$> seg_find t l) s -> wp (map_find t) s Q.
Proof.
  intros Hrep HQ. unfold map_find. st_step. st_step. rewrite (rep_head _ _ Hrep).
  eapply wp_map_find_loop; [apply Hrep|by apply rep_fuel|done].
Qed.

Lemma wp_map_last_loop fuel s p l (Q : option loc -> store -> Prop) :
  dll (s_maps s) p l None -> (length l < fuel)%nat -> Q (last_of None l) s ->
  wp (map_last_loop fuel (first_of l None)) s Q.
Proof.
  revert fuel p. induction l as [|[n v] l IH]; intros [|fuel] p Hd Hf HQ;
    cbn [length] in Hf; try lia; [done|].
  destruct Hd as [(nd & Hn & Hv & Hp & Hx) Hd]. simpl.
  apply wp_bind, (wp_load n nd); [done|]. simpl in Hx. rewrite Hx.
  destruct l as [|[y w] l]; [by apply wp_ret|]. simpl first_of in *.
  eapply (IH fuel); [done|simpl in *; lia|done].
Qed.

Lemma wp_map_last s l (Q : option loc -> store -> Prop) :
  map_rep s l -> Q (last_of None l) s -> wp map_last s Q.
Proof.
  intros Hrep HQ. unfold map_last. st_step. st_step. rewrite (rep_head _ _ Hrep).
  eapply wp_map_last_loop; [apply Hrep|by apply rep_fuel|done].
Qed.

Lemma wp_map_free s l total start size (Q : Z -> store -> Prop) :
  map_ok s l total -> 0 <= start < 2 ^ 62 -> 0 <= size < 2 ^ 62 ->
  Q (seg_free start size l) s -> wp (map_free start size) s Q.
Proof.
  intros (Hrep & Ht & Htot) Hst Hsz HQ. unfold map_free. st_step. st_step. apply wp_bind.
  rewrite (rep_head _ _ Hrep).
  eapply (wp_map_skip _ s None l start 0 total);
    [apply Hrep|done|lia|lia|by apply rep_fuel|].
  unfold seg_free in HQ. rewrite seg_at_of_split in HQ.
  destruct (seg_split start l) as [[[l1 [n v]] l2]|] eqn:Es; simpl split_loc; [|by apply wp_ret].
  destruct (seg_split_bounds _ _ _ _ _ _ _ _ Ht (proj1 Hst) Es) as (Hb & Hvs & Hv0 & Hvt & _).
  apply seg_split_app in Es as ->.
  destruct (rep_member s _ _ _ _ _ Hrep eq_refl) as (nd & Hnd & Hv & _). subst v.
  apply wp_bind, (wp_load n nd); [done|]. rewrite map_end_eq by lia.
  unfold sg_end in *. simpl in *. word_simpl.
  replace (map_size nd - (start - map_start nd)) with (map_start nd + map_size nd - start) by lia.
  repeat case_match; by apply wp_ret.
Qed.
End traversals.

(** ** Allocation *)
Section allocation.
Context {os : Os}.
Implicit Types (s : store) (l : segs).

Lemma align_up_spec v a :
  0 <= v < 2 ^ 62 -> 0 <= a < 2 ^ 62 ->
  v <= align_up v a < 2 ^ 63 /\ (0 < a -> align_up v a mod a = 0) /\ (v = 0 -> align_up v a = 0).
Proof.
  intros Hv Ha. unfold align_up. destruct (Z.ltb_spec 0 a); simpl; [|lia].
  rewrite Z.rem_mod_nonneg by lia. destruct (Z.eqb_spec (v mod a) 0) as [E|E]; simpl.
  - split_and!; auto; lia.
  - rewrite (s64_small (v + a)) by lia. rewrite Z.quot_div_nonneg by lia.
    pose proof (Z.div_mod (v + a) a ltac:(lia)).
    pose proof (Z.mod_pos_bound (v + a) a ltac:(lia)).
    rewrite s64_small by nia. rewrite Z_mod_mult. split_and!; [nia|nia|done|].
    intros ->. by rewrite Z.mod_0_l in E by lia.
Qed.

(** The two other roundings of [map_alloc]. *)
Definition align_delta (v alignment : Z) : Z :=
  if (0 <? alignment) && negb (Z.rem v alignment =? 0) then
    s64 (s64 (Z.quot (s64 (v + alignment)) alignment * alignment) - v)
  else 0.

Definition align_down (v alignment : Z) : Z :=
  if (0 <? alignment) && negb (Z.rem v alignment =? 0)
  then s64 (Z.quot v alignment * alignment) else v.

(** A region that has room for the request: unused, past the boot sectors, not after
    the sector asked for, and large enough from the first admissible sector on. *)
Definition alloc_fits (start size alignment : Z) (v : seg) : bool :=
  let st := align_up start alignment in
  let sz := align_up size alignment in
  let room := if st =? 0 then sg_size v - align_delta (sg_start v) alignment
              else sg_end v - st in
  (sg_type v =? MAP_TYPE_UNUSED) && (2 <=? sg_start v) &&
  ((st =? 0) || (sg_start v <=? st)) &&
  ((sz =? 0) || (sz <=? room)) && (alignment <=? room).

(** The first region of each type other than the two involved is the same. *)
Definition others_kept (l l' : segs) : Prop := forall t,
  t <> MAP_TYPE_UNUSED -> t <> MAP_TYPE_GPT_PART -> seg_find t l' = seg_find t l.

(** The outcome of [map_alloc]: a region from which [sz] sectors at [p] were taken for
    a partition, or no region that has room. *)
Definition alloc_post (l : segs) (total start size alignment : Z) (r : option loc)
    (l' : segs) : Prop :=
  others_kept l l' /\
  match r with
  | None => (forall i, os_alloc i = true) ->
      forall n v, (n, v) ∈ l -> alloc_fits start size alignment v = false
  | Some x => exists p sz i v,
      (x, Seg p sz MAP_TYPE_GPT_PART i PNull 0) ∈ l' /\
      seg_at p l = Some v /\ sg_type v = MAP_TYPE_UNUSED /\
      2 <= sg_start v <= p /\ 0 < sz /\ p + sz <= sg_end v /\
      (0 < alignment -> p mod alignment = 0 /\ sz mod alignment = 0) /\
      (start <> 0 -> p = align_up start alignment) /\
      (size <> 0 -> sz = align_up size alignment) /\
      forall y, 0 <= y ->
        type_at y l' =
        if (p <=? y) && (y <? p + sz) then Some MAP_TYPE_GPT_PART else type_at y l
  end.

Lemma tiles_start_le a l b n v :
  tiles a l b -> (n, v) ∈ l -> a <= sg_start v.
Proof.
  revert a. induction l as [|[m w] l IH]; intros a; simpl.
  - intros _ []%not_elem_of_nil.
  - intros (<- & Hw & Ht) [[= <- <-]|E]%elem_of_cons; [done|].
    specialize (IH _ Ht E). unfold sg_end in IH. lia.
Qed.

Lemma seg_at_in l1 n v l2 total y :
  tiles 0 (l1 ++ (n, v) :: l2) total -> sg_start v <= y < sg_end v ->
  type_at y (l1 ++ (n, v) :: l2) = Some (sg_type v).
Proof. intros Ht Hy. unfold type_at. by rewrite (seg_at_split _ _ _ _ _ _ Ht Hy). Qed.

(** [map_add] of a partition inside an unused region. *)
Lemma wp_map_add_unused s l1 n v l2 total p sz start size alignment :
  map_ok s (l1 ++ (n, v) :: l2) total -> sg_type v = MAP_TYPE_UNUSED ->
  2 <= sg_start v <= p -> 0 < sz -> p + sz <= sg_end v ->
  (0 < alignment -> p mod alignment = 0 /\ sz mod alignment = 0) ->
  (start <> 0 -> p = align_up start alignment) ->
  (size <> 0 -> sz = align_up size alignment) ->
  wp (map_add p sz MAP_TYPE_GPT_PART PNull 0) s (fun r s' =>
    exists l', map_ok s' l' total /\ s_bufs s' = s_bufs s /\ s_disk s' = s_disk s /\
      s_gd s' = set_gd_mediamap (gd_mediamap (s_gd s')) (s_gd s) /\
      alloc_post (l1 ++ (n, v) :: l2) total start size alignment r l').
Proof.
  intros Hok Hu Hp Hsz Hfit Hal Hst Hsize. pose proof Hok as (Hrep & Ht & Htot).
  pose proof Ht as (c & T1 & (Hc & Hpos & T2))%tiles_app.
  pose proof (tiles_mono _ _ _ T2). unfold sg_end in *.
  eapply wp_mono; [apply (wp_map_add s (l1 ++ (n, v) :: l2) total); (done || lia)|].
  intros r s' (-> & Hrep' & Hbrk & Hbufs & Hdisk & Hgd).
  set (o := seg_add _ _ _ _ _ _ _) in *. exists (ao_map o). split_and!; try done.
  - split_and!; [done| |done]. by apply seg_add_tiles; [|lia|].
  - rewrite Hbufs. by destruct (ao_freed o).
  - assert (Hp0 : 0 <= p) by lia.
    assert (Hsv : seg_at p (l1 ++ (n, v) :: l2) = Some v)
      by (apply (seg_at_split _ _ _ _ _ total); [done|unfold sg_end; lia]).
    split.
    { intros t Hu' Hg'. apply seg_add_find; [done..|]. intros w.
      rewrite Hsv. intros [= <-]. congruence. }
    destruct (ao_ret o) as [x|] eqn:Er; cycle 1.
    { intros Hos. exfalso.
      pose proof (proj1 (seg_add_none _ _ _ _ _ _ _ _ Ht Hp0 Hsz Hos) Er v Hsv) as Ha.
      revert Ha. unfold accepts, may_split, sg_end. rewrite Hu, Z.eqb_refl, orb_true_r.
      by destruct (Z.leb_spec (p + sz) (sg_start v + sg_size v)); [|lia]. }
    destruct (seg_add_types _ _ _ _ _ _ _ total x Ht Hp0 Hsz Er)
      as (v' & Hv' & _ & (i & Hin) & Hty).
    rewrite Hsv in Hv'. injection Hv' as <-.
    exists p, sz, i, v. split_and!; try done; try lia. intros y Hy.
    rewrite Hty by done. destruct ((p <=? y) && (y <? p + sz)); [done|].
    destruct ((sg_start v <=? y) && (y <? sg_end v)) eqn:E; [|done]. zbool.
    by rewrite (seg_at_in _ _ _ _ total) by (done || lia); rewrite Hu.
Qed.

Lemma align_delta_spec v a :
  0 <= v < 2 ^ 62 -> 0 <= a < 2 ^ 62 ->
  0 <= align_delta v a < 2 ^ 63 /\ (0 < a -> (v + align_delta v a) mod a = 0).
Proof.
  intros Hv Ha. destruct (align_up_spec v a Hv Ha) as (U1 & U2 & _).
  unfold align_delta, align_up in *.
  case_match eqn:E.
  - rewrite s64_small by lia. split; [lia|]. intros Ha'.
    replace (v + _) with (s64 (Z.quot (s64 (v + a)) a * a)) by lia. auto.
  - rewrite Z.add_0_r. auto with lia.
Qed.

Lemma align_down_spec v a :
  0 <= v < 2 ^ 62 -> 0 <= a < 2 ^ 62 -> a <= v ->
  align_down v a <= v /\ (0 < v -> 0 < align_down v a) /\
  (0 < a -> align_down v a mod a = 0).
Proof.
  intros Hv Ha Hle. unfold align_down. destruct (Z.ltb_spec 0 a); simpl; [|lia].
  rewrite Z.rem_mod_nonneg by lia. destruct (Z.eqb_spec (v mod a) 0) as [E|E]; simpl.
  - split_and!; auto; lia.
  - rewrite Z.quot_div_nonneg by lia.
    pose proof (Z.div_mod v a ltac:(lia)). pose proof (Z.mod_pos_bound v a ltac:(lia)).
    rewrite s64_small by nia. rewrite Z_mod_mult. split_and!; [nia|intros; nia|done].
Qed.

(** The first admissible sector of a region, as an offset into it. *)
Definition alloc_delta (st alignment : Z) (v : seg) : Z :=
  if negb (st =? 0) then s64 (st - sg_start v) else align_delta (sg_start v) alignment.

Definition alloc_room (st alignment : Z) (v : seg) : Z :=
  if st =? 0 then sg_size v - align_delta (sg_start v) alignment else sg_end v - st.

Lemma alloc_delta_spec st alignment v :
  0 <= sg_start v -> 0 < sg_size v -> sg_end v < 2 ^ 62 -> 0 <= st < 2 ^ 63 ->
  (0 < alignment -> st mod alignment = 0) -> 0 <= alignment < 2 ^ 62 ->
  (st =? 0) || (sg_start v <=? st) = true ->
  let delta := alloc_delta st alignment v in
  0 <= delta < 2 ^ 63 /\ (st <> 0 -> sg_start v + delta = st) /\
  (0 < alignment -> (sg_start v + delta) mod alignment = 0) /\
  (st = 0 -> alignment = 0 -> delta = 0) /\
  s64 (sg_size v - delta) = sg_size v - delta /\
  alloc_room st alignment v = sg_size v - delta.
Proof.
  intros Hv Hs He Hst Hal Ha Hle. unfold sg_end in *. cbv zeta.
  destruct (align_delta_spec (sg_start v) alignment ltac:(lia) Ha) as (A1 & A2).
  unfold alloc_delta, alloc_room. destruct (Z.eqb_spec st 0) as [E|E]; simpl in *; zbool.
  - assert (alignment = 0 -> align_delta (sg_start v) alignment = 0) by (intros ->; done).
    clear Hal. rewrite s64_small by (clear - Hv Hs He A1; lia). split_and!; lia || auto.
  - rewrite s64_small by lia. rewrite s64_small by lia. unfold sg_end.
    replace (sg_start v + (st - sg_start v)) with st by lia. split_and!; lia || auto.
Qed.

Lemma alloc_size_spec sz room alignment :
  0 <= sz -> (sz = 0 -> 0 < room) -> room < 2 ^ 62 -> 0 <= alignment < 2 ^ 62 ->
  alignment <= room ->
  (sz =? 0) || (sz <=? room) = true -> (0 < alignment -> sz mod alignment = 0) ->
  let size := if sz =? 0 then align_down room alignment else sz in
  0 < size <= room /\ (sz <> 0 -> size = sz) /\
  (0 < alignment -> size mod alignment = 0).
Proof.
  intros Hsz Hr0 Hr Ha Hroom Hfit Hal. cbv zeta.
  destruct (Z.eqb_spec sz 0) as [E|E]; simpl in *; zbool.
  - specialize (Hr0 E). destruct (align_down_spec room alignment) as (B1 & B2 & B3); [lia..|].
    split_and!; lia || auto.
  - split_and!; lia || done.
Qed.

Lemma wp_map_alloc_loop s l1 l2 total fuel start size alignment :
  map_ok s (l1 ++ l2) total -> 0 <= start < 2 ^ 62 -> 0 <= size < 2 ^ 62 ->
  0 <= alignment < 2 ^ 62 -> (size <> 0 \/ start = 0 \/ 0 < alignment) ->
  (length l2 < fuel)%nat ->
  (forall n v, (n, v) ∈ l1 -> alloc_fits start size alignment v = false) ->
  wp (map_alloc_loop fuel (first_of l2 None) (align_up start alignment)
        (align_up size alignment) alignment) s (fun r s' =>
    exists l', map_ok s' l' total /\ s_bufs s' = s_bufs s /\ s_disk s' = s_disk s /\
      s_gd s' = set_gd_mediamap (gd_mediamap (s_gd s')) (s_gd s) /\
      alloc_post (l1 ++ l2) total start size alignment r l').
Proof.
  intros Hok Hst Hsz Hal Hnz. revert l1 Hok fuel.
  destruct (align_up_spec start alignment Hst Hal) as (As1 & As2 & As3).
  destruct (align_up_spec size alignment Hsz Hal) as (Az1 & Az2 & Az3).
  set (st := align_up start alignment) in *. set (sz := align_up size alignment) in *.
  assert (Hst0 : st = 0 <-> start = 0) by lia. assert (Hsz0 : sz = 0 <-> size = 0) by lia.
  induction l2 as [|[n v] l2 IH]; intros l1 Hok [|fuel] Hf Hl1; cbn [length] in Hf; try lia.
  { apply wp_ret. exists (l1 ++ []). split_and!; try done; [apply set_gd_mediamap_id|].
    rewrite app_nil_r. by split. }
  pose proof Hok as (Hrep & Ht & Htot).
  pose proof Ht as (c & T1 & (Hc & Hpos & T2))%tiles_app.
  pose proof (tiles_mono _ _ _ T1). pose proof (tiles_mono _ _ _ T2).
  destruct (rep_member s _ _ _ _ _ Hrep eq_refl) as (nd & Hnd & Hv & Hp & Hx).
  cbn [map_alloc_loop first_of]. apply wp_bind, (wp_load n nd); [done|]. cbv zeta.
  rewrite Hx.
  specialize (IH (l1 ++ [(n, v)])). rewrite <- app_assoc in IH. simpl in IH.
  specialize (IH Hok fuel ltac:(lia)).
  change (map_start nd) with (sg_start (seg_of nd)).
  change (map_size nd) with (sg_size (seg_of nd)).
  change (map_type nd) with (sg_type (seg_of nd)). rewrite Hv. unfold sg_end in *.
  (* going on to the next region *)
  assert (Next : alloc_fits start size alignment v = false ->
    wp (map_alloc_loop fuel (first_of l2 None) st sz alignment) s (fun r s' =>
      exists l', map_ok s' l' total /\ s_bufs s' = s_bufs s /\ s_disk s' = s_disk s /\
        s_gd s' = set_gd_mediamap (gd_mediamap (s_gd s')) (s_gd s) /\
        alloc_post (l1 ++ (n, v) :: l2) total start size alignment r l')).
  { intros Hfit. apply IH. intros n' v' [E|[= -> ->]%list_elem_of_singleton]%elem_of_app;
      eauto. }
  clear IH. unfold alloc_fits in Next. fold st sz in Next.
  destruct (Z.eqb_spec (sg_type v) MAP_TYPE_UNUSED) as [Hu|Hu]; simpl; [|by apply Next].
  destruct (Z.ltb_spec (sg_start v) 2).
  { simpl. apply Next. by destruct (Z.leb_spec 2 (sg_start v)); [lia|]. }
  simpl. destruct (negb (st =? 0) && (st <? sg_start v)) eqn:Est.
  { apply wp_ret. exists (l1 ++ (n, v) :: l2). split_and!; try done; [apply set_gd_mediamap_id|].
    split; [done|]. intros _ n' v' [E|E]%elem_of_app; [eauto|]. zbool.
    assert (c <= sg_start v').
    { eapply (tiles_start_le c ((n, v) :: l2) total n'); [|exact E]. simpl. unfold sg_end. auto. }
    unfold alloc_fits. fold st sz. destruct (Z.eqb_spec st 0); [lia|].
    destruct (Z.leb_spec (sg_start v') st); [lia|]. simpl. by rewrite !andb_false_r. }
  assert (Est' : (st =? 0) || (sg_start v <=? st) = true).
  { destruct (Z.eqb_spec st 0); [done|]. simpl in *. apply Z.leb_le. zbool. lia. }
  rewrite Est' in Next.
  replace (2 <=? sg_start v) with true in Next by (symmetry; apply Z.leb_le; lia).
  simpl in Next.
  change (if negb (st =? 0) then _ else _) with (alloc_delta st alignment v).
  change (if st =? 0 then _ else _) with (alloc_room st alignment v) in Next.
  destruct (alloc_delta_spec st alignment v) as (D1 & D2 & D3 & D4 & -> & D5);
    try done; try (unfold sg_end; clear - Htot Hc Hpos H H0 As1 Hst; lia).
  rewrite D5 in Next. set (delta := alloc_delta st alignment v) in *.
  assert (Dr : size = 0 -> alignment <= sg_size v - delta -> 0 < sg_size v - delta).
  { clear - Hal Hnz D4 Hst0 Hpos. intros -> Hr. destruct Hnz as [?|[?|?]]; [done| |lia].
    destruct (Z.eq_dec alignment 0) as [->|]; [rewrite D4 by tauto|]; lia. }
  destruct ((sz =? 0) || (sz <=? sg_size v - delta)) eqn:Efit; [|by apply Next].
  destruct (Z.ltb_spec (sg_size v - delta) alignment) as [|Hroom].
  { apply Next. simpl. by apply Z.leb_gt. }
  clear Next.
  change (if (0 <? alignment) && negb (Z.rem (sg_size v - delta) alignment =? 0) then _ else _)
    with (align_down (sg_size v - delta) alignment).
  destruct (alloc_size_spec sz (sg_size v - delta) alignment) as (S1 & S2 & S3); try done.
  { clear - Az1 Hsz. lia. }
  { clear - Dr Hroom Hsz0. tauto. }
  { clear - D1 Hc H H0 Htot. lia. }
  clearbody delta. set (size' := if sz =? 0 then _ else _) in *. clearbody size'.
  rewrite s64_small by (clear - D1 Hc H H0 Htot S1; lia).
  apply (wp_map_add_unused s l1 n v l2); unfold sg_end; try done; try (clear - Hc D1 S1 H1; lia).
  - clear - D3 S3. tauto.
  - clear - D2 Hst0. tauto.
  - clear - S2 Hsz0. tauto.

Qed.

Lemma wp_map_alloc s l total start size alignment :
  map_ok s l total -> 0 <= start < 2 ^ 62 -> 0 <= size < 2 ^ 62 ->
  0 <= alignment < 2 ^ 62 -> (size <> 0 \/ start = 0 \/ 0 < alignment) ->
  wp (map_alloc start size alignment) s (fun r s' =>
    exists l', map_ok s' l' total /\ s_bufs s' = s_bufs s /\ s_disk s' = s_disk s /\
      s_gd s' = set_gd_mediamap (gd_mediamap (s_gd s')) (s_gd s) /\
      alloc_post l total start size alignment r l').
Proof.
  intros Hok H1 H2 H3 H4. pose proof Hok as (Hrep & _). unfold map_alloc.
  st_step. st_step. rewrite (rep_head _ _ Hrep).
  apply (wp_map_alloc_loop s [] l); try done; [by apply rep_fuel|].
  intros n v []%not_elem_of_nil.
Qed.

End allocation.
