(* ===== verification/MapResize.v ===== *)
(** * MapResize: what [map_resize] of sbin/fgdisk/map.c does to the media map

    The code is in [MediaMap]; here it is shown to implement an operation on the list
    of regions, which tells the branches that keep the map a tiling of the device from
    the one that does not, and the sizes that are rounded from those that are not. *)
From Stdlib Require Import ZArith Lia.
From stdpp Require Import base list option gmap.
From S2P Require Import Prelude Dll Gd MediaMap.
Open Scope Z_scope.

(** The region [m] takes the sectors up to [new] from the unused region [n] after it;
    [n] goes when nothing of it is left. *)
Definition seg_grow (l1 : segs) (m : loc) (v : seg) (n : loc) (w : seg) (l2 : segs) (new : Z)
    : segs :=
  let grow := new - sg_size v in
  l1 ++ (m, seg_resize (sg_start v) new v) ::
    (if sg_size w =? grow then l2
     else (n, seg_resize (sg_start w + grow) (sg_size w - grow) w) :: l2).

(** The unused region at the head of [l], if there is one. *)
Definition seg_unused (l : segs) : option (loc * seg * segs) :=
  match l with
  | (n, w) :: r => if sg_type w =? MAP_TYPE_UNUSED then Some (n, w, r) else None
  | [] => None
  end.

Section spec.
Context {os : Os}.

(** [map_resize] on the list [l1 ++ (m, v) :: l2]: what it returns and what it leaves. *)
Definition seg_resize_op (k : loc) (l1 : segs) (m : loc) (v : seg) (l2 : segs)
    (size alignment : Z) : Z * segs :=
  let same := l1 ++ (m, v) :: l2 in
  if (size <? 0) || (alignment <? 0) then (-1, same)
  else if size =? 0 then
    match seg_unused l2 with
    | None => (-1, same)
    | Some (n, w, l3) =>
      let total := sg_size v + sg_size w in
      let new := if alignment =? 0 then total else total / alignment * alignment in
      if new <=? sg_size v then (-1, same) else (new, seg_grow l1 m v n w l3 new)
    end
  else
    let new := resize_round size alignment in
    let cut := l1 ++ (m, seg_resize (sg_start v) new v) :: l2 in
    if new <? sg_size v then
      match seg_unused l2 with
      | Some (n, w, l3) =>
        (new, l1 ++ (m, seg_resize (sg_start v) new v) ::
              (n, seg_resize (sg_start w - new) (sg_size w + new) w) :: l3)
      | None =>
        if os_alloc k then
          (new, l1 ++ (m, seg_resize (sg_start v) new v) ::
                (k, Seg (sg_start v + new) (sg_size v - new) MAP_TYPE_UNUSED 0 PNull 0) :: l2)
        else (-1, cut)
      end
    else if sg_size v <? new then
      match seg_unused l2 with
      | None => (-1, same)
      | Some (n, w, l3) =>
        if sg_size w <? new - sg_size v then (-1, same)
        else (new, seg_grow l1 m v n w l3 new)
      end
    else (new, same).
End spec.

(** ** The list surgery *)
Section surgery.
Context {os : Os}.
Implicit Types (s : store) (l : segs).

(** Only the map and its heap may differ. *)
Definition same_but_maps (s s' : store) : Prop :=
  s_disk s' = s_disk s /\ s_gd s' = set_gd_mediamap (gd_mediamap (s_gd s')) (s_gd s).

Lemma same_but_maps_refl s : same_but_maps s s.
Proof. split; [done|]. apply set_gd_mediamap_id. Qed.

Lemma same_but_maps_trans s1 s2 s3 :
  same_but_maps s1 s2 -> same_but_maps s2 s3 -> same_but_maps s1 s3.
Proof. intros [E1 E2] [E3 E4]. split; [congruence|]. rewrite E4, E2. done. Qed.

Lemma same_but_maps_heap s f : same_but_maps s (on_maps f s).
Proof. split; [done|]. apply set_gd_mediamap_id. Qed.

(** [owned] data of a region that goes. *)
Definition droppable (s : store) (w : seg) : Prop := sg_alloc w <> 0 -> owned s (sg_data w).

Lemma rep_second s l1 m v n w l2 :
  map_rep s (l1 ++ (m, v) :: (n, w) :: l2) ->
  exists nd, s_maps s !! n = Some nd /\ seg_of nd = w /\ map_prev nd = Some m /\
    map_next nd = first_of l2 None /\ m <> n.
Proof.
  intros Hrep.
  destruct (rep_member s _ (l1 ++ [(m, v)]) n w l2 Hrep) as (nd & Hnd & Hw & Hp & Hx).
  { by rewrite <- app_assoc. }
  exists nd. rewrite last_of_snoc in Hp. split_and!; try done.
  destruct (rep_ne s l1 m v ((n, w) :: l2) n Hrep) as [Hne _]; [|done].
  right. apply elem_of_cons. by left.
Qed.

(** [map_unlink] takes the region after [m] out of the list and frees it. *)
Lemma wp_map_unlink s l1 m v n w l2 (Q : unit -> store -> Prop) :
  map_rep s (l1 ++ (m, v) :: (n, w) :: l2) -> droppable s w ->
  (forall s', map_rep s' (l1 ++ (m, v) :: l2) -> same_but_maps s s' ->
     s_brk s' = s_brk s -> Q tt s') ->
  wp (map_unlink m n) s Q.
Proof.
  intros Hrep Hdrop HQ. unfold map_unlink.
  destruct (rep_second _ _ _ _ _ _ _ Hrep) as (nd & Hnd & Hw & Hp & Hx & Hmn).
  destruct (rep_member s _ l1 m v _ Hrep eq_refl) as (md & Hmd & Hv & Hmp & Hmx).
  assert (Hside : forall x, x ∈ l1.*1 \/ x ∈ l2.*1 -> x <> m /\ x <> n).
  { intros x Hx0. destruct Hrep as [_ _ HND _]. rewrite fmap_app, !fmap_cons in HND.
    apply NoDup_app in HND as (_ & H1 & H2). apply NoDup_cons in H2 as [H2 H3].
    apply NoDup_cons in H3 as [H3 _]. rewrite elem_of_cons in H2.
    destruct Hx0 as [Hx0|Hx0]; [specialize (H1 _ Hx0); rewrite !elem_of_cons in H1|];
      split; intros ->; simpl in *; tauto. }
  assert (Hnext : forall y, map_next nd = Some y -> (y <> m /\ y <> n) /\ is_Some (s_maps s !! y)).
  { intros y Hy. rewrite Hx in Hy. split; [apply Hside; right; by apply first_of_in|].
    destruct Hrep as [Hd _ _ _]. eapply dll_lookup; [|exact Hd].
    rewrite fmap_app, !fmap_cons, elem_of_app, !elem_of_cons. apply first_of_in in Hy. auto. }
  assert (map_next nd <> Some m /\ map_next nd <> Some n) as [Hnm Hnn]
    by (split; intros E; destruct (Hnext _ E) as [[??] _]; done).
  apply wp_bind, (wp_load n nd); [done|]. st_step; [by rewrite Hmd|].
  apply wp_bind, wp_link_prev.
  { intros y Hy. destruct (Hnext y Hy) as [[? ?] ?]. by heap_at. }
  set (s1 := st_link_prev _ _ _).
  assert (Hs1 : s_maps s1 !! n = Some nd).
  { unfold s1. rewrite maps_link_prev, decide_False by done. heap_at. done. }
  destruct (link_prev_proj (map_next nd) (Some m) (on_maps (alter (set_map_next (map_next nd)) m) s))
    as (E1 & E2 & E3 & E4). fold s1 in E1, E2, E3, E4.
  assert (Hfinal : forall h, map_rep (on_maps (delete n) (on_bufs h s1)) (l1 ++ (m, v) :: l2)).
  { intros h. apply (rep_replace s _ l1 [(m, v); (n, w)] [(m, v)] l2 Hrep); try done.
    - simpl. split; [|done]. apply links_lookup. heap_at. unfold s1.
      rewrite lookup_delete_ne, maps_link_prev, decide_False by done. heap_at.
      rewrite Hmd. simpl. by rewrite Hx.
    - intros x n0 Hx0 Hn0. destruct (Hside x) as [? ?]; [left; by apply last_of_in|].
      heap_at. unfold s1. rewrite lookup_delete_ne, maps_link_prev by done.
      rewrite decide_False; [heap_at; rewrite Hn0, set_map_next_id; [done|]|].
      + exact (rep_before s l1 [(m, v); (n, w)] l2 x n0 Hrep Hx0 Hn0).
      + rewrite Hx. intros E. apply (rep_ne_sides s l1 m v ((n, w) :: l2) x Hrep);
          [by apply last_of_in|apply elem_of_cons; right; by apply first_of_in].
    - intros x n0 Hx0 Hn0. destruct (Hside x) as [? ?]; [right; by apply first_of_in|].
      heap_at. unfold s1. rewrite lookup_delete_ne, maps_link_prev by done.
      rewrite decide_True by congruence. heap_at. by rewrite Hn0.
    - intros x Hx0 Hne. destruct (Hside x) as [? ?]; [by left|].
      heap_at. unfold s1. rewrite lookup_delete_ne, maps_link_prev by done.
      rewrite decide_False; [by heap_at|].
      rewrite Hx. intros E. apply (rep_ne_sides s l1 m v ((n, w) :: l2) x Hrep);
        [done|apply elem_of_cons; right; by apply first_of_in].
    - intros x Hx0 Hne. destruct (Hside x) as [? ?]; [by right|].
      heap_at. unfold s1. rewrite lookup_delete_ne, maps_link_prev by done.
      rewrite decide_False by congruence. by heap_at.
    - cbn [s_gd on_maps on_bufs]. rewrite E4. cbn [s_gd on_maps].
      rewrite (rep_head _ _ Hrep), !first_of_app. done.
    - apply NoDup_singleton.
    - intros x [->|[]%not_elem_of_nil]%elem_of_cons. left. simpl. apply elem_of_cons. by left.
    - cbn [s_brk s_maps on_maps on_bufs]. rewrite E2. cbn [s_brk on_maps]. intros x Hx0.
      assert (Hn0 : s_maps s !! x = None) by (by apply Hrep).
      assert (x <> m /\ x <> n) as [? ?] by (split; congruence).
      rewrite lookup_delete_ne by done. unfold s1. rewrite maps_link_prev.
      rewrite decide_False; [heap_at; by rewrite Hn0|].
      intros E. destruct (Hnext _ E) as [_ [? ?]]. congruence. }
  unfold map_destroy. apply wp_bind, (wp_load n nd); [done|].
  assert (Hend : forall h, wp (free_map n) (on_bufs h s1) Q).
  { intros h. apply wp_free_map; [simpl; by rewrite Hs1|].
    apply HQ; [apply Hfinal| |simpl; by rewrite E2].
    split; simpl; [by rewrite E3|]. rewrite E4. apply set_gd_mediamap_id. }
  destruct (Z.eqb_spec (map_alloc_flag nd) 0) as [Ha|Ha].
  - st_step. exact (Hend id).
  - apply wp_bind. eapply wp_free_ptr; [|apply Hend].
    specialize (Hdrop ltac:(by rewrite <- Hw)). rewrite <- Hw in Hdrop. simpl in Hdrop.
    unfold owned in *. rewrite E1. done.
Qed.

Lemma rep_update_second s l1 m v n w l2 f w' :
  map_rep s (l1 ++ (m, v) :: (n, w) :: l2) ->
  (forall nd, seg_of nd = w ->
    seg_of (f nd) = w' /\ map_next (f nd) = map_next nd /\ map_prev (f nd) = map_prev nd) ->
  map_rep (on_maps (alter f n) s) (l1 ++ (m, v) :: (n, w') :: l2).
Proof.
  intros Hrep Hf. pose proof (rep_update s (l1 ++ [(m, v)]) n w l2 f w') as H.
  rewrite <- !app_assoc in H. by apply H.
Qed.

Lemma rep_second_resized s l1 m v n w l2 a b :
  map_rep s (l1 ++ (m, v) :: (n, w) :: l2) ->
  map_rep (on_maps (alter (set_map_start a) n) (on_maps (alter (set_map_size b) n) s))
    (l1 ++ (m, v) :: (n, seg_resize a b w) :: l2) /\
  map_rep (on_maps (alter (set_map_size b) n) (on_maps (alter (set_map_start a) n) s))
    (l1 ++ (m, v) :: (n, seg_resize a b w) :: l2).
Proof.
  intros Hrep. split.
  - apply rep_update_second with (w := seg_resize (sg_start w) b w); [|intros nd [=]; unfold seg_of, seg_resize; simpl; split_and!; congruence].
    apply rep_update_second with (w := w); [done|]. by intros nd <-.
  - apply rep_update_second with (w := seg_resize a (sg_size w) w); [|intros nd [=]; unfold seg_of, seg_resize; simpl; split_and!; congruence].
    apply rep_update_second with (w := w); [done|]. by intros nd <-.
Qed.

(** The unused region [n] gives up [grow] sectors, or goes. *)
Lemma wp_take s l1 m v n w l2 grow (Q : unit -> store -> Prop) :
  map_rep s (l1 ++ (m, v) :: (n, w) :: l2) -> droppable s w -> 
  (forall s', map_rep s' (l1 ++ (m, v) ::
       (if sg_size w =? grow then l2
        else (n, seg_resize (sg_start w + grow) (sg_size w - grow) w) :: l2)) ->
     same_but_maps s s' -> s_brk s' = s_brk s -> Q tt s') ->
  forall s1, map_rep s1 (l1 ++ (m, v) ::
       (n, seg_resize (sg_start w + grow) (sg_size w - grow) w) :: l2) ->
  same_but_maps s s1 -> s_brk s1 = s_brk s -> s_bufs s1 = s_bufs s ->
  wp (nn ← load n; if map_size nn =? 0 then map_unlink m n else mret tt) s1 Q.
Proof.
  intros Hrep Hdrop HQ s1 Hrep1 Hs1 Hbrk Hbufs.
  destruct (rep_second _ _ _ _ _ _ _ Hrep1) as (nd & Hnd & Hw & _).
  apply wp_bind, (wp_load n nd); [done|].
  replace (map_size nd) with (sg_size w - grow) by (apply (f_equal sg_size) in Hw; done).
  destruct (Z.eqb_spec (sg_size w) grow), (Z.eqb_spec (sg_size w - grow) 0); try lia.
  - eapply (wp_map_unlink s1 l1 m v n _ l2); [exact Hrep1| |].
    + unfold droppable, owned in *. simpl. by rewrite Hbufs.
    + intros s' H1 H2 H3. apply HQ; [done|by eapply same_but_maps_trans|congruence].
  - apply wp_ret. by apply HQ.
Qed.

Lemma wp_bind_assoc {A B C} (e : St store A) (f : A -> St store B) (g : B -> St store C) s Q :
  wp (x ← (y ← e; f y); g x) s Q -> wp (y ← e; x ← f y; g x) s Q.
Proof. unfold wp, mbind, St_bind. destruct (e s) as [[y s']|]; done. Qed.
End surgery.

(** ** The refinement *)
Section refinement.
Context {os : Os}.
Implicit Types (s : store) (l : segs).

Lemma resize_round_bounds size alignment :
  0 < size < 2 ^ 61 -> 0 <= alignment < 2 ^ 61 ->
  0 < resize_round size alignment < 2 ^ 62 /\
  resize_round size alignment =
    if alignment mod size =? 0 then size else (size + alignment) / alignment * alignment.
Proof.
  intros Hs Ha. unfold resize_round. rewrite Z.rem_mod_nonneg by lia.
  destruct (Z.eqb_spec (alignment mod size) 0) as [E|E]; simpl; [lia|].
  assert (0 < alignment) by (destruct (Z.eq_dec alignment 0) as [->|]; [done|lia]).
  rewrite (s64_small (size + alignment)), Z.quot_div_nonneg by lia.
  pose proof (Z.div_mod (size + alignment) alignment ltac:(lia)).
  pose proof (Z.mod_pos_bound (size + alignment) alignment ltac:(lia)).
  rewrite s64_small by nia. nia.
Qed.

(** What [map_resize] guarantees: the outcome of the list operation. *)
Definition resize_post (s : store) (out : Z * segs) (r : Z) (s' : store) : Prop :=
  r = out.1 /\ map_rep s' out.2 /\ same_but_maps s s'.

Section at_region.
Context (s : store) (l1 : segs) (m : loc) (v : seg) (l2 : segs) (total : Z).
Hypothesis Hok : map_ok s (l1 ++ (m, v) :: l2) total.
Hypothesis Hdrop : match l2 with (n, w) :: _ => droppable s w | [] => True end.

Lemma region_bounds :
  0 <= sg_start v /\ 0 < sg_size v /\ sg_end v < 2 ^ 62 /\
  match l2 with
  | (n, w) :: _ => sg_start w = sg_end v /\ 0 < sg_size w /\ sg_end w < 2 ^ 62
  | [] => True
  end.
Proof.
  destruct Hok as (_ & (c & T1 & (Hc & Hv & T2))%tiles_app & Ht).
  pose proof (tiles_mono _ _ _ T1). pose proof (tiles_mono _ _ _ T2).
  destruct l2 as [|[n w] l3]; [split_and!; lia|]. destruct T2 as (? & ? & T3).
  pose proof (tiles_mono _ _ _ T3). split_and!; lia.
Qed.

(** The common test of the branches that look at the next region. *)
Lemma wp_next_unused {md : map_node} (k0 : St store Z) (k : loc -> map_node -> St store Z) Q :
  map_next md = first_of l2 None ->
  (seg_unused l2 = None -> wp k0 s Q) ->
  (forall n w l3 nn, l2 = (n, w) :: l3 -> seg_unused l2 = Some (n, w, l3) ->
     s_maps s !! n = Some nn -> seg_of nn = w -> sg_type w = MAP_TYPE_UNUSED -> wp (k n nn) s Q) ->
  wp (match map_next md with
      | None => k0
      | Some n => nn ← load n; if negb (map_type nn =? MAP_TYPE_UNUSED) then k0 else k n nn
      end) s Q.
Proof.
  intros -> H0 Hk. destruct Hok as (Hrep & _). destruct l2 as [|[n w] l3]; [by apply H0|].
  simpl. destruct (rep_second _ _ _ _ _ _ _ Hrep) as (nn & Hnn & Hw & _).
  apply wp_bind, (wp_load n nn); [done|].
  assert (E : map_type nn = sg_type w) by (by rewrite <- Hw). rewrite E.
  simpl in H0, Hk. destruct (Z.eqb_spec (sg_type w) MAP_TYPE_UNUSED); simpl; eauto.
Qed.

Lemma wp_map_expand new Q :
  new < 2 ^ 62 -> sg_size v < new ->
  (forall r s', resize_post s (match seg_unused l2 with
      | None => (-1, l1 ++ (m, v) :: l2)
      | Some (n, w, l3) =>
        if sg_size w <? new - sg_size v then (-1, l1 ++ (m, v) :: l2)
        else (new, seg_grow l1 m v n w l3 new)
      end) r s' -> Q r s') ->
  wp (map_expand m new) s Q.
Proof.
  intros Hnew Hgt HQ. unfold map_expand. pose proof Hok as (Hrep & _).
  destruct region_bounds as (B1 & B2 & B3 & B4).
  destruct (rep_member s _ l1 m v l2 Hrep eq_refl) as (md & Hmd & Hv & _ & Hx).
  apply wp_bind, (wp_load m md); [done|].
  change (map_size md) with (sg_size (seg_of md)). rewrite Hv.
  assert (Hsame : resize_post s (-1, l1 ++ (m, v) :: l2) (-1) s)
    by (split_and!; [done..|apply same_but_maps_refl]).
  apply wp_next_unused; [done| |].
  { intros E. rewrite E in HQ. apply wp_ret. by apply HQ. }
  intros n w l3 nn El E Hnn Hw _. rewrite E in HQ. revert B4 Hdrop Hrep. rewrite El.
  intros B4 Hdrop' Hrep. unfold sg_end in *. cbv zeta.
  assert (E1 : map_size nn = sg_size w) by (by rewrite <- Hw).
  assert (E2 : map_start nn = sg_start w) by (by rewrite <- Hw).
  rewrite (s64_small (new - sg_size v)), E1, E2 by lia.
  destruct (Z.ltb_spec (sg_size w) (new - sg_size v)).
  { apply wp_ret. by apply HQ. }
  rewrite !s64_small by lia. clear Hsame.
  do 2 (st_step; [heap_some|]). set (s1 := on_maps _ _). apply wp_bind_assoc, wp_bind.
  apply (wp_take s l1 m v n w l3 (new - sg_size v) _ Hrep Hdrop').
  - intros s' Hrep' Hs' _. destruct (rep_member s' _ l1 m v _ Hrep' eq_refl) as (md' & Hmd' & _).
    st_step; [by rewrite Hmd'|]. st_step. apply HQ. split; [done|].
    split; [|eapply same_but_maps_trans; [done|apply same_but_maps_heap]].
    apply rep_update with (v := v); [done|]. intros nd <-. done.
  - by apply rep_second_resized.
  - split; [done|]. apply set_gd_mediamap_id.
  - done.
  - done.
Qed.

Lemma wp_map_coalesce alignment Q :
  0 <= alignment < 2 ^ 62 ->
  (forall r s', resize_post s (match seg_unused l2 with
      | None => (-1, l1 ++ (m, v) :: l2)
      | Some (n, w, l3) =>
        let total := sg_size v + sg_size w in
        let new := if alignment =? 0 then total else total / alignment * alignment in
        if new <=? sg_size v then (-1, l1 ++ (m, v) :: l2)
        else (new, seg_grow l1 m v n w l3 new)
      end) r s' -> Q r s') ->
  wp (map_coalesce m alignment) s Q.
Proof.
  intros Hal HQ. unfold map_coalesce. pose proof Hok as (Hrep & _).
  destruct region_bounds as (B1 & B2 & B3 & B4).
  destruct (rep_member s _ l1 m v l2 Hrep eq_refl) as (md & Hmd & Hv & _ & Hx).
  apply wp_bind, (wp_load m md); [done|].
  change (map_size md) with (sg_size (seg_of md)). rewrite Hv.
  assert (Hsame : resize_post s (-1, l1 ++ (m, v) :: l2) (-1) s)
    by (split_and!; [done..|apply same_but_maps_refl]).
  apply wp_next_unused; [done| |].
  { intros E. rewrite E in HQ. apply wp_ret. by apply HQ. }
  intros n w l3 nn El E Hnn Hw _. rewrite E in HQ. revert B4 Hdrop Hrep Hsame. rewrite El.
  intros B4 Hdrop' Hrep Hsame. unfold sg_end in *. cbv zeta.
  assert (E1 : map_size nn = sg_size w) by (by rewrite <- Hw).
  assert (E2 : map_start nn = sg_start w) by (by rewrite <- Hw).
  rewrite El in HQ. cbv zeta in HQ. rewrite E1, E2, (s64_small (_ + sg_size w)) by lia.
  assert (Hmn : m <> n) by (by destruct (rep_second _ _ _ _ _ _ _ Hrep) as (? & ? & ? & ? & ? & ?)).
  set (grown new := on_maps (alter (set_map_size new) m) s).
  assert (Hgrown : forall new, map_rep (grown new) (l1 ++ (m, seg_resize (sg_start v) new v) :: (n, w) :: l3)).
  { intros new. eapply rep_update; [exact Hrep|]. by intros nd <-. }
  destruct (Z.eqb_spec alignment 0) as [->|Hne].
  - destruct (Z.leb_spec (sg_size v + sg_size w) (sg_size v)); [lia|].
    st_step; [by rewrite Hmd|]. fold (grown (sg_size v + sg_size w)).
    apply wp_bind. eapply wp_map_unlink; [apply Hgrown|exact Hdrop'|].
    intros s' Hrep' Hs' _. apply wp_ret. apply HQ. split; [done|]. split.
    + unfold seg_grow. simpl. by destruct (Z.eqb_spec (sg_size w) (sg_size v + sg_size w - sg_size v)); [|lia].
    + eapply same_but_maps_trans; [apply same_but_maps_heap|exact Hs'].
  - rewrite Z.quot_div_nonneg by lia. set (tot := sg_size v + sg_size w) in *.
    assert (0 <= tot / alignment * alignment <= tot).
    { assert (0 <= tot) by (subst tot; lia). assert (Hap : 0 < alignment) by lia.
      pose proof (Z.mul_div_le tot alignment Hap).
      pose proof (Z.div_pos tot alignment ltac:(done) Hap). lia. }
    rewrite (s64_small (_ * _)) by (clear - H B3 B4 B1; subst tot; lia).
    set (new := tot / alignment * alignment) in *. clearbody new.
    destruct (Z.leb_spec new (sg_size v)); [apply wp_ret; by apply HQ|].
    assert (0 < new - sg_size v /\ new - sg_size v <= sg_size w) by (subst tot; lia).
    rewrite (s64_small (new - sg_size v)), !s64_small by lia.
    st_step; [by rewrite Hmd|]. do 2 (st_step; [heap_some|]).
    apply wp_bind_assoc, wp_bind.
    apply (wp_take (grown new) l1 m _ n w l3 (new - sg_size v) _ (Hgrown new) Hdrop').
    + intros s' Hrep' Hs' _. apply wp_ret. apply HQ. split; [done|]. split; [exact Hrep'|].
      eapply same_but_maps_trans; [apply same_but_maps_heap|exact Hs'].
    + eapply proj2, rep_second_resized, Hgrown.
    + split; [done|]. apply set_gd_mediamap_id.
    + done.
    + done.
Qed.

(** The region that the cut leaves is linked in after [m]. *)
Lemma wp_link_after new k Q :
  k = s_brk s -> new < sg_size v -> 0 < new ->
  let o := Seg (sg_start v + new) (sg_size v - new) MAP_TYPE_UNUSED 0 PNull 0 in
  let s1 := on_maps <[k := MapNode (sg_start o) (sg_size o) None None MAP_TYPE_UNUSED 0 PNull 0]>
              (on_brk S (on_maps (alter (set_map_size new) m) s)) in
  (forall s', map_rep s' (l1 ++ (m, seg_resize (sg_start v) new v) :: (k, o) :: l2) ->
     same_but_maps s s' -> Q new s') ->
  wp (update m (set_map_next (Some k));;
      update k (set_map_prev (Some m));;
      update k (set_map_next (first_of l2 None));;
      link_prev (first_of l2 None) (Some k);;
      mret new) s1 Q.
Proof.
  intros -> Hlt Hnew o s1 HQ. pose proof Hok as (Hrep & _).
  destruct (rep_member s _ l1 m v l2 Hrep eq_refl) as (md & Hmd & Hv & Hp & Hx).
  assert (Hnone : forall x, (s_brk s <= x)%nat -> s_maps s !! x = None) by apply Hrep.
  pose proof (rep_n_lt _ _ _ _ _ Hrep) as Hmk.
  assert (Hside : forall x, x ∈ l1.*1 \/ x ∈ l2.*1 -> x <> m /\ x <> s_brk s).
  { intros x Hx0. destruct (rep_ne _ _ _ _ _ x Hrep Hx0). lia. }
  assert (Hfst : forall y, first_of l2 None = Some y ->
    (y <> m /\ y <> s_brk s) /\ is_Some (s_maps s !! y)).
  { intros y Hy. split; [apply Hside; right; by apply first_of_in|].
    by eapply rep_neighbour; [exact Hrep|right]. }
  unfold s1. clear s1. remember (s_brk s) as k eqn:Ek. assert (k <> m) by lia.
  assert (first_of l2 None <> Some m /\ first_of l2 None <> Some k) as [? ?]
    by (split; intros E; destruct (Hfst _ E) as [[??] _]; done).
  do 3 (st_step; [heap_at; rewrite ?Hmd; eauto using mk_is_Some|]). apply wp_bind, wp_link_prev.
  { intros y Hy. destruct (Hfst y Hy) as [[? ?] ?]. by heap_at. }
  st_step.
  match goal with |- Q new (st_link_prev ?y ?k ?s2) =>
    destruct (link_prev_proj y k s2) as (E1 & E2 & E3 & E4) end.
  apply HQ; [|split; [by rewrite E3|rewrite E4; apply set_gd_mediamap_id]].
  apply (rep_replace s _ l1 [(m, v)] [(m, _); (k, o)] l2 Hrep); try done.
  - simpl. split; [|split; [|done]]; apply links_lookup; rewrite maps_link_prev;
      rewrite decide_False by done; heap_at; rewrite ?Hmd; simpl; [|done].
    split_and!; [|done|done]. unfold seg_of, seg_resize in *. subst v. done.
  - intros x n0 Hx0 Hn0. destruct (Hside x) as [? ?]; [left; by apply last_of_in|].
    pose proof (rep_before s l1 [(m, v)] l2 x n0 Hrep Hx0 Hn0) as Hb.
    rewrite maps_link_prev, decide_False.
    + heap_at. rewrite Hn0. by rewrite set_map_next_id.
    + intros E. apply (rep_ne_sides s l1 m v l2 x Hrep); [by apply last_of_in|by apply first_of_in].
  - intros x n0 Hx0 Hn0. destruct (Hside x) as [? ?]; [right; by apply first_of_in|].
    rewrite maps_link_prev, decide_True by done. heap_at. by rewrite Hn0.
  - intros x Hx0 Hne. destruct (Hside x) as [? ?]; [by left|].
    rewrite maps_link_prev, decide_False; [by heap_at|].
    intros E. apply (rep_ne_sides s l1 m v l2 x Hrep); [done|by apply first_of_in].
  - intros x Hx0 Hne. destruct (Hside x) as [? ?]; [by right|].
    rewrite maps_link_prev, decide_False by done. by heap_at.
  - rewrite E4. exact (head_keep s l1 m v l2 [(m, _); (k, o)] Hrep eq_refl).
  - simpl. repeat (apply NoDup_cons; split); rewrite ?elem_of_cons, ?elem_of_nil;
      try apply NoDup_nil_2; intuition congruence.
  - intros x. simpl. rewrite !elem_of_cons, elem_of_nil. intros [->|[->|[]]]; [auto|].
    right. by rewrite Ek.
  - rewrite E2. simpl. intros x Hx0.
    assert (k <> x /\ m <> x /\ s_maps s !! x = None) as (? & ? & E).
    { split_and!; [lia..|]. apply Hnone. lia. }
    rewrite maps_link_prev, decide_False; [heap_at; by rewrite E|].
    intros Ex. destruct (Hfst x Ex) as [_ [? ?]]. congruence.
Qed.

Lemma wp_map_shrink new Q :
  0 < new -> new < sg_size v ->
  (forall r s', resize_post s (
      match seg_unused l2 with
      | Some (n, w, l3) =>
        (new, l1 ++ (m, seg_resize (sg_start v) new v) ::
              (n, seg_resize (sg_start w - new) (sg_size w + new) w) :: l3)
      | None =>
        if os_alloc (s_brk s) then
          (new, l1 ++ (m, seg_resize (sg_start v) new v) ::
                (s_brk s, Seg (sg_start v + new) (sg_size v - new) MAP_TYPE_UNUSED 0 PNull 0)
                :: l2)
        else (-1, l1 ++ (m, seg_resize (sg_start v) new v) :: l2)
      end) r s' -> Q r s') ->
  wp (map_shrink m new) s Q.
Proof.
  intros Hnew Hlt HQ. unfold map_shrink. pose proof Hok as (Hrep & _).
  destruct region_bounds as (B1 & B2 & B3 & B4).
  destruct (rep_member s _ l1 m v l2 Hrep eq_refl) as (md & Hmd & Hv & _ & Hx).
  apply wp_bind, (wp_load m md); [done|].
  change (map_size md) with (sg_size (seg_of md)).
  change (map_start md) with (sg_start (seg_of md)). rewrite Hv, Hx. unfold sg_end in *.
  st_step; [by rewrite Hmd|]. set (s1 := on_maps (alter (set_map_size new) m) s).
  assert (Hrep1 : map_rep s1 (l1 ++ (m, seg_resize (sg_start v) new v) :: l2)).
  { eapply rep_update; [exact Hrep|]. by intros nd <-. }
  assert (Hnone : seg_unused l2 = None ->
    wp (oo ← map_create (s64 (sg_start v + new)) (s64 (sg_size v - new)) MAP_TYPE_UNUSED;
        match oo with
        | None => mret (-1)
        | Some o =>
          update m (set_map_next (Some o));;
          update o (set_map_prev (Some m));;
          update o (set_map_next (first_of l2 None));;
          link_prev (first_of l2 None) (Some o);;
          mret new
        end) s1 Q).
  { intros E. rewrite E in HQ. rewrite !s64_small by lia.
    apply wp_bind, wp_calloc_map; intros Ha; simpl in Ha; rewrite Ha in HQ.
    - apply (wp_link_after new (s_brk s)); [done..|]. intros s' Hr Hs. by apply HQ.
    - apply wp_ret, HQ. split; [done|]. split; [|split; [done|apply set_gd_mediamap_id]].
      apply (rep_with_brk s1); [done|simpl; lia]. }
  destruct l2 as [|[n w] l3]; [by apply Hnone|]. simpl seg_unused in *.
  destruct (rep_second _ _ _ _ _ _ _ Hrep1) as (nn & Hnn & Hw & _).
  cbn [first_of]. apply wp_bind, wp_bind, (wp_load n nn); [done|].
  assert (E1 : map_type nn = sg_type w) by (by rewrite <- Hw). rewrite E1.
  destruct (Z.eqb_spec (sg_type w) MAP_TYPE_UNUSED) as [Hu|Hu]; apply wp_ret; [|by apply Hnone].
  assert (E2 : map_size nn = sg_size w) by (by rewrite <- Hw).
  assert (E3 : map_start nn = sg_start w) by (by rewrite <- Hw).
  rewrite E2, E3, !s64_small by lia.
  st_step; [by rewrite Hnn|]. st_step; [heap_some|]. st_step. apply HQ. split; [done|].
  split; [|split; [done|apply set_gd_mediamap_id]].
  by eapply proj2, rep_second_resized.
Qed.

Lemma wp_map_resize size alignment Q :
  size < 2 ^ 61 -> alignment < 2 ^ 61 ->
  (forall r s', resize_post s (seg_resize_op (s_brk s) l1 m v l2 size alignment) r s' -> Q r s') ->
  wp (map_resize m size alignment) s Q.
Proof.
  intros Hs Ha HQ. unfold map_resize, seg_resize_op in *. pose proof Hok as (Hrep & _).
  destruct (rep_member s _ l1 m v l2 Hrep eq_refl) as (md & Hmd & Hv & _ & Hx).
  apply wp_bind, (wp_load m md); [done|].
  change (map_size md) with (sg_size (seg_of md)). rewrite Hv. cbv zeta in *.
  assert (Hsame : forall r, resize_post s (r, l1 ++ (m, v) :: l2) r s)
    by (intros r; split_and!; [done..|apply same_but_maps_refl]).
  destruct ((size <? 0) || (alignment <? 0)) eqn:E; [by apply wp_ret, HQ|]. zbool.
  destruct (Z.eqb_spec size 0) as [->|Hne].
  - apply wp_map_coalesce; [lia|done].
  - destruct (resize_round_bounds size alignment) as [B _]; [lia..|].
    set (new := resize_round size alignment) in *.
    destruct (Z.ltb_spec new (sg_size v)); [apply wp_map_shrink; done || lia|].
    destruct (Z.ltb_spec (sg_size v) new); [apply wp_map_expand; done || lia|].
    by apply wp_ret, HQ.
Qed.
End at_region.
End refinement.

(** ** Which branches keep the tiling *)

(** The shrinking branch that moves an unused region, or fails half way. *)
Definition resize_breaks {os : Os} (k : loc) (v : seg) (l2 : segs) (size alignment : Z) : bool :=
  (0 <? size) && (0 <=? alignment) && (resize_round size alignment <? sg_size v) &&
  match seg_unused l2 with Some _ => true | None => negb (os_alloc k) end.

Section tilings.
Context {os : Os}.
Implicit Types (s : store) (l : segs).

Lemma seg_unused_some l n w r :
  seg_unused l = Some (n, w, r) -> l = (n, w) :: r /\ sg_type w = MAP_TYPE_UNUSED.
Proof.
  destruct l as [|[n' w'] l]; [done|]. simpl.
  destruct (Z.eqb_spec (sg_type w') MAP_TYPE_UNUSED); [|done]. by intros [= -> -> ->].
Qed.

Lemma seg_grow_tiles l1 m v n w l2 new total :
  tiles 0 (l1 ++ (m, v) :: (n, w) :: l2) total ->
  sg_size v < new -> new <= sg_size v + sg_size w ->
  tiles 0 (seg_grow l1 m v n w l2 new) total.
Proof.
  intros (c & T1 & (Hc & Hv & (Hw & Hw0 & T2)))%tiles_app Hgt Hle.
  apply tiles_app. exists c. split; [done|]. unfold seg_resize, sg_end in *. simpl.
  split; [done|]. split; [lia|]. destruct (Z.eqb_spec (sg_size w) (new - sg_size v)); simpl.
  - match goal with |- tiles ?a _ _ => replace a with (sg_end w); [exact T2|] end.
    unfold sg_end. simpl. lia.
  - unfold sg_end. simpl. split_and!; [lia|lia|].
    match goal with |- tiles ?a _ _ => replace a with (sg_end w); [exact T2|] end.
    unfold sg_end. lia.
Qed.

Lemma seg_resize_op_tiles k l1 m v l2 size alignment total :
  tiles 0 (l1 ++ (m, v) :: l2) total -> total < 2 ^ 62 ->
  size < 2 ^ 61 -> alignment < 2 ^ 61 ->
  let out := seg_resize_op k l1 m v l2 size alignment in
  (resize_breaks k v l2 size alignment = false ->
   tiles 0 out.2 total /\ (out.1 <> -1 -> exists l3, out.2 =
     l1 ++ (m, seg_resize (sg_start v) out.1 v) :: l3)) /\
  (resize_breaks k v l2 size alignment = true ->
   sg_size v <> 2 * resize_round size alignment -> ~ tiles 0 out.2 total).
Proof.
  intros Ht Htot Hs Ha out. subst out.
  pose proof Ht as (c & T1 & (Hc & Hv & T2))%tiles_app.
  pose proof (tiles_mono _ _ _ T1). pose proof (tiles_mono _ _ _ T2).
  assert (Hself : l1 ++ (m, v) :: l2 = l1 ++ (m, seg_resize (sg_start v) (sg_size v) v) :: l2)
    by (by destruct v).
  assert (Hfail : tiles 0 (l1 ++ (m, v) :: l2) total /\ ((-1 <> -1)%Z -> exists l3,
      l1 ++ (m, v) :: l2 = l1 ++ (m, seg_resize (sg_start v) (-1) v) :: l3)) by done.
  unfold seg_resize_op, resize_breaks.
  destruct ((size <? 0) || (alignment <? 0)) eqn:E0; zbool.
  { split; [intros _; exact Hfail|]. destruct (Z.ltb_spec 0 size), (Z.leb_spec 0 alignment); try done; lia. }
  destruct (Z.eqb_spec size 0) as [->|Hne].
  { split; [|done]. intros _. destruct (seg_unused l2) as [[[n w] l3]|] eqn:Eu; [|exact Hfail].
    apply seg_unused_some in Eu as [-> _]. cbv zeta.
    set (tot := sg_size v + sg_size w). set (new := if alignment =? 0 then tot else _).
    assert (new <= tot).
    { subst new. destruct (Z.eqb_spec alignment 0); [lia|].
      rewrite Z.mul_comm. apply Z.mul_div_le. lia. }
    destruct (Z.leb_spec new (sg_size v)); [exact Hfail|]. simpl. split.
    - apply seg_grow_tiles; [done|lia|subst tot; lia].
    - intros _. by eexists. }
  destruct (resize_round_bounds size alignment) as [B _]; [lia..|].
  set (new := resize_round size alignment) in *. clearbody new.
  replace (0 <? size) with true by (symmetry; apply Z.ltb_lt; lia).
  replace (0 <=? alignment) with true by (symmetry; apply Z.leb_le; lia). simpl andb.
  destruct (Z.ltb_spec new (sg_size v)); simpl andb.
  - destruct (seg_unused l2) as [[[n w] l3]|] eqn:Eu.
    + split; [done|]. intros _ Hn. simpl. apply seg_unused_some in Eu as [-> _].
      intros (c' & T1' & (Hc' & _ & (Hw' & _)))%tiles_app. unfold sg_end in *.
      simpl in *. destruct T2 as (Hw & _). unfold sg_end in *. simpl in *. lia.
    + destruct (os_alloc k); simpl.
      * split; [|done]. intros _. split; [|by eexists].
        apply tiles_app. exists c. split; [done|]. unfold seg_resize, sg_end in *. simpl.
        unfold sg_end. simpl. split_and!; [lia..|].
        match goal with |- tiles ?a _ _ => replace a with (sg_end v); [exact T2|] end.
        unfold sg_end. lia.
      * split; [done|]. intros _ _ (c' & T1' & (Hc' & _ & T2'))%tiles_app.
        unfold sg_end in *. simpl in *. destruct l2 as [|[n w] l3]; simpl in T2, T2'; [lia|].
        unfold sg_end in *. simpl in *. destruct T2 as (Hw & _), T2' as (Hw' & _). lia.
  - split; [|done]. intros _.
    destruct (Z.ltb_spec (sg_size v) new).
    + destruct (seg_unused l2) as [[[n w] l3]|] eqn:Eu; [|exact Hfail].
      apply seg_unused_some in Eu as [-> _].
      destruct (Z.ltb_spec (sg_size w) (new - sg_size v)); [exact Hfail|]. simpl.
      split; [apply seg_grow_tiles; [done|lia|lia]|]. intros _. by eexists.
    + simpl. split; [done|]. intros _. exists l2. rewrite Hself. repeat f_equal. lia.
Qed.

(** C6: [map_resize] implements the operation on the list of regions: it returns, and
    leaves the regions and returns the value that the operation gives, on every branch;
    except on the branches [resize_breaks] singles out, the regions still tile the
    device and a result other than -1 is the new size of the region. *)
Theorem map_resize_refines s l1 m v l2 total size alignment :
  map_ok s (l1 ++ (m, v) :: l2) total ->
  match l2 with (n, w) :: _ => droppable s w | [] => True end ->
  size < 2 ^ 61 -> alignment < 2 ^ 61 ->
  exists s', let out := seg_resize_op (s_brk s) l1 m v l2 size alignment in
    map_resize m size alignment s = Some (out.1, s') /\
    map_rep s' out.2 /\ same_but_maps s s' /\
    (resize_breaks (s_brk s) v l2 size alignment = false ->
     map_ok s' out.2 total /\
     (out.1 <> -1 -> exists l3, out.2 = l1 ++ (m, seg_resize (sg_start v) out.1 v) :: l3)).
Proof.
  intros Hok Hdrop Hs Ha. pose proof Hok as (_ & Ht & Htot).
  destruct (proj1 (wp_elim (map_resize m size alignment) s _)
    (wp_map_resize s l1 m v l2 total Hok Hdrop size alignment _ Hs Ha (fun r s' H => H)))
    as (r & s' & Hr & -> & Hrep & Hsame).
  exists s'. cbv zeta. split_and!; try done. intros Hb.
  destruct (proj1 (seg_resize_op_tiles (s_brk s) _ _ _ _ _ _ _ Ht Htot Hs Ha) Hb) as [T R].
  done.
Qed.

(** C7: Shrinking a region that an unused one follows breaks the map: [map_resize]
    reports success, but moves the start of the unused region down by the new size
    instead of by what was given up, so that the regions no longer tile the device
    (unless the size was halved); the same holds when the new unused region cannot be
    allocated and -1 is returned. *)
Theorem map_resize_shrink_breaks s l1 m v l2 total size alignment :
  map_ok s (l1 ++ (m, v) :: l2) total ->
  match l2 with (n, w) :: _ => droppable s w | [] => True end ->
  size < 2 ^ 61 -> alignment < 2 ^ 61 ->
  resize_breaks (s_brk s) v l2 size alignment = true ->
  sg_size v <> 2 * resize_round size alignment ->
  exists r s' l', map_resize m size alignment s = Some (r, s') /\ map_rep s' l' /\
    ~ tiles 0 l' total /\
    (seg_unused l2 <> None -> r = resize_round size alignment) /\
    (seg_unused l2 = None -> r = -1).
Proof.
  intros Hok Hdrop Hs Ha Hb Hn. pose proof Hok as (_ & Ht & Htot).
  destruct (proj1 (wp_elim (map_resize m size alignment) s _)
    (wp_map_resize s l1 m v l2 total Hok Hdrop size alignment _ Hs Ha (fun r s' H => H)))
    as (r & s' & Hr & -> & Hrep & Hsame).
  eexists _, s', _. split; [exact Hr|]. split; [exact Hrep|].
  split; [by apply (proj2 (seg_resize_op_tiles _ _ _ _ _ _ _ _ Ht Htot Hs Ha))|].
  unfold seg_resize_op, resize_breaks in *. zbool.
  destruct (Z.ltb_spec size 0), (Z.ltb_spec alignment 0); try lia. simpl.
  destruct (Z.eqb_spec size 0); [lia|].
  destruct (Z.ltb_spec (resize_round size alignment) (sg_size v)); [|lia].
  destruct (seg_unused l2) as [[[??]?]|]; [done|]. zbool.
  split; [done|]. destruct (os_alloc (s_brk s)); done.
Qed.

(** The rounding of [map_resize] tests the remainder the wrong way round: asked for
    a [k]-th of the alignment ([k >= 2]) it does not round at all, and asked for [k]
    times the alignment it adds a further unit. *)
Theorem resize_round_wrong a k :
  0 < a -> 2 <= k -> k * a < 2 ^ 61 ->
  resize_round a (k * a) = a /\ a mod (k * a) <> 0 /\
  resize_round (k * a) a = k * a + a.
Proof.
  intros Ha Hk Hb. assert (0 < k * a) by nia. assert (Hlt : a < k * a) by nia.
  destruct (resize_round_bounds a (k * a) ltac:(lia) ltac:(lia)) as [_ ->].
  destruct (resize_round_bounds (k * a) a ltac:(lia) ltac:(lia)) as [_ ->].
  rewrite Z_mod_mult. simpl. rewrite !(Z.mod_small a) by lia.
  split; [done|]. split; [lia|]. destruct (Z.eqb_spec a 0); [lia|].
  replace (k * a + a) with ((k + 1) * a) by lia. rewrite Z.div_mul by lia. lia.
Qed.
End tilings.
