(* ===== verification/MapProps.v ===== *)
(** * MapProps: the life of the media map

    From [map_init] on, through any sequence of the operations of sbin/fgdisk/map.c:
    what the lookups return, the invariant of the map, and concrete maps on which the
    theorems of [MediaMap] and [MapResize] apply. *)
From Stdlib Require Import ZArith Lia.
From stdpp Require Import base list option gmap.
From S2P Require Import Prelude Dll Gd MediaMap MapResize.
Open Scope Z_scope.

(** ** [map_init] *)
Section init.
Context {os : Os}.
Implicit Types (s : store) (l : segs).

Lemma digits10_spec fuel v :
  0 <= v < 10 ^ Z.of_nat fuel -> (0 < fuel)%nat ->
  v < 10 ^ digits10 fuel v /\ 1 <= digits10 fuel v /\
  (digits10 fuel v = 1 \/ 10 ^ (digits10 fuel v - 1) <= v).
Proof.
  revert v. induction fuel as [|fuel IH]; intros v Hv Hf; [lia|]. cbn [digits10].
  destruct (Z.ltb_spec v 10); [lia|].
  rewrite Nat2Z.inj_succ, Z.pow_succ_r in Hv by lia.
  assert (Hq : 1 <= v / 10 < 10 ^ Z.of_nat fuel).
  { split; [apply Z.div_le_lower_bound; lia|apply Z.div_lt_upper_bound; lia]. }
  destruct (decide (fuel = 0%nat)) as [->|]; [simpl in Hq; lia|].
  destruct (IH (v / 10)) as (I1 & I2 & I3); [lia..|].
  set (d := digits10 fuel (v / 10)) in *. clearbody d.
  pose proof (Z.div_mod v 10 ltac:(lia)). pose proof (Z.mod_pos_bound v 10 ltac:(lia)).
  replace (1 + d) with (Z.succ d) by lia. rewrite Z.pow_succ_r by lia.
  split_and!; [lia|lia|]. right. replace (Z.succ d - 1) with d by lia.
  destruct I3 as [->|I3]; [lia|].
  replace d with (Z.succ (d - 1)) by lia. rewrite Z.pow_succ_r by lia. lia.
Qed.

(** Nothing was allocated at the addresses to come. *)
Definition fresh_store (s : store) : Prop :=
  forall x, (s_brk s <= x)%nat -> s_maps s !! x = None.

Lemma wp_map_init s total (Q : Z -> store -> Prop) :
  fresh_store s -> 0 < total < 2 ^ 62 ->
  (forall w s', os_alloc (s_brk s) = true ->
     map_ok s' [(s_brk s, Seg 0 total MAP_TYPE_UNUSED 0 PNull 0)] total ->
     s_disk s' = s_disk s -> s_bufs s' = s_bufs s ->
     gd_secsz (s_gd s') = gd_secsz (s_gd s) -> gd_lbawidth (s_gd s') = w ->
     5 <= w -> total < 10 ^ w -> (w = 5 \/ 10 ^ (w - 1) <= total) -> Q 0 s') ->
  (forall s', os_alloc (s_brk s) = false -> gd_mediamap (s_gd s') = None -> Q (-1) s') ->
  wp (map_init total) s Q.
Proof.
  intros Hf Ht H1 H2. unfold map_init. apply wp_bind, wp_calloc_map; intros Ha; st_step.
  - st_step. st_step. rewrite u64_small by lia.
    destruct (digits10_spec 20 total) as (D1 & D2 & D3);
      [change (10 ^ Z.of_nat 20) with 100000000000000000000; lia|lia|].
    set (d := digits10 20 total) in *. clearbody d.
    eapply (H1 _ _ Ha); [|done|done|done|cbn; reflexivity|..].
    + split; [|simpl; unfold sg_end; simpl; lia]. split; cbn [s_maps s_gd s_brk on_gd on_maps on_brk].
      * simpl. split; [|done]. apply links_lookup. by rewrite lookup_insert_eq.
      * done.
      * apply NoDup_singleton.
      * intros x Hx. rewrite lookup_insert_ne by lia. apply Hf. lia.
    + destruct (Z.ltb_spec d 5); lia.
    + destruct (Z.ltb_spec d 5); [|done].
      eapply Z.lt_le_trans; [exact D1|]. apply Z.pow_le_mono_r; lia.
    + destruct (Z.ltb_spec d 5); [by left|]. destruct D3; [lia|by right].
  - st_step. by apply H2.
Qed.

(** [map_init] on a fresh store either cannot allocate and returns -1 with no map,
    or leaves one unused region that is the device and a display width that every
    sector number of it fits. *)
Theorem map_init_ok s total :
  fresh_store s -> 0 < total < 2 ^ 62 ->
  exists r s', map_init total s = Some (r, s') /\
    if os_alloc (s_brk s) then
      r = 0 /\ map_ok s' [(s_brk s, Seg 0 total MAP_TYPE_UNUSED 0 PNull 0)] total /\
      5 <= gd_lbawidth (s_gd s') /\ total < 10 ^ gd_lbawidth (s_gd s') /\
      (gd_lbawidth (s_gd s') = 5 \/ 10 ^ (gd_lbawidth (s_gd s') - 1) <= total)
    else r = -1 /\ gd_mediamap (s_gd s') = None.
Proof.
  intros Hf Ht. apply wp_elim. apply wp_map_init; [done|done| |].
  - intros w s' -> Hok _ _ _ <- ???. done.
  - intros s' -> ?. done.
Qed.
End init.

(** ** The lookups *)
Section lookups.
Context {os : Os}.
Implicit Types (s : store) (l : segs).

(** On a map that tiles the device, [map_find] returns the first region of the
    type, [map_first] and [map_last] the ends, and [map_free] says of a sector whether
    it is unused and how far: none of them changes anything. *)
Theorem map_lookups s l total t start size :
  map_ok s l total -> 0 <= start < 2 ^ 62 -> 0 <= size < 2 ^ 62 ->
  map_find t s = Some (fst <$> seg_find t l, s) /\
  map_first s = Some (first_of l None, s) /\
  map_last s = Some (last_of None l, s) /\
  map_free start size s = Some (seg_free start size l, s) /\
  (0 < seg_free start size l <->
   exists v, seg_at start l = Some v /\ sg_type v = MAP_TYPE_UNUSED /\
     (size <> 0 -> start + size <= sg_end v)).
Proof.
  intros Hok Hst Hsz. pose proof Hok as (Hrep & Ht & Htot).
  assert (Pure : forall {A} (m : St store A) (a : A),
    wp m s (fun r s' => r = a /\ s' = s) -> m s = Some (a, s)).
  { intros A m a (r & s' & E & -> & ->)%wp_elim. done. }
  split_and!.
  - apply Pure. by apply wp_map_find with (l := l).
  - unfold map_first. by rewrite <- (rep_head _ _ Hrep).
  - apply Pure. by apply wp_map_last with (l := l).
  - apply Pure. by apply wp_map_free with (l := l) (total := total).
  - unfold seg_free. rewrite seg_at_of_split.
    destruct (seg_split start l) as [[[l1 [n v]] l2]|] eqn:Es;
      [|split; [lia|by intros (? & ? & _)]].
    destruct (seg_split_bounds _ _ _ _ _ _ _ _ Ht (proj1 Hst) Es) as (Hb & _).
    unfold sg_end in *.
    destruct (Z.eqb_spec (sg_type v) MAP_TYPE_UNUSED); simpl;
      [|split; [lia|intros (? & [= <-] & ? & _); done]].
    destruct (Z.eqb_spec size 0); simpl.
    + split; [|lia]. intros _. by exists v.
    + destruct (Z.leb_spec (start + size) (sg_start v + sg_size v)).
      * split; [|lia]. intros _. by exists v.
      * split; [lia|]. intros (? & [= <-] & _ & H'). specialize (H' ltac:(done)). lia.
Qed.

(** With memory left, [map_add] returns a region exactly when the region that holds
    its first sector holds all of it and is that very range, unused, or an MBR partition
    that a GPT partition replaces; afterwards the new sectors have the new type, the rest
    of the region that was cut is unused, and no other sector changed. *)
Theorem map_add_places s l total start size type data alloc :
  map_ok s l total -> 0 <= start -> 0 < size -> start + size < 2 ^ 62 ->
  (alloc <> 0 -> owned s data) -> (forall i, os_alloc i = true) ->
  exists r s' l', map_add start size type data alloc s = Some (r, s') /\
    map_ok s' l' total /\
    match r with
    | None => forall v, seg_at start l = Some v -> accepts v start size type = false
    | Some x => exists v, seg_at start l = Some v /\ accepts v start size type = true /\
        (exists i, (x, Seg start size type i data alloc) ∈ l') /\
        forall y, 0 <= y -> type_at y l' =
          if (start <=? y) && (y <? start + size) then Some type
          else if (sg_start v <=? y) && (y <? sg_end v) then Some MAP_TYPE_UNUSED
          else type_at y l
    end.
Proof.
  intros Hok H1 H2 H3 H4 Hos. pose proof Hok as (Hrep & Ht & Htot).
  destruct (proj1 (wp_elim _ _ _) (wp_map_add s l total start size type data alloc Hok H1 H2 H3 H4))
    as (r & s' & Hr & -> & Hrep' & _).
  eexists _, s', _. split; [exact Hr|]. split.
  { split; [exact Hrep'|]. split; [by apply seg_add_tiles|done]. }
  destruct (ao_ret _) as [x|] eqn:E.
  - by apply seg_add_types with (total := total).
  - exact (proj1 (seg_add_none _ _ _ _ _ _ _ total Ht H1 H2 Hos) E).
Qed.
End lookups.

(** ** Sequences of operations *)

(** A call that fgdisk makes on the map. *)
Inductive map_call : Type :=
| CallAdd (start size type : Z) (data : ptr) (alloc : Z)
| CallAlloc (start size alignment : Z)
| CallResize (m : loc) (size alignment : Z)
| CallFind (type : Z)
| CallFree (start size : Z).

Section life.
Context {os : Os}.

Definition run_call (c : map_call) : St store unit :=
  match c with
  | CallAdd start size type data alloc => map_add start size type data alloc;; mret tt
  | CallAlloc start size alignment => map_alloc start size alignment;; mret tt
  | CallResize m size alignment => map_resize m size alignment;; mret tt
  | CallFind type => map_find type;; mret tt
  | CallFree start size => map_free start size;; mret tt
  end.

(** What a caller owes: sector numbers in range, data it may pass on, a region of the
    map to resize, and none of the branches that [MapResize] shows to be wrong. *)
Definition call_ok (s : store) (c : map_call) : Prop :=
  match c with
  | CallAdd start size type data alloc =>
    0 <= start /\ 0 < size /\ start + size < 2 ^ 62 /\ (alloc <> 0 -> owned s data)
  | CallAlloc start size alignment =>
    0 <= start < 2 ^ 62 /\ 0 <= size < 2 ^ 62 /\ 0 <= alignment < 2 ^ 62 /\
    (size <> 0 \/ start = 0 \/ 0 < alignment)
  | CallResize m size alignment =>
    size < 2 ^ 61 /\ alignment < 2 ^ 61 /\
    exists l1 v l2, map_rep s (l1 ++ (m, v) :: l2) /\
      resize_breaks (s_brk s) v l2 size alignment = false /\
      match l2 with (n, w) :: _ => droppable s w | [] => True end
  | CallFind type => True
  | CallFree start size => 0 <= start < 2 ^ 62 /\ 0 <= size < 2 ^ 62
  end.

(** The stores a run of fgdisk can have its map in. *)
Inductive map_reach (total : Z) : store -> Prop :=
| reach_init s s' :
    fresh_store s -> map_init total s = Some (0, s') -> map_reach total s'
| reach_call s c s' :
    map_reach total s -> call_ok s c -> run_call c s = Some (tt, s') -> map_reach total s'.

(** The list a store spells out is unique. *)
Lemma map_rep_inj s l l' : map_rep s l -> map_rep s l' -> l = l'.
Proof.
  intros [D H _ _] [D' H' _ _]. rewrite H in H'. clear H. revert D D' H'.
  generalize (@None loc) at 1 3 as p. revert l'.
  induction l as [|[n v] l IH]; intros [|[n' v'] l'] p D D'; simpl; try done.
  intros [= <-]. destruct D as [(nd & E & <- & _ & X) D], D' as [(nd' & E' & <- & _ & X') D'].
  simplify_eq. f_equal. apply (IH _ (Some n)); [done..|congruence].
Qed.

Lemma call_preserves s l total c :
  map_ok s l total -> call_ok s c ->
  exists s' l', run_call c s = Some (tt, s') /\ map_ok s' l' total.
Proof.
  intros Hok Hc. pose proof Hok as (Hrep & Ht & Htot).
  enough (wp (run_call c) s (fun _ s' => exists l', map_ok s' l' total)) as
    ([] & s' & E & l' & ?)%wp_elim by eauto.
  destruct c; simpl in *; apply wp_bind.
  - destruct Hc as (? & ? & ? & ?).
    eapply wp_mono; [by apply (wp_map_add s l total)|]. intros r s' (-> & Hrep' & _).
    apply wp_ret. eexists. split; [exact Hrep'|]. split; [by apply seg_add_tiles|done].
  - destruct Hc as (? & ? & ? & ?).
    eapply wp_mono; [by apply (wp_map_alloc s l total)|].
    intros r s' (l' & ? & _). apply wp_ret. eauto.
  - destruct Hc as (? & ? & l1 & v & l2 & Hrep2 & Hb & Hdrop).
    assert (l = l1 ++ (m, v) :: l2) as -> by (by eapply map_rep_inj).
    eapply wp_map_resize; [done..|]. intros r s' (-> & Hrep' & _). apply wp_ret.
    eexists. split; [exact Hrep'|]. split; [|done].
    by apply (proj1 (seg_resize_op_tiles (s_brk s) _ _ _ _ size alignment _ Ht Htot
      ltac:(done) ltac:(done))).
  - apply wp_map_find with (l := l); [done|]. apply wp_ret. eauto.
  - destruct Hc. apply wp_map_free with (l := l) (total := total); [done..|].
    apply wp_ret. eauto.
Qed.

End life.

(** ** A concrete map *)
Definition ex_os : Os := {| os_alloc := fun _ => true; os_read := fun _ _ => true;
  os_write := fun _ _ => true |}.

(** A device of 1000 sectors: the MBR area, a partition, and unused sectors. *)
Definition ex_list : segs :=
  [(0%nat, Seg 0 64 MAP_TYPE_MBR 0 PNull 0);
   (1%nat, Seg 64 100 MAP_TYPE_GPT_PART 1 PNull 0);
   (2%nat, Seg 164 836 MAP_TYPE_UNUSED 0 PNull 0)].

Definition ex_store : store :=
  Store
    (<[0%nat := MapNode 0 64 (Some 1%nat) None MAP_TYPE_MBR 0 PNull 0]>
    (<[1%nat := MapNode 64 100 (Some 2%nat) (Some 0%nat) MAP_TYPE_GPT_PART 1 PNull 0]>
    (<[2%nat := MapNode 164 836 None (Some 1%nat) MAP_TYPE_UNUSED 0 PNull 0]> ∅)))
    ∅ 3 (Gd 0 0 5 (Some 0%nat) None None None None 512 512000) [].

Definition ex_empty : store :=
  Store ∅ ∅ 0 (Gd 0 0 0 None None None None None 512 512000) [].

Lemma ex_ok : map_ok ex_store ex_list 1000.
Proof.
  split; [split|split; [vm_compute; intuition congruence|lia]].
  - split; [|split; [|split; [|done]]]; eexists; (split; [reflexivity|done]).
  - done.
  - apply (bool_decide_unpack _). by vm_compute.
  - simpl. intros x Hx. rewrite !lookup_insert_ne by lia. apply lookup_empty.
Qed.

Lemma ex_empty_fresh : fresh_store ex_empty.
Proof. intros x _. apply lookup_empty. Qed.

Lemma map_add_refines_witness :
  let o := @seg_add ex_os 3 200 50 MAP_TYPE_GPT_PART PNull 0 ex_list in
  exists s', @map_add ex_os 200 50 MAP_TYPE_GPT_PART PNull 0 ex_store = Some (ao_ret o, s') /\
    map_rep s' (ao_map o) /\ s_brk s' = ao_brk o /\
    s_bufs s' = (if ao_freed o then bufs_free PNull ∅ else ∅) /\
    s_disk s' = s_disk ex_store /\
    s_gd s' = set_gd_mediamap (gd_mediamap (s_gd s')) (s_gd ex_store).
Proof.
  apply (@map_add_refines ex_os ex_store ex_list 1000 200 50 MAP_TYPE_GPT_PART PNull 0 ex_ok);
    [lia|lia|lia|done].
Defined.


Lemma map_resize_refines_witness :
  let v := Seg 64 100 MAP_TYPE_GPT_PART 1 PNull 0 in
  let l1 := [(0%nat, Seg 0 64 MAP_TYPE_MBR 0 PNull 0)] in
  let l2 := [(2%nat, Seg 164 836 MAP_TYPE_UNUSED 0 PNull 0)] in
  exists s', let out := @seg_resize_op ex_os 3 l1 1 v l2 200 0 in
    @map_resize ex_os 1 200 0 ex_store = Some (out.1, s') /\ map_rep s' out.2 /\
    same_but_maps ex_store s' /\
    (@resize_breaks ex_os 3 v l2 200 0 = false ->
     map_ok s' out.2 1000 /\
     (out.1 <> -1 -> exists l3, out.2 = l1 ++ (1%nat, seg_resize 64 out.1 v) :: l3)).
Proof.
  apply (@map_resize_refines ex_os ex_store [(0%nat, Seg 0 64 MAP_TYPE_MBR 0 PNull 0)] 1
    (Seg 64 100 MAP_TYPE_GPT_PART 1 PNull 0) [(2%nat, Seg 164 836 MAP_TYPE_UNUSED 0 PNull 0)]
    1000 200 0 ex_ok); [done|lia|lia].
Defined.

Lemma map_resize_shrink_breaks_witness :
  exists r s' l', @map_resize ex_os 1 40 0 ex_store = Some (r, s') /\ map_rep s' l' /\
    ~ tiles 0 l' 1000 /\
    (seg_unused [(2%nat, Seg 164 836 MAP_TYPE_UNUSED 0 PNull 0)] <> None ->
     r = resize_round 40 0) /\
    (seg_unused [(2%nat, Seg 164 836 MAP_TYPE_UNUSED 0 PNull 0)] = None -> r = -1).
Proof.
  apply (@map_resize_shrink_breaks ex_os ex_store [(0%nat, Seg 0 64 MAP_TYPE_MBR 0 PNull 0)] 1
    (Seg 64 100 MAP_TYPE_GPT_PART 1 PNull 0) [(2%nat, Seg 164 836 MAP_TYPE_UNUSED 0 PNull 0)]
    1000 40 0 ex_ok); [done|lia|lia|reflexivity|done].
Defined.

Lemma resize_round_wrong_witness :
  resize_round 1024 (2 * 1024) = 1024 /\ 1024 mod (2 * 1024) <> 0 /\
  resize_round (2 * 1024) 1024 = 2 * 1024 + 1024.
Proof. apply (resize_round_wrong 1024 2); lia. Defined.

Lemma map_init_ok_witness :
  exists r s', @map_init ex_os 1000 ex_empty = Some (r, s') /\
    (r = 0 /\ map_ok s' [(0%nat, Seg 0 1000 MAP_TYPE_UNUSED 0 PNull 0)] 1000 /\
      5 <= gd_lbawidth (s_gd s') /\ 1000 < 10 ^ gd_lbawidth (s_gd s') /\
      (gd_lbawidth (s_gd s') = 5 \/ 10 ^ (gd_lbawidth (s_gd s') - 1) <= 1000)).
Proof. apply (@map_init_ok ex_os ex_empty 1000 ex_empty_fresh); lia. Defined.

Lemma map_lookups_witness :
  map_find MAP_TYPE_GPT_PART ex_store =
    Some (fst <$> seg_find MAP_TYPE_GPT_PART ex_list, ex_store) /\
  map_first ex_store = Some (first_of ex_list None, ex_store) /\
  map_last ex_store = Some (last_of None ex_list, ex_store) /\
  map_free 200 10 ex_store = Some (seg_free 200 10 ex_list, ex_store) /\
  (0 < seg_free 200 10 ex_list <->
   exists v, seg_at 200 ex_list = Some v /\ sg_type v = MAP_TYPE_UNUSED /\
     (10 <> 0 -> 200 + 10 <= sg_end v)).
Proof. apply (map_lookups ex_store ex_list 1000 MAP_TYPE_GPT_PART 200 10 ex_ok); lia. Defined.

Lemma map_add_places_witness :
  exists r s' l', @map_add ex_os 200 50 MAP_TYPE_GPT_PART PNull 0 ex_store = Some (r, s') /\
    map_ok s' l' 1000 /\
    match r with
    | None => forall v, seg_at 200 ex_list = Some v -> accepts v 200 50 MAP_TYPE_GPT_PART = false
    | Some x => exists v, seg_at 200 ex_list = Some v /\
        accepts v 200 50 MAP_TYPE_GPT_PART = true /\
        (exists i, (x, Seg 200 50 MAP_TYPE_GPT_PART i PNull 0) ∈ l') /\
        forall y, 0 <= y -> type_at y l' =
          if (200 <=? y) && (y <? 200 + 50) then Some MAP_TYPE_GPT_PART
          else if (sg_start v <=? y) && (y <? sg_end v) then Some MAP_TYPE_UNUSED
          else type_at y ex_list
    end.
Proof.
  apply (@map_add_places ex_os ex_store ex_list 1000 200 50 MAP_TYPE_GPT_PART PNull 0 ex_ok);
    lia || done.
Defined.

(** The map of an empty device, after [map_init]. *)
Definition ex_init : store :=
  match @map_init ex_os 1000 ex_empty with Some (_, s) => s | None => ex_empty end.

