(* ===== verification/CMem.v ===== *)
(** * CMem: the memory of the C library, and its block operations

    The memory is one array of bytes, a pointer an index into it, and an access outside
    it undefined.  On it, the routines of lib/libc/string that move, fill and compare
    blocks: bcopy.c (with memcpy.c and memmove.c, which compile the same text), memset.c
    (with bzero.c), memcmp.c, memchr.c, memccpy.c, bcmp.c, swab.c, and ffs.c. *)
From Stdlib Require Import ZArith Lia.
From stdpp Require Import base list option.
From S2P Require Import Prelude.
Open Scope Z_scope.

Abbreviation mem := (list Z).

(** The bytes in [a, a + n). *)
Definition mbytes (m : mem) (a : Z) (n : nat) : list Z := sub (Z.to_nat a) n m.
(** The memory with [d] stored at [a]. *)
Definition mstore (m : mem) (a : Z) (d : list Z) : mem := splice (Z.to_nat a) d m.
Definition in_mem (m : mem) (a : Z) (n : Z) : Prop := 0 <= a /\ 0 <= n /\ a + n <= Z.of_nat (length m).

(** [*(T * )a] for a [T] of [n] bytes. *)
Definition peekn (n : nat) (a : Z) : St mem (list Z) := fun m =>
  if (0 <=? a) && (a + Z.of_nat n <=? Z.of_nat (length m)) then Some (mbytes m a n, m) else None.
(** [*(T * )a = d]. *)
Definition poken (a : Z) (d : list Z) : St mem unit := fun m =>
  if (0 <=? a) && (a + Z.of_nat (length d) <=? Z.of_nat (length m))
  then Some (tt, mstore m a d) else None.
(** The same for a character, as an unsigned value. *)
Definition peek (a : Z) : St mem Z := fun m =>
  if 0 <=? a then match m !! Z.to_nat a with Some c => Some (c, m) | None => None end else None.
Definition poke (a v : Z) : St mem unit := poken a [u8 v].

(** ** bcopy, memcpy, memmove *)
Definition wsize : Z := 4.
Definition wmask : Z := 3.

Definition copy_chunk (w : nat) (src dst : Z) : St mem unit :=
  d ← peekn w src; poken dst d.

(** [TLOOP(copy one; src += w; dst += w)] with the pointers it leaves. *)
Fixpoint copy_up (w t : nat) (src dst : Z) : St mem (Z * Z) :=
  match t with
  | O => mret (src, dst)
  | S t => copy_chunk w src dst;; copy_up w t (src + Z.of_nat w) (dst + Z.of_nat w)
  end.

(** [TLOOP(src -= w; dst -= w; copy one)]. *)
Fixpoint copy_down (w t : nat) (src dst : Z) : St mem (Z * Z) :=
  match t with
  | O => mret (src, dst)
  | S t =>
    let src := src - Z.of_nat w in
    let dst := dst - Z.of_nat w in
    copy_chunk w src dst;; copy_down w t src dst
  end.

(** [TLOOP1]: a [do ... while (--t)], which must not start from 0. *)
Definition tloop1 (t : Z) (loop : St mem (Z * Z)) : St mem (Z * Z) :=
  if t =? 0 then ub else loop.

Definition bcopy (src0 dst0 length : Z) : St mem unit :=
  if (length =? 0) || (dst0 =? src0) then mret tt
  else if dst0 <? src0 then
    let t := src0 in
    let head :=
      if negb (Z.land (Z.lor t dst0) wmask =? 0) then
        if negb (Z.land (Z.lxor t dst0) wmask =? 0) || (length <? wsize) then length
        else wsize - Z.land t wmask
      else 0 in
    '(src, dst) ← (if negb (Z.land (Z.lor t dst0) wmask =? 0)
                   then tloop1 head (copy_up 1 (Z.to_nat head) src0 dst0)
                   else mret (src0, dst0));
    let length := length - head in
    '(src, dst) ← copy_up 4 (Z.to_nat (length / wsize)) src dst;
    copy_up 1 (Z.to_nat (Z.land length wmask)) src dst;;
    mret tt
  else
    let src := src0 + length in
    let dst := dst0 + length in
    let t := src in
    let tail :=
      if negb (Z.land (Z.lor t dst) wmask =? 0) then
        if negb (Z.land (Z.lxor t dst) wmask =? 0) || (length <=? wsize) then length
        else Z.land t wmask
      else 0 in
    '(src, dst) ← (if negb (Z.land (Z.lor t dst) wmask =? 0)
                   then tloop1 tail (copy_down 1 (Z.to_nat tail) src dst)
                   else mret (src, dst));
    let length := length - tail in
    '(src, dst) ← copy_down 4 (Z.to_nat (length / wsize)) src dst;
    copy_down 1 (Z.to_nat (Z.land length wmask)) src dst;;
    mret tt.

(** The same text compiled with MEMCOPY or MEMMOVE. *)
Definition memmove (dst0 src0 length : Z) : St mem Z := bcopy src0 dst0 length;; mret dst0.
Definition memcpy (dst0 src0 length : Z) : St mem Z := bcopy src0 dst0 length;; mret dst0.

(** ** memset, bzero *)

(** [do *(T * )dst = v; dst += sizeof(T); while (--t)] *)
Fixpoint fill (t : nat) (dst : Z) (d : list Z) : St mem Z :=
  match t with
  | O => mret dst
  | S t => poken dst d;; fill t (dst + Z.of_nat (length d)) d
  end.

(** The byte spread over a word. *)
Definition wideval (c0 : Z) : Z :=
  let c := u8 c0 in
  if c =? 0 then c
  else
    let c := u32 (Z.lor (Z.shiftl c 8) c) in
    u32 (Z.lor (Z.shiftl c 16) c).

Definition memset (dst0 c0 length : Z) : St mem Z :=
  if length <? 3 * wsize then
    fill (Z.to_nat length) dst0 [u8 c0];; mret dst0
  else
    let t := Z.land dst0 wmask in
    let head := if negb (t =? 0) then wsize - t else 0 in
    dst ← fill (Z.to_nat head) dst0 [u8 c0];
    let length := length - head in
    dst ← fill (Z.to_nat (length / wsize)) dst (le_enc 4 (wideval c0));
    fill (Z.to_nat (Z.land length wmask)) dst [u8 c0];;
    mret dst0.

Definition bzero (dst0 length : Z) : St mem unit := memset dst0 0 length;; mret tt.

(** ** Comparing and searching blocks *)
Fixpoint memcmp_loop (n : nat) (p1 p2 : Z) : St mem Z :=
  match n with
  | O => mret 0
  | S n =>
    a ← peek p1; b ← peek p2;
    if negb (a =? b) then mret (a - b) else memcmp_loop n (p1 + 1) (p2 + 1)
  end.

Definition memcmp (s1 s2 n : Z) : St mem Z := memcmp_loop (Z.to_nat n) s1 s2.

(** The number of bytes left when the loop stopped, as the caller sees it. *)
Fixpoint bcmp_loop (n : nat) (p1 p2 : Z) : St mem Z :=
  match n with
  | O => mret 0
  | S k =>
    a ← peek p1; b ← peek p2;
    if negb (a =? b) then mret (Z.of_nat n) else bcmp_loop k (p1 + 1) (p2 + 1)
  end.

(** [bcmp] returns its [size_t] count as an [int]. *)
Definition bcmp (b1 b2 length : Z) : St mem Z :=
  r ← bcmp_loop (Z.to_nat length) b1 b2; mret (s32 r).

Fixpoint memchr_loop (n : nat) (p c : Z) : St mem (option Z) :=
  match n with
  | O => mret None
  | S n => a ← peek p; if a =? u8 c then mret (Some p) else memchr_loop n (p + 1) c
  end.

Definition memchr (s c n : Z) : St mem (option Z) := memchr_loop (Z.to_nat n) s c.

Fixpoint memccpy_loop (n : nat) (tp fp uc : Z) : St mem (option Z) :=
  match n with
  | O => mret None
  | S n =>
    a ← peek fp; poke tp a;;
    if a =? uc then mret (Some (tp + 1)) else memccpy_loop n (tp + 1) (fp + 1) uc
  end.

Definition memccpy (t f c n : Z) : St mem (option Z) := memccpy_loop (Z.to_nat n) t f (u8 c).

(** ** swab *)

(** [STEP]: the second byte is stored before the first. *)
Definition swab_step (fp tp : Z) : St mem (Z * Z) :=
  temp ← peek fp; c ← peek (fp + 1);
  poke tp c;; poke (tp + 1) temp;; mret (fp + 2, tp + 2).

Fixpoint swab_steps (n : nat) (fp tp : Z) : St mem (Z * Z) :=
  match n with
  | O => mret (fp, tp)
  | S n => '(fp, tp) ← swab_step fp tp; swab_steps n fp tp
  end.

(** [for (; n & 0x7; --n) STEP;] *)
Fixpoint swab_round (fuel : nat) (n fp tp : Z) : St mem (Z * Z * Z) :=
  match fuel with
  | O => ub
  | S fuel =>
    if negb (Z.land n 7 =? 0) then
      '(fp, tp) ← swab_step fp tp; swab_round fuel (n - 1) fp tp
    else mret (n, fp, tp)
  end.

(** [for (n >>= 3; n > 0; --n) { eight STEPs }] *)
Fixpoint swab_eights (n : nat) (fp tp : Z) : St mem (Z * Z) :=
  match n with
  | O => mret (fp, tp)
  | S n => '(fp, tp) ← swab_steps 8 fp tp; swab_eights n fp tp
  end.

Definition swab (from to len : Z) : St mem unit :=
  if len <=? 0 then mret tt
  else
    let n := s32 (Z.shiftr len 1) in
    '(n, fp, tp) ← swab_round 8 n from to;
    swab_eights (Z.to_nat (Z.shiftr n 3)) fp tp;;
    mret tt.

(** ** ffs *)
Fixpoint ffs_loop (fuel : nat) (mask bit : Z) : option Z :=
  match fuel with
  | O => None
  | S fuel =>
    if negb (Z.land mask 1 =? 0) then Some bit
    else ffs_loop fuel (s32 (Z.shiftr (u32 mask) 1)) (bit + 1)
  end.

Definition ffs (mask : Z) : option Z := if mask =? 0 then Some 0 else ffs_loop 33 mask 1.

(** ** Rules for the accesses *)
Lemma wp_peekn n a (m : mem) (Q : list Z -> mem -> Prop) :
  in_mem m a (Z.of_nat n) -> Q (mbytes m a n) m -> wp (peekn n a) m Q.
Proof.
  intros (? & ? & ?) HQ. unfold wp, peekn.
  destruct (Z.leb_spec 0 a), (Z.leb_spec (a + Z.of_nat n) (Z.of_nat (length m))); try lia. done.
Qed.

Lemma wp_poken a d (m : mem) (Q : unit -> mem -> Prop) :
  in_mem m a (Z.of_nat (length d)) -> Q tt (mstore m a d) -> wp (poken a d) m Q.
Proof.
  intros (? & ? & ?) HQ. unfold wp, poken.
  destruct (Z.leb_spec 0 a), (Z.leb_spec (a + Z.of_nat (length d)) (Z.of_nat (length m)));
    try lia. done.
Qed.

Lemma wp_peek a c (m : mem) (Q : Z -> mem -> Prop) :
  0 <= a -> m !! Z.to_nat a = Some c -> Q c m -> wp (peek a) m Q.
Proof.
  intros Ha Hc HQ. unfold wp, peek. destruct (Z.leb_spec 0 a); [|lia]. by rewrite Hc.
Qed.

Lemma wp_poke a c (m : mem) (Q : unit -> mem -> Prop) :
  in_mem m a 1 -> 0 <= c < 256 -> Q tt (mstore m a [c]) -> wp (poke a c) m Q.
Proof. intros Hin Hc HQ. unfold poke. rewrite u8_small by done. by apply wp_poken. Qed.

Lemma length_mstore m a d :
  in_mem m a (Z.of_nat (length d)) -> length (mstore m a d) = length m.
Proof. intros (? & ? & ?). apply length_splice. lia. Qed.

Lemma length_mbytes m a n : in_mem m a (Z.of_nat n) -> length (mbytes m a n) = n.
Proof. intros (? & ? & ?). apply length_sub. lia. Qed.

Lemma mstore_nil m a : mstore m a [] = m.
Proof. unfold mstore, splice. simpl. rewrite Nat.add_0_r. apply take_drop. Qed.

Lemma lookup_mstore m a d i :
  in_mem m a (Z.of_nat (length d)) ->
  mstore m a d !! i =
    if decide (a <= Z.of_nat i < a + Z.of_nat (length d))
    then d !! (i - Z.to_nat a)%nat else m !! i.
Proof.
  intros (? & ? & ?). unfold mstore. rewrite lookup_splice by lia.
  repeat case_decide; done || lia.
Qed.

(** Storing one run after another. *)
Lemma mstore_app m a d1 d2 :
  in_mem m a (Z.of_nat (length (d1 ++ d2))) ->
  mstore (mstore m a d1) (a + Z.of_nat (length d1)) d2 = mstore m a (d1 ++ d2).
Proof.
  intros (H1 & H2 & H3). rewrite length_app in *. apply list_eq. intros i.
  rewrite !lookup_mstore; rewrite ?length_app;
    try (unfold in_mem; rewrite ?length_mstore by (unfold in_mem; lia); lia).
  repeat case_decide; try lia; try done.
  - rewrite lookup_app_r by lia. f_equal. lia.
  - by rewrite lookup_app_l by lia.
Qed.

Lemma mbytes_app m a n1 n2 :
  0 <= a -> mbytes m a (n1 + n2) = mbytes m a n1 ++ mbytes m (a + Z.of_nat n1) n2.
Proof.
  intros Ha. unfold mbytes, sub.
  rewrite (Z2Nat.inj_add a) by lia. rewrite Nat2Z.id.
  rewrite <- drop_drop, <- take_take_drop. done.
Qed.

(** ** bcopy moves the block, overlap or not *)
Section bcopy_ok.
Context (m0 : mem) (src0 dst0 len : Z).
Hypothesis Hsrc : in_mem m0 src0 len.
Hypothesis Hdst : in_mem m0 dst0 len.

(** The memory when the first [k] bytes were copied. *)
Definition up_to (k : Z) : mem := mstore m0 dst0 (mbytes m0 src0 (Z.to_nat k)).
(** The memory when the last [k] bytes were copied. *)
Definition down_to (k : Z) : mem :=
  mstore m0 (dst0 + len - k) (mbytes m0 (src0 + len - k) (Z.to_nat k)).

Lemma up_step w k (Q : unit -> mem -> Prop) :
  dst0 <= src0 -> 0 <= k -> k + Z.of_nat w <= len ->
  Q tt (up_to (k + Z.of_nat w)) -> wp (copy_chunk w (src0 + k) (dst0 + k)) (up_to k) Q.
Proof.
  intros Hle Hk Hw HQ. unfold copy_chunk, in_mem in *.
  assert (L : length (mbytes m0 src0 (Z.to_nat k)) = Z.to_nat k)
    by (apply length_mbytes; unfold in_mem; lia).
  assert (Lm : length (up_to k) = length m0)
    by (apply length_mstore; unfold in_mem; rewrite L; lia).
  apply wp_bind, wp_peekn; [unfold in_mem; rewrite Lm; lia|].
  assert (E : mbytes (up_to k) (src0 + k) w = mbytes m0 (src0 + k) w).
  { unfold mbytes, up_to, mstore. apply sub_splice_other; rewrite L; lia. }
  rewrite E. assert (L2 : length (mbytes m0 (src0 + k) w) = w)
    by (apply length_mbytes; unfold in_mem; lia).
  apply wp_poken; [unfold in_mem; rewrite Lm, L2; lia|].
  unfold up_to in *. rewrite Z2Nat.inj_add, Nat2Z.id, mbytes_app, Z2Nat.id in HQ by lia.
  rewrite <- mstore_app in HQ by (unfold in_mem; rewrite length_app, L, L2; lia).
  by rewrite L, Z2Nat.id in HQ by lia.
Qed.

Lemma down_step w k (Q : unit -> mem -> Prop) :
  src0 <= dst0 -> 0 <= k -> k + Z.of_nat w <= len ->
  Q tt (down_to (k + Z.of_nat w)) ->
  wp (copy_chunk w (src0 + len - k - Z.of_nat w) (dst0 + len - k - Z.of_nat w)) (down_to k) Q.
Proof.
  intros Hle Hk Hw HQ. unfold copy_chunk, in_mem in *.
  assert (L : length (mbytes m0 (src0 + len - k) (Z.to_nat k)) = Z.to_nat k)
    by (apply length_mbytes; unfold in_mem; lia).
  assert (Lm : length (down_to k) = length m0)
    by (apply length_mstore; unfold in_mem; rewrite L; lia).
  set (a := src0 + len - k - Z.of_nat w). set (b := dst0 + len - k - Z.of_nat w).
  apply wp_bind, wp_peekn; [unfold in_mem; rewrite Lm; lia|].
  assert (E : mbytes (down_to k) a w = mbytes m0 a w).
  { unfold mbytes, down_to, mstore. apply sub_splice_other; rewrite L; lia. }
  rewrite E. assert (L2 : length (mbytes m0 a w) = w)
    by (apply length_mbytes; unfold in_mem; lia).
  apply wp_poken; [unfold in_mem; rewrite Lm, L2; lia|].
  revert HQ. unfold down_to.
  replace (src0 + len - (k + Z.of_nat w)) with a by lia.
  replace (dst0 + len - (k + Z.of_nat w)) with b by lia.
  replace (Z.to_nat (k + Z.of_nat w)) with (w + Z.to_nat k)%nat by lia.
  rewrite mbytes_app by lia. replace (a + Z.of_nat w) with (src0 + len - k) by lia.
  rewrite <- mstore_app by (unfold in_mem; rewrite length_app, L, L2; lia).
  rewrite L2. replace (b + Z.of_nat w) with (dst0 + len - k) by lia.
  replace (mstore (mstore m0 b (mbytes m0 a w)) (dst0 + len - k)
             (mbytes m0 (src0 + len - k) (Z.to_nat k)))
    with (mstore (mstore m0 (dst0 + len - k) (mbytes m0 (src0 + len - k) (Z.to_nat k)))
             b (mbytes m0 a w)); [done|].
  unfold mstore. apply splice_comm; rewrite ?L, ?L2; lia.
Qed.

Lemma wp_copy_up w t k (Q : Z * Z -> mem -> Prop) :
  dst0 <= src0 -> 0 <= k -> k + Z.of_nat w * Z.of_nat t <= len ->
  (let k' := k + Z.of_nat w * Z.of_nat t in Q (src0 + k', dst0 + k') (up_to k')) ->
  wp (copy_up w t (src0 + k) (dst0 + k)) (up_to k) Q.
Proof.
  intros Hle. revert k. induction t as [|t IH]; intros k Hk Hw HQ; cbv zeta in HQ.
  - rewrite Z.mul_0_r, Z.add_0_r in HQ. by apply wp_ret.
  - cbn [copy_up]. apply wp_bind, up_step; [done|done|lia|].
    replace (src0 + k + Z.of_nat w) with (src0 + (k + Z.of_nat w)) by lia.
    replace (dst0 + k + Z.of_nat w) with (dst0 + (k + Z.of_nat w)) by lia.
    apply IH; [lia|lia|].
    by replace (k + Z.of_nat w + Z.of_nat w * Z.of_nat t)
      with (k + Z.of_nat w * Z.of_nat (S t)) by lia.
Qed.

Lemma wp_copy_down w t k (Q : Z * Z -> mem -> Prop) :
  src0 <= dst0 -> 0 <= k -> k + Z.of_nat w * Z.of_nat t <= len ->
  (let k' := k + Z.of_nat w * Z.of_nat t in
   Q (src0 + len - k', dst0 + len - k') (down_to k')) ->
  wp (copy_down w t (src0 + len - k) (dst0 + len - k)) (down_to k) Q.
Proof.
  intros Hle. revert k. induction t as [|t IH]; intros k Hk Hw HQ; cbv zeta in HQ.
  - rewrite Z.mul_0_r, Z.add_0_r in HQ. by apply wp_ret.
  - cbn [copy_down]. apply wp_bind, down_step; [done|done|lia|].
    replace (src0 + len - k - Z.of_nat w) with (src0 + len - (k + Z.of_nat w)) by lia.
    replace (dst0 + len - k - Z.of_nat w) with (dst0 + len - (k + Z.of_nat w)) by lia.
    apply IH; [lia|lia|].
    by replace (k + Z.of_nat w + Z.of_nat w * Z.of_nat t)
      with (k + Z.of_nat w * Z.of_nat (S t)) by lia.
Qed.

Lemma land_wmask z : Z.land z wmask = z mod 4.
Proof. change wmask with (Z.ones 2). by rewrite Z.land_ones. Qed.

(** When one pointer is unaligned and both agree in their low bits, so is the other. *)
Lemma low_bits a b :
  Z.land (Z.lor a b) wmask <> 0 -> Z.land (Z.lxor a b) wmask = 0 -> Z.land a wmask <> 0.
Proof.
  intros Ho Hx Ha. apply Ho. apply Z.bits_inj'. intros i Hi.
  rewrite Z.bits_0, Z.land_spec, Z.lor_spec.
  apply (f_equal (fun z => Z.testbit z i)) in Hx, Ha.
  rewrite Z.land_spec, ?Z.lxor_spec, Z.bits_0 in *.
  destruct (Z.testbit a i), (Z.testbit b i), (Z.testbit wmask i); done.
Qed.

Lemma wp_tloop1 t (loop : St mem (Z * Z)) m (Q : Z * Z -> mem -> Prop) :
  t <> 0 -> wp loop m Q -> wp (tloop1 t loop) m Q.
Proof. intros Ht H. unfold tloop1. by destruct (Z.eqb_spec t 0). Qed.

(** Words and the bytes that are left make up a length. *)
Lemma words_and_bytes n :
  0 <= n ->
  4 * Z.of_nat (Z.to_nat (n / wsize)) + 1 * Z.of_nat (Z.to_nat (Z.land n wmask)) = n /\
  0 <= Z.land n wmask.
Proof.
  intros Hn. rewrite land_wmask. unfold wsize.
  pose proof (Z.div_mod n 4 ltac:(lia)). pose proof (Z.mod_pos_bound n 4 ltac:(lia)).
  pose proof (Z.div_pos n 4 Hn ltac:(lia)). rewrite !Z2Nat.id by lia. lia.
Qed.

(** What follows the bytes copied to align the pointers. *)
Lemma wp_rest_up k :
  dst0 <= src0 -> 0 <= k <= len ->
  wp ('(src, dst) ← copy_up 4 (Z.to_nat ((len - k) / wsize)) (src0 + k) (dst0 + k);
      copy_up 1 (Z.to_nat (Z.land (len - k) wmask)) src dst;; mret tt) (up_to k)
     (fun _ m => m = up_to len).
Proof.
  intros Hle Hk. destruct (words_and_bytes (len - k) ltac:(lia)) as [Hwb Hnn].
  apply wp_bind, wp_copy_up; [done|lia|lia|]. cbv zeta.
  apply wp_bind, wp_copy_up; [done|lia|lia|]. cbv zeta.
  apply wp_ret. f_equal. lia.
Qed.

Lemma wp_rest_down k :
  src0 <= dst0 -> 0 <= k <= len ->
  wp ('(src, dst) ← copy_down 4 (Z.to_nat ((len - k) / wsize)) (src0 + len - k) (dst0 + len - k);
      copy_down 1 (Z.to_nat (Z.land (len - k) wmask)) src dst;; mret tt) (down_to k)
     (fun _ m => m = down_to len).
Proof.
  intros Hle Hk. destruct (words_and_bytes (len - k) ltac:(lia)) as [Hwb Hnn].
  apply wp_bind, wp_copy_down; [done|lia|lia|]. cbv zeta.
  apply wp_bind, wp_copy_down; [done|lia|lia|]. cbv zeta.
  apply wp_ret. f_equal. lia.
Qed.

Lemma wp_bcopy : wp (bcopy src0 dst0 len) m0
  (fun _ m => m = mstore m0 dst0 (mbytes m0 src0 (Z.to_nat len))).
Proof.
  pose proof Hsrc as (S1 & S2 & S3). pose proof Hdst as (D1 & D2 & D3).
  unfold bcopy. destruct (Z.eqb_spec len 0) as [->|Hlen]; simpl.
  { apply wp_ret. by rewrite mstore_nil. }
  destruct (Z.eqb_spec dst0 src0) as [->|Hne].
  { apply wp_ret. symmetry. unfold mstore, mbytes. apply splice_sub. lia. }
  destruct (Z.ltb_spec dst0 src0).
  - assert (Hup : up_to 0 = m0) by apply mstore_nil.
    destruct (negb (Z.land (Z.lor src0 dst0) wmask =? 0)) eqn:Em.
    + set (head := if _ || _ then len else _).
      assert (Hh : 0 < head <= len).
      { subst head. case_match eqn:E; [lia|]. apply orb_false_iff in E as [_ E]. zbool.
        unfold wsize in *. rewrite land_wmask.
        pose proof (Z.mod_pos_bound src0 4 ltac:(lia)). lia. }
      clearbody head. apply wp_bind, wp_tloop1; [lia|].
      pose proof (wp_copy_up 1 (Z.to_nat head) 0) as W. rewrite !Z.add_0_r, Hup in W.
      apply W; [lia|lia|lia|]. cbv zeta. rewrite Z2Nat.id by lia.
      replace (0 + Z.of_nat 1 * head) with head by lia. apply wp_rest_up; lia.
    + apply wp_bind, wp_ret. pose proof (wp_rest_up 0) as W.
      rewrite !Z.add_0_r, Hup in W. apply W; lia.
  - assert (Hdn : down_to 0 = m0) by apply mstore_nil.
    destruct (negb (Z.land (Z.lor (src0 + len) (dst0 + len)) wmask =? 0)) eqn:Em.
    + set (tail := if _ || _ then len else _).
      assert (Hh : 0 < tail <= len).
      { subst tail. case_match eqn:E; [lia|]. apply orb_false_iff in E as [E1 E]. zbool.
        pose proof (low_bits _ _ Em E1). unfold wsize in *. rewrite land_wmask in *.
        pose proof (Z.mod_pos_bound (src0 + len) 4 ltac:(lia)). lia. }
      clearbody tail. apply wp_bind, wp_tloop1; [lia|].
      pose proof (wp_copy_down 1 (Z.to_nat tail) 0) as W. rewrite !Z.sub_0_r, Hdn in W.
      apply W; [lia|lia|lia|]. cbv zeta. rewrite Z2Nat.id by lia.
      replace (0 + Z.of_nat 1 * tail) with tail by lia.
      eapply wp_mono; [apply wp_rest_down; lia|]. intros _ m ->. unfold down_to.
      by rewrite !Z.add_simpl_r.
    + apply wp_bind, wp_ret. pose proof (wp_rest_down 0) as W.
      rewrite !Z.sub_0_r. rewrite !Z.sub_0_r, Hdn in W. eapply wp_mono; [apply W; lia|]. intros _ m ->.
      unfold down_to. by rewrite !Z.add_simpl_r.
Qed.
End bcopy_ok.

(** C18: [bcopy] (and [memcpy] and [memmove], the same text) leaves at the destination
    the bytes that the source held before the call, whether the blocks overlap or not
    and however they are aligned, and changes nothing else. *)
Theorem bcopy_moves m src dst len :
  in_mem m src len -> in_mem m dst len ->
  let m' := mstore m dst (mbytes m src (Z.to_nat len)) in
  bcopy src dst len m = Some (tt, m') /\ memmove dst src len m = Some (dst, m') /\
  memcpy dst src len m = Some (dst, m').
Proof.
  intros Hs Hd. pose proof (wp_bcopy m src dst len Hs Hd) as ([] & m' & E & ->)%wp_elim.
  unfold memmove, memcpy, mbind, St_bind. by rewrite E.
Qed.

(** An overlapping move towards higher addresses, one byte off. *)
Lemma bcopy_moves_witness :
  let m := [1; 2; 3; 4; 5; 6; 7; 8; 9; 10; 11; 12] in
  let m' := [1; 2; 3; 2; 3; 4; 5; 6; 7; 8; 9; 12] in
  bcopy 1 3 8 m = Some (tt, m') /\ memmove 3 1 8 m = Some (3, m') /\
  memcpy 3 1 8 m = Some (3, m').
Proof.
  apply (bcopy_moves [1; 2; 3; 4; 5; 6; 7; 8; 9; 10; 11; 12] 1 3 8); unfold in_mem; simpl; lia.
Defined.

(** ** memset *)
Lemma wp_fill t dst d m0 base k (Q : Z -> mem -> Prop) :
  d <> [] ->
  in_mem m0 base (Z.of_nat (k + t * length d)) ->
  dst = base + Z.of_nat k ->
  forall pre, length pre = k ->
  (let w := pre ++ mjoin (replicate t d) in
   Q (base + Z.of_nat (length w)) (mstore m0 base w)) ->
  wp (fill t dst d) (mstore m0 base pre) Q.
Proof.
  intros Hd Hin ->. revert k Hin. induction t as [|t IH]; intros k Hin pre Hpre HQ; cbv zeta in HQ.
  - simpl in HQ. rewrite app_nil_r, Hpre in HQ. by apply wp_ret.
  - cbn [fill]. unfold in_mem in *. simpl in Hin.
    assert (Lp : length (mstore m0 base pre) = length m0)
      by (apply length_mstore; unfold in_mem; lia).
    apply wp_bind, wp_poken; [unfold in_mem; rewrite Lp; lia|].
    rewrite <- Hpre, mstore_app by (unfold in_mem; rewrite length_app; lia).
    replace (base + Z.of_nat (length pre) + Z.of_nat (length d))
      with (base + Z.of_nat (k + length d)) by lia.
    apply (IH (k + length d)%nat); [lia|rewrite length_app; lia|].
    cbv zeta. simpl in HQ. by rewrite <- app_assoc.
Qed.

Lemma wideval_bytes c : le_enc 4 (wideval c) = replicate 4 (u8 c).
Proof.
  unfold wideval. pose proof (u8_bound c) as Hb. cbv zeta.
  assert (Hall : forallb (fun b => bool_decide
    (le_enc 4 (if b =? 0 then b else
       u32 (Z.lor (Z.shiftl (u32 (Z.lor (Z.shiftl b 8) b)) 16) (u32 (Z.lor (Z.shiftl b 8) b))))
     = replicate 4 b)) (seqZ 0 256) = true) by (vm_compute; reflexivity).
  rewrite forallb_forall in Hall. specialize (Hall (u8 c)).
  rewrite <- list_elem_of_In, elem_of_seqZ in Hall.
  apply bool_decide_eq_true in Hall; [exact Hall|lia].
Qed.

Lemma join_replicate (t n : nat) (c : Z) :
  mjoin (replicate t (replicate n c)) = replicate (t * n) c.
Proof. induction t as [|t IH]; simpl; [done|]. by rewrite IH, replicate_add. Qed.

Lemma join_replicate1 t (c : Z) : mjoin (replicate t [c]) = replicate t c.
Proof. change [c] with (replicate 1 c). rewrite join_replicate. f_equal. lia. Qed.

Lemma memset_eq m dst c len :
  in_mem m dst len ->
  memset dst c len m = Some (dst, mstore m dst (replicate (Z.to_nat len) (u8 c))).
Proof.
  intros (H1 & H2 & H3).
  enough (wp (memset dst c len) m
    (fun r m' => r = dst /\ m' = mstore m dst (replicate (Z.to_nat len) (u8 c))))
    as (r & m' & E & -> & ->)%wp_elim by done.
  unfold memset. destruct (Z.ltb_spec len (3 * wsize)).
  - apply wp_bind. rewrite <- (mstore_nil m dst) at 1.
    apply (wp_fill _ _ _ _ dst 0); simpl; try done; [unfold in_mem; lia|lia|].
    apply wp_ret. by rewrite join_replicate1.
  - unfold wsize in *. set (head := if negb (Z.land dst wmask =? 0) then _ else 0).
    assert (Hh : 0 <= head < 4).
    { subst head. rewrite land_wmask. pose proof (Z.mod_pos_bound dst 4 ltac:(lia)).
      destruct (Z.eqb_spec (dst mod 4) 0); simpl; lia. }
    clearbody head. destruct (words_and_bytes (len - head) ltac:(lia)) as [Hwb Hnn].
    unfold wsize in Hwb.
    set (nw := Z.to_nat ((len - head) / 4)) in *.
    set (nb := Z.to_nat (Z.land (len - head) wmask)) in *.
    apply wp_bind. rewrite <- (mstore_nil m dst) at 1.
    apply (wp_fill _ _ _ _ dst 0); try done; [unfold in_mem; cbn [length]; lia|lia|].
    cbv zeta. cbn [app]. rewrite join_replicate1, length_replicate, wideval_bytes. apply wp_bind.
    apply (wp_fill _ _ _ _ dst (Z.to_nat head)); rewrite ?length_replicate; try done;
      [unfold in_mem; lia|].
    rewrite join_replicate, <- replicate_add. cbv zeta.
    rewrite length_replicate. apply wp_bind.
    apply (wp_fill _ _ _ _ dst (Z.to_nat head + nw * 4)); simpl; try done;
      [unfold in_mem; lia|by rewrite length_replicate|].
    rewrite join_replicate1, <- replicate_add. apply wp_ret. split; [done|].
    do 2 f_equal. lia.
Qed.

Lemma bzero_eq m dst len : in_mem m dst len ->
  bzero dst len m = Some (tt, mstore m dst (replicate (Z.to_nat len) 0)).
Proof. intros H. unfold bzero, mbind, St_bind. by rewrite memset_eq. Qed.

(** [memset] stores the low byte of its argument in every byte of the block,
    whatever the alignment and length, and nowhere else; [bzero] stores zeroes. *)
Theorem memset_fills m dst c len :
  in_mem m dst len ->
  memset dst c len m = Some (dst, mstore m dst (replicate (Z.to_nat len) (u8 c))) /\
  bzero dst len m = Some (tt, mstore m dst (replicate (Z.to_nat len) 0)).
Proof. intros H. split; [by apply memset_eq|by apply bzero_eq]. Qed.

Lemma memset_fills_witness :
  memset 1 0x1ab 14 (replicate 16 0) = Some (1, mstore (replicate 16 0) 1 (replicate 14 0xab)) /\
  bzero 1 14 (replicate 16 0) = Some (tt, mstore (replicate 16 0) 1 (replicate 14 0)).
Proof. apply (memset_fills (replicate 16 0) 1 0x1ab 14). unfold in_mem; simpl; lia. Defined.

(** ** Comparing and searching *)

(** The outcome of comparing two blocks, and the part from the first difference on. *)
Fixpoint list_cmp (l1 l2 : list Z) : Z :=
  match l1, l2 with
  | a :: l1, b :: l2 => if a =? b then list_cmp l1 l2 else a - b
  | _, _ => 0
  end.

Fixpoint diff_from (l1 l2 : list Z) : Z :=
  match l1, l2 with
  | a :: r1, b :: r2 => if a =? b then diff_from r1 r2 else Z.of_nat (length l1)
  | _, _ => 0
  end.

(** The place of the first [c] of a list. *)
Fixpoint index_of (c : Z) (l : list Z) : option nat :=
  match l with
  | [] => None
  | a :: l => if a =? c then Some O else S <$> index_of c l
  end.

Lemma list_cmp_eq l1 l2 : length l1 = length l2 -> list_cmp l1 l2 = 0 <-> l1 = l2.
Proof.
  revert l2. induction l1 as [|a l1 IH]; intros [|b l2]; simpl; try done.
  intros [= Hl]. specialize (IH l2 Hl). destruct (Z.eqb_spec a b) as [->|].
  - rewrite IH. split; [by intros ->|by intros [=]].
  - split; [lia|by intros [=]].
Qed.

Lemma diff_from_bound l1 l2 :
  length l1 = length l2 ->
  0 <= diff_from l1 l2 <= Z.of_nat (length l1) /\ (diff_from l1 l2 = 0 <-> l1 = l2).
Proof.
  revert l2. induction l1 as [|a l1 IH]; intros [|b l2]; cbn [diff_from length]; try done.
  intros [= Hl]. specialize (IH l2 Hl). destruct (Z.eqb_spec a b) as [->|].
  - destruct IH as [? ->]. split; [lia|]. split; [by intros ->|by intros [=]].
  - split; [lia|]. split; [lia|by intros [=]].
Qed.

Lemma index_of_spec c l i :
  index_of c l = Some i <-> l !! i = Some c /\ forall j, (j < i)%nat -> l !! j <> Some c.
Proof.
  revert i. induction l as [|a l IH]; intros i; simpl.
  - split; [done|]. intros [H _]. by rewrite lookup_nil in H.
  - destruct (Z.eqb_spec a c) as [->|Hne].
    + split.
      * intros [= <-]. split; [done|]. intros j Hj. lia.
      * intros [_ H]. destruct i; [done|]. by destruct (H 0%nat ltac:(lia)).
    + rewrite fmap_Some. split.
      * intros (k & [Hk Hj]%IH & ->). split; [done|].
        intros [|j] Hlt; simpl; [congruence|]. apply Hj. lia.
      * intros [H Hj]. destruct i as [|i]; [by injection H|]. exists i. split; [|done].
        apply IH. split; [done|]. intros j Hlt. apply (Hj (S j)). lia.
Qed.

Lemma index_of_none c l : index_of c l = None <-> c ∉ l.
Proof.
  induction l as [|a l IH]; simpl; [split; [intros _; apply not_elem_of_nil|done]|].
  rewrite elem_of_cons. destruct (Z.eqb_spec a c) as [->|].
  - split; [done|]. intros []. by left.
  - rewrite fmap_None, IH. split; [intros H [?|?]; congruence|tauto].
Qed.

(** A block as its first byte and the rest. *)
Lemma mbytes_S m a n :
  in_mem m a (Z.of_nat (S n)) ->
  exists c, m !! Z.to_nat a = Some c /\ mbytes m a (S n) = c :: mbytes m (a + 1) n.
Proof.
  intros (H1 & H2 & H3).
  destruct (lookup_lt_is_Some_2 m (Z.to_nat a)) as [c Hc]; [lia|]. exists c. split; [done|].
  change (S n) with (1 + n)%nat. rewrite mbytes_app by done.
  change (Z.of_nat 1) with 1. unfold mbytes at 1, sub.
  rewrite (drop_S _ _ _ Hc). done.
Qed.

Lemma in_mem_tail m a n : in_mem m a (Z.of_nat (S n)) -> in_mem m (a + 1) (Z.of_nat n).
Proof. unfold in_mem. lia. Qed.

Lemma memcmp_loop_ok n p1 p2 m :
  in_mem m p1 (Z.of_nat n) -> in_mem m p2 (Z.of_nat n) ->
  memcmp_loop n p1 p2 m = Some (list_cmp (mbytes m p1 n) (mbytes m p2 n), m) /\
  bcmp_loop n p1 p2 m = Some (diff_from (mbytes m p1 n) (mbytes m p2 n), m).
Proof.
  revert p1 p2. induction n as [|n IH]; intros p1 p2 H1 H2; [done|].
  destruct (mbytes_S m p1 n H1) as (a & Ha & E1), (mbytes_S m p2 n H2) as (b & Hb & E2).
  assert (L : length (mbytes m (p1 + 1) n) = n) by (apply length_mbytes; by apply in_mem_tail).
  rewrite E1, E2. destruct (IH (p1 + 1) (p2 + 1)) as [IH1 IH2]; [by apply in_mem_tail..|].
  destruct H1 as [H1 _], H2 as [H2 _].
  unfold memcmp_loop, bcmp_loop; fold memcmp_loop bcmp_loop.
  unfold peek, mbind, St_bind. cbn [diff_from list_cmp length]. rewrite L.
  destruct (Z.leb_spec 0 p1), (Z.leb_spec 0 p2); try lia. rewrite Ha, Hb.
  by destruct (Z.eqb_spec a b).
Qed.

Lemma memchr_loop_ok n p c m :
  in_mem m p (Z.of_nat n) ->
  memchr_loop n p c m =
    Some ((fun i => p + Z.of_nat i) <$> index_of (u8 c) (mbytes m p n), m).
Proof.
  revert p. induction n as [|n IH]; intros p H1; [done|].
  destruct (mbytes_S m p n H1) as (a & Ha & ->).
  specialize (IH (p + 1) (in_mem_tail _ _ _ H1)). destruct H1 as [H1 _].
  cbn [memchr_loop index_of]. unfold peek at 1, mbind, St_bind.
  destruct (Z.leb_spec 0 p); [|lia]. rewrite Ha.
  destruct (a =? u8 c); cbn [fmap option_fmap option_map]; [by rewrite Z.add_0_r|].
  rewrite IH. destruct (index_of (u8 c) (mbytes m (p + 1) n)) as [i|]; [|done].
  cbn [fmap option_fmap option_map]. do 3 f_equal. lia.
Qed.

(** On blocks inside the memory, [memcmp] is the difference of the first bytes
    that differ as unsigned values, and zero exactly when the blocks are equal; so is
    [bcmp], for blocks shorter than 2^31; [memchr] finds the first byte equal to the low
    byte of its argument.  None of them changes the memory. *)
Theorem blocks_compared m p q c n :
  in_mem m p n -> in_mem m q n ->
  let x := mbytes m p (Z.to_nat n) in let y := mbytes m q (Z.to_nat n) in
  memcmp p q n m = Some (list_cmp x y, m) /\ (list_cmp x y = 0 <-> x = y) /\
  (exists d, bcmp p q n m = Some (d, m) /\ (n < 2 ^ 31 -> d = 0 <-> x = y)) /\
  memchr p c n m = Some ((fun i => p + Z.of_nat i) <$> index_of (u8 c) x, m).
Proof.
  intros Hp Hq x y. pose proof (proj1 (proj2 Hp)) as Hn.
  rewrite <- (Z2Nat.id n Hn) in Hp, Hq.
  destruct (memcmp_loop_ok (Z.to_nat n) p q m Hp Hq) as [E1 E2]. fold x y in E1, E2.
  assert (Hx : length x = Z.to_nat n) by (by apply length_mbytes).
  assert (Hl : length x = length y) by (rewrite Hx; symmetry; by apply length_mbytes).
  split_and!.
  - exact E1.
  - by apply list_cmp_eq.
  - exists (s32 (diff_from x y)). unfold bcmp, mbind, St_bind. rewrite E2. split; [done|].
    intros Hb. destruct (diff_from_bound x y Hl) as [B <-]. rewrite s32_small by lia. done.
  - by apply memchr_loop_ok.
Qed.

Lemma blocks_compared_witness :
  let m := [1; 200; 3; 1; 2; 3] in
  memcmp 0 3 3 m = Some (198, m) /\ (198 = 0 <-> [1; 200; 3] = [1; 2; 3]) /\
  (exists d, bcmp 0 3 3 m = Some (d, m) /\ (3 < 2 ^ 31 -> d = 0 <-> [1; 200; 3] = [1; 2; 3])) /\
  memchr 0 0x103 3 m = Some (Some 2, m).
Proof.
  apply (blocks_compared [1; 200; 3; 1; 2; 3] 0 3 0x103 3); unfold in_mem; simpl; lia.
Defined.

(** ** swab swaps the bytes of every pair *)
Fixpoint swap_pairs (l : list Z) : list Z :=
  match l with
  | a :: b :: l => b :: a :: swap_pairs l
  | _ => []
  end.

Lemma swap_pairs_snoc l a b :
  Nat.even (length l) = true -> swap_pairs (l ++ [a; b]) = swap_pairs l ++ [b; a].
Proof.
  revert l. fix IH 1. intros [|x [|y l]]; [done|done|]. simpl. intros H. by rewrite IH.
Qed.

Lemma length_swap_pairs l : Nat.even (length l) = true -> length (swap_pairs l) = length l.
Proof. revert l. fix IH 1. intros [|x [|y l]]; [done|done|]. simpl. intros H. by rewrite IH. Qed.

Lemma even_double k : Nat.even (2 * k) = true.
Proof. apply Nat.even_spec. by exists k. Qed.

Section swab_ok.
Context (m0 : mem) (from to : Z) (pairs : nat).
Hypothesis Hfrom : in_mem m0 from (2 * Z.of_nat pairs).
Hypothesis Hto : in_mem m0 to (2 * Z.of_nat pairs).
Hypothesis Hdisj : from + 2 * Z.of_nat pairs <= to \/ to + 2 * Z.of_nat pairs <= from.
Hypothesis Hbytes : bytes_ok m0.

Definition swabbed (k : nat) : mem := mstore m0 to (swap_pairs (mbytes m0 from (2 * k))).

Lemma wp_swab_step k (Q : Z * Z -> mem -> Prop) :
  (k < pairs)%nat ->
  Q (from + 2 * Z.of_nat (S k), to + 2 * Z.of_nat (S k)) (swabbed (S k)) ->
  wp (swab_step (from + 2 * Z.of_nat k) (to + 2 * Z.of_nat k)) (swabbed k) Q.
Proof.
  intros Hk HQ. unfold in_mem in *.
  assert (L0 : length (mbytes m0 from (2 * k)) = (2 * k)%nat)
    by (apply length_mbytes; unfold in_mem; lia).
  assert (L : length (swap_pairs (mbytes m0 from (2 * k))) = (2 * k)%nat)
    by (rewrite length_swap_pairs; rewrite L0; [done|apply even_double]).
  assert (Lm : length (swabbed k) = length m0)
    by (apply length_mstore; unfold in_mem; rewrite L; lia).
  destruct (mbytes_S m0 (from + 2 * Z.of_nat k) 1) as (a & Ha & Ea); [unfold in_mem; lia|].
  destruct (mbytes_S m0 (from + 2 * Z.of_nat k + 1) 0) as (b & Hb & Eb); [unfold in_mem; lia|].
  rewrite Eb in Ea. cbn [mbytes sub take] in Ea.
  assert (Hin : forall p c, 0 <= p -> p < from + 2 * Z.of_nat pairs -> from <= p ->
    m0 !! Z.to_nat p = Some c -> swabbed k !! Z.to_nat p = Some c).
  { intros p c Hp0 Hp Hp1 Hc. unfold swabbed. rewrite lookup_mstore by (unfold in_mem; lia).
    rewrite L. case_decide; [lia|done]. }
  assert (0 <= a < 256 /\ 0 <= b < 256) as [Hba Hbb].
  { unfold bytes_ok in Hbytes. rewrite Forall_lookup in Hbytes. eauto. }
  unfold swab_step. apply wp_bind, (wp_peek _ a); [lia|apply Hin; done || lia|].
  apply wp_bind, (wp_peek _ b); [lia|apply Hin; done || lia|].
  apply wp_bind, wp_poke; [unfold in_mem; rewrite Lm; lia|done|].
  apply wp_bind, wp_poke; [|done|apply wp_ret].
  { unfold in_mem. rewrite length_mstore; unfold in_mem; rewrite Lm; simpl; lia. }
  replace (from + 2 * Z.of_nat k + 2) with (from + 2 * Z.of_nat (S k)) by lia.
  replace (to + 2 * Z.of_nat k + 2) with (to + 2 * Z.of_nat (S k)) by lia.
  assert (E : swabbed (S k) =
    mstore (mstore (swabbed k) (to + 2 * Z.of_nat k) [b]) (to + 2 * Z.of_nat k + 1) [a]).
  { unfold swabbed. replace (2 * S k)%nat with (2 * k + 2)%nat by lia.
    rewrite mbytes_app by lia. replace (Z.of_nat (2 * k)) with (2 * Z.of_nat k) by lia.
    rewrite Ea. change (mbytes m0 (from + 2 * Z.of_nat k + 1 + 1) 0) with (@nil Z).
    rewrite swap_pairs_snoc by (rewrite L0; apply even_double).
    rewrite <- mstore_app by (unfold in_mem; rewrite length_app, L; simpl; lia).
    rewrite L. replace (Z.of_nat (2 * k)) with (2 * Z.of_nat k) by lia.
    change [b; a] with ([b] ++ [a]).
    rewrite <- mstore_app by (unfold in_mem, swabbed in *; rewrite Lm; simpl; lia). done. }
  by rewrite <- E.
Qed.

Lemma wp_swab_steps n k (Q : Z * Z -> mem -> Prop) :
  (k + n <= pairs)%nat ->
  Q (from + 2 * Z.of_nat (k + n), to + 2 * Z.of_nat (k + n)) (swabbed (k + n)) ->
  wp (swab_steps n (from + 2 * Z.of_nat k) (to + 2 * Z.of_nat k)) (swabbed k) Q.
Proof.
  revert k. induction n as [|n IH]; intros k Hk HQ.
  - rewrite Nat.add_0_r in HQ. by apply wp_ret.
  - cbn [swab_steps]. apply wp_bind, wp_swab_step; [lia|].
    apply IH; [lia|]. by replace (S k + n)%nat with (k + S n)%nat by lia.
Qed.

Lemma wp_swab_eights n k (Q : Z * Z -> mem -> Prop) :
  (k + 8 * n <= pairs)%nat ->
  Q (from + 2 * Z.of_nat (k + 8 * n), to + 2 * Z.of_nat (k + 8 * n)) (swabbed (k + 8 * n)) ->
  wp (swab_eights n (from + 2 * Z.of_nat k) (to + 2 * Z.of_nat k)) (swabbed k) Q.
Proof.
  revert k. induction n as [|n IH]; intros k Hk HQ.
  - rewrite Nat.add_0_r in HQ. by apply wp_ret.
  - cbn [swab_eights]. apply wp_bind, wp_swab_steps; [lia|].
    apply IH; [lia|]. by replace (k + 8 + 8 * n)%nat with (k + 8 * S n)%nat by lia.
Qed.

Lemma land7 z : Z.land z 7 = z mod 8.
Proof. change 7 with (Z.ones 3). by rewrite Z.land_ones. Qed.

Lemma wp_swab_round fuel n k (Q : Z * Z * Z -> mem -> Prop) :
  (Z.to_nat (n mod 8) < fuel)%nat -> Z.of_nat k + n = Z.of_nat pairs -> 0 <= n ->
  (let r := Z.to_nat (n mod 8) in
   Q (n - n mod 8, from + 2 * Z.of_nat (k + r), to + 2 * Z.of_nat (k + r)) (swabbed (k + r))) ->
  wp (swab_round fuel n (from + 2 * Z.of_nat k) (to + 2 * Z.of_nat k)) (swabbed k) Q.
Proof.
  revert n k. induction fuel as [|fuel IH]; intros n k Hf Hk Hn HQ; [lia|].
  pose proof (Z.mod_pos_bound n 8 ltac:(lia)). pose proof (Z.mod_le n 8 Hn ltac:(lia)).
  cbn [swab_round]. rewrite land7. cbv zeta in HQ. destruct (Z.eqb_spec (n mod 8) 0) as [E|E]; simpl negb.
  - rewrite E, Z.sub_0_r, Nat.add_0_r in HQ. by apply wp_ret.
  - apply wp_bind, wp_swab_step; [lia|].
    assert (E' : (n - 1) mod 8 = n mod 8 - 1).
    { symmetry. apply (Z.mod_unique_pos _ _ (n / 8)); [lia|].
      pose proof (Z.div_mod n 8 ltac:(lia)). lia. }
    apply IH; rewrite ?E'; [lia..|]. cbv zeta.
    replace (S k + Z.to_nat (n mod 8 - 1))%nat with (k + Z.to_nat (n mod 8))%nat by lia.
    by replace (n - 1 - (n mod 8 - 1)) with (n - n mod 8) by lia.
Qed.
End swab_ok.

(** [swab] copies [len / 2] pairs of bytes, each with its bytes exchanged, to a
    block apart from the source, and changes nothing else; a negative or zero length
    does nothing. *)
Theorem swab_swaps m from to len :
  bytes_ok m -> len < 2 ^ 32 ->
  let n := Z.max 0 (len / 2) in
  in_mem m from (2 * n) -> in_mem m to (2 * n) ->
  from + 2 * n <= to \/ to + 2 * n <= from ->
  swab from to len m = Some (tt, mstore m to (swap_pairs (mbytes m from (Z.to_nat (2 * n))))).
Proof.
  intros Hb Hlen n Hf Ht Hd. unfold swab.
  destruct (Z.leb_spec len 0).
  { assert (n = 0) as -> by (unfold n; pose proof (Z.div_le_upper_bound len 2 0); lia).
    simpl. by rewrite mstore_nil. }
  assert (Hn : n = len / 2) by (unfold n; pose proof (Z.div_pos len 2); lia).
  rewrite Z.shiftr_div_pow2 by lia. change (2 ^ 1) with 2.
  assert (Hn2 : 0 <= n < 2 ^ 31) by (rewrite Hn; split; [apply Z.div_pos; lia|
    apply Z.div_lt_upper_bound; lia]).
  rewrite <- Hn, s32_small by lia. clearbody n.
  assert (Hz : n = Z.of_nat (Z.to_nat n)) by lia. set (pairs := Z.to_nat n) in *.
  rewrite Hz in Hf, Ht, Hd.
  enough (wp ('(n', fp, tp) ← swab_round 8 n from to;
      swab_eights (Z.to_nat (Z.shiftr n' 3)) fp tp;; mret tt) m
      (fun _ m' => m' = swabbed m from to pairs)) as ([] & m' & E & ->)%wp_elim.
  { cbv zeta. rewrite E. unfold swabbed. by replace (Z.to_nat (2 * n)) with (2 * pairs)%nat by lia. }
  pose proof (Z.mod_pos_bound n 8 ltac:(lia)). pose proof (Z.div_mod n 8 ltac:(lia)).
  pose proof (Z.div_pos n 8 ltac:(lia) ltac:(lia)).
  assert (Hz0 : swabbed m from to 0 = m) by apply mstore_nil.
  apply wp_bind.
  pose proof (wp_swab_round m from to pairs Hf Ht Hd Hb 8 n 0) as W.
  rewrite Z.mul_0_r, !Z.add_0_r, Hz0 in W. apply W; [lia|lia|lia|]. clear W. cbv zeta.
  rewrite Z.shiftr_div_pow2 by lia. change (2 ^ 3) with 8.
  replace ((n - n mod 8) / 8) with (n / 8)
    by (symmetry; replace (n - n mod 8) with (n / 8 * 8) by lia; apply Z.div_mul; lia).
  apply wp_bind, (wp_swab_eights m from to pairs); [done..|lia|].
  apply wp_ret. f_equal. lia.
Qed.

Lemma swab_swaps_witness :
  swab 0 6 5 [1; 2; 3; 4; 5; 0; 9; 9; 9; 9; 9] = Some (tt, [1; 2; 3; 4; 5; 0; 2; 1; 4; 3; 9]).
Proof.
  apply (swab_swaps [1; 2; 3; 4; 5; 0; 9; 9; 9; 9; 9] 0 6 5).
  - repeat constructor; discriminate.
  - lia.
  - vm_compute. intuition discriminate.
  - vm_compute. intuition discriminate.
  - left. vm_compute. discriminate.
Defined.

(** ** ffs *)
Lemma ffs_loop_ok fuel mask bit :
  0 < mask < 2 ^ Z.of_nat fuel -> (fuel <= 31)%nat ->
  exists k, ffs_loop (S fuel) mask bit = Some (bit + Z.of_nat k) /\
    Z.testbit mask (Z.of_nat k) = true /\ forall j, 0 <= j < Z.of_nat k -> Z.testbit mask j = false.
Proof.
  revert mask bit. induction fuel as [|fuel IH]; intros mask bit Hm Hf; [simpl in Hm; lia|].
  remember (S fuel) as f eqn:Ef. cbn [ffs_loop].
  assert (E1 : Z.land mask 1 = mask mod 2) by (change 1 with (Z.ones 1); by rewrite Z.land_ones).
  assert (Hpow : 2 ^ Z.of_nat f = 2 * 2 ^ Z.of_nat fuel)
    by (subst f; rewrite Nat2Z.inj_succ, Z.pow_succ_r by lia; done).
  rewrite E1, Zmod_odd. destruct (Z.odd mask) eqn:Eo; simpl.
  - exists 0%nat. split; [f_equal; lia|]. split; [by rewrite Z.bit0_odd|]. intros. lia.
  - assert (2 ^ Z.of_nat f <= 2 ^ 31) by (apply Z.pow_le_mono_r; lia).
    rewrite u32_small by lia. rewrite Z.shiftr_div_pow2 by lia. change (2 ^ 1) with 2.
    pose proof (Z.div_mod mask 2 ltac:(lia)). rewrite Zmod_odd, Eo in *.
    rewrite s32_small by lia.
    destruct (IH (mask / 2) (bit + 1)) as (k & Hk & Hb & Hj); [lia|lia|].
    exists (S k). subst f. rewrite Hk. split; [f_equal; lia|].
    rewrite Nat2Z.inj_succ.
    assert (Hshift : forall j, 0 <= j -> Z.testbit mask (Z.succ j) = Z.testbit (mask / 2) j).
    { intros j Hj0. by rewrite Z.div2_bits. }
    rewrite Hshift by lia. split; [done|]. intros j Hj'.
    destruct (Z.eq_dec j 0) as [->|]; [by rewrite Z.bit0_odd|].
    replace j with (Z.succ (j - 1)) by lia. rewrite Hshift by lia. apply Hj. lia.
Qed.

(** [ffs] is 0 for 0 and otherwise one more than the place of the lowest bit set,
    for every 32-bit [int], the negative ones included. *)
Theorem ffs_lowest mask :
  - 2 ^ 31 <= mask < 2 ^ 31 ->
  exists r, ffs mask = Some r /\ (r = 0 <-> mask = 0) /\
    (mask <> 0 -> 1 <= r <= 32 /\ Z.testbit mask (r - 1) = true /\
      forall j, 0 <= j < r - 1 -> Z.testbit mask j = false).
Proof.
  intros Hm. unfold ffs. destruct (Z.eqb_spec mask 0) as [->|Hne]; [by exists 0|].
  remember 32%nat as fuel eqn:Ef. cbn [ffs_loop].
  assert (E1 : Z.land mask 1 = mask mod 2) by (change 1 with (Z.ones 1); by rewrite Z.land_ones).
  rewrite E1, Zmod_odd. destruct (Z.odd mask) eqn:Eo; simpl.
  { exists 1. split; [done|]. split; [done|]. intros _. split; [lia|].
    split; [by rewrite Z.bit0_odd|]. lia. }
  (* one shift makes the value non-negative *)
  assert (Hu : Z.shiftr (u32 mask) 1 = (mask / 2) mod 2 ^ 31).
  { rewrite Z.shiftr_div_pow2 by lia. unfold u32. change (2 ^ 32) with (2 * 2 ^ 31).
    rewrite Z.rem_mul_r by lia. rewrite Zmod_odd, Eo, Z.add_0_l, Z.mul_comm.
    change (2 ^ 1) with 2. by rewrite Z.div_mul. }
  pose proof (Z.mod_pos_bound (mask / 2) (2 ^ 31) ltac:(lia)) as Hb.
  pose proof (Z.div_mod mask 2 ltac:(lia)) as Hdm. rewrite Zmod_odd, Eo in Hdm.
  rewrite Hu, s32_small by lia.
  assert (Hbit : forall j, 0 <= j < 31 ->
    Z.testbit mask (Z.succ j) = Z.testbit ((mask / 2) mod 2 ^ 31) j).
  { intros j Hj. rewrite Z.mod_pow2_bits_low by lia.
    by rewrite Z.div2_bits by lia. }
  assert (Hpos : 0 < (mask / 2) mod 2 ^ 31).
  { destruct (Z.eq_dec ((mask / 2) mod 2 ^ 31) 0) as [E|]; [exfalso|lia].
    pose proof (Z.div_mod (mask / 2) (2 ^ 31) ltac:(lia)). lia. }
  subst fuel. change (1 + 1) with 2. destruct (ffs_loop_ok 31 ((mask / 2) mod 2 ^ 31) 2) as (k & -> & Hk & Hj);
    [lia|lia|].
  assert (Hk31 : Z.of_nat k < 31).
  { destruct (Z.lt_ge_cases (Z.of_nat k) 31); [done|].
    by rewrite Z.mod_pow2_bits_high in Hk by lia. }
  exists (2 + Z.of_nat k). split; [done|]. split; [lia|]. intros _. split; [lia|].
  replace (2 + Z.of_nat k - 1) with (Z.succ (Z.of_nat k)) by lia. rewrite Hbit by lia.
  split; [done|]. intros j Hj'. destruct (Z.eq_dec j 0) as [->|]; [by rewrite Z.bit0_odd|].
  replace j with (Z.succ (j - 1)) by lia. rewrite Hbit by lia. apply Hj. lia.
Qed.

Lemma ffs_lowest_witness :
  exists r, ffs (- 2 ^ 31) = Some r /\ (r = 0 <-> - 2 ^ 31 = 0) /\
    (- 2 ^ 31 <> 0 -> 1 <= r <= 32 /\ Z.testbit (- 2 ^ 31) (r - 1) = true /\
      forall j, 0 <= j < r - 1 -> Z.testbit (- 2 ^ 31) j = false).
Proof. apply (ffs_lowest (- 2 ^ 31)). lia. Defined.
