(* ===== verification/CString.v ===== *)
(** * CString: the string routines of lib/libc/string

    Over the memory of [CMem]: strlen.c, strcmp.c, strncmp.c, strcpy.c, strcat.c,
    strncpy.c, strncat.c, strchr.c and index.c, strrchr.c and rindex.c, strspn.c,
    strcspn.c, strpbrk.c, strstr.c, strsep.c and strtok.c.  Every iteration of their
    loops reads the next byte, so the size of the memory is enough fuel. *)
From Stdlib Require Import ZArith Lia.
From stdpp Require Import base list option.
From S2P Require Import Prelude CMem.
Open Scope Z_scope.

Definition mem_fuel (m : mem) : nat := S (length m).

(** ** Length, copying *)
Fixpoint strlen_loop (fuel : nat) (s : Z) : St mem Z :=
  match fuel with
  | O => ub
  | S fuel => c ← peek s; if c =? 0 then mret s else strlen_loop fuel (s + 1)
  end.

Definition strlen (str : Z) : St mem Z :=
  fuel ← gets mem_fuel; s ← strlen_loop fuel str; mret (s - str).

(** [for (; ( *to = *from); ++from, ++to);] *)
Fixpoint strcpy_loop (fuel : nat) (to from : Z) : St mem unit :=
  match fuel with
  | O => ub
  | S fuel =>
    c ← peek from; poke to c;;
    if c =? 0 then mret tt else strcpy_loop fuel (to + 1) (from + 1)
  end.

Definition strcpy (to from : Z) : St mem Z :=
  fuel ← gets mem_fuel; strcpy_loop fuel to from;; mret to.

Definition strcat (s append : Z) : St mem Z :=
  fuel ← gets mem_fuel; e ← strlen_loop fuel s; strcpy_loop fuel e append;; mret s.

(** The [do] loop of [strncpy], [n > 0] bytes still to write, with its NUL padding. *)
Fixpoint strncpy_loop (n : nat) (d s : Z) : St mem unit :=
  match n with
  | O => mret tt
  | S n =>
    c ← peek s; poke d c;;
    if c =? 0 then fill n (d + 1) [0];; mret tt else strncpy_loop n (d + 1) (s + 1)
  end.

Definition strncpy (dst src n : Z) : St mem Z := strncpy_loop (Z.to_nat n) dst src;; mret dst.

Fixpoint strncat_loop (n : nat) (d s : Z) : St mem Z :=
  match n with
  | O => mret d
  | S n =>
    c ← peek s; poke d c;; if c =? 0 then mret d else strncat_loop n (d + 1) (s + 1)
  end.

Definition strncat (dst src n : Z) : St mem Z :=
  if n =? 0 then mret dst
  else
    fuel ← gets mem_fuel;
    d ← strlen_loop fuel dst;
    d ← strncat_loop (Z.to_nat n) d src;
    poke d 0;; mret dst.

(** ** Comparing *)
Fixpoint strcmp_loop (fuel : nat) (s1 s2 : Z) : St mem Z :=
  match fuel with
  | O => ub
  | S fuel =>
    a ← peek s1; b ← peek s2;
    if a =? b then (if a =? 0 then mret 0 else strcmp_loop fuel (s1 + 1) (s2 + 1))
    else mret (a - b)
  end.

Definition strcmp (s1 s2 : Z) : St mem Z :=
  fuel ← gets mem_fuel; strcmp_loop fuel s1 s2.

Fixpoint strncmp_loop (n : nat) (s1 s2 : Z) : St mem Z :=
  match n with
  | O => mret 0
  | S n =>
    a ← peek s1; b ← peek s2;
    if negb (a =? b) then mret (a - b)
    else if a =? 0 then mret 0 else strncmp_loop n (s1 + 1) (s2 + 1)
  end.

Definition strncmp (s1 s2 n : Z) : St mem Z := strncmp_loop (Z.to_nat n) s1 s2.

(** ** Searching *)
Fixpoint strchr_loop (fuel : nat) (p c : Z) : St mem (option Z) :=
  match fuel with
  | O => ub
  | S fuel =>
    a ← peek p;
    if a =? c then mret (Some p) else if a =? 0 then mret None else strchr_loop fuel (p + 1) c
  end.

Definition strchr (p ch : Z) : St mem (option Z) :=
  fuel ← gets mem_fuel; strchr_loop fuel p (u8 ch).
(** index.c is the same text. *)
Definition index (p ch : Z) : St mem (option Z) :=
  fuel ← gets mem_fuel; strchr_loop fuel p (u8 ch).

Fixpoint strrchr_loop (fuel : nat) (p c : Z) (save : option Z) : St mem (option Z) :=
  match fuel with
  | O => ub
  | S fuel =>
    a ← peek p;
    let save := if a =? c then Some p else save in
    if a =? 0 then mret save else strrchr_loop fuel (p + 1) c save
  end.

Definition strrchr (p ch : Z) : St mem (option Z) :=
  fuel ← gets mem_fuel; strrchr_loop fuel p (u8 ch) None.
(** rindex.c is the same text. *)
Definition rindex (p ch : Z) : St mem (option Z) :=
  fuel ← gets mem_fuel; strrchr_loop fuel p (u8 ch) None.

(** [bool charset[UCHAR_MAX + 1]] *)
Abbreviation charset := (list bool).
Definition charset_empty : charset := replicate 256 false.
Definition charset_has (cs : charset) (c : Z) : bool := default false (cs !! Z.to_nat c).

(** [for ( ; *chars != '\0'; chars++) charset[*chars] = true;] *)
Fixpoint charset_add (fuel : nat) (chars : Z) (cs : charset) : St mem charset :=
  match fuel with
  | O => ub
  | S fuel =>
    c ← peek chars;
    if c =? 0 then mret cs else charset_add fuel (chars + 1) (<[Z.to_nat c := true]> cs)
  end.

(** [do charset[*chars] = true; while ( *chars++ != '\0');] *)
Fixpoint charset_add_nul (fuel : nat) (chars : Z) (cs : charset) : St mem charset :=
  match fuel with
  | O => ub
  | S fuel =>
    c ← peek chars;
    let cs := <[Z.to_nat c := true]> cs in
    if c =? 0 then mret cs else charset_add_nul fuel (chars + 1) cs
  end.

(** [for (s = str; charset[*s] == want; s++);] *)
Fixpoint span_loop (fuel : nat) (s : Z) (cs : charset) (want : bool) : St mem Z :=
  match fuel with
  | O => ub
  | S fuel =>
    c ← peek s; if eqb (charset_has cs c) want then span_loop fuel (s + 1) cs want else mret s
  end.

Definition strspn (str chars : Z) : St mem Z :=
  fuel ← gets mem_fuel;
  a ← peek str;
  if a =? 0 then mret 0
  else
    b ← peek chars;
    if b =? 0 then mret 0
    else
      cs ← charset_add fuel chars charset_empty;
      s ← span_loop fuel str cs true;
      mret (s - str).

Definition strcspn (str chars : Z) : St mem Z :=
  fuel ← gets mem_fuel;
  a ← peek str;
  if a =? 0 then mret 0
  else
    b ← peek chars;
    if b =? 0 then strlen str
    else
      cs ← charset_add_nul fuel chars charset_empty;
      s ← span_loop fuel str cs false;
      mret (s - str).

(** [for (scanp = s2; (sc = *scanp++) != '\0';) if (sc == c) ...]: is [c] there? *)
Fixpoint scan_loop (fuel : nat) (scanp c : Z) : St mem bool :=
  match fuel with
  | O => ub
  | S fuel =>
    sc ← peek scanp;
    if sc =? 0 then mret false
    else if sc =? c then mret true else scan_loop fuel (scanp + 1) c
  end.

Fixpoint strpbrk_loop (fuel : nat) (s1 s2 : Z) : St mem (option Z) :=
  match fuel with
  | O => ub
  | S fuel =>
    c ← peek s1;
    if c =? 0 then mret None
    else
      n ← gets mem_fuel;
      found ← scan_loop n s2 c;
      if found : bool then mret (Some s1) else strpbrk_loop fuel (s1 + 1) s2
  end.

Definition strpbrk (s1 s2 : Z) : St mem (option Z) :=
  fuel ← gets mem_fuel; strpbrk_loop fuel s1 s2.

(** Both [do] loops of [strstr], [c] being the first and [find] the rest. *)
Fixpoint strstr_loop (fuel : nat) (s c find len : Z) : St mem (option Z) :=
  match fuel with
  | O => ub
  | S fuel =>
    sc ← peek s;
    if sc =? 0 then mret None
    else if negb (sc =? c) then strstr_loop fuel (s + 1) c find len
    else
      r ← strncmp (s + 1) find len;
      if negb (r =? 0) then strstr_loop fuel (s + 1) c find len else mret (Some s)
  end.

Definition strstr (s find : Z) : St mem (option Z) :=
  fuel ← gets mem_fuel;
  c ← peek find;
  if c =? 0 then mret (Some s)
  else len ← strlen (find + 1); strstr_loop fuel s c (find + 1) len.

(** ** Splitting *)

(** [do { if ((sc = *spanp++) == c) ...; } while (sc != 0);]: is [c] a delimiter, the
    terminating NUL included? *)
Fixpoint delim_loop (fuel : nat) (spanp c : Z) : St mem bool :=
  match fuel with
  | O => ub
  | S fuel =>
    sc ← peek spanp;
    if sc =? c then mret true else if sc =? 0 then mret false else delim_loop fuel (spanp + 1) c
  end.

(** Scans to the end of the token, ends it there, and gives where to go on. *)
Fixpoint token_loop (fuel : nat) (s delim : Z) : St mem (option Z) :=
  match fuel with
  | O => ub
  | S fuel =>
    c ← peek s;
    n ← gets mem_fuel;
    found ← delim_loop n delim c;
    if found : bool then
      if c =? 0 then mret None else poke s 0;; mret (Some (s + 1))
    else token_loop fuel (s + 1) delim
  end.

(** [strsep]: the token and the new [*stringp]. *)
Definition strsep (stringp : option Z) (delim : Z) : St mem (option Z * option Z) :=
  match stringp with
  | None => mret (None, None)
  | Some s =>
    fuel ← gets mem_fuel;
    next ← token_loop fuel s delim;
    mret (Some s, next)
  end.

(** [cont: c = *s++; ... goto cont;]: skips the leading delimiters. *)
Fixpoint skip_loop (fuel : nat) (s delim : Z) : St mem (Z * Z) :=
  match fuel with
  | O => ub
  | S fuel =>
    c ← peek s;
    n ← gets mem_fuel;
    found ← scan_loop n delim c;
    if found : bool then skip_loop fuel (s + 1) delim else mret (c, s + 1)
  end.

(** [__strtok_r]: the token and the new [*last]. *)
Definition strtok_r (s : option Z) (delim : Z) (last : option Z) : St mem (option Z * option Z) :=
  match (match s with Some _ => s | None => last end) with
  | None => mret (None, last)
  | Some s =>
    fuel ← gets mem_fuel;
    '(c, s) ← skip_loop fuel s delim;
    if c =? 0 then mret (None, None)
    else
      let tok := s - 1 in
      next ← token_loop fuel s delim;
      mret (Some tok, next)
  end.

(** ** Strings in memory *)

(** The bytes [l] and a NUL are stored at [a]. *)
Definition cstr_at (m : mem) (a : Z) (l : list Z) : Prop :=
  cstring_ok l /\ in_mem m a (Z.of_nat (length l) + 1) /\
  mbytes m a (S (length l)) = l ++ [0].

Section strings.
Implicit Types (m : mem) (l d : list Z).

Lemma cstr_peek m a l (Q : Z -> mem -> Prop) :
  cstr_at m a l -> Q (hd 0 l) m -> wp (peek a) m Q.
Proof.
  intros (_ & Hin & Hb) HQ.
  destruct (mbytes_S m a (length l)) as (c & Hc & E);
    [by replace (Z.of_nat (S (length l))) with (Z.of_nat (length l) + 1) by lia|].
  rewrite E in Hb. apply (wp_peek a c); [apply Hin|done|].
  destruct l as [|x l]; simpl in *; injection Hb; intros; by subst.
Qed.

Lemma cstr_tail m a c l :
  cstr_at m a (c :: l) -> 0 < c < 256 /\ cstr_at m (a + 1) l.
Proof.
  intros (Ho & Hin & Hb). apply Forall_cons_1 in Ho as [Hc Ho]. cbn [length] in *.
  split; [done|]. split; [done|]. split; [unfold in_mem in *; lia|].
  destruct (mbytes_S m a (S (length l))) as (x & _ & E); [unfold in_mem in *; lia|].
  rewrite E in Hb. by injection Hb.
Qed.

Lemma cstr_fuel m a l : cstr_at m a l -> (length l < mem_fuel m)%nat.
Proof. intros (_ & (H1 & H2 & H3) & _). unfold mem_fuel. lia. Qed.

(** A suffix of a string is a string. *)
Lemma cstr_app m a l1 l2 :
  cstr_at m a (l1 ++ l2) -> cstr_at m (a + Z.of_nat (length l1)) l2.
Proof.
  revert a. induction l1 as [|c l1 IH]; intros a; simpl; [by rewrite Z.add_0_r|].
  intros [_ H]%cstr_tail. apply IH in H.
  by replace (a + Z.of_nat (S (length l1))) with (a + 1 + Z.of_nat (length l1)) by lia.
Qed.

(** Storing elsewhere leaves a string. *)
Lemma cstr_store m a l b d :
  cstr_at m a l -> in_mem m b (Z.of_nat (length d)) ->
  a + Z.of_nat (length l) + 1 <= b \/ b + Z.of_nat (length d) <= a ->
  cstr_at (mstore m b d) a l.
Proof.
  intros (Ho & Hin & Hb) Hd Hdis. split; [done|].
  split; [unfold in_mem in *; rewrite length_mstore by done; done|].
  rewrite <- Hb. unfold mbytes, mstore, in_mem in *. apply sub_splice_other; lia.
Qed.

(** A string that was stored. *)
Lemma cstr_stored m a l :
  cstring_ok l -> in_mem m a (Z.of_nat (length l) + 1) -> cstr_at (mstore m a (l ++ [0])) a l.
Proof.
  intros Ho Hin.
  assert (L : length (l ++ [0]) = S (length l)) by (rewrite length_app; simpl; lia).
  split; [done|]. split.
  - unfold in_mem in *. rewrite length_mstore; unfold in_mem; rewrite ?L; lia.
  - unfold mbytes, mstore, in_mem in *. rewrite <- L. apply sub_splice_same. lia.
Qed.

Lemma wp_strlen_loop fuel m a l (Q : Z -> mem -> Prop) :
  cstr_at m a l -> (length l < fuel)%nat -> Q (a + Z.of_nat (length l)) m ->
  wp (strlen_loop fuel a) m Q.
Proof.
  revert a l. induction fuel as [|fuel IH]; intros a l Hs Hf HQ; [lia|].
  cbn [strlen_loop]. apply wp_bind, (cstr_peek _ _ _ _ Hs). destruct l as [|c l]; simpl.
  - apply wp_ret. simpl in HQ. by rewrite Z.add_0_r in HQ.
  - destruct (cstr_tail _ _ _ _ Hs) as [Hc Ht]. destruct (Z.eqb_spec c 0); [lia|].
    simpl in Hf. apply (IH _ l Ht); [lia|].
    by replace (a + 1 + Z.of_nat (length l)) with (a + Z.of_nat (length (c :: l)))
      by (simpl; lia).
Qed.

Lemma wp_strlen m a l (Q : Z -> mem -> Prop) :
  cstr_at m a l -> Q (Z.of_nat (length l)) m -> wp (strlen a) m Q.
Proof.
  intros Hs HQ. apply wp_bind, wp_gets. apply wp_bind.
  eapply wp_strlen_loop; [done|by eapply cstr_fuel|]. apply wp_ret.
  by rewrite Z.add_simpl_l.
Qed.

Lemma wp_strchr_loop fuel m a l c (Q : option Z -> mem -> Prop) :
  cstr_at m a l -> (length l < fuel)%nat ->
  Q ((fun i => a + Z.of_nat i) <$> index_of c (l ++ [0])) m ->
  wp (strchr_loop fuel a c) m Q.
Proof.
  revert a l. induction fuel as [|fuel IH]; intros a l Hs Hf HQ; [lia|].
  cbn [strchr_loop]. apply wp_bind, (cstr_peek _ _ _ _ Hs). destruct l as [|x l];
    cbn [hd app index_of length] in *.
  - destruct (0 =? c); apply wp_ret; [|done]. simpl in HQ. by rewrite Z.add_0_r in HQ.
  - destruct (cstr_tail _ _ _ _ Hs) as [Hx Ht].
    destruct (x =? c); [apply wp_ret; simpl in HQ; by rewrite Z.add_0_r in HQ|].
    destruct (Z.eqb_spec x 0); [lia|]. apply (IH _ l Ht); [lia|].
    destruct (index_of c (l ++ [0])); [|done]. simpl in *.
    by replace (a + 1 + Z.of_nat n0) with (a + Z.of_nat (S n0)) by lia.
Qed.

(** The place of the last [c] of a list. *)
Fixpoint last_index_of (c : Z) (l : list Z) : option nat :=
  match l with
  | [] => None
  | a :: l =>
    match last_index_of c l with
    | Some i => Some (S i)
    | None => if a =? c then Some O else None
    end
  end.

Lemma wp_strrchr_loop fuel m a l c save (Q : option Z -> mem -> Prop) :
  cstr_at m a l -> (length l < fuel)%nat ->
  Q (match last_index_of c (l ++ [0]) with
     | Some i => Some (a + Z.of_nat i) | None => save end) m ->
  wp (strrchr_loop fuel a c save) m Q.
Proof.
  revert a l save. induction fuel as [|fuel IH]; intros a l save Hs Hf HQ; [lia|].
  cbn [strrchr_loop]. apply wp_bind, (cstr_peek _ _ _ _ Hs). destruct l as [|x l];
    cbn [hd app last_index_of length] in *.
  - apply wp_ret. destruct (0 =? c); [|done]. simpl in HQ. by rewrite Z.add_0_r in HQ.
  - destruct (cstr_tail _ _ _ _ Hs) as [Hx Ht]. destruct (Z.eqb_spec x 0); [lia|].
    apply (IH _ l _ Ht); [lia|].
    destruct (last_index_of c (l ++ [0])) as [i|].
    + by replace (a + 1 + Z.of_nat i) with (a + Z.of_nat (S i)) by lia.
    + destruct (x =? c); [|done]. simpl in HQ. by rewrite Z.add_0_r in HQ.
Qed.

(** On a string in memory, [strlen] is its length, [strchr] and [index] find the
    first and [strrchr] and [rindex] the last byte equal to the low byte of their
    argument, the terminating NUL included, and nothing is written. *)
Theorem strings_searched m a l ch :
  cstr_at m a l ->
  strlen a m = Some (Z.of_nat (length l), m) /\
  strchr a ch m = Some ((fun i => a + Z.of_nat i) <$> index_of (u8 ch) (l ++ [0]), m) /\
  strrchr a ch m = Some ((fun i => a + Z.of_nat i) <$> last_index_of (u8 ch) (l ++ [0]), m) /\
  index a ch m = strchr a ch m /\ rindex a ch m = strrchr a ch m.
Proof.
  intros Hs. pose proof (cstr_fuel _ _ _ Hs) as Hf.
  assert (Pure : forall {A} (e : St mem A) (r : A),
    wp e m (fun x m' => x = r /\ m' = m) -> e m = Some (r, m)).
  { intros A e r (x & m' & E & -> & ->)%wp_elim. done. }
  split_and!; [| | |done|done]; apply Pure.
  - by eapply wp_strlen.
  - apply wp_bind, wp_gets. by eapply wp_strchr_loop.
  - apply wp_bind, wp_gets. eapply wp_strrchr_loop; [done..|].
    by destruct (last_index_of _ _).
Qed.
End strings.

(** Two strings, "abca" at 1 and "ba" at 6, and room to write. *)
Definition ex_mem : mem := [7; 97; 98; 99; 97; 0; 98; 97; 0; 1; 2; 3; 4; 5; 6; 7].

Lemma ex_abca : cstr_at ex_mem 1 [97; 98; 99; 97].
Proof. split; [repeat constructor|vm_compute; intuition discriminate]. Qed.

Lemma ex_ba : cstr_at ex_mem 6 [98; 97].
Proof. split; [repeat constructor|vm_compute; intuition discriminate]. Qed.

Lemma strings_searched_witness :
  strlen 1 ex_mem = Some (4, ex_mem) /\ strchr 1 97 ex_mem = Some (Some 1, ex_mem) /\
  strrchr 1 97 ex_mem = Some (Some 4, ex_mem) /\
  index 1 97 ex_mem = strchr 1 97 ex_mem /\ rindex 1 97 ex_mem = strrchr 1 97 ex_mem.
Proof. apply (strings_searched ex_mem 1 [97; 98; 99; 97] 97 ex_abca). Defined.

(** ** Spans *)
Section spans.
Implicit Types (m : mem) (l d : list Z).

Definition inb (c : Z) (d : list Z) : bool := existsb (Z.eqb c) d.

Lemma inb_spec c d : inb c d = true <-> c ∈ d.
Proof.
  unfold inb. rewrite existsb_exists. setoid_rewrite <- list_elem_of_In.
  split; [intros (x & Hx & ->%Z.eqb_eq); done|]. intros H. exists c. split; [done|apply Z.eqb_refl].
Qed.

(** The length of the longest prefix of bytes that satisfy [f]. *)
Fixpoint prefix_len (f : Z -> bool) (l : list Z) : nat :=
  match l with
  | c :: l => if f c then S (prefix_len f l) else O
  | [] => O
  end.

Lemma prefix_len_le f l : (prefix_len f l <= length l)%nat.
Proof. induction l as [|c l IH]; simpl; [lia|]. destruct (f c); lia. Qed.

Lemma prefix_len_split f l :
  Forall (fun c => f c = true) (take (prefix_len f l) l) /\
  (forall c, l !! prefix_len f l = Some c -> f c = false).
Proof.
  induction l as [|c l [IH1 IH2]]; simpl; [split; [constructor|done]|].
  destruct (f c) eqn:E; simpl; [split; [by constructor|done]|].
  split; [constructor|]. by intros ? [= <-].
Qed.

(** What a charset stands for. *)
Definition charset_of (cs : charset) (d : list Z) : Prop :=
  length cs = 256%nat /\ forall c, 0 <= c < 256 -> charset_has cs c = inb c d.

Lemma charset_empty_of : charset_of charset_empty [].
Proof.
  split; [done|]. intros c Hc. unfold charset_has, charset_empty.
  by rewrite lookup_replicate_2 by lia.
Qed.

Lemma charset_insert cs d c :
  charset_of cs d -> 0 <= c < 256 -> charset_of (<[Z.to_nat c := true]> cs) (d ++ [c]).
Proof.
  intros [Hl Hc] Hb. split; [by rewrite length_insert|]. intros x Hx.
  unfold inb. rewrite existsb_app. simpl. rewrite orb_false_r. fold (inb x d).
  rewrite <- Hc by done. unfold charset_has.
  destruct (Z.eqb_spec x c) as [->|Hne].
  - rewrite list_lookup_insert_eq by lia. by rewrite orb_true_r.
  - rewrite list_lookup_insert_ne by lia. by rewrite orb_false_r.
Qed.

Lemma wp_charset_add fuel m a l cs d (Q : charset -> mem -> Prop) :
  cstr_at m a l -> (length l < fuel)%nat -> charset_of cs d ->
  (forall cs', charset_of cs' (d ++ l) -> Q cs' m) -> wp (charset_add fuel a cs) m Q.
Proof.
  revert a l cs d. induction fuel as [|fuel IH]; intros a l cs d Hs Hf Hcs HQ; [lia|].
  cbn [charset_add]. apply wp_bind, (cstr_peek _ _ _ _ Hs).
  destruct l as [|x l]; cbn [hd length] in *.
  - apply wp_ret, HQ. by rewrite app_nil_r.
  - destruct (cstr_tail _ _ _ _ Hs) as [Hx Ht]. destruct (Z.eqb_spec x 0); [lia|].
    apply (IH _ l _ (d ++ [x]) Ht); [lia|apply charset_insert; [done|lia]|].
    intros cs'. rewrite <- app_assoc. apply HQ.
Qed.

Lemma wp_charset_add_nul fuel m a l cs d (Q : charset -> mem -> Prop) :
  cstr_at m a l -> (length l < fuel)%nat -> charset_of cs d ->
  (forall cs', charset_of cs' (d ++ l ++ [0]) -> Q cs' m) -> wp (charset_add_nul fuel a cs) m Q.
Proof.
  revert a l cs d. induction fuel as [|fuel IH]; intros a l cs d Hs Hf Hcs HQ; [lia|].
  cbn [charset_add_nul]. apply wp_bind, (cstr_peek _ _ _ _ Hs).
  destruct l as [|x l]; cbn [hd length] in *.
  - apply wp_ret, HQ. apply charset_insert; [done|lia].
  - destruct (cstr_tail _ _ _ _ Hs) as [Hx Ht]. destruct (Z.eqb_spec x 0); [lia|].
    apply (IH _ l _ (d ++ [x]) Ht); [lia|apply charset_insert; [done|lia]|].
    intros cs'. rewrite <- app_assoc. apply HQ.
Qed.

Lemma wp_span_loop fuel m a l cs d want (Q : Z -> mem -> Prop) :
  cstr_at m a l -> (length l < fuel)%nat -> charset_of cs d -> inb 0 d = negb want ->
  Q (a + Z.of_nat (prefix_len (fun c => eqb (inb c d) want) l)) m ->
  wp (span_loop fuel a cs want) m Q.
Proof.
  intros Hs Hf Hcs Hz. revert a l Hs Hf.
  induction fuel as [|fuel IH]; intros a l Hs Hf HQ; [lia|].
  cbn [span_loop]. apply wp_bind, (cstr_peek _ _ _ _ Hs).
  destruct l as [|x l]; cbn [hd length prefix_len] in *.
  - rewrite (proj2 Hcs), Hz by lia. rewrite eqb_negb1. apply wp_ret.
    by rewrite Z.add_0_r in HQ.
  - destruct (cstr_tail _ _ _ _ Hs) as [Hx Ht]. rewrite (proj2 Hcs) by lia.
    destruct (eqb (inb x d) want); [|apply wp_ret; by rewrite Z.add_0_r in HQ].
    apply (IH _ l Ht); [lia|].
    set (k := prefix_len _ l) in *.
    by replace (a + 1 + Z.of_nat k) with (a + Z.of_nat (S k)) by lia.
Qed.

Lemma wp_scan_loop fuel m a d c (Q : bool -> mem -> Prop) :
  cstr_at m a d -> (length d < fuel)%nat -> Q (inb c d) m -> wp (scan_loop fuel a c) m Q.
Proof.
  revert a d. induction fuel as [|fuel IH]; intros a d Hs Hf HQ; [lia|].
  cbn [scan_loop]. apply wp_bind, (cstr_peek _ _ _ _ Hs).
  destruct d as [|x d]; cbn [hd length] in *; [by apply wp_ret|].
  destruct (cstr_tail _ _ _ _ Hs) as [Hx Ht]. destruct (Z.eqb_spec x 0); [lia|].
  unfold inb in HQ. cbn [existsb] in HQ. rewrite Z.eqb_sym in HQ.
  destruct (x =? c); [by apply wp_ret|]. by apply (IH _ d Ht); [lia|].
Qed.

Lemma wp_delim_loop fuel m a d c (Q : bool -> mem -> Prop) :
  cstr_at m a d -> (length d < fuel)%nat -> Q (inb c (d ++ [0])) m ->
  wp (delim_loop fuel a c) m Q.
Proof.
  revert a d. induction fuel as [|fuel IH]; intros a d Hs Hf HQ; [lia|].
  cbn [delim_loop]. apply wp_bind, (cstr_peek _ _ _ _ Hs).
  unfold inb in HQ. destruct d as [|x d]; cbn [hd length app existsb] in *.
  - rewrite orb_false_r, Z.eqb_sym in HQ. destruct (0 =? c); by apply wp_ret.
  - destruct (cstr_tail _ _ _ _ Hs) as [Hx Ht]. rewrite Z.eqb_sym in HQ.
    destruct (x =? c); [by apply wp_ret|]. destruct (Z.eqb_spec x 0); [lia|].
    by apply (IH _ d Ht); [lia|].
Qed.

Lemma wp_strpbrk_loop fuel m a l b d (Q : option Z -> mem -> Prop) :
  cstr_at m a l -> (length l < fuel)%nat -> cstr_at m b d ->
  (let k := prefix_len (fun c => negb (inb c d)) l in
   Q (if (k <? length l)%nat then Some (a + Z.of_nat k) else None) m) ->
  wp (strpbrk_loop fuel a b) m Q.
Proof.
  intros Hs Hf Hd. revert a l Hs Hf.
  induction fuel as [|fuel IH]; intros a l Hs Hf HQ; [lia|].
  cbn [strpbrk_loop]. apply wp_bind, (cstr_peek _ _ _ _ Hs).
  destruct l as [|x l]; cbn [hd length prefix_len] in *; [by apply wp_ret|].
  destruct (cstr_tail _ _ _ _ Hs) as [Hx Ht]. destruct (Z.eqb_spec x 0); [lia|].
  apply wp_bind, wp_gets. apply wp_bind. eapply wp_scan_loop; [done|by eapply cstr_fuel|].
  destruct (inb x d); simpl in HQ; [apply wp_ret; by rewrite Z.add_0_r in HQ|].
  apply (IH _ l Ht); [lia|]. cbv zeta. set (k := prefix_len _ l) in *.
  change (S k <? S (length l))%nat with (k <? length l)%nat in HQ.
  by replace (a + 1 + Z.of_nat k) with (a + Z.of_nat (S k)) by lia.
Qed.

(** For a string and a set of bytes in memory, [strspn] is the length of the
    longest prefix of bytes in the set, [strcspn] that of bytes not in the set, and
    [strpbrk] points to the first byte in the set, if there is one. *)
Theorem strings_spanned m a l b d :
  cstr_at m a l -> cstr_at m b d ->
  let k := prefix_len (fun c => negb (inb c d)) l in
  strspn a b m = Some (Z.of_nat (prefix_len (fun c => inb c d) l), m) /\
  strcspn a b m = Some (Z.of_nat k, m) /\
  strpbrk a b m = Some (if (k <? length l)%nat then Some (a + Z.of_nat k) else None, m).
Proof.
  intros Hs Hd k. pose proof (cstr_fuel _ _ _ Hs) as Hf. pose proof (cstr_fuel _ _ _ Hd) as Hfd.
  assert (Pure : forall {A} (e : St mem A) (r : A),
    wp e m (fun x m' => x = r /\ m' = m) -> e m = Some (r, m)).
  { intros A e r (x & m' & E & -> & ->)%wp_elim. done. }
  assert (Hl : length l = 0%nat \/ hd 0 l <> 0).
  { destruct l as [|x l]; [by left|right]. apply cstr_tail in Hs as [? _]. simpl. lia. }
  assert (Hz : inb 0 d = false).
  { destruct (inb 0 d) eqn:E; [|done]. apply inb_spec in E.
    destruct Hd as (Ho & _). unfold cstring_ok in Ho. rewrite Forall_forall in Ho.
    specialize (Ho 0 (proj1 (list_elem_of_In _ _) E)). lia. }
  split_and!; apply Pure.
  - apply wp_bind, wp_gets, wp_bind, (cstr_peek _ _ _ _ Hs).
    destruct (Z.eqb_spec (hd 0 l) 0) as [E|E].
    { destruct Hl as [Hl|]; [|done]. destruct l; [|done]. by apply wp_ret. }
    apply wp_bind, (cstr_peek _ _ _ _ Hd).
    destruct (Z.eqb_spec (hd 0 d) 0) as [E2|E2].
    { destruct d as [|y d]; [|apply cstr_tail in Hd as [? _]; simpl in E2; lia].
      apply wp_ret. split; [|done]. by destruct l. }
    apply wp_bind. eapply wp_charset_add; [done..|apply charset_empty_of|]. intros cs Hcs.
    simpl in Hcs. apply wp_bind. eapply wp_span_loop; [done..|].
    apply wp_ret. split; [|done]. rewrite Z.add_simpl_l. f_equal.
    clear. induction l as [|c l IH]; simpl; [done|]. by destruct (inb c d); simpl; rewrite ?IH.
  - apply wp_bind, wp_gets, wp_bind, (cstr_peek _ _ _ _ Hs).
    destruct (Z.eqb_spec (hd 0 l) 0) as [E|E].
    { destruct Hl as [Hl|]; [|done]. destruct l; [|done]. by apply wp_ret. }
    apply wp_bind, (cstr_peek _ _ _ _ Hd).
    destruct (Z.eqb_spec (hd 0 d) 0) as [E2|E2].
    { destruct d as [|y d]; [|apply cstr_tail in Hd as [? _]; simpl in E2; lia].
      eapply wp_strlen; [done|]. split; [|done]. subst k. clear. f_equal.
      induction l as [|c l IH]; unfold inb in *; simpl in *; congruence. }
    apply wp_bind. eapply wp_charset_add_nul; [done..|apply charset_empty_of|]. intros cs Hcs.
    simpl in Hcs. apply wp_bind. eapply wp_span_loop; [done..| |].
    { unfold inb. rewrite existsb_app. apply orb_true_r. }
    apply wp_ret. split; [|done]. rewrite Z.add_simpl_l. f_equal. subst k.
    destruct Hs as (Ho & _). clear - Ho. induction Ho as [|c l Hc Ho IH]; simpl; [done|].
    unfold inb at 1. rewrite existsb_app. simpl. destruct (Z.eqb_spec c 0); [lia|].
    rewrite orb_false_r. fold (inb c d). by destruct (inb c d); simpl; rewrite ?IH.
  - apply wp_bind, wp_gets. by eapply wp_strpbrk_loop.
Qed.
End spans.

Lemma strings_spanned_witness :
  strspn 1 6 ex_mem = Some (2, ex_mem) /\ strcspn 1 6 ex_mem = Some (0, ex_mem) /\
  strpbrk 1 6 ex_mem = Some (Some 1, ex_mem).
Proof. apply (strings_spanned ex_mem 1 [97; 98; 99; 97] 6 [98; 97] ex_abca ex_ba). Defined.

(** ** Comparing *)
Section comparing.
Implicit Types (m : mem) (l : list Z).

Lemma wp_strcmp_loop fuel m a b l1 l2 (Q : Z -> mem -> Prop) :
  cstr_at m a l1 -> cstr_at m b l2 -> (length l1 < fuel)%nat ->
  Q (list_cmp (l1 ++ [0]) (l2 ++ [0])) m -> wp (strcmp_loop fuel a b) m Q.
Proof.
  revert a b l1 l2. induction fuel as [|fuel IH]; intros a b l1 l2 H1 H2 Hf HQ; [lia|].
  cbn [strcmp_loop]. apply wp_bind, (cstr_peek _ _ _ _ H1).
  apply wp_bind, (cstr_peek _ _ _ _ H2).
  destruct l1 as [|x l1], l2 as [|y l2]; cbn [hd length app list_cmp] in *.
  - by apply wp_ret.
  - apply cstr_tail in H2 as [Hy _]. destruct (Z.eqb_spec 0 y); [lia|by apply wp_ret].
  - apply cstr_tail in H1 as [Hx _]. destruct (Z.eqb_spec x 0); [lia|by apply wp_ret].
  - apply cstr_tail in H1 as [Hx H1], H2 as [Hy H2].
    destruct (Z.eqb_spec x y); [|by apply wp_ret]. destruct (Z.eqb_spec x 0); [lia|].
    by apply (IH _ _ l1 l2); [| |lia|].
Qed.

Lemma wp_strncmp_loop n m a b l1 l2 (Q : Z -> mem -> Prop) :
  cstr_at m a l1 -> cstr_at m b l2 ->
  Q (list_cmp (take n (l1 ++ [0])) (take n (l2 ++ [0]))) m -> wp (strncmp_loop n a b) m Q.
Proof.
  revert a b l1 l2. induction n as [|n IH]; intros a b l1 l2 H1 H2 HQ; [by apply wp_ret|].
  cbn [strncmp_loop]. apply wp_bind, (cstr_peek _ _ _ _ H1).
  apply wp_bind, (cstr_peek _ _ _ _ H2).
  destruct l1 as [|x l1], l2 as [|y l2]; cbn [hd app take list_cmp] in *.
  - apply wp_ret. by destruct n.
  - apply cstr_tail in H2 as [Hy _]. destruct (Z.eqb_spec 0 y); [lia|by apply wp_ret].
  - apply cstr_tail in H1 as [Hx _]. destruct (Z.eqb_spec x 0); [lia|by apply wp_ret].
  - apply cstr_tail in H1 as [Hx H1], H2 as [Hy H2].
    destruct (Z.eqb_spec x y); simpl; [|by apply wp_ret]. destruct (Z.eqb_spec x 0); [lia|].
    by apply (IH _ _ l1 l2).
Qed.

Lemma list_cmp_strings l1 l2 :
  cstring_ok l1 -> cstring_ok l2 -> list_cmp (l1 ++ [0]) (l2 ++ [0]) = 0 <-> l1 = l2.
Proof.
  intros H1. revert l2. induction H1 as [|x l1 Hx H1 IH]; intros l2 H2.
  - destruct H2 as [|y l2 Hy H2]; cbn [app list_cmp]; [done|].
    destruct (Z.eqb_spec 0 y); [lia|]. split; [lia|done].
  - destruct H2 as [|y l2 Hy H2]; cbn [app list_cmp].
    + destruct (Z.eqb_spec x 0); [lia|]. split; [lia|done].
    + destruct (Z.eqb_spec x y) as [->|].
      * rewrite IH by done. split; [by intros ->|by intros [=]].
      * split; [lia|by intros [=]].
Qed.

(** [strcmp] is the difference of the first bytes that differ, NUL included, and
    is zero exactly for equal strings; [strncmp] is the same on the first [n] bytes. *)
Theorem strings_compared m a b l1 l2 n :
  cstr_at m a l1 -> cstr_at m b l2 ->
  strcmp a b m = Some (list_cmp (l1 ++ [0]) (l2 ++ [0]), m) /\
  (list_cmp (l1 ++ [0]) (l2 ++ [0]) = 0 <-> l1 = l2) /\
  strncmp a b n m = Some (list_cmp (take (Z.to_nat n) (l1 ++ [0]))
                            (take (Z.to_nat n) (l2 ++ [0])), m).
Proof.
  intros H1 H2.
  assert (Pure : forall {A} (e : St mem A) (r : A),
    wp e m (fun x m' => x = r /\ m' = m) -> e m = Some (r, m)).
  { intros A e r (x & m' & E & -> & ->)%wp_elim. done. }
  split_and!; [apply Pure| |apply Pure].
  - apply wp_bind, wp_gets. eapply wp_strcmp_loop; [done..|by eapply cstr_fuel|done].
  - apply list_cmp_strings; [apply H1|apply H2].
  - by eapply wp_strncmp_loop.
Qed.
End comparing.

Lemma ex_bca : cstr_at ex_mem 2 [98; 99; 97].
Proof. split; [repeat constructor|vm_compute; intuition discriminate]. Qed.

Lemma strings_compared_witness :
  strcmp 2 6 ex_mem = Some (2, ex_mem) /\ (2 = 0 <-> [98; 99; 97] = [98; 97]) /\
  strncmp 2 6 1 ex_mem = Some (0, ex_mem).
Proof. apply (strings_compared ex_mem 2 6 [98; 99; 97] [98; 97] 1 ex_bca ex_ba). Defined.

(** ** Copying *)
Section copying.
Implicit Types (m : mem) (l : list Z).

(** [w] bytes at [b] and the string [l] at [a] do not overlap. *)
Definition apart (a : Z) (l : list Z) (b w : Z) : Prop :=
  a + Z.of_nat (length l) + 1 <= b \/ b + w <= a.

Lemma length_snoc0 l : length (l ++ [0]) = S (length l).
Proof. rewrite length_app. simpl. lia. Qed.

Lemma wp_poke_str m b c (Q : unit -> mem -> Prop) :
  in_mem m b 1 -> 0 <= c < 256 -> Q tt (mstore m b [c]) -> wp (poke b c) m Q.
Proof. apply wp_poke. Qed.

Lemma wp_strcpy_loop fuel m to from l (Q : unit -> mem -> Prop) :
  cstr_at m from l -> (length l < fuel)%nat ->
  in_mem m to (Z.of_nat (length l) + 1) -> apart from l to (Z.of_nat (length l) + 1) ->
  Q tt (mstore m to (l ++ [0])) -> wp (strcpy_loop fuel to from) m Q.
Proof.
  revert m to from l. induction fuel as [|fuel IH]; intros m to from l Hs Hf Hin Hap HQ; [lia|].
  unfold apart in *. cbn [strcpy_loop]. apply wp_bind, (cstr_peek _ _ _ _ Hs).
  destruct l as [|c l]; cbn [hd length app] in *.
  - apply wp_bind, wp_poke; [unfold in_mem in *; lia|lia|]. by apply wp_ret.
  - pose proof (cstr_tail _ _ _ _ Hs) as [Hc Ht].
    apply wp_bind, wp_poke; [unfold in_mem in *; lia|lia|].
    destruct (Z.eqb_spec c 0); [lia|].
    assert (Hin1 : in_mem m to (Z.of_nat (length [c]))) by (unfold in_mem in *; simpl; lia).
    apply (IH _ _ _ l).
    + apply cstr_store; [done|done|simpl; lia].
    + lia.
    + unfold in_mem in *. rewrite length_mstore by (unfold in_mem; simpl in *; lia). lia.
    + lia.
    + change (to + 1) with (to + Z.of_nat (length [c])).
      rewrite mstore_app; [done|].
      unfold in_mem in *. rewrite length_app, length_snoc0. simpl. lia.
Qed.

Lemma cstr_keep m a l : cstr_at m a l -> mstore m a l = m.
Proof.
  intros (_ & (H1 & H2 & H3) & E).
  assert (E2 : mbytes m a (length l) = l).
  { replace (S (length l)) with (length l + 1)%nat in E by lia. rewrite mbytes_app in E by done.
    apply (f_equal (take (length l))) in E.
    rewrite take_app_length' in E; [by rewrite take_app_length in E|].
    symmetry; apply length_mbytes. unfold in_mem. lia. }
  rewrite <- E2 at 1. unfold mstore, mbytes. apply splice_sub. lia.
Qed.

(** What [strncpy] writes: the string cut or padded with NULs to [n] bytes. *)
Definition fit (n : nat) l : list Z := take n (l ++ replicate n 0).

Lemma length_fit n l : length (fit n l) = n.
Proof. unfold fit. rewrite length_take, length_app, length_replicate. lia. Qed.

Lemma wp_strncpy_loop n m to from l (Q : unit -> mem -> Prop) :
  cstr_at m from l -> in_mem m to (Z.of_nat n) -> apart from l to (Z.of_nat n) ->
  Q tt (mstore m to (fit n l)) -> wp (strncpy_loop n to from) m Q.
Proof.
  revert m to from l. induction n as [|n IH]; intros m to from l Hs Hin Hap HQ.
  { apply wp_ret. by rewrite mstore_nil in HQ. }
  unfold apart in *. cbn [strncpy_loop]. apply wp_bind, (cstr_peek _ _ _ _ Hs).
  assert (Hin1 : forall c, in_mem m to (Z.of_nat (length [c : Z]))) by (unfold in_mem in *; simpl; lia).
  destruct l as [|c l]; cbn [hd length app] in *.
  - apply wp_bind, wp_poke; [apply (Hin1 0)|lia|]. apply wp_bind.
    apply (wp_fill n (to + 1) [0] m to 1); [done|unfold in_mem in *; simpl; lia|lia|done|].
    apply wp_ret. unfold fit in HQ. simpl in HQ.
    rewrite join_replicate1. by rewrite take_ge in HQ by (rewrite length_replicate; lia).
  - pose proof (cstr_tail _ _ _ _ Hs) as [Hc Ht].
    apply wp_bind, wp_poke; [apply (Hin1 0)|lia|]. destruct (Z.eqb_spec c 0); [lia|].
    apply (IH _ _ _ l).
    + apply cstr_store; [done|apply (Hin1 c)|simpl; lia].
    + unfold in_mem in *. rewrite length_mstore by apply (Hin1 c). lia.
    + lia.
    + change (to + 1) with (to + Z.of_nat (length [c])).
      rewrite mstore_app.
      * unfold fit in *. simpl in HQ. replace (take n (l ++ 0 :: replicate n 0))
          with (take n (l ++ replicate n 0)) in HQ; [done|].
        change (0 :: replicate n 0) with (replicate (S n) 0).
        rewrite replicate_S_end, app_assoc. symmetry. apply take_app_le.
        rewrite length_app, length_replicate. lia.
      * unfold in_mem in *. rewrite length_app, length_fit. simpl. lia.
Qed.

Lemma wp_strncat_loop n m to from l (Q : Z -> mem -> Prop) :
  cstr_at m from l -> in_mem m to (Z.of_nat (length l) + 1) ->
  apart from l to (Z.of_nat (length l) + 1) -> (0 < n)%nat ->
  (forall m', (m' = mstore m to (take n l) \/ m' = mstore m to (take n l ++ [0])) ->
     Q (to + Z.of_nat (length (take n l))) m') ->
  wp (strncat_loop n to from) m Q.
Proof.
  revert m to from l. induction n as [|n IH]; intros m to from l Hs Hin Hap Hn HQ; [lia|].
  unfold apart in *. cbn [strncat_loop]. apply wp_bind, (cstr_peek _ _ _ _ Hs).
  assert (Hin1 : forall c, in_mem m to (Z.of_nat (length [c : Z]))) by (unfold in_mem in *; simpl; lia).
  destruct l as [|c l]; cbn [hd length app take] in *.
  - apply wp_bind, wp_poke; [apply (Hin1 0)|lia|]. apply wp_ret.
    rewrite Z.add_0_r in HQ. apply HQ. by right.
  - pose proof (cstr_tail _ _ _ _ Hs) as [Hc Ht].
    apply wp_bind, wp_poke; [apply (Hin1 0)|lia|]. destruct (Z.eqb_spec c 0); [lia|].
    destruct n as [|n].
    { apply wp_ret. simpl in HQ. apply HQ. by left. }
    apply (IH _ _ _ l).
    + apply cstr_store; [done|apply (Hin1 c)|simpl; lia].
    + unfold in_mem in *. rewrite length_mstore by apply (Hin1 c). lia.
    + lia.
    + lia.
    + intros m' Hm'. replace (to + 1 + Z.of_nat (length (take (S n) l)))
        with (to + Z.of_nat (S (length (take (S n) l)))) by lia.
      apply HQ. change (to + 1) with (to + Z.of_nat (length [c])) in Hm'.
      pose proof (length_take l (S n)).
      rewrite !mstore_app in Hm'; [exact Hm'|..]; unfold in_mem in *;
        rewrite !length_app; simpl length; lia.
Qed.

(** For a source string and a destination that does not overlap it, [strcpy] leaves
    a copy of the string, [strncpy] exactly [n] bytes, cut or padded with NULs, [strcat]
    the two strings joined, [strncat] the first joined with at most [n] bytes of the
    second; each returns its destination. *)
Theorem strings_copied m dst src l old n :
  cstr_at m src l -> cstr_at m dst old -> 0 <= n ->
  let room := Z.of_nat (length old) + Z.of_nat (length l) + n + 1 in
  in_mem m dst room -> apart src l dst room ->
  strcpy dst src m = Some (dst, mstore m dst (l ++ [0])) /\
  strncpy dst src n m = Some (dst, mstore m dst (fit (Z.to_nat n) l)) /\
  strcat dst src m = Some (dst, mstore m dst (old ++ l ++ [0])) /\
  strncat dst src n m =
    Some (dst, if n =? 0 then m else mstore m dst (old ++ take (Z.to_nat n) l ++ [0])).
Proof.
  intros Hs Hd Hn room Hin Hap. unfold apart, in_mem, room in *.
  assert (Pure : forall {A} (e : St mem A) (r : A) m1,
    wp e m (fun x m' => x = r /\ m' = m1) -> e m = Some (r, m1)).
  { intros A e r m1 (x & m' & E & -> & ->)%wp_elim. done. }
  pose proof (cstr_keep _ _ _ Hd) as Hold.
  split_and!; apply Pure.
  - apply wp_bind, wp_gets, wp_bind.
    apply (wp_strcpy_loop _ _ _ _ l); [done|by eapply cstr_fuel|unfold in_mem; lia|unfold apart; lia|].
    by apply wp_ret.
  - apply wp_bind.
    apply (wp_strncpy_loop _ _ _ _ l); [done|unfold in_mem; lia|unfold apart; lia|].
    by apply wp_ret.
  - apply wp_bind, wp_gets, wp_bind.
    apply (wp_strlen_loop _ _ _ old); [done|by eapply cstr_fuel|]. apply wp_bind.
    apply (wp_strcpy_loop _ _ _ _ l); [done|by eapply cstr_fuel|unfold in_mem; lia|unfold apart; lia|].
    apply wp_ret. split; [done|]. rewrite <- Hold at 1. apply mstore_app.
    unfold in_mem. rewrite length_app, length_snoc0. lia.
  - unfold strncat. destruct (Z.eqb_spec n 0); [by apply wp_ret|].
    apply wp_bind, wp_gets, wp_bind.
    apply (wp_strlen_loop _ _ _ old); [done|by eapply cstr_fuel|]. apply wp_bind.
    apply (wp_strncat_loop _ _ _ _ l); [done|unfold in_mem; lia|unfold apart; lia|lia|].
    pose proof (length_take l (Z.to_nat n)) as Lt. set (w := take (Z.to_nat n) l) in *.
    intros m' Hm'. replace (mstore m dst (old ++ w ++ [0]))
      with (mstore m' (dst + Z.of_nat (length old) + Z.of_nat (length w)) [0]).
    { apply wp_bind, wp_poke; [|lia|by apply wp_ret]. unfold in_mem in *.
      destruct Hm' as [-> | ->]; rewrite length_mstore; unfold in_mem;
        rewrite ?length_snoc0; lia. }
    rewrite <- (mstore_app m dst old), Hold
      by (unfold in_mem; rewrite length_app, length_snoc0; lia).
    destruct Hm' as [-> | ->].
    + apply mstore_app. unfold in_mem. rewrite length_snoc0. lia.
    + set (b := dst + Z.of_nat (length old)).
      rewrite <- (mstore_app m b w) by (unfold in_mem; rewrite length_snoc0; lia).
      unfold mstore. apply splice_splice; [done|].
      rewrite length_splice; simpl; lia.
Qed.
End copying.

Lemma ex_copy_disjoint : apart 1 [97; 98; 99; 97] 8 8.
Proof. left. vm_compute. discriminate. Qed.

Lemma ex_empty_at : cstr_at ex_mem 8 [].
Proof. split; [constructor|vm_compute; intuition discriminate]. Qed.

Lemma strings_copied_witness :
  strcpy 8 1 ex_mem = Some (8, mstore ex_mem 8 [97; 98; 99; 97; 0]) /\
  strncpy 8 1 3 ex_mem = Some (8, mstore ex_mem 8 [97; 98; 99]) /\
  strcat 8 1 ex_mem = Some (8, mstore ex_mem 8 [97; 98; 99; 97; 0]) /\
  strncat 8 1 3 ex_mem = Some (8, mstore ex_mem 8 [97; 98; 99; 0]).
Proof.
  apply (strings_copied ex_mem 8 1 [97; 98; 99; 97] [] 3 ex_abca ex_empty_at);
    [lia|vm_compute; intuition discriminate|exact ex_copy_disjoint].
Defined.

(** ** Splitting *)
Section splitting.
Implicit Types (m : mem) (l d : list Z).

(** The token at the start of the string [l] at [s]: where the search goes on, and the
    memory with the delimiter overwritten. *)
Definition token_len (d l : list Z) : nat := prefix_len (fun c => negb (inb c d)) l.
Definition split_off m (s : Z) l d : option Z * mem :=
  let k := token_len d l in
  if (k <? length l)%nat then (Some (s + Z.of_nat k + 1), mstore m (s + Z.of_nat k) [0])
  else (None, m).

Lemma inb_nul c d : 0 < c -> inb c (d ++ [0]) = inb c d.
Proof.
  intros Hc. unfold inb. rewrite existsb_app. simpl.
  destruct (Z.eqb_spec c 0); [lia|]. by rewrite !orb_false_r.
Qed.

Lemma wp_token_loop fuel m a l b d (Q : option Z -> mem -> Prop) :
  cstr_at m a l -> (length l < fuel)%nat -> cstr_at m b d ->
  Q (split_off m a l d).1 (split_off m a l d).2 -> wp (token_loop fuel a b) m Q.
Proof.
  intros Hs Hf Hd. unfold split_off, token_len. revert a l Hs Hf.
  induction fuel as [|fuel IH]; intros a l Hs Hf HQ; [lia|].
  cbn [token_loop]. apply wp_bind, (cstr_peek _ _ _ _ Hs). apply wp_bind, wp_gets, wp_bind.
  eapply wp_delim_loop; [done|by eapply cstr_fuel|].
  destruct l as [|x l]; cbn [hd length prefix_len] in *.
  - replace (inb 0 (d ++ [0])) with true; [by apply wp_ret|].
    unfold inb. rewrite existsb_app. by rewrite orb_true_r.
  - pose proof (cstr_tail _ _ _ _ Hs) as [Hx Ht]. rewrite inb_nul by lia.
    destruct (inb x d); simpl negb in HQ.
    + destruct (Z.eqb_spec x 0); [lia|]. cbn [Nat.ltb Nat.leb] in HQ.
      rewrite Z.add_0_r in HQ. apply wp_bind, wp_poke; [|lia|by apply wp_ret].
      destruct Hs as (_ & Hin & _). unfold in_mem in *. simpl in Hin. lia.
    + apply (IH _ l Ht); [lia|]. set (k := prefix_len _ l) in *.
      change (S k <? S (length l))%nat with (k <? length l)%nat in HQ.
      by replace (a + 1 + Z.of_nat k) with (a + Z.of_nat (S k)) by lia.
Qed.

Lemma wp_skip_loop fuel m a l b d (Q : Z * Z -> mem -> Prop) :
  cstr_at m a l -> (length l < fuel)%nat -> cstr_at m b d ->
  (let j := prefix_len (fun c => inb c d) l in
   Q (hd 0 (drop j l), a + Z.of_nat j + 1) m) -> wp (skip_loop fuel a b) m Q.
Proof.
  intros Hs Hf Hd. revert a l Hs Hf.
  induction fuel as [|fuel IH]; intros a l Hs Hf HQ; [lia|].
  cbn [skip_loop]. apply wp_bind, (cstr_peek _ _ _ _ Hs). apply wp_bind, wp_gets, wp_bind.
  eapply wp_scan_loop; [done|by eapply cstr_fuel|].
  destruct l as [|x l]; cbn [hd length prefix_len] in *.
  - replace (inb 0 d) with false; [apply wp_ret; by rewrite Z.add_0_r in HQ|].
    destruct (inb 0 d) eqn:E; [|done]. apply inb_spec, list_elem_of_In in E.
    destruct Hd as (Ho & _). unfold cstring_ok in Ho. rewrite Forall_forall in Ho.
    specialize (Ho 0 E). lia.
  - pose proof (cstr_tail _ _ _ _ Hs) as [Hx Ht].
    destruct (inb x d); cbn [drop hd] in HQ; [|apply wp_ret; by rewrite Z.add_0_r in HQ].
    apply (IH _ l Ht); [lia|]. cbv zeta. set (j := prefix_len _ l) in *.
    by replace (a + 1 + Z.of_nat j + 1) with (a + Z.of_nat (S j) + 1) by lia.
Qed.

Lemma token_len_le d l : (token_len d l <= length l)%nat.
Proof. apply prefix_len_le. Qed.

(** The token and what follows it are strings of their own. *)
Lemma split_off_strings m s l d :
  cstr_at m s l -> let k := token_len d l in
  let m' := (split_off m s l d).2 in
  cstr_at m' s (take k l) /\
  (forall p, (split_off m s l d).1 = Some p -> cstr_at m' p (drop (S k) l)).
Proof.
  intros Hs k m'. unfold m', split_off. fold k. pose proof (token_len_le d l) as Hk. fold k in Hk.
  destruct (Nat.ltb_spec k (length l)); simpl.
  - destruct (lookup_lt_is_Some_2 l k) as [c Hc]; [lia|].
    pose proof (take_drop_middle l k c Hc) as El. set (w := take k l) in *. set (r := drop (S k) l) in *.
    assert (Lw : length w = k) by (unfold w; rewrite length_take; lia).
    rewrite <- El in Hs. pose proof (cstr_app _ _ _ _ Hs) as [Hc0 Hr]%cstr_tail.
    rewrite Lw in Hr. pose proof Hs as (Ho & Hin & _). rewrite length_app in Hin. simpl in Hin.
    apply Forall_app in Ho as [Ho _].
    assert (Hkeep : mstore m s (w ++ [0]) = mstore m (s + Z.of_nat k) [0]).
    { rewrite <- mstore_app, Lw by (unfold in_mem in *; rewrite length_app; simpl; lia).
      f_equal. pose proof (cstr_keep _ _ _ Hs) as K.
      rewrite <- (mstore_app m s w) in K by (unfold in_mem in *; rewrite length_app; simpl; lia).
      unfold mstore. assert (E : mbytes m s k = w).
      { destruct Hs as (_ & _ & E). rewrite length_app, Lw in E. simpl in E.
        replace (S (k + S (length r))) with (k + S (S (length r)))%nat in E by lia.
        rewrite mbytes_app in E by (unfold in_mem in Hin; lia).
        rewrite <- app_assoc in E. apply app_inj_1 in E as [E _]; [done|].
        rewrite Lw. apply length_mbytes. unfold in_mem in *. lia. }
      rewrite <- E at 1. unfold mbytes. apply splice_sub. unfold in_mem in *. lia. }
    split.
    + rewrite <- Hkeep. apply cstr_stored; [done|]. unfold in_mem in *. lia.
    + intros p [= <-]. apply cstr_store; [done| |simpl; lia].
      unfold in_mem in *. simpl. lia.
  - split; [|done]. by rewrite take_ge by lia.
Qed.

(** [strsep] returns the string it is given, ended at its first delimiter, and goes
    on after it; [strtok_r] does the same after skipping leading delimiters, and returns
    NULL, for good, when only delimiters are left.  The token and the rest are strings
    in the memory that results. *)
Theorem strings_split m s l b d last :
  cstr_at m s l -> cstr_at m b d ->
  let '(next, m') := split_off m s l d in
  strsep (Some s) b m = Some ((Some s, next), m') /\
  cstr_at m' s (take (token_len d l) l) /\
  (forall p, next = Some p -> cstr_at m' p (drop (S (token_len d l)) l)) /\
  let j := prefix_len (fun c => inb c d) l in
  let l' := drop j l in let s' := s + Z.of_nat j in
  match l' with
  | [] => strtok_r (Some s) b last m = Some ((None, None), m)
  | _ :: _ =>
    let '(next', m'') := split_off m s' l' d in
    strtok_r (Some s) b last m = Some ((Some s', next'), m'') /\
    cstr_at m'' s' (take (token_len d l') l') /\ token_len d l' <> 0%nat
  end.
Proof.
  intros Hs Hd. destruct (split_off m s l d) as [next m'] eqn:E.
  pose proof (split_off_strings m s l d Hs) as [S1 S2]. rewrite E in S1, S2. simpl in S1, S2.
  assert (Run : forall {A} (e : St mem A) (r : A) m1,
    wp e m (fun x m' => x = r /\ m' = m1) -> e m = Some (r, m1)).
  { intros A e r m1 (x & m2 & Ee & -> & ->)%wp_elim. done. }
  split_and!; [|done|done|].
  - apply Run, wp_bind, wp_gets, wp_bind.
    apply (wp_token_loop _ _ _ l _ d); [done|by eapply cstr_fuel|done|].
    rewrite E. by apply wp_ret.
  - cbv zeta. set (j := prefix_len _ l).
    destruct (prefix_len_split (fun c => inb c d) l) as [_ Hj]. fold j in Hj.
    assert (Hl' : cstr_at m (s + Z.of_nat j) (drop j l)).
    { replace (Z.of_nat j) with (Z.of_nat (length (take j l)))
        by (rewrite length_take; pose proof (prefix_len_le (fun c => inb c d) l); lia).
      apply cstr_app. by rewrite take_drop. }
    assert (Skip : forall (K : Z * Z -> St mem (option Z * option Z)) r m1,
      wp (K (hd 0 (drop j l), s + Z.of_nat j + 1)) m (fun x m' => x = r /\ m' = m1) ->
      (fuel ← gets mem_fuel; cs ← skip_loop fuel s b; K cs) m = Some (r, m1)).
    { intros K r m1 HK. apply Run, wp_bind, wp_gets, wp_bind.
      apply (wp_skip_loop _ _ _ l _ d); [done|by eapply cstr_fuel|done|exact HK]. }
    destruct (drop j l) as [|c l'] eqn:El.
    + apply Skip. simpl. by apply wp_ret.
    + assert (Hc : inb c d = false).
      { apply Hj. rewrite <- (Nat.add_0_r j), <- lookup_drop, El. done. }
      pose proof (cstr_tail _ _ _ _ Hl') as [Hc0 Ht].
      pose proof (split_off_strings m (s + Z.of_nat j) (c :: l') d Hl') as [T1 _].
      destruct (split_off m (s + Z.of_nat j) (c :: l') d) as [next' m''] eqn:E2. simpl in T1.
      split_and!; [|done|unfold token_len; simpl; by rewrite Hc].
      apply Skip. cbn [hd]. destruct (Z.eqb_spec c 0); [lia|].
      apply wp_bind. apply (wp_token_loop _ _ _ l' _ d);
        [done|pose proof (cstr_fuel _ _ _ Hl'); simpl in *; lia|done|].
      apply wp_ret. unfold split_off, token_len in *. cbn [prefix_len length] in E2.
      rewrite Hc in E2. simpl negb in E2. cbn [negb] in E2. set (k := prefix_len _ l') in *.
      change (S k <? S (length l'))%nat with (k <? length l')%nat in E2.
      replace (s + Z.of_nat j + 1 + Z.of_nat k) with (s + Z.of_nat j + Z.of_nat (S k)) by lia.
      destruct (k <? length l')%nat; injection E2 as <- <-; simpl; split; [|done| |done];
        by rewrite Z.add_simpl_r.
Qed.
End splitting.

(** "abca" split at "c". *)
Lemma ex_c_at : cstr_at (ex_mem ++ [99; 0]) 16 [99].
Proof. split; [repeat constructor|vm_compute; intuition discriminate]. Qed.

Lemma ex_abca2 : cstr_at (ex_mem ++ [99; 0]) 1 [97; 98; 99; 97].
Proof. split; [repeat constructor|vm_compute; intuition discriminate]. Qed.

Lemma strings_split_witness :
  let m := ex_mem ++ [99; 0] in let m' := mstore m 3 [0] in
  strsep (Some 1) 16 m = Some ((Some 1, Some 4), m') /\ cstr_at m' 1 [97; 98] /\
  (forall p, Some 4 = Some p -> cstr_at m' p [97]) /\
  strtok_r (Some 1) 16 None m = Some ((Some 1, Some 4), m') /\ cstr_at m' 1 [97; 98] /\
  2%nat <> 0%nat.
Proof.
  exact (strings_split (ex_mem ++ [99; 0]) 1 [97; 98; 99; 97] 16 [99] None ex_abca2 ex_c_at).
Defined.

(** ** strstr *)
Section strstr.
Implicit Types (m : mem) (l f : list Z).

(** The place of the first occurrence of a list in another. *)
Fixpoint first_match f l : option nat :=
  if decide (take (length f) l = f) then Some O
  else match l with
       | [] => None
       | _ :: l => S <$> first_match f l
       end.

Lemma first_match_spec f l i :
  first_match f l = Some i <->
  take (length f) (drop i l) = f /\ forall j, (j < i)%nat -> take (length f) (drop j l) <> f.
Proof.
  revert i. induction l as [|c l IH]; intros i; simpl.
  - rewrite drop_nil, take_nil. case_decide as D.
    + split; [intros [= <-]; split; [done|lia]|]. intros [_ H]. f_equal.
      destruct i; [done|]. exfalso. apply (H 0%nat); [lia|]. by rewrite drop_nil, take_nil.
    + split; [done|]. by intros [? _].
  - case_decide as D.
    + split; [intros [= <-]; split; [done|lia]|]. intros [_ H]. f_equal.
      destruct i; [done|]. exfalso. by apply (H 0%nat); [lia|].
    + rewrite fmap_Some. split.
      * intros (k & [Hk Hj]%IH & ->). split; [done|].
        intros [|j] Hlt; [done|]. simpl. apply Hj. lia.
      * intros [H Hj]. destruct i as [|i]; [done|]. exists i. split; [|done].
        apply IH. split; [done|]. intros j Hlt. apply (Hj (S j)). lia.
Qed.

(** Comparing the bytes of the pattern decides whether it is there. *)
Lemma list_cmp_match f l :
  cstring_ok f -> cstring_ok l ->
  list_cmp (take (length f) (l ++ [0])) (take (length f) (f ++ [0])) = 0 <->
  take (length f) l = f.
Proof.
  intros Hf. revert l. induction Hf as [|x f Hx Hf IH]; intros l Hl; [done|].
  destruct Hl as [|y l Hy Hl]; cbn [length take app list_cmp].
  - destruct (Z.eqb_spec 0 x); [lia|]. split; [lia|done].
  - destruct (Z.eqb_spec y x) as [->|].
    + rewrite (IH l Hl). split; [congruence|by intros [=]].
    + split; [lia|by intros [=]].
Qed.

Lemma wp_strstr_loop fuel m a l b c f (Q : option Z -> mem -> Prop) :
  cstr_at m a l -> (length l < fuel)%nat -> cstr_at m b f -> 0 < c < 256 ->
  Q ((fun i => a + Z.of_nat i) <$> first_match (c :: f) l) m ->
  wp (strstr_loop fuel a c b (Z.of_nat (length f))) m Q.
Proof.
  intros Hs Hfu Hb Hc. revert a l Hs Hfu.
  induction fuel as [|fuel IH]; intros a l Hs Hfu HQ; [lia|].
  cbn [strstr_loop]. apply wp_bind, (cstr_peek _ _ _ _ Hs).
  destruct l as [|x l]; cbn [hd length] in *; [by apply wp_ret|].
  pose proof (cstr_tail _ _ _ _ Hs) as [Hx Ht]. destruct (Z.eqb_spec x 0); [lia|].
  assert (Next : first_match (c :: f) (x :: l) = S <$> first_match (c :: f) l ->
    wp (strstr_loop fuel (a + 1) c b (Z.of_nat (length f))) m Q).
  { intros E. rewrite E in HQ. apply (IH _ l Ht); [lia|].
    destruct (first_match (c :: f) l) as [i|]; [|done]. simpl in *.
    by replace (a + 1 + Z.of_nat i) with (a + Z.of_nat (S i)) by lia. }
  destruct (Z.eqb_spec x c) as [->|Hne]; simpl negb.
  - apply wp_bind. eapply wp_strncmp_loop; [exact Ht|exact Hb|]. rewrite Nat2Z.id.
    pose proof (list_cmp_match f l (proj1 Hb) (proj1 Ht)) as Hm.
    destruct (Z.eqb_spec (list_cmp (take (length f) (l ++ [0])) (take (length f) (f ++ [0]))) 0)
      as [E|E]; simpl negb.
    + apply wp_ret. cbn [first_match length take] in HQ.
      rewrite decide_True in HQ by (f_equal; tauto). simpl in HQ. by rewrite Z.add_0_r in HQ.
    + apply Next. cbn [first_match length take]. rewrite decide_False; [done|].
      intros [= H]. tauto.
  - apply Next. cbn [first_match length take]. rewrite decide_False; [done|]. by intros [=].
Qed.

(** C19: [strstr] points to the first occurrence of the one string in the other, the
    empty string being found at the start, and returns NULL when there is none. *)
Theorem strstr_first m a l b f :
  cstr_at m a l -> cstr_at m b f ->
  strstr a b m = Some ((fun i => a + Z.of_nat i) <$> first_match f l, m).
Proof.
  intros Hs Hb.
  enough (wp (strstr a b) m (fun r m' =>
    r = ((fun i => a + Z.of_nat i) <$> first_match f l) /\ m' = m))
    as (r & m' & E & -> & ->)%wp_elim by done.
  apply wp_bind, wp_gets, wp_bind, (cstr_peek _ _ _ _ Hb).
  destruct f as [|c f]; cbn [hd].
  - apply wp_ret. split; [|done]. destruct l; simpl; by rewrite Z.add_0_r.
  - pose proof (cstr_tail _ _ _ _ Hb) as [Hc Ht]. destruct (Z.eqb_spec c 0); [lia|].
    apply wp_bind. eapply wp_strlen; [exact Ht|].
    by eapply wp_strstr_loop; [|eapply cstr_fuel| | |].
Qed.
End strstr.

Lemma strstr_first_witness : strstr 1 6 ex_mem = Some (None, ex_mem).
Proof. apply (strstr_first ex_mem 1 [97; 98; 99; 97] 6 [98; 97] ex_abca ex_ba). Defined.
