(* ===== verification/Stand.v ===== *)
(** * Stand: small routines of libstand and libc over the memory of [CMem]

    The character classes of lib/libstand/stand.h, strcasecmp.c, strtol.c, in_cksum.c,
    random.c, and the UUID comparisons of lib/libc/uuid. *)
From Stdlib Require Import ZArith Lia.
From stdpp Require Import base list option.
From S2P Require Import Prelude CMem CString.
Open Scope Z_scope.

(** ** Character classes *)
Definition isascii (c : Z) : bool := Z.land c (Z.lnot 0x7F) =? 0.
Definition isupper (c : Z) : bool := (65 <=? c) && (c <=? 90).
Definition islower (c : Z) : bool := (97 <=? c) && (c <=? 122).
Definition isspace (c : Z) : bool := (c =? 32) || ((0x9 <=? c) && (c <=? 0xd)).
Definition isdigit (c : Z) : bool := (48 <=? c) && (c <=? 57).
Definition isalpha (c : Z) : bool := isupper c || islower c.
Definition toupper (c : Z) : Z := if islower c then c - 97 + 65 else c.
Definition tolower (c : Z) : Z := if isupper c then c - 65 + 97 else c.

(** ** strcasecmp *)
Fixpoint strcasecmp_loop (fuel : nat) (us1 us2 : Z) : St mem Z :=
  match fuel with
  | O => ub
  | S fuel =>
    a ← peek us1; b ← peek us2;
    if tolower a =? tolower b then
      if a =? 0 then mret 0 else strcasecmp_loop fuel (us1 + 1) (us2 + 1)
    else mret (tolower a - tolower b)
  end.

Definition strcasecmp (s1 s2 : Z) : St mem Z :=
  fuel ← gets mem_fuel; strcasecmp_loop fuel s1 s2.

Fixpoint strncasecmp_loop (n : nat) (us1 us2 : Z) : St mem Z :=
  match n with
  | O => mret 0
  | S n =>
    a ← peek us1; b ← peek us2;
    if negb (tolower a =? tolower b) then mret (tolower a - tolower b)
    else if a =? 0 then mret 0 else strncasecmp_loop n (us1 + 1) (us2 + 1)
  end.

Definition strncasecmp (s1 s2 n : Z) : St mem Z := strncasecmp_loop (Z.to_nat n) s1 s2.

(** ** strtol *)
Definition LONG_MAX : Z := 2 ^ 63 - 1.
Definition LONG_MIN : Z := - 2 ^ 63.

(** [do { c = *s++; } while (isspace(c));]: the character and [s]. *)
Fixpoint skip_space (fuel : nat) (s : Z) : St mem (Z * Z) :=
  match fuel with
  | O => ub
  | S fuel => c ← peek s; if isspace c then skip_space fuel (s + 1) else mret (c, s + 1)
  end.

(** The value of a digit, when [c] is one in any base. *)
Definition digit_value (c : Z) : option Z :=
  if negb (isascii c) then None
  else if isdigit c then Some (u8 (c - 48))
  else if isalpha c then Some (u8 (c - (if isupper c then 65 - 10 else 97 - 10)))
  else None.

(** The accumulating loop: [acc], [any], and [s] where it stops. *)
Fixpoint strtol_loop (fuel : nat) (s c base cutoff cutlim acc any : Z) : St mem (Z * Z * Z) :=
  match fuel with
  | O => ub
  | S fuel =>
    match digit_value c with
    | None => mret (acc, any, s)
    | Some d =>
      if base <=? d then mret (acc, any, s)
      else
        let over := (any <? 0) || (cutoff <? acc) || ((acc =? cutoff) && (cutlim <? d)) in
        let any := if over then -1 else 1 in
        let acc := if over then acc else u64 (u64 (acc * u64 base) + d) in
        c ← peek s;
        strtol_loop fuel (s + 1) c base cutoff cutlim acc any
    end
  end.

(** [strtol] of a non-NULL string: the value, [*endptr], and whether errno was set to
    ERANGE. *)
Definition strtol (nptr base : Z) : St mem (Z * Z * bool) :=
  fuel ← gets mem_fuel;
  '(c, s) ← skip_space fuel nptr;
  '(neg, c, s) ← (if c =? 45 then c ← peek s; mret (true, c, s + 1)
                  else if c =? 43 then c ← peek s; mret (false, c, s + 1)
                  else mret (false, c, s));
  '(base, c, s) ←
    (if ((base =? 0) || (base =? 16)) && (c =? 48) then
       x ← peek s;
       if (x =? 120) || (x =? 88) then c ← peek (s + 1); mret (16, c, s + 2)
       else mret (base, c, s)
     else mret (base, c, s));
  let base := if base =? 0 then (if c =? 48 then 8 else 10) else base in
  let cutoff := if neg : bool then 2 ^ 63 else LONG_MAX in
  let cutlim := s32 (cutoff mod u64 base) in
  let cutoff := cutoff / u64 base in
  '(acc, any, s) ← strtol_loop fuel s c base cutoff cutlim 0 0;
  let value :=
    if any <? 0 then (if neg then LONG_MIN else LONG_MAX)
    else if neg then s64 (u64 (- acc)) else s64 acc in
  mret (value, (if any =? 0 then nptr else s - 1), any <? 0).

(** ** in_cksum, little-endian *)

(** [while ((len -= 2) >= 0) { ... }]: the sum, where it stops, and [len]. *)
Fixpoint cksum_words (fuel : nat) (cp len sum : Z) : St mem (Z * Z * Z) :=
  match fuel with
  | O => ub
  | S fuel =>
    let len := len - 2 in
    if len <? 0 then mret (cp, len, sum)
    else
      sum ← (if Z.land cp 1 =? 0 then w ← peekn 2 cp; mret (s32 (sum + le_dec w))
             else a ← peek cp; b ← peek (cp + 1);
                  mret (s32 (s32 (sum + a) + Z.shiftl b 8)));
      cksum_words fuel (cp + 2) len sum
  end.

(** The outer loop, [oddbyte] and [v] carried over. *)
Fixpoint cksum_loop (fuel : nat) (cp len sum oddbyte v : Z) : St mem (Z * Z * Z) :=
  match fuel with
  | O => ub
  | S fuel =>
    if 0 <? len then
      '(cp, len, sum) ←
        (if negb (oddbyte =? 0) then
           c ← peek cp; mret (cp + 1, len - 1, s32 (sum + (v + c)))
         else mret (cp, len, sum));
      n ← gets mem_fuel;
      '(cp, len, sum) ← cksum_words n cp len sum;
      let oddbyte := Z.land len 1 in
      v ← (if negb (oddbyte =? 0) then peek cp else mret v);
      cksum_loop fuel cp len sum oddbyte v
    else mret (sum, oddbyte, v)
  end.

Definition in_cksum (p len : Z) : St mem Z :=
  fuel ← gets mem_fuel;
  '(sum, oddbyte, v) ← cksum_loop fuel p len 0 0 0;
  let sum := if negb (oddbyte =? 0) then s32 (sum + v) else sum in
  let sum := Z.shiftr sum 16 + Z.land sum 0xffff in
  let sum := sum + Z.shiftr sum 16 in
  mret (Z.land 0xffff (Z.lnot sum)).

(** ** random: the state is [randseed] *)
Definition srandom (seed : Z) : St Z unit := put_st (u64 seed).
Definition random : St Z Z :=
  randseed ← get_st;
  let x := s64 randseed in
  let hi := Z.quot x 127773 in
  let lo := Z.rem x 127773 in
  let t := 16807 * lo - 2836 * hi in
  let t := if t <=? 0 then t + 0x7fffffff else t in
  put_st (u64 t);; mret (u64 t).

(** ** uuid_is_nil, uuid_equal; a [uuid_t] has 16 bytes *)
Definition uuid_is_nil (u : option Z) : St mem Z :=
  match u with
  | None => mret 1
  | Some p =>
    w0 ← peekn 4 p; w1 ← peekn 4 (p + 4); w2 ← peekn 4 (p + 8); w3 ← peekn 4 (p + 12);
    mret (if (le_dec w0 =? 0) && (le_dec w1 =? 0) && (le_dec w2 =? 0) && (le_dec w3 =? 0)
          then 1 else 0)
  end.

Definition uuid_equal (a b : option Z) : St mem Z :=
  if decide (a = b) then mret 1
  else
    match a, b with
    | None, _ => uuid_is_nil b
    | _, None => uuid_is_nil a
    | Some p, Some q => r ← memcmp p q 16; mret (if negb (r =? 0) then 0 else 1)
    end.

(** ** What strtol computes *)

(** The digits at the start of a text, in base [b], and their number. *)
Fixpoint digits (b : Z) (l : list Z) : list Z :=
  match l with
  | c :: l =>
    match digit_value c with
    | Some d => if d <? b then d :: digits b l else []
    | None => []
    end
  | [] => []
  end.

Definition number (b : Z) (acc : Z) (ds : list Z) : Z := fold_left (fun a d => a * b + d) ds acc.

Definition drop_sign (l : list Z) : bool * list Z :=
  match l with
  | c :: r => if c =? 45 then (true, r) else if c =? 43 then (false, r) else (false, l)
  | [] => (false, l)
  end.

(** The base in force and the text after its prefix. *)
Definition drop_prefix (base : Z) (l : list Z) : Z * list Z :=
  let plain := (if base =? 0 then (if hd 0 l =? 48 then 8 else 10) else base, l) in
  match l with
  | z :: x :: r =>
    if ((base =? 0) || (base =? 16)) && (z =? 48) && ((x =? 120) || (x =? 88))
    then (16, r) else plain
  | _ => plain
  end.

(** The nearest [long]. *)
Definition clamp (neg : bool) (v : Z) : Z :=
  if neg then Z.max LONG_MIN (- v) else Z.min LONG_MAX v.

Definition strtol_spec (nptr base : Z) (l : list Z) : Z * Z * bool :=
  let '(neg, l2) := drop_sign (drop (prefix_len isspace l) l) in
  let '(b, l3) := drop_prefix base l2 in
  let ds := digits b l3 in
  let v := number b 0 ds in
  (clamp neg v,
   match ds with
   | [] => nptr
   | _ => nptr + Z.of_nat (length l - length l3 + length ds)
   end,
   (if neg then 2 ^ 63 else LONG_MAX) <? v).

Section strtol.
Implicit Types (m : mem) (l : list Z).

Lemma digit_value_bound c d : digit_value c = Some d -> 0 <= d < 256.
Proof.
  unfold digit_value. repeat case_match; intros [= <-] || intros ?; try done; apply u8_bound.
Qed.

Lemma digit_value_nul : digit_value 0 = None.
Proof. done. Qed.

Lemma wp_skip_space fuel m a l (Q : Z * Z -> mem -> Prop) :
  cstr_at m a l -> (length l < fuel)%nat ->
  (let k := prefix_len isspace l in Q (hd 0 (drop k l), a + Z.of_nat k + 1) m) ->
  wp (skip_space fuel a) m Q.
Proof.
  revert a l. induction fuel as [|fuel IH]; intros a l Hs Hf HQ; [lia|].
  cbn [skip_space]. apply wp_bind, (cstr_peek _ _ _ _ Hs).
  destruct l as [|x l]; cbn [hd length prefix_len] in *.
  - apply wp_ret. by rewrite Z.add_0_r in HQ.
  - destruct (cstr_tail _ _ _ _ Hs) as [Hx Ht].
    destruct (isspace x); [|apply wp_ret; by rewrite Z.add_0_r in HQ].
    apply (IH _ l Ht); [lia|]. cbn [drop] in HQ. cbv zeta. set (k := prefix_len _ l) in *.
    by replace (a + 1 + Z.of_nat k + 1) with (a + Z.of_nat (S k) + 1) by lia.
Qed.

(** What [acc] and [any] stand for when the digits read so far make [n]. *)
Definition acc_state (limit n acc any : Z) : Prop :=
  0 <= n /\ if any <? 0 then limit < n else acc = n /\ n <= limit.

Lemma acc_step limit b n acc any d :
  2 <= b -> 0 <= d < b -> limit < 2 ^ 64 -> 0 <= limit -> b < 2 ^ 31 ->
  acc_state limit n acc any ->
  let over := (any <? 0) || (limit / b <? acc) || ((acc =? limit / b) && (limit mod b <? d)) in
  acc_state limit (n * b + d) (if over then acc else u64 (u64 (acc * u64 b) + d))
    (if over then -1 else 1).
Proof.
  intros Hb Hd Hl Hl0 Hb2 [Hn Hst] over. split; [nia|]. subst over.
  pose proof (Z.div_mod limit b ltac:(lia)) as Hdm.
  pose proof (Z.mod_pos_bound limit b ltac:(lia)) as Hm.
  set (q := limit / b) in *. set (r := limit mod b) in *. clearbody q r.
  destruct (Z.ltb_spec any 0); simpl; [nia|]. destruct Hst as [-> Hle].
  destruct (Z.ltb_spec q n); simpl; [nia|].
  destruct (Z.eqb_spec n q) as [->|]; simpl.
  - destruct (Z.ltb_spec r d); simpl; [nia|].
    rewrite (u64_small b), (u64_small (q * b)), u64_small by nia. nia.
  - rewrite (u64_small b), (u64_small (n * b)), u64_small by nia. nia.
Qed.

Lemma wp_strtol_loop fuel m s l b limit n acc any (Q : Z * Z * Z -> mem -> Prop) :
  cstr_at m s l -> (length l < fuel)%nat -> 2 <= b < 2 ^ 31 -> 0 <= limit < 2 ^ 64 ->
  acc_state limit n acc any ->
  (forall acc' any', acc_state limit (number b n (digits b l)) acc' any' ->
     (digits b l = [] -> any' = any) -> (digits b l <> [] -> any' <> 0) ->
     Q (acc', any', s + 1 + Z.of_nat (length (digits b l))) m) ->
  wp (strtol_loop fuel (s + 1) (hd 0 l) b (limit / b) (limit mod b) acc any) m Q.
Proof.
  intros Hs Hf Hb Hl. revert s l n acc any Hs Hf.
  induction fuel as [|fuel IH]; intros s l n acc any Hs Hf Hst HQ; [lia|].
  cbn [strtol_loop]. destruct l as [|c l]; cbn [hd length digits] in *.
  { rewrite digit_value_nul. apply wp_ret. rewrite Z.add_0_r in HQ. by apply HQ. }
  destruct (digit_value c) as [d|] eqn:Ed; cycle 1.
  { apply wp_ret. rewrite Z.add_0_r in HQ. by apply HQ. }
  destruct (Z.leb_spec b d), (Z.ltb_spec d b); try lia.
  { apply wp_ret. rewrite Z.add_0_r in HQ. by apply HQ. }
  pose proof (digit_value_bound _ _ Ed).
  pose proof (cstr_tail _ _ _ _ Hs) as [Hc Ht].
  apply wp_bind, (cstr_peek _ _ _ _ Ht).
  apply (IH _ l (n * b + d)); [done|lia|apply acc_step; done || lia|].
  intros acc' any' R1 R2 R3. cbn [length] in HQ.
  replace (s + 1 + 1 + Z.of_nat (length (digits b l)))
    with (s + 1 + Z.of_nat (S (length (digits b l)))) by lia.
  apply HQ; [exact R1|done|]. intros _.
  destruct (digits b l); [rewrite R2 by done; by case_match|by apply R3].
Qed.

Lemma number_nonneg b n ds : 0 <= b -> 0 <= n -> Forall (fun d => 0 <= d) ds -> 0 <= number b n ds.
Proof.
  intros Hb Hn Hds. revert n Hn. induction Hds as [|d ds Hd Hds IH]; intros n Hn; [done|].
  apply IH. nia.
Qed.

(** [drop k] of a string in memory, with its first character read. *)
Lemma cstr_drop m a l k : cstr_at m a l -> (k <= length l)%nat -> cstr_at m (a + Z.of_nat k) (drop k l).
Proof.
  intros Hs Hk. replace (Z.of_nat k) with (Z.of_nat (length (take k l)))
    by (rewrite length_take; lia).
  apply cstr_app. by rewrite take_drop.
Qed.

Lemma wp_sign m a l (K : bool * Z * Z -> St mem (Z * Z * bool)) Q :
  cstr_at m a l ->
  (forall a', cstr_at m a' (drop_sign l).2 ->
     a' = a + Z.of_nat (length l) - Z.of_nat (length (drop_sign l).2) ->
     (length (drop_sign l).2 <= length l)%nat ->
     wp (K ((drop_sign l).1, hd 0 (drop_sign l).2, a' + 1)) m Q) ->
  wp (x ← (if hd 0 l =? 45 then c ← peek (a + 1); mret (true, c, a + 1 + 1)
           else if hd 0 l =? 43 then c ← peek (a + 1); mret (false, c, a + 1 + 1)
           else mret (false, hd 0 l, a + 1)); K x) m Q.
Proof.
  intros Hs HK. apply wp_bind. destruct l as [|c l].
  { apply wp_ret. apply HK; simpl; [done|lia|lia]. }
  cbn [hd drop_sign] in *. pose proof (cstr_tail _ _ _ _ Hs) as [_ Ht].
  destruct (c =? 45); [|destruct (c =? 43)].
  - apply wp_bind, (cstr_peek _ _ _ _ Ht). apply wp_ret. apply HK; simpl; [done|lia|lia].
  - apply wp_bind, (cstr_peek _ _ _ _ Ht). apply wp_ret. apply HK; simpl; [done|lia|lia].
  - apply wp_ret. apply HK; simpl; [done|lia|lia].
Qed.

Lemma wp_prefix m a l base (K : Z * Z * Z -> St mem (Z * Z * bool)) Q :
  cstr_at m a l ->
  (forall a' base', cstr_at m a' (drop_prefix base l).2 ->
     a' = a + Z.of_nat (length l) - Z.of_nat (length (drop_prefix base l).2) ->
     (length (drop_prefix base l).2 <= length l)%nat ->
     (if base' =? 0 then (if hd 0 (drop_prefix base l).2 =? 48 then 8 else 10) else base')
       = (drop_prefix base l).1 ->
     wp (K (base', hd 0 (drop_prefix base l).2, a' + 1)) m Q) ->
  wp (x ← (if ((base =? 0) || (base =? 16)) && (hd 0 l =? 48) then
             x ← peek (a + 1);
             if (x =? 120) || (x =? 88) then c ← peek (a + 1 + 1); mret (16, c, a + 1 + 2)
             else mret (base, hd 0 l, a + 1)
           else mret (base, hd 0 l, a + 1)); K x) m Q.
Proof.
  intros Hs HK. apply wp_bind.
  assert (Hplain : drop_prefix base l =
      (if base =? 0 then (if hd 0 l =? 48 then 8 else 10) else base, l) ->
    wp (mret (base, hd 0 l, a + 1) : St mem (Z * Z * Z)) m (fun x s' => wp (K x) s' Q)).
  { intros E. rewrite E in HK. apply wp_ret. apply HK; simpl; [done|lia|lia|done]. }
  destruct (((base =? 0) || (base =? 16)) && (hd 0 l =? 48)) eqn:Ec.
  - destruct l as [|z l]; [by rewrite andb_false_r in Ec|]. cbn [hd] in *.
    pose proof (cstr_tail _ _ _ _ Hs) as [_ Ht]. apply wp_bind, (cstr_peek _ _ _ _ Ht).
    destruct ((hd 0 l =? 120) || (hd 0 l =? 88)) eqn:Ex.
    + destruct l as [|x l]; [done|]. cbn [hd] in *.
      pose proof (cstr_tail _ _ _ _ Ht) as [_ Ht2]. apply wp_bind, (cstr_peek _ _ _ _ Ht2).
      apply wp_ret. unfold drop_prefix in HK. rewrite Ec, Ex in HK. simpl in HK.
      replace (a + 1 + 2) with (a + 1 + 1 + 1) by lia. apply HK; [done|simpl; lia|simpl; lia|done].
    + apply Hplain. unfold drop_prefix. destruct l as [|x l]; [done|]. cbn [hd] in *.
      by rewrite Ec, Ex.
  - apply Hplain. unfold drop_prefix. destruct l as [|z [|x l]]; [done|done|].
    cbn [hd] in *. by rewrite Ec.
Qed.

(** C20: [strtol] on a string skips white space, takes a sign and a base prefix, and
    converts the longest run of digits of the base: the value is exact when it fits a
    [long] and the nearest [long] otherwise, ERANGE being reported exactly then; the end
    pointer is after the last digit, or at the start when there is no digit. *)
Theorem strtol_converts m nptr l base :
  cstr_at m nptr l -> base = 0 \/ 2 <= base <= 36 ->
  strtol nptr base m = Some (strtol_spec nptr base l, m).
Proof.
  intros Hs Hb.
  enough (wp (strtol nptr base) m (fun r m' => r = strtol_spec nptr base l /\ m' = m))
    as (r & m' & E & -> & ->)%wp_elim by done.
  unfold strtol, strtol_spec. apply wp_bind, wp_gets.
  apply wp_bind. eapply wp_skip_space; [done|by eapply cstr_fuel|]. cbv zeta.
  set (k := prefix_len isspace l). pose proof (prefix_len_le isspace l) as Hk. fold k in Hk.
  pose proof (cstr_drop _ _ _ k Hs Hk) as H1. pose proof (length_drop l k) as L1.
  set (l1 := drop k l) in *.
  apply wp_sign; [done|]. intros a2 H2 E2 L2. destruct (drop_sign l1) as [neg l2]. cbn [fst snd] in *.
  apply wp_prefix; [done|]. intros a3 base' H3 E3 L3 Eb.
  assert (Hb3 : 2 <= (drop_prefix base l2).1 <= 36).
  { unfold drop_prefix. repeat case_match; simpl; zbool; lia. }
  destruct (drop_prefix base l2) as [b l3]. cbn [fst snd] in *. rewrite Eb.
  set (limit := if neg then 2 ^ 63 else LONG_MAX).
  assert (Hlim : 0 <= limit < 2 ^ 64) by (subst limit; unfold LONG_MAX; destruct neg; lia).
  rewrite (u64_small b) by lia.
  rewrite s32_small by (pose proof (Z.mod_pos_bound limit b ltac:(lia)); lia).
  apply wp_bind. eapply (wp_strtol_loop _ m a3 l3 b limit 0);
    [done|pose proof (cstr_fuel _ _ _ Hs); lia|lia|done|split; [lia|simpl; lia]|].
  intros acc any [Hn Hst] Hz Hnz. apply wp_ret. split; [|done].
  set (ds := digits b l3) in *. set (v := number b 0 ds) in *.
  f_equal; [f_equal|].
  - unfold clamp. subst limit. unfold LONG_MAX, LONG_MIN in *.
    destruct (Z.ltb_spec any 0); [destruct neg; lia|]. destruct Hst as [-> Hle].
    destruct neg; [|rewrite s64_small by lia; lia].
    destruct (Z.eq_dec v 0) as [->|]; [done|].
    assert (u64 (- v) = 2 ^ 64 - v) as ->.
    { unfold u64. replace (- v) with (2 ^ 64 - v + (-1) * 2 ^ 64) by lia.
      rewrite Z_mod_plus_full. apply Z.mod_small. lia. }
    unfold s64. replace (2 ^ 64 - v + 2 ^ 63) with (2 ^ 63 - v + 1 * 2 ^ 64) by lia.
    rewrite Z_mod_plus_full, Z.mod_small by lia. lia.
  - destruct ds as [|d ds']; [by rewrite Hz|]. specialize (Hnz ltac:(done)).
    destruct (Z.eqb_spec any 0); [done|]. cbn [length]. lia.
  - destruct (Z.ltb_spec any 0), (Z.ltb_spec limit v); try done; lia.
Qed.
End strtol.

Lemma ex_num_at : cstr_at [32; 45; 48; 120; 49; 102; 103; 0] 0 [32; 45; 48; 120; 49; 102; 103].
Proof. split; [repeat constructor|vm_compute; intuition discriminate]. Qed.

(** " -0x1fg" is -31, and 6 characters were consumed. *)
Lemma strtol_converts_witness :
  strtol 0 0 [32; 45; 48; 120; 49; 102; 103; 0] =
    Some ((-31, 6, false), [32; 45; 48; 120; 49; 102; 103; 0]).
Proof.
  apply (strtol_converts [32; 45; 48; 120; 49; 102; 103; 0] 0
    [32; 45; 48; 120; 49; 102; 103] 0 ex_num_at). by left.
Defined.

(** ** The Internet checksum *)

(** The sum of the little-endian 16-bit words of a block, an odd byte counted low. *)
Fixpoint word_sum (l : list Z) : Z :=
  match l with
  | a :: b :: l => a + 256 * b + word_sum l
  | [a] => a
  | [] => 0
  end.

Section cksum.
Implicit Types m : mem.

Lemma mbytes_2 m a n :
  in_mem m a (Z.of_nat (S (S n))) ->
  exists x y, m !! Z.to_nat a = Some x /\ m !! Z.to_nat (a + 1) = Some y /\
    mbytes m a 2 = [x; y] /\ mbytes m a (S (S n)) = x :: y :: mbytes m (a + 2) n.
Proof.
  intros Hin. destruct (mbytes_S m a (S n) Hin) as (x & Hx & E1).
  destruct (mbytes_S m (a + 1) n (in_mem_tail _ _ _ Hin)) as (y & Hy & E2).
  exists x, y. split_and!; [done|done| |].
  - destruct (mbytes_S m a 1) as (x' & Hx' & E1'); [unfold in_mem in *; lia|].
    destruct (mbytes_S m (a + 1) 0) as (y' & Hy' & E2'); [unfold in_mem in *; lia|].
    rewrite E1', E2'. simplify_eq. done.
  - rewrite E1, E2. by replace (a + 1 + 1) with (a + 2) by lia.
Qed.

Lemma wp_cksum_words fuel m cp len sum (Q : Z * Z * Z -> mem -> Prop) :
  bytes_ok m -> in_mem m cp len -> len < 2 ^ 16 -> (Z.to_nat len < fuel)%nat ->
  0 <= sum -> sum + 32768 * len < 2 ^ 31 ->
  (forall n, len = 2 * Z.of_nat n \/ len = 2 * Z.of_nat n + 1 ->
     0 <= word_sum (mbytes m cp (2 * n)) <= 65535 * Z.of_nat n ->
     Q (cp + 2 * Z.of_nat n, len - 2 * Z.of_nat n - 2, sum + word_sum (mbytes m cp (2 * n))) m) ->
  wp (cksum_words fuel cp len sum) m Q.
Proof.
  intros Hb. revert cp len sum. induction fuel as [|fuel IH]; intros cp len sum Hin Hl Hf Hs Hs2 HQ; [lia|].
  pose proof Hin as (H1 & H2 & H3). cbn [cksum_words].
  destruct (Z.ltb_spec (len - 2) 0).
  { apply wp_ret. specialize (HQ 0%nat). simpl in HQ.
    rewrite !Z.add_0_r, Z.sub_0_r in HQ. apply HQ; lia. }
  destruct (mbytes_2 m cp (Z.to_nat (len - 2))) as (x & y & Hx & Hy & E2 & _);
    [unfold in_mem; lia|].
  assert (0 <= x < 256 /\ 0 <= y < 256) as [Bx By].
  { unfold bytes_ok in Hb. rewrite Forall_lookup in Hb. eauto. }
  apply wp_bind.
  assert (Next : wp (cksum_words fuel (cp + 2) (len - 2) (sum + (x + 256 * y))) m Q).
  { apply IH; [unfold in_mem; lia|lia|lia|lia|lia|]. intros n Hn Hw.
    replace (cp + 2 + 2 * Z.of_nat n) with (cp + 2 * Z.of_nat (S n)) by lia.
    replace (len - 2 - 2 * Z.of_nat n - 2) with (len - 2 * Z.of_nat (S n) - 2) by lia.
    destruct (mbytes_2 m cp (2 * n)) as (x' & y' & Hx' & Hy' & _ & E); [unfold in_mem; lia|].
    assert (Ew : word_sum (mbytes m cp (2 * S n)) = x + 256 * y + word_sum (mbytes m (cp + 2) (2 * n))).
    { replace (2 * S n)%nat with (S (S (2 * n))) by lia. rewrite E. simplify_eq. done. }
    replace (sum + (x + 256 * y) + word_sum (mbytes m (cp + 2) (2 * n)))
      with (sum + word_sum (mbytes m cp (2 * S n))) by lia.
    apply HQ; lia. }
  destruct (Z.land cp 1 =? 0).
  - apply wp_bind, wp_peekn; [unfold in_mem; lia|]. apply wp_ret. rewrite E2. cbn [le_dec].
    rewrite s32_small by lia. by replace (x + 256 * (y + 256 * 0)) with (x + 256 * y) by lia.
  - apply wp_bind, (wp_peek _ x); [lia|done|]. apply wp_bind, (wp_peek _ y); [lia|done|].
    apply wp_ret. rewrite Z.shiftl_mul_pow2 by lia. rewrite (s32_small (sum + x)) by lia.
    rewrite s32_small by lia. by replace (sum + x + y * 2 ^ 8) with (sum + (x + 256 * y)) by lia.
Qed.

Lemma word_sum_snoc l a : Nat.even (length l) = true -> word_sum (l ++ [a]) = word_sum l + a.
Proof.
  revert l. fix IH 1. intros [|x [|y l]]; [simpl; lia|done|]. simpl. intros H.
  rewrite (IH l H). lia.
Qed.

Lemma land_ffff z : Z.land z 0xffff = z mod 2 ^ 16.
Proof. change 0xffff with (Z.ones 16). by rewrite Z.land_ones. Qed.

Lemma land_lnot z : Z.land 0xffff (Z.lnot z) = 0xffff - z mod 2 ^ 16.
Proof.
  rewrite Z.land_comm, land_ffff. unfold Z.lnot, Z.pred.
  pose proof (Z.div_mod z (2 ^ 16) ltac:(lia)). pose proof (Z.mod_pos_bound z (2 ^ 16) ltac:(lia)).
  symmetry. apply (Z.mod_unique_pos _ _ (- (z / 2 ^ 16) - 1)); lia.
Qed.

(** For a block of less than 2^16 bytes, at an even or an odd address, [in_cksum]
    returns a 16-bit value that completes the sum of the 16-bit words of the block to a
    multiple of 0xffff, the value 0 exactly when the sum is already a positive one. *)
Theorem in_cksum_completes m p len :
  bytes_ok m -> in_mem m p len -> len < 2 ^ 16 ->
  let s := word_sum (mbytes m p (Z.to_nat len)) in
  exists r, in_cksum p len m = Some (r, m) /\ 0 <= r <= 0xffff /\
    (s + r) mod 0xffff = 0 /\ (r = 0 <-> 0 < s /\ s mod 0xffff = 0).
Proof.
  intros Hb Hin Hl s. pose proof Hin as (H1 & H2 & H3).
  assert (Hfold : 0 <= s <= 32768 * 65536 - 32768 -> forall r,
    (let s1 := Z.shiftr s 16 + Z.land s 0xffff in
     let s2 := s1 + Z.shiftr s1 16 in r = Z.land 0xffff (Z.lnot s2)) ->
    0 <= r <= 0xffff /\ (s + r) mod 0xffff = 0 /\ (r = 0 <-> 0 < s /\ s mod 0xffff = 0)).
  { intros Hs r. cbv zeta. rewrite land_lnot, land_ffff, !Z.shiftr_div_pow2 by lia. intros ->.
    pose proof (Z.div_mod s (2 ^ 16) ltac:(lia)). pose proof (Z.mod_pos_bound s (2 ^ 16) ltac:(lia)).
    assert (Hq : 0 <= s / 2 ^ 16 < 32768)
      by (split; [apply Z.div_pos; lia|apply Z.div_lt_upper_bound; lia]).
    set (h := s / 2 ^ 16) in *. set (lo := s mod 2 ^ 16) in *. clearbody h lo.
    assert (Hs2 : exists c, (h + lo + (h + lo) / 2 ^ 16) mod 2 ^ 16 = h + lo - 0xffff * c /\
      (c = 0 /\ h + lo <= 0xffff \/ c = 1 /\ 0xffff < h + lo)).
    { destruct (Z.le_gt_cases (h + lo) 0xffff).
      - exists 0. rewrite (Z.div_small (h + lo)) by lia. rewrite Z.mod_small by lia. lia.
      - exists 1. assert ((h + lo) / 2 ^ 16 = 1) as -> by (symmetry; apply (Z.div_unique_pos _ _ _ (h + lo - 2 ^ 16)); lia).
        split; [|lia]. symmetry. apply (Z.mod_unique_pos _ _ 1); lia. }
    destruct Hs2 as (c & -> & Hc). split; [lia|].
    assert (Es : s = 0xffff * (h + c) + (h + lo - 0xffff * c)) by lia.
    split; [|split].
    - replace (s + (0xffff - (h + lo - 0xffff * c))) with ((h + c + 1) * 0xffff) by lia.
      apply Z_mod_mult.
    - intros E. split; [lia|]. replace s with ((h + c + 1) * 0xffff) by lia. apply Z_mod_mult.
    - intros [Hp Hm]. rewrite Z.mod_divide in Hm by lia. destruct Hm as [q Hq2]. nia. }
  enough (wp (in_cksum p len) m (fun r m' => (0 <= s <= 32768 * 65536 - 32768) /\ m' = m /\
    let s1 := Z.shiftr s 16 + Z.land s 0xffff in
    let s2 := s1 + Z.shiftr s1 16 in r = Z.land 0xffff (Z.lnot s2)))
    as (r & m' & E & Hs & -> & Hr)%wp_elim.
  { exists r. destruct (Hfold Hs r Hr) as (? & ? & ?). done. }
  apply wp_bind, wp_gets, wp_bind. unfold mem_fuel.
  destruct (Z.ltb_spec 0 len) as [Hp|]; cycle 1.
  { cbn [cksum_loop]. destruct (Z.ltb_spec 0 len); [lia|]. apply wp_ret. apply wp_ret.
    assert (len = 0) as -> by lia. done. }
  destruct (length m) as [|lm] eqn:El; [lia|].
  cbn [cksum_loop]. destruct (Z.ltb_spec 0 len); [|lia]. simpl negb.
  apply wp_bind, wp_ret. apply wp_bind, wp_gets, wp_bind.
  apply wp_cksum_words; [done|done|done|unfold mem_fuel; lia|lia|lia|].
  intros n Hn Hw. rewrite Z.add_0_l.
  replace (Z.land (len - 2 * Z.of_nat n - 2) 1) with (len - 2 * Z.of_nat n); cycle 1.
  { change 1 with (Z.ones 1). rewrite Z.land_ones by lia.
    apply (Z.mod_unique_pos _ _ (-1)); lia. }
  destruct Hn as [Hn|Hn].
  - replace (len - 2 * Z.of_nat n) with 0 by lia. simpl negb. apply wp_bind, wp_ret.
    destruct (Z.ltb_spec 0 (0 - 2)); [lia|]. apply wp_ret. simpl negb. apply wp_ret.
    assert (Es : s = word_sum (mbytes m p (2 * n))) by (unfold s; do 2 f_equal; lia).
    rewrite <- Es in *. split; [lia|done].
  - replace (len - 2 * Z.of_nat n) with 1 by lia. simpl negb.
    destruct (mbytes_S m (p + 2 * Z.of_nat n) 0) as (c & Hc & Ec); [unfold in_mem; lia|].
    assert (Bc : 0 <= c < 256) by (unfold bytes_ok in Hb; rewrite Forall_lookup in Hb; eauto).
    apply wp_bind, (wp_peek _ c); [lia|done|].
    destruct (Z.ltb_spec 0 (1 - 2)); [lia|]. apply wp_ret. simpl negb. apply wp_ret.
    assert (Es : s = word_sum (mbytes m p (2 * n)) + c).
    { unfold s. replace (Z.to_nat len) with (2 * n + 1)%nat by lia.
      rewrite mbytes_app by lia. replace (Z.of_nat (2 * n)) with (2 * Z.of_nat n) by lia.
      rewrite Ec. apply word_sum_snoc. rewrite length_mbytes by (unfold in_mem; lia).
      apply even_double. }
    rewrite <- Es, s32_small by lia. split; [lia|done].
Qed.
End cksum.

Lemma in_cksum_completes_witness :
  exists r, in_cksum 1 5 [9; 1; 2; 3; 4; 255] = Some (r, [9; 1; 2; 3; 4; 255]) /\
    0 <= r <= 0xffff /\ (word_sum [1; 2; 3; 4; 255] + r) mod 0xffff = 0 /\
    (r = 0 <-> 0 < word_sum [1; 2; 3; 4; 255] /\ word_sum [1; 2; 3; 4; 255] mod 0xffff = 0).
Proof.
  apply (in_cksum_completes [9; 1; 2; 3; 4; 255] 1 5);
    [repeat constructor; discriminate|vm_compute; intuition discriminate|lia].
Defined.

(** ** The pseudo-random generator *)

(** [random] is the generator of Park and Miller: from a seed in [1, 2^31 - 2] the
    next one is 7^5 times it modulo 2^31 - 1, which stays in that range, so that no
    seed of the range ever leads to the fixed point 0. *)
Theorem random_park_miller x :
  1 <= x <= 2 ^ 31 - 2 ->
  exists y, random x = Some (y, y) /\ y = (7 ^ 5 * x) mod (2 ^ 31 - 1) /\ 1 <= y <= 2 ^ 31 - 2.
Proof.
  intros Hx. set (M := 2 ^ 31 - 1).
  assert (Hnz : (7 ^ 5 * x) mod M <> 0).
  { intros E. apply Z.mod_divide in E; [|done]. apply Z.gauss in E; [|done].
    destruct E as [q Hq]. unfold M in Hq. nia. }
  pose proof (Z.mod_pos_bound (7 ^ 5 * x) M ltac:(done)).
  exists ((7 ^ 5 * x) mod M). split; [|split; [done|unfold M in *; lia]].
  unfold random, get_st, put_st, mbind, St_bind, mret, St_ret.
  rewrite s64_small by lia. rewrite Z.quot_div_nonneg, Z.rem_mod_nonneg by lia.
  pose proof (Z.div_mod x 127773 ltac:(lia)) as Hdm.
  pose proof (Z.mod_pos_bound x 127773 ltac:(lia)).
  assert (0 <= x / 127773 < 16808)
    by (split; [apply Z.div_pos; lia|apply Z.div_lt_upper_bound; lia]).
  set (hi := x / 127773) in *. set (lo := x mod 127773) in *. clearbody hi lo.
  set (t := 16807 * lo - 2836 * hi).
  assert (Et : 7 ^ 5 * x = hi * M + t) by (subst t; unfold M; lia).
  assert (Ey : (if t <=? 0 then t + 0x7fffffff else t) = (7 ^ 5 * x) mod M).
  { destruct (Z.leb_spec t 0).
    - apply (Z.mod_unique_pos _ _ (hi - 1)); [|unfold M in *; lia].
      destruct (Z.eq_dec t 0) as [E|]; [|subst t; unfold M; lia].
      rewrite Et, E, Z.add_0_r, Z_mod_mult in Hnz. done.
    - apply (Z.mod_unique_pos _ _ hi); [subst t; unfold M; lia|lia]. }
  rewrite Ey. rewrite u64_small by (unfold M in *; lia). done.
Qed.

Lemma random_park_miller_witness :
  exists y, random 1 = Some (y, y) /\ y = (7 ^ 5 * 1) mod (2 ^ 31 - 1) /\ 1 <= y <= 2 ^ 31 - 2.
Proof. apply (random_park_miller 1). lia. Defined.

(** ** UUIDs *)
Section uuid.
Implicit Types m : mem.

(** The value of a UUID, NULL standing for the nil one. *)
Definition uuid_value m (p : option Z) : list Z :=
  match p with Some a => mbytes m a 16 | None => replicate 16 0 end.
Definition uuid_valid m (p : option Z) : Prop :=
  match p with Some a => in_mem m a 16 | None => True end.

Lemma le_dec_zero l : bytes_ok l -> le_dec l = 0 <-> l = replicate (length l) 0.
Proof.
  induction 1 as [|b l Hb Hl IH]; cbn [le_dec length replicate]; [done|].
  pose proof (le_dec_bound _ Hl). split.
  - intros E. rewrite <- (proj1 IH) by lia. f_equal. lia.
  - intros [= -> E]. rewrite (proj2 IH E). lia.
Qed.

Lemma wp_uuid_is_nil m p (Q : Z -> mem -> Prop) :
  bytes_ok m -> uuid_valid m p ->
  Q (if decide (uuid_value m p = replicate 16 0) then 1 else 0) m -> wp (uuid_is_nil p) m Q.
Proof.
  intros Hb Hv HQ. destruct p as [a|]; cycle 1.
  { apply wp_ret. rewrite decide_True in HQ by done. exact HQ. }
  cbn [uuid_value uuid_valid] in *.
  destruct Hv as (H1 & H2 & H3).
  do 4 (apply wp_bind, wp_peekn; [unfold in_mem; lia|]). apply wp_ret.
  assert (Hz : forall o, 0 <= o <= 12 -> le_dec (mbytes m (a + o) 4) = 0 <->
    mbytes m (a + o) 4 = replicate 4 0).
  { intros o Ho. rewrite le_dec_zero by (by apply bytes_ok_sub).
    by rewrite length_mbytes by (unfold in_mem; lia). }
  assert (E : mbytes m a 16 = mbytes m (a + 0) 4 ++ mbytes m (a + 4) 4 ++
    mbytes m (a + 8) 4 ++ mbytes m (a + 12) 4).
  { rewrite Z.add_0_r. change 16%nat with (4 + (4 + (4 + 4)))%nat. rewrite !mbytes_app by lia.
    change (Z.of_nat 4) with 4. rewrite <- !Z.add_assoc. done. }
  pose proof (Hz 0 ltac:(lia)) as Z0. pose proof (Hz 4 ltac:(lia)) as Z1.
  pose proof (Hz 8 ltac:(lia)) as Z2. pose proof (Hz 12 ltac:(lia)) as Z3.
  assert (L : forall o, 0 <= o <= 12 -> length (mbytes m (a + o) 4) = 4%nat)
    by (intros; apply length_mbytes; unfold in_mem; lia).
  assert (Hall : mbytes m a 16 = replicate 16 0 <->
    mbytes m (a + 0) 4 = replicate 4 0 /\ mbytes m (a + 4) 4 = replicate 4 0 /\
    mbytes m (a + 8) 4 = replicate 4 0 /\ mbytes m (a + 12) 4 = replicate 4 0).
  { rewrite E. change (replicate 16 0) with
      (replicate 4 0 ++ replicate 4 0 ++ replicate 4 0 ++ replicate 4 0). split.
    - intros [-> [-> [-> ->]%app_inj_1]%app_inj_1]%app_inj_1; try done; apply L; lia.
    - by intros (-> & -> & -> & ->). }
  rewrite Z.add_0_r in *.
  destruct (Z.eqb_spec (le_dec (mbytes m a 4)) 0), (Z.eqb_spec (le_dec (mbytes m (a + 4) 4)) 0),
    (Z.eqb_spec (le_dec (mbytes m (a + 8) 4)) 0), (Z.eqb_spec (le_dec (mbytes m (a + 12) 4)) 0);
    simpl; case_decide; tauto || exact HQ.
Qed.

(** [uuid_equal] tells whether two UUIDs have the same 16 bytes, a NULL pointer
    counting as the nil UUID on either side. *)
Theorem uuid_equal_ok m a b :
  bytes_ok m -> uuid_valid m a -> uuid_valid m b ->
  uuid_equal a b m = Some (if decide (uuid_value m a = uuid_value m b) then 1 else 0, m).
Proof.
  intros Hm Ha Hb.
  enough (wp (uuid_equal a b) m (fun r m' =>
    r = (if decide (uuid_value m a = uuid_value m b) then 1 else 0) /\ m' = m))
    as (r & m' & E & -> & ->)%wp_elim by done.
  unfold uuid_equal. case_decide as Eab.
  { apply wp_ret. subst. by rewrite decide_True. }
  destruct a as [p|], b as [q|]; [| | |done].
  - destruct Ha as (? & ? & ?), Hb as (? & ? & ?). simpl uuid_value.
    destruct (memcmp_loop_ok 16 p q m) as [E _]; [unfold in_mem; lia..|].
    pose proof (list_cmp_eq (mbytes m p 16) (mbytes m q 16)) as Hc.
    rewrite !length_mbytes in Hc by (unfold in_mem; lia). specialize (Hc eq_refl).
    apply wp_bind. unfold memcmp. change (Z.to_nat 16) with 16%nat.
    apply wp_elim. eexists _, _. split; [exact E|]. apply wp_ret. split; [|done].
    destruct (Z.eqb_spec (list_cmp (mbytes m p 16) (mbytes m q 16)) 0); simpl;
      case_decide; tauto.
  - by apply wp_uuid_is_nil.
  - apply wp_uuid_is_nil; [done|done|]. split; [|done]. simpl.
    by case_decide; case_decide.
Qed.
End uuid.

Lemma uuid_equal_ok_witness :
  uuid_equal (Some 1) None (replicate 20 0) = Some (1, replicate 20 0).
Proof.
  apply (uuid_equal_ok (replicate 20 0) (Some 1) None);
    [repeat constructor; discriminate|vm_compute; intuition discriminate|done].
Defined.
