(* ===== verification/Qdivrem.v ===== *)
(** * Qdivrem: 64-bit division for 32-bit machines (lib/libstand/qdivrem.c)

    Knuth's Algorithm D on digits of 16 bits, translated with its arrays and pointers
    (an array of five digits and an offset into it), and shown to divide.  [None] is an
    access outside an array, or the division by zero that the code makes on purpose.
    The entries of the arrays that the code does not initialise hold [junk]. *)
From Stdlib Require Import ZArith Lia.
From stdpp Require Import base list option.
From S2P Require Import Prelude.
Open Scope Z_scope.

Definition HALF_BITS : Z := 16.
(** The digit base. *)
Definition B : Z := 2 ^ 16.
Definition HHALF (x : Z) : Z := Z.shiftr x HALF_BITS.
Definition LHALF (x : Z) : Z := Z.land x (B - 1).
Definition COMBINE (a b : Z) : Z := Z.lor (u32 (Z.shiftl a HALF_BITS)) b.

(** An array of digits. *)
Abbreviation digits := (list Z).

Definition rd (l : digits) (i : nat) : option Z := l !! i.
Definition wr (l : digits) (i : nat) (x : Z) : option digits :=
  if decide (i < length l)%nat then Some (<[i := u16 x]> l) else None.

(** The loop of [shl], from [i] on with [k] digits to go. *)
Fixpoint shl_loop (k : nat) (l : digits) (p i : nat) (sh : Z) : option digits :=
  match k with
  | O => x ← rd l (p + i); wr l (p + i) (LHALF (Z.shiftl x sh))
  | S k =>
    x ← rd l (p + i); y ← rd l (p + i + 1);
    l ← wr l (p + i) (Z.lor (LHALF (Z.shiftl x sh)) (Z.shiftr y (HALF_BITS - sh)));
    shl_loop k l p (S i) sh
  end.

Definition shl (l : digits) (p len : nat) (sh : Z) : option digits := shl_loop len l p 0 sh.

(** [for (n = 4; v[1] == 0; v++) if (--n == 1) ...]: the length of the divisor and the
    place of [v], or [None] inside when the divisor has one digit. *)
Fixpoint vskip (fuel : nat) (v : digits) (n vo : nat) : option (option (nat * nat)) :=
  match fuel with
  | O => None
  | S fuel =>
    x ← rd v (vo + 1);
    if x =? 0 then
      if decide (n - 1 = 1)%nat then Some None else vskip fuel v (n - 1) (vo + 1)
    else Some (Some (n, vo))
  end.

(** The division by a single digit, exercise 16. *)
Definition short_div (u : digits) (t : Z) : option (Z * Z) :=
  u1 ← rd u 1; u2 ← rd u 2; u3 ← rd u 3; u4 ← rd u 4;
  let q1 := u16 (u1 / t) in
  let rbj := COMBINE (u1 mod t) u2 in
  let q2 := u16 (rbj / t) in
  let rbj := COMBINE (rbj mod t) u3 in
  let q3 := u16 (rbj / t) in
  let rbj := COMBINE (rbj mod t) u4 in
  let q4 := u16 (rbj / t) in
  Some (Z.lor (Z.shiftl (COMBINE q1 q2) 32) (COMBINE q3 q4), rbj mod t).

(** [for (m = 4 - n; u[1] == 0; u++) m--;] *)
Fixpoint uskip (fuel : nat) (u : digits) (m uo : nat) : option (nat * nat) :=
  match fuel with
  | O => None
  | S fuel =>
    x ← rd u (uo + 1);
    if x =? 0 then
      match m with O => None | S m => uskip fuel u m (uo + 1) end
    else Some (m, uo)
  end.

(** [for (i = 4 - m; --i >= 0;) q[i] = 0;] *)
Fixpoint qzero (i : nat) (q : digits) : option digits :=
  match i with
  | O => Some q
  | S i => q ← wr q i 0; qzero i q
  end.

(** D1: [for (t = v[1]; t < B / 2; t <<= 1) d++;] *)
Fixpoint norm (fuel : nat) (t d : Z) : option Z :=
  match fuel with
  | O => None
  | S fuel => if t <? B / 2 then norm fuel (u32 (Z.shiftl t 1)) (d + 1) else Some d
  end.

(** D3: the correction of [qhat]; [too_big] says that the loop is entered by the
    [goto]. *)
Fixpoint qhat_loop (fuel : nat) (v1 v2 uj2 qhat rhat : Z) (too_big : bool) : option Z :=
  match fuel with
  | O => None
  | S fuel =>
    if too_big || (COMBINE rhat uj2 <? u32 (v2 * qhat)) then
      let qhat := u32 (qhat - 1) in
      let rhat := u32 (rhat + v1) in
      if B <=? rhat then Some qhat else qhat_loop fuel v1 v2 uj2 qhat rhat false
    else Some qhat
  end.

Definition qhat_of (v1 v2 uj0 uj1 uj2 : Z) : option Z :=
  if uj0 =? v1 then qhat_loop 4 v1 v2 uj2 B uj1 true
  else
    let nn := COMBINE uj0 uj1 in
    qhat_loop 4 v1 v2 uj2 (nn / v1) (nn mod v1) false.

(** D4: multiply and subtract; [up] and [vp] are the places of [u[j]] and [v[0]]. *)
Fixpoint mulsub (i : nat) (u v : digits) (up vp : nat) (qhat t : Z) : option (digits * Z) :=
  match i with
  | O => Some (u, t)
  | S k =>
    x ← rd u (up + i); y ← rd v (vp + i);
    let t := u32 (u32 (x - u32 (y * qhat)) - t) in
    u ← wr u (up + i) (LHALF t);
    mulsub k u v up vp qhat (Z.land (u32 (B - HHALF t)) (B - 1))
  end.

(** D6: add back. *)
Fixpoint addback (i : nat) (u v : digits) (up vp : nat) (t : Z) : option (digits * Z) :=
  match i with
  | O => Some (u, t)
  | S k =>
    x ← rd u (up + i); y ← rd v (vp + i);
    let t := u32 (t + (x + y)) in
    u ← wr u (up + i) (LHALF t);
    addback k u v up vp (HHALF t)
  end.

(** One turn of the loop on [j]: the digits left and the digit of the quotient. *)
Definition divstep (n : nat) (u v : digits) (up vp : nat) (v1 v2 : Z) : option (digits * Z) :=
  uj0 ← rd u up; uj1 ← rd u (up + 1); uj2 ← rd u (up + 2);
  qhat ← qhat_of v1 v2 uj0 uj1 uj2;
  '(u, t) ← mulsub n u v up vp qhat 0;
  x ← rd u up;
  let t := u32 (x - t) in
  u ← wr u up (LHALF t);
  if negb (HHALF t =? 0) then
    '(u, t) ← addback n u v up vp 0;
    x ← rd u up;
    u ← wr u up (LHALF (x + t));
    Some (u, u32 (qhat - 1))
  else Some (u, qhat).

(** D2, D7: [k] more turns, [j] being the current one. *)
Fixpoint divloop (k : nat) (n : nat) (u v q : digits) (uo vo qo j : nat) (v1 v2 : Z)
    : option (digits * digits) :=
  match k with
  | O => Some (u, q)
  | S k =>
    '(u, qhat) ← divstep n u v (uo + j) vo v1 v2;
    q ← wr q (qo + j) qhat;
    divloop k n u v q uo vo qo (S j) v1 v2
  end.

(** [for (i = m + n; i > m; --i) u[i] = ...; u[i] = 0;] with [k = i - m]. *)
Fixpoint unshift (k : nat) (u : digits) (p : nat) (d : Z) : option digits :=
  match k with
  | O => wr u p 0
  | S k' =>
    x ← rd u (p + k); y ← rd u (p + k');
    u ← wr u (p + k) (Z.lor (Z.shiftr x d) (LHALF (Z.shiftl y (HALF_BITS - d))));
    unshift k' u p d
  end.

Definition split_quad (x0 : Z) (x : Z) : digits :=
  [x0; HHALF (u32 (Z.shiftr x 32)); LHALF (u32 (Z.shiftr x 32)); HHALF (u32 x); LHALF (u32 x)].

Definition join_quad (l : digits) : option Z :=
  a ← rd l 1; b ← rd l 2; c ← rd l 3; d ← rd l 4;
  Some (Z.lor (Z.shiftl (COMBINE a b) 32) (COMBINE c d)).

(** [__qdivrem]: the quotient and the remainder. *)
Definition qdivrem (junk uq vq : Z) : option (Z * Z) :=
  if vq =? 0 then None
  else if uq <? vq then Some (0, uq)
  else
    let u := split_quad 0 uq in
    let v := split_quad junk vq in
    s ← vskip 4 v 4 0;
    match s with
    | None => t ← rd v 4; short_div u t
    | Some (n, vo) =>
      '(m, uo) ← uskip 5 u (4 - n) 0;
      q ← qzero (4 - m) (replicate 5 junk);
      let qo := (4 - m)%nat in
      t ← rd v (vo + 1);
      d ← norm 17 t 0;
      u ← (if 0 <? d then shl u uo (m + n) d else Some u);
      v ← (if 0 <? d then shl v (vo + 1) (n - 1) d else Some v);
      v1 ← rd v (vo + 1); v2 ← rd v (vo + 2);
      '(u, q) ← divloop (S m) n u v q uo vo qo 0 v1 v2;
      u ← (if 0 <? d then unshift n u (uo + m) d else Some u);
      r ← join_quad u;
      x ← join_quad q;
      Some (x, r)
    end.

(** The entry points the compiler calls. *)
Definition udivdi3 (junk a b : Z) : option Z := fst <$> qdivrem junk a b.
Definition umoddi3 (junk a b : Z) : option Z := snd <$> qdivrem junk a b.

Definition divdi3 (junk a b : Z) : option Z :=
  let '(ua, neg) := if a <? 0 then (u64 (- u64 a), true) else (a, false) in
  let '(ub, neg) := if b <? 0 then (u64 (- u64 b), negb neg) else (b, neg) in
  uq ← udivdi3 junk ua ub;
  Some (s64 (if neg then u64 (- uq) else uq)).

Definition moddi3 (junk a b : Z) : option Z :=
  let '(ua, neg) := if a <? 0 then (u64 (- u64 a), true) else (a, false) in
  let ub := if b <? 0 then u64 (- u64 b) else b in
  ur ← umoddi3 junk ua ub;
  Some (s64 (if neg then u64 (- ur) else ur)).

Example qd1 : qdivrem 7 (2 ^ 64 - 1) (2 ^ 33 + 12345) =
  Some ((2 ^ 64 - 1) / (2 ^ 33 + 12345), (2 ^ 64 - 1) mod (2 ^ 33 + 12345)).
Proof. vm_compute. reflexivity. Qed.
Example qd2 : qdivrem 7 (0x7fff800100000000) (0x800080020005) =
  Some (0x7fff800100000000 / 0x800080020005, 0x7fff800100000000 mod 0x800080020005).
Proof. vm_compute. reflexivity. Qed.

(** ** Words *)
Lemma B_val : B = 65536.
Proof. done. Qed.

Lemma HHALF_div x : HHALF x = x / B.
Proof. unfold HHALF, HALF_BITS. by rewrite Z.shiftr_div_pow2. Qed.

Lemma LHALF_mod x : LHALF x = x mod B.
Proof. unfold LHALF, B. by apply (land_low x 16). Qed.

Lemma COMBINE_eq a b : 0 <= a < B -> 0 <= b < B -> COMBINE a b = a * B + b.
Proof.
  rewrite B_val. intros Ha Hb. unfold COMBINE, HALF_BITS.
  rewrite Z.shiftl_mul_pow2, u32_small by lia. by rewrite lor_add by lia.
Qed.

Lemma join32 a b : 0 <= b < 2 ^ 32 -> Z.lor (Z.shiftl a 32) b = a * 2 ^ 32 + b.
Proof. intros. by rewrite Z.shiftl_mul_pow2, lor_add by lia. Qed.

(** ** The value of a window of digits *)
Fixpoint vl (l : digits) (o k : nat) : Z :=
  match k with
  | O => 0
  | S k' => vl l o k' * B + l !!! (o + k')%nat
  end.

Definition dig (x : Z) : Prop := 0 <= x < B.
Definition digs_ok (l : digits) : Prop := Forall dig l.

Lemma digs_at l i : digs_ok l -> 0 <= l !!! i < B.
Proof.
  intros H. destruct (l !! i) as [x|] eqn:E.
  - rewrite (list_lookup_total_correct _ _ _ E). by apply (Forall_lookup_1 _ _ _ _ H E).
  - rewrite list_lookup_total_alt, E. done.
Qed.

Lemma rd_eq l i : (i < length l)%nat -> rd l i = Some (l !!! i).
Proof. intros. unfold rd. by rewrite list_lookup_lookup_total_lt. Qed.

Lemma wr_eq l i x : (i < length l)%nat -> dig x -> wr l i x = Some (<[i := x]> l).
Proof.
  intros H [H1 H2]. unfold wr. rewrite decide_True by done.
  rewrite u16_small; [done|]. rewrite B_val in H2. lia.
Qed.

Lemma digs_insert l i x : digs_ok l -> dig x -> digs_ok (<[i := x]> l).
Proof. apply Forall_insert. Qed.

Lemma Bpow_pos k : 0 < B ^ Z.of_nat k.
Proof. apply Z.pow_pos_nonneg; [done|lia]. Qed.

Lemma Bpow_S k : B ^ Z.of_nat (S k) = B * B ^ Z.of_nat k.
Proof. rewrite Nat2Z.inj_succ, Z.pow_succ_r by lia. done. Qed.

Lemma vl_bound l o k : digs_ok l -> 0 <= vl l o k < B ^ Z.of_nat k.
Proof.
  intros H. induction k as [|k IH]; [done|]. rewrite Bpow_S. cbn [vl].
  pose proof (digs_at l (o + k) H). nia.
Qed.

Lemma vl_app l o a b : vl l o (a + b) = vl l o a * B ^ Z.of_nat b + vl l (o + a) b.
Proof.
  induction b as [|b IH]; [rewrite Nat.add_0_r; cbn; lia|].
  rewrite Nat.add_succ_r, Bpow_S. cbn [vl]. rewrite IH, Nat.add_assoc. lia.
Qed.

Lemma vl_top l o k : vl l o (S k) = l !!! o * B ^ Z.of_nat k + vl l (S o) k.
Proof.
  change (S k) with (1 + k)%nat. rewrite vl_app. cbn [vl].
  rewrite Nat.add_0_r, Nat.add_1_r. lia.
Qed.

Lemma vl_ext l l' o k :
  (forall i, (o <= i < o + k)%nat -> l !!! i = l' !!! i) -> vl l o k = vl l' o k.
Proof.
  induction k as [|k IH]; [done|]. intros H. cbn [vl].
  rewrite IH, H; [done|lia|]. intros i Hi. apply H. lia.
Qed.

Lemma tl_insert (l : digits) i j x : (i < length l)%nat ->
  <[i := x]> l !!! j = if decide (i = j) then x else l !!! j.
Proof.
  intros H. case_decide as E; [subst; by apply list_lookup_total_insert_eq|].
  by apply list_lookup_total_insert_ne.
Qed.

(** [u'] is an array of digits that agrees with [u] outside [lo..hi]. *)
Definition frame (lo hi : nat) (u u' : digits) : Prop :=
  length u' = length u /\ digs_ok u' /\
  (forall i, (i < lo)%nat \/ (hi < i)%nat -> u' !!! i = u !!! i).

Lemma frame_refl lo hi u : digs_ok u -> frame lo hi u u.
Proof. done. Qed.

Lemma frame_trans lo hi u u1 u2 : frame lo hi u u1 -> frame lo hi u1 u2 -> frame lo hi u u2.
Proof.
  intros (A1&A2&A3) (C1&C2&C3). split; [congruence|]. split; [done|].
  intros i Hi. rewrite C3, A3; done.
Qed.

Lemma frame_weaken lo hi lo' hi' u u' :
  frame lo hi u u' -> (lo' <= lo)%nat -> (hi <= hi')%nat -> frame lo' hi' u u'.
Proof. intros (A1&A2&A3) ??. split_and!; [done..|]. intros i Hi. apply A3. lia. Qed.

Lemma frame_insert lo hi u i x :
  (i < length u)%nat -> digs_ok u -> dig x -> (lo <= i <= hi)%nat ->
  frame lo hi u (<[i := x]> u).
Proof.
  intros. split; [apply length_insert|]. split; [by apply digs_insert|].
  intros j Hj. rewrite tl_insert by done. case_decide; [lia|done].
Qed.

Lemma frame_vl lo hi u u' o k :
  frame lo hi u u' -> (o + k <= lo)%nat \/ (hi < o)%nat -> vl u' o k = vl u o k.
Proof. intros (_&_&H) Ho. apply vl_ext. intros i Hi. apply H. lia. Qed.

(** ** The shifts *)
Lemma pow_split d : 0 <= d < 16 -> B = 2 ^ d * 2 ^ (16 - d).
Proof. intros. unfold B. rewrite <- Z.pow_add_r by lia. f_equal. lia. Qed.

Lemma shl_word x y d : dig x -> dig y -> 0 <= d < 16 ->
  Z.lor (LHALF (Z.shiftl x d)) (Z.shiftr y (HALF_BITS - d)) =
  (x * 2 ^ d) mod B + y / 2 ^ (16 - d).
Proof.
  intros Hx Hy Hd. rewrite LHALF_mod, Z.shiftl_mul_pow2 by lia. unfold HALF_BITS.
  rewrite Z.shiftr_div_pow2 by lia. pose proof (pow_split d Hd) as E.
  assert (0 < 2 ^ d) by (apply Z.pow_pos_nonneg; lia).
  assert (0 < 2 ^ (16 - d)) by (apply Z.pow_pos_nonneg; lia).
  rewrite E, (Z.mul_comm x), Z.mul_mod_distr_l by lia. rewrite (Z.mul_comm (2 ^ d)).
  apply lor_add; [lia|]. destruct Hy. rewrite E in *. split; [by apply Z.div_pos|].
  apply Z.div_lt_upper_bound; lia.
Qed.

Lemma shl_word_dig x y d : dig x -> dig y -> 0 <= d < 16 ->
  dig ((x * 2 ^ d) mod B + y / 2 ^ (16 - d)).
Proof.
  intros Hx Hy Hd. pose proof (pow_split d Hd) as E.
  assert (0 < 2 ^ d) by (apply Z.pow_pos_nonneg; lia).
  assert (0 < 2 ^ (16 - d)) by (apply Z.pow_pos_nonneg; lia).
  rewrite (Z.mul_comm x). unfold dig in *. rewrite E in *.
  rewrite Z.mul_mod_distr_l by lia.
  pose proof (Z.mod_pos_bound x (2 ^ (16 - d))).
  assert (0 <= y / 2 ^ (16 - d) < 2 ^ d)
    by (split; [apply Z.div_pos; lia|apply Z.div_lt_upper_bound; lia]).
  nia.
Qed.

(** Shifting a number whose top digit is [y]: what goes into the digit above. *)
Lemma shl_carry y r d P : 0 <= d < 16 -> 0 < P -> 0 <= r < P ->
  (2 ^ d * (y * P + r)) / (B * P) = y / 2 ^ (16 - d).
Proof.
  intros Hd HP Hr. rewrite (pow_split d Hd).
  assert (0 < 2 ^ d) by (apply Z.pow_pos_nonneg; lia).
  assert (0 < 2 ^ (16 - d)) by (apply Z.pow_pos_nonneg; lia).
  rewrite <- Z.mul_assoc, Z.div_mul_cancel_l by nia.
  rewrite (Z.mul_comm (2 ^ (16 - d))), <- Z.div_div by lia.
  rewrite Z.div_add_l by lia. by rewrite (Z.div_small r), Z.add_0_r by lia.
Qed.

Lemma shl_loop_eq k : forall l p i d,
  digs_ok l -> (p + i + k < length l)%nat -> 0 <= d < 16 ->
  exists l', shl_loop k l p i d = Some l' /\ frame (p + i) (p + i + k) l l' /\
    vl l' (p + i) (S k) = (2 ^ d * vl l (p + i) (S k)) mod B ^ Z.of_nat (S k).
Proof.
  induction k as [|k IH]; intros l p i d Hl Hk Hd; cbn [shl_loop].
  - rewrite rd_eq by lia. cbn [mbind option_bind].
    assert (E : LHALF (Z.shiftl (l !!! (p + i)%nat) d) = (2 ^ d * l !!! (p + i)%nat) mod B)
      by (rewrite LHALF_mod, Z.shiftl_mul_pow2 by lia; f_equal; lia).
    assert (Hx : dig ((2 ^ d * l !!! (p + i)%nat) mod B)) by (apply Z.mod_pos_bound; done).
    rewrite E, wr_eq by (done || lia). eexists. split; [done|].
    split; [apply frame_insert; done || lia|].
    cbn [vl]. rewrite Nat.add_0_r, tl_insert, decide_True by (done || lia). done.
  - rewrite !rd_eq by lia. cbn [mbind option_bind].
    pose proof (digs_at l (p + i) Hl) as Hx. pose proof (digs_at l (p + i + 1) Hl) as Hy.
    rewrite shl_word by done. rewrite wr_eq by (done || lia || by apply shl_word_dig).
    pose proof (shl_word_dig _ _ d Hx Hy Hd) as Hw.
    set (w := (l !!! (p + i)%nat * 2 ^ d) mod B + l !!! (p + i + 1)%nat / 2 ^ (16 - d)) in *.
    cbn [mbind option_bind].
    destruct (IH (<[(p + i)%nat := w]> l) p (S i) d) as (l' & -> & F & V);
      [by apply digs_insert|rewrite length_insert; lia|done|].
    rewrite (Nat.add_succ_r p i) in F, V. eexists. split; [done|]. split.
    { apply (frame_trans _ _ _ (<[(p + i)%nat := w]> l)); [apply frame_insert; done || lia|].
      eapply frame_weaken; [exact F|lia..]. }
    rewrite vl_top, V. replace (l' !!! (p + i)%nat) with w.
    2:{ symmetry. rewrite (proj2 (proj2 F)) by lia. by rewrite tl_insert, decide_True by (done || lia). }
    rewrite (vl_ext (<[(p + i)%nat:=w]> l) l).
    2:{ intros j Hj. rewrite tl_insert by lia. case_decide; [lia|done]. }
    rewrite (vl_top l (p + i) (S k)). unfold w.
    rewrite <- (shl_carry _ (vl l (S (S (p + i))) k) d (B ^ Z.of_nat k)).
    2: done. 2: apply Bpow_pos. 2: by apply vl_bound.
    rewrite (Nat.add_1_r (p + i)), <- vl_top, <- Bpow_S.
    set (R := vl l (S (p + i)) (S k)). set (Q := B ^ Z.of_nat (S k)).
    rewrite (Bpow_S (S k)). fold Q. assert (0 < Q) by apply Bpow_pos.
    rewrite (Z.mul_comm B Q), Z.rem_mul_r by (lia || rewrite B_val; lia).
    rewrite Z.mul_add_distr_l, (Z.mul_assoc (2 ^ d)).
    rewrite (Z.add_comm (2 ^ d * _ * Q)), Z.mod_add, Z.div_add by lia.
    rewrite (Z.add_comm (2 ^ d * R / Q) (2 ^ d * _)), <- (Z.add_mod_idemp_l (2 ^ d * _)) by (rewrite B_val; lia).
    rewrite (Z.mul_comm (2 ^ d)  (l !!! _)). rewrite (Z.mod_small (_ + _) B).
    2:{ unfold dig, w in Hw. rewrite <- (shl_carry _ (vl l (S (S (p + i))) k) d (B ^ Z.of_nat k)) in Hw.
        2: done. 2: apply Bpow_pos. 2: by apply vl_bound.
        rewrite (Nat.add_1_r (p + i)), <- vl_top, <- Bpow_S in Hw. done. }
    lia.
Qed.

(** [shl] multiplies, when nothing falls out on the left. *)
Lemma shl_eq l p k d : digs_ok l -> (p + k < length l)%nat -> 0 <= d < 16 ->
  l !!! p * 2 ^ d + 2 ^ d <= B ->
  exists l', shl l p k d = Some l' /\ frame p (p + k) l l' /\
    vl l' p (S k) = 2 ^ d * vl l p (S k).
Proof.
  intros Hl Hk Hd Hx. destruct (shl_loop_eq k l p 0 d) as (l' & E & F & V); [done|lia|done|].
  rewrite Nat.add_0_r in *. exists l'. split_and!; [done..|]. rewrite V.
  apply Z.mod_small. rewrite vl_top, Bpow_S.
  pose proof (vl_bound l (S p) k Hl). pose proof (digs_at l p Hl).
  assert (0 < 2 ^ d) by (apply Z.pow_pos_nonneg; lia). nia.
Qed.

Lemma unshift_word x y d : dig x -> dig y -> 0 <= d < 16 ->
  Z.lor (Z.shiftr x d) (LHALF (Z.shiftl y (HALF_BITS - d))) =
  (y mod 2 ^ d) * 2 ^ (16 - d) + x / 2 ^ d /\ dig ((y mod 2 ^ d) * 2 ^ (16 - d) + x / 2 ^ d).
Proof.
  intros Hx Hy Hd. rewrite LHALF_mod, Z.shiftr_div_pow2 by lia. unfold HALF_BITS.
  rewrite Z.shiftl_mul_pow2 by lia. pose proof (pow_split d Hd) as E. unfold dig in *.
  assert (0 < 2 ^ d) by (apply Z.pow_pos_nonneg; lia).
  assert (0 < 2 ^ (16 - d)) by (apply Z.pow_pos_nonneg; lia).
  assert (0 <= x / 2 ^ d < 2 ^ (16 - d)).
  { rewrite E in *. split; [apply Z.div_pos; lia|apply Z.div_lt_upper_bound; lia]. }
  pose proof (Z.mod_pos_bound y (2 ^ d)).
  rewrite E, Z.mul_mod_distr_r by lia. rewrite Z.lor_comm, lor_add by lia. split; [done|nia].
Qed.

Lemma unshift_eq k : forall u p d,
  digs_ok u -> (p + k < length u)%nat -> 0 <= d < 16 ->
  exists u', unshift k u p d = Some u' /\ frame p (p + k) u u' /\ u' !!! p = 0 /\
    vl u' p (S k) = (vl u p (S k) / 2 ^ d) mod B ^ Z.of_nat k.
Proof.
  induction k as [|k IH]; intros u p d Hu Hk Hd; cbn [unshift].
  - rewrite wr_eq by (lia || split; done). eexists. split; [done|].
    split; [apply frame_insert; done || lia|]. cbn [vl]. rewrite Nat.add_0_r, tl_insert by lia.
    rewrite decide_True by done. split; [done|]. by rewrite Z.mod_1_r.
  - rewrite !rd_eq by lia. cbn [mbind option_bind].
    pose proof (digs_at u (p + S k) Hu) as Hx. pose proof (digs_at u (p + k) Hu) as Hy.
    destruct (unshift_word _ _ d Hx Hy Hd) as [-> Hw].
    set (w := _ + _) in *. rewrite wr_eq by (done || lia). cbn [mbind option_bind].
    destruct (IH (<[(p + S k)%nat := w]> u) p d) as (u' & -> & F & Z0 & V);
      [by apply digs_insert|rewrite length_insert; lia|done|].
    exists u'. split; [done|]. split.
    { apply (frame_trans _ _ _ (<[(p + S k)%nat := w]> u)); [apply frame_insert; done || lia|].
      eapply frame_weaken; [exact F|lia..]. }
    split; [done|]. change (vl u' p (S (S k))) with (vl u' p (S k) * B + u' !!! (p + S k)%nat).
    rewrite (proj2 (proj2 F)) by lia. rewrite tl_insert, decide_True by (done || lia).
    rewrite V, (vl_ext _ u). 2:{ intros j Hj. rewrite tl_insert by lia. case_decide; [lia|done]. }
    change (vl u p (S (S k))) with (vl u p (S k) * B + u !!! (p + S k)%nat).
    unfold w. set (A := vl u p (S k)).
    assert (EA : u !!! (p + k)%nat mod 2 ^ d = A mod 2 ^ d).
    { unfold A. cbn [vl]. rewrite (pow_split d Hd), Z.mul_assoc, (Z.mul_shuffle0 _ (2 ^ d)).
      rewrite (Z.add_comm _ (u !!! _)), Z.mod_add by (apply Z.pow_nonzero; lia). done. }
    rewrite EA. pose proof (pow_split d Hd) as E.
    assert (0 < 2 ^ d) by (apply Z.pow_pos_nonneg; lia).
    assert (0 < 2 ^ (16 - d)) by (apply Z.pow_pos_nonneg; lia).
    assert (E2 : (A * B + u !!! (p + S k)%nat) / 2 ^ d = A / 2 ^ d * B +
      (A mod 2 ^ d * 2 ^ (16 - d) + u !!! (p + S k)%nat / 2 ^ d)).
    { rewrite E at 1. rewrite (Z.mul_comm (2 ^ d)), Z.mul_assoc, Z.div_add_l by lia.
      rewrite (Z.div_mod A (2 ^ d)) at 1 by lia. rewrite E. ring. }
    rewrite E2, (Bpow_S k).
    destruct (unshift_word _ _ d Hx Hy Hd) as [_ Hw2]. rewrite EA in Hw2.
    set (z := A mod 2 ^ d * _ + _) in *. unfold dig in Hw2.
    rewrite Z.rem_mul_r by (rewrite ?B_val; lia || pose proof (Bpow_pos k); lia).
    rewrite (Z.add_comm (A / 2 ^ d * B) z), Z.mod_add, Z.div_add by (rewrite B_val; lia).
    rewrite (Z.mod_small z), (Z.div_small z) by done. rewrite Z.add_0_l. lia.
Qed.

(** ** One turn of Algorithm D *)
Lemma mulsub_word x y qhat t : dig x -> dig y -> dig qhat -> dig t ->
  let z := x - y * qhat - t in
  LHALF (u32 (u32 (x - u32 (y * qhat)) - t)) = z mod B /\
  Z.land (u32 (B - HHALF (u32 (u32 (x - u32 (y * qhat)) - t)))) (B - 1) = - (z / B) /\
  dig (- (z / B)).
Proof.
  intros Hx Hy Hq Ht z. unfold dig in *.
  assert (Hz : - (B * B) < z - B + 1 /\ z < B) by (subst z; rewrite B_val in *; nia).
  assert (E : u32 (u32 (x - u32 (y * qhat)) - t) = z mod (B * B)).
  { unfold u32. rewrite Zminus_mod_idemp_l, <- Zminus_mod_idemp_l, Zminus_mod_idemp_r.
    by rewrite Zminus_mod_idemp_l. }
  assert (Hd : 0 <= - (z / B) < B) by (rewrite B_val in *; dlia).
  rewrite E, LHALF_mod, HHALF_div. split; [|split; [|done]].
  - rewrite Z.rem_mul_r by (rewrite B_val; lia).
    rewrite (Z.mul_comm B), Z.mod_add by (rewrite B_val; lia).
    apply Z.mod_mod. rewrite B_val; lia.
  - rewrite Z.rem_mul_r by (rewrite B_val; lia).
    rewrite (Z.mul_comm B), Z.div_add by (rewrite B_val; lia).
    rewrite (Z.div_small (z mod B)), Z.add_0_l by (apply Z.mod_pos_bound; rewrite B_val; lia).
    change (B - 1) with (2 ^ 16 - 1). rewrite land_low by lia. change (2 ^ 16) with B.
    pose proof (Z.mod_pos_bound (z / B) B).
    rewrite u32_small by (rewrite B_val in *; lia).
    rewrite Zminus_mod_idemp_r. symmetry. apply (Z.mod_unique _ _ 1); lia.
Qed.

Lemma mulsub_eq i : forall u v up vp qhat t,
  digs_ok u -> digs_ok v -> dig qhat -> dig t ->
  (up + i < length u)%nat -> (vp + i < length v)%nat ->
  exists u' t', mulsub i u v up vp qhat t = Some (u', t') /\ dig t' /\
    frame (S up) (up + i) u u' /\
    vl u' (S up) i - t' * B ^ Z.of_nat i = vl u (S up) i - qhat * vl v (S vp) i - t.
Proof.
  induction i as [|k IH]; intros u v up vp qhat t Hu Hv Hq Ht Lu Lv; cbn [mulsub].
  - exists u, t. split_and!; [done..|]. cbn. lia.
  - rewrite !rd_eq by lia. cbn [mbind option_bind].
    destruct (mulsub_word (u !!! (up + S k)%nat) (v !!! (vp + S k)%nat) qhat t)
      as (E1 & E2 & Hd); [by apply digs_at..|done|done|].
    set (z := u !!! (up + S k)%nat - v !!! (vp + S k)%nat * qhat - t) in *.
    rewrite E1, E2. assert (Hz : dig (z mod B)) by (by apply Z.mod_pos_bound).
    rewrite wr_eq by (done || lia). cbn [mbind option_bind].
    destruct (IH (<[(up + S k)%nat := z mod B]> u) v up vp qhat (- (z / B)))
      as (u' & t' & -> & Ht' & F & V); try done;
      [by apply digs_insert|rewrite length_insert; lia|lia|].
    exists u', t'. split_and!; [done..| |].
    { apply (frame_trans _ _ _ (<[(up + S k)%nat := z mod B]> u));
        [apply frame_insert; done || lia|]. eapply frame_weaken; [exact F|lia..]. }
    cbn [vl]. rewrite !Nat.add_succ_comm.
    rewrite (proj2 (proj2 F)) by lia. rewrite tl_insert, decide_True by (done || lia).
    rewrite (vl_ext (<[_ := _]> u) u) in V.
    2:{ intros j Hj. rewrite tl_insert by lia. case_decide; [lia|done]. }
    rewrite Bpow_S. pose proof (Z.div_mod z B). rewrite B_val in *. nia.
Qed.

Lemma addback_eq i : forall u v up vp t,
  digs_ok u -> digs_ok v -> dig t ->
  (up + i < length u)%nat -> (vp + i < length v)%nat ->
  exists u' t', addback i u v up vp t = Some (u', t') /\ dig t' /\
    frame (S up) (up + i) u u' /\
    vl u' (S up) i + t' * B ^ Z.of_nat i = vl u (S up) i + vl v (S vp) i + t.
Proof.
  induction i as [|k IH]; intros u v up vp t Hu Hv Ht Lu Lv; cbn [addback].
  - exists u, t. split_and!; [done..|]. cbn. lia.
  - rewrite !rd_eq by lia. cbn [mbind option_bind].
    pose proof (digs_at u (up + S k) Hu) as Hx. pose proof (digs_at v (vp + S k) Hv) as Hy.
    set (z := t + (u !!! (up + S k)%nat + v !!! (vp + S k)%nat)).
    assert (Hz0 : 0 <= z < 3 * B) by (unfold dig in *; lia).
    rewrite (u32_small z) by (rewrite B_val in *; lia). rewrite LHALF_mod, HHALF_div.
    assert (Hz : dig (z mod B)) by (by apply Z.mod_pos_bound).
    rewrite wr_eq by (done || lia). cbn [mbind option_bind].
    destruct (IH (<[(up + S k)%nat := z mod B]> u) v up vp (z / B))
      as (u' & t' & -> & Ht' & F & V); try done;
      [by apply digs_insert|unfold dig; rewrite B_val in *; dlia|rewrite length_insert; lia|lia|].
    exists u', t'. split_and!; [done..| |].
    { apply (frame_trans _ _ _ (<[(up + S k)%nat := z mod B]> u));
        [apply frame_insert; done || lia|]. eapply frame_weaken; [exact F|lia..]. }
    cbn [vl]. rewrite !Nat.add_succ_comm.
    rewrite (proj2 (proj2 F)) by lia. rewrite tl_insert, decide_True by (done || lia).
    rewrite (vl_ext (<[_ := _]> u) u) in V.
    2:{ intros j Hj. rewrite tl_insert by lia. case_decide; [lia|done]. }
    rewrite Bpow_S. pose proof (Z.div_mod z B). rewrite B_val in *. nia.
Qed.

(** The estimate of a digit of the quotient, from the two top digits of the divisor and
    the three of the dividend, [P] being the weight of the rest. *)
Section qhat.
Context (v1 v2 uj0 uj1 uj2 : Z) (P R W : Z).
Context (Hv1 : dig v1) (Hv2 : dig v2) (Hu0 : dig uj0) (Hu1 : dig uj1) (Hu2 : dig uj2).
Context (HP : 0 < P) (HR : 0 <= R < P) (HW : 0 <= W < P) (Hnorm : B / 2 <= v1).
Let V : Z := (v1 * B + v2) * P + W.
Let U : Z := ((uj0 * B + uj1) * B + uj2) * P + R.
Context (HU : U < B * V).

Lemma qhat_V_pos : B * P <= V.
Proof. unfold V. unfold dig in *. rewrite B_val in *. change (65536 / 2) with 32768 in *. nia. Qed.

Lemma qhat_uj0_le : uj0 <= v1.
Proof.
  clear Hnorm. unfold V, U, dig in *. destruct (Z.le_gt_cases uj0 v1) as [|H]; [done|].
  exfalso. rewrite B_val in *.
  assert ((v1 + 1) * (65536 * 65536 * P) <= uj0 * (65536 * 65536 * P)) by nia. nia.
Qed.

(** Too large: [qhat] can be decremented. *)
Lemma qhat_above qhat rhat : 0 <= qhat -> qhat * v1 + rhat = uj0 * B + uj1 ->
  rhat * B + uj2 < v2 * qhat -> U < qhat * V.
Proof.
  intros Hq E Hlt. unfold U, V.
  assert ((uj0 * B + uj1) * B + uj2 + 1 <= qhat * (v1 * B + v2)) by (rewrite <- E; nia).
  nia.
Qed.

(** Not too large: at most one above the digit. *)
Lemma qhat_below qhat rhat : 0 <= qhat < B -> qhat * v1 + rhat = uj0 * B + uj1 ->
  v2 * qhat <= rhat * B + uj2 -> (qhat - 1) * V <= U.
Proof.
  intros Hq E Hle. pose proof qhat_V_pos. unfold U, V in *.
  assert (qhat * (v1 * B + v2) <= (uj0 * B + uj1) * B + uj2) by (rewrite <- E; nia).
  nia.
Qed.

Lemma qhat_loop_eq fuel : forall qhat rhat tb,
  0 <= rhat < B -> 0 <= qhat <= B -> qhat * v1 + rhat = uj0 * B + uj1 ->
  U / V <= qhat -> (tb = true -> U / V < qhat) -> (tb = false -> qhat < B) ->
  2 * B <= rhat + v1 * Z.of_nat fuel ->
  exists q, qhat_loop fuel v1 v2 uj2 qhat rhat tb = Some q /\ 0 <= q < B /\
    (q = U / V \/ q = U / V + 1).
Proof.
  pose proof qhat_V_pos as HV. assert (0 < V) by (rewrite B_val in HV; nia).
  assert (HUpos : 0 <= U) by (unfold U, dig in *; rewrite B_val in *; nia).
  assert (Hq0 : 0 <= U / V) by (apply Z.div_pos; lia).
  assert (Hexit : forall qhat rhat, 0 <= qhat < B -> qhat * v1 + rhat = uj0 * B + uj1 ->
    v2 * qhat <= rhat * B + uj2 -> U / V <= qhat -> qhat = U / V \/ qhat = U / V + 1).
  { intros qhat rhat Hq E Hle Hge. pose proof (qhat_below qhat rhat Hq E Hle).
    assert (qhat - 1 <= U / V) by (apply Z.div_le_lower_bound; lia). lia. }
  induction fuel as [|fuel IH]; intros qhat rhat tb Hr Hq E Hge Htb Htb' Hf;
    cbn [qhat_loop]; [unfold dig in *; lia|].
  unfold dig in *. rewrite COMBINE_eq by done.
  assert (Hm : qhat < B -> 0 <= v2 * qhat < 2 ^ 32).
  { clear - Hv2 Hq. intros. rewrite B_val in *. change (2 ^ 32) with (65536 * 65536). nia. }
  destruct (tb || (rhat * B + uj2 <? u32 (v2 * qhat))) eqn:Eb.
  - assert (Hlt : U / V < qhat).
    { destruct tb; [by apply Htb|]. cbn in Eb. zbool. specialize (Htb' eq_refl).
      rewrite u32_small in Eb by auto.
      apply Z.div_lt_upper_bound; [done|]. rewrite Z.mul_comm. apply (qhat_above qhat rhat); [lia|done|done]. }
    pose proof B_val as HB. rewrite !u32_small by lia. zcase.
    + eexists. split; [done|]. split; [lia|].
      apply (Hexit (qhat - 1) (rhat + v1)); [lia|lia| |lia].
      assert (H1 : B <= rhat + v1) by done. clear - Hq Hv2 Hu2 H1 HB. rewrite HB in *. nia.
    + apply IH; try done; try lia.
  - apply orb_false_iff in Eb as [-> Eb]. specialize (Htb' eq_refl). zbool.
    rewrite u32_small in Eb by auto.
    eexists. split; [done|]. split; [lia|]. apply (Hexit qhat rhat); [lia|done..].
Qed.

Lemma qhat_of_eq : exists q, qhat_of v1 v2 uj0 uj1 uj2 = Some q /\ 0 <= q < B /\
  (q = U / V \/ q = U / V + 1).
Proof.
  pose proof qhat_uj0_le as Hle. pose proof qhat_V_pos as HV. pose proof B_val as HB.
  assert (HVp : 0 < V) by (rewrite B_val in HV; nia).
  assert (HqB : U / V < B) by (apply Z.div_lt_upper_bound; lia).
  assert (Hn : 32768 <= v1) by (rewrite B_val in Hnorm; exact Hnorm).
  assert (A0 : 0 <= uj0 < B) by exact Hu0. assert (A1 : 0 <= uj1 < B) by exact Hu1.
  assert (A2 : 0 <= uj2 < B) by exact Hu2. assert (A3 : 0 <= v1 < B) by exact Hv1.
  unfold qhat_of. destruct (Z.eqb_spec uj0 v1) as [Eu|Nu].
  - apply qhat_loop_eq; try done; lia.
  - rewrite COMBINE_eq by done. pose proof (Z.div_mod (uj0 * B + uj1) v1).
    pose proof (Z.mod_pos_bound (uj0 * B + uj1) v1).
    assert (0 <= (uj0 * B + uj1) / v1) by (apply Z.div_pos; lia).
    assert ((uj0 * B + uj1) / v1 < B) by (apply Z.div_lt_upper_bound; [lia|]; rewrite HB in *; nia).
    apply qhat_loop_eq; try done; try lia.
    apply Z.lt_succ_r, Z.div_lt_upper_bound; [done|]. unfold U, V.
    set (q := (uj0 * B + uj1) / v1) in *.
    assert (L1 : uj0 * B + uj1 + 1 <= Z.succ q * v1) by lia.
    assert (L2 : ((uj0 * B + uj1) * B + uj2 + 1) * P <= (uj0 * B + uj1 + 1) * (B * P)).
    { rewrite Z.mul_assoc. apply Z.mul_le_mono_nonneg_r; lia. }
    assert (L3 : (uj0 * B + uj1 + 1) * (B * P) <= Z.succ q * v1 * (B * P))
      by (apply Z.mul_le_mono_nonneg_r; lia).
    assert (0 <= Z.succ q * (v2 * P + W)).
    { apply Z.mul_nonneg_nonneg; [lia|]. destruct Hv2. apply Z.add_nonneg_nonneg; [|lia].
      apply Z.mul_nonneg_nonneg; lia. }
    nia.
Qed.
End qhat.

Section divstep.
Context (n : nat) (v : digits) (vp : nat).
Context (Hn : (2 <= n)%nat) (Hv : digs_ok v) (Lv : (vp + n < length v)%nat).
Context (Hnorm : B / 2 <= v !!! (vp + 1)%nat).
Let V := vl v (S vp) n.

Lemma V_split : exists r, n = S (S r) /\
  V = (v !!! (vp + 1)%nat * B + v !!! (vp + 2)%nat) * B ^ Z.of_nat r + vl v (vp + 3) r.
Proof.
  exists (n - 2)%nat. split; [lia|]. unfold V. replace n with (2 + (n - 2))%nat at 1 by lia.
  replace (vp + 1)%nat with (S vp + 0)%nat by lia. replace (vp + 2)%nat with (S vp + 1)%nat by lia.
  replace (vp + 3)%nat with (S vp + 2)%nat by lia. by rewrite vl_app.
Qed.

Lemma V_bounds : 0 < V < B ^ Z.of_nat n.
Proof.
  split; [|by apply vl_bound]. destruct V_split as (r & -> & ->).
  pose proof (vl_bound v (vp + 3) r Hv). pose proof (Bpow_pos r).
  pose proof (digs_at v (vp + 2) Hv). rewrite B_val in *. change (65536 / 2) with 32768 in *. nia.
Qed.

(** The estimate for the window of [n + 1] digits at [up]. *)
Lemma window_qhat u up : digs_ok u -> vl u up (S n) < B * V ->
  exists q, qhat_of (v !!! (vp + 1)%nat) (v !!! (vp + 2)%nat)
              (u !!! up) (u !!! (up + 1)%nat) (u !!! (up + 2)%nat) = Some q /\
    0 <= q < B /\ (q = vl u up (S n) / V \/ q = vl u up (S n) / V + 1).
Proof.
  intros Hu. destruct V_split as (r & En & EV). rewrite EV, En.
  change (S (S (S r))) with (3 + r)%nat. rewrite vl_app. cbn [vl]. rewrite Nat.add_0_r, Z.add_0_l.
  intros HU. apply qhat_of_eq; try (by apply digs_at); try (by apply vl_bound);
    [apply Bpow_pos|done|done].
Qed.

Lemma divstep_eq u up : digs_ok u -> (up + n < length u)%nat -> vl u up n < V ->
  exists u' q,
    divstep n u v up vp (v !!! (vp + 1)%nat) (v !!! (vp + 2)%nat) = Some (u', q) /\
    dig q /\ frame up (up + n) u u' /\ u' !!! up = 0 /\
    vl u up (S n) = q * V + vl u' (S up) n /\ vl u' (S up) n < V.
Proof.
  intros Hu Lu Hlt. pose proof V_bounds as HV. set (U := vl u up (S n)).
  assert (HU : U < B * V).
  { unfold U. cbn [vl]. pose proof (digs_at u (up + n) Hu). nia. }
  destruct (window_qhat u up Hu HU) as (q & Eq & Hq & Hest). fold U in Hest.
  unfold divstep. rewrite !rd_eq by lia. cbn [mbind option_bind]. rewrite Eq.
  cbn [mbind option_bind].
  destruct (mulsub_eq n u v up vp q 0) as (u1 & t & -> & Ht & F & EV); try done.
  fold V in EV. cbn [mbind option_bind].
  rewrite rd_eq by (rewrite (proj1 F); lia). cbn [mbind option_bind].
  rewrite (proj2 (proj2 F)) by lia. set (x := u !!! up) in *.
  assert (Hx : dig x) by (by apply digs_at). pose proof (Z.div_mod U V ltac:(lia)) as Edm.
  pose proof (Z.mod_pos_bound U V ltac:(lia)) as Hmod. set (w := vl u1 (S up) n) in *.
  assert (Hw : 0 <= w < B ^ Z.of_nat n) by (apply vl_bound, F).
  assert (ED : U - q * V = (x - t) * B ^ Z.of_nat n + w).
  { unfold U. rewrite vl_top. fold x. lia. }
  assert (F0 : forall z, dig z -> frame up (up + n) u (<[up := z]> u1)).
  { intros z Hz. apply (frame_trans _ _ _ u1); [eapply frame_weaken; [exact F|lia..]|].
    apply frame_insert; [rewrite (proj1 F); lia|apply F|done|lia]. }
  assert (L1 : length u1 = length u) by apply F.
  destruct Hest as [Hest|Hest].
  - assert (x = t) as <- by nia. rewrite Z.sub_diag.
    change (LHALF (u32 0)) with 0. change (negb (HHALF (u32 0) =? 0)) with false.
    rewrite wr_eq by (rewrite ?L1; lia || done). cbn [mbind option_bind].
    eexists _, _. split; [done|]. split; [done|]. split; [by apply F0|].
    rewrite tl_insert, decide_True by (rewrite ?L1; lia || done). split; [done|].
    rewrite (vl_ext (<[up := _]> u1) u1). 2:{ intros i Hi. rewrite tl_insert by lia. case_decide; [lia|done]. }
    fold w. rewrite <- Hest in Edm. lia.
  - assert (Ex : x - t = -1) by nia. rewrite Ex.
    change (LHALF (u32 (-1))) with 65535. change (negb (HHALF (u32 (-1)) =? 0)) with true.
    rewrite wr_eq by (rewrite ?L1; lia || done). cbn [mbind option_bind].
    destruct (addback_eq n (<[up := 65535]> u1) v up vp 0) as (u2 & s & -> & Hs & F2 & E2);
      try done; [by apply F0|rewrite length_insert; lia|].
    cbn [mbind option_bind]. rewrite rd_eq by (rewrite (proj1 F2), length_insert; lia).
    cbn [mbind option_bind]. rewrite (proj2 (proj2 F2)) by lia.
    rewrite tl_insert, decide_True by (lia || done).
    rewrite (vl_ext (<[up := 65535]> u1) u1) in E2.
    2:{ intros i Hi. rewrite tl_insert by lia. case_decide; [lia|done]. }
    fold V w in E2. set (w2 := vl u2 (S up) n) in *.
    assert (Hw2 : 0 <= w2 < B ^ Z.of_nat n) by (apply vl_bound, F2).
    assert (s = 1) as -> by nia.
    change (LHALF (65535 + 1)) with 0.
    assert (L2 : length u2 = length u) by (rewrite (proj1 F2), length_insert; done).
    rewrite wr_eq by (lia || done). cbn [mbind option_bind].
    assert (0 <= U / V) by (apply Z.div_pos; [apply vl_bound|]; done || lia).
    rewrite u32_small by (rewrite B_val in *; lia).
    eexists _, _. split; [done|]. split; [unfold dig; lia|]. split.
    { apply (frame_trans _ _ _ (<[up := 65535]> u1)); [by apply F0|].
      apply (frame_trans _ _ _ u2); [eapply frame_weaken; [exact F2|lia..]|].
      apply frame_insert; [lia|apply F2|done|lia]. }
    rewrite tl_insert, decide_True by (lia || done). split; [done|].
    rewrite (vl_ext (<[up := _]> u2) u2). 2:{ intros i Hi. rewrite tl_insert by lia. case_decide; [lia|done]. }
    fold w2. assert (Hq1 : U / V = q - 1) by lia. rewrite Hq1 in Edm. lia.
Qed.

(** The loop divides: [Q] and [R] of the window of [n + k] digits. *)
Lemma divloop_eq uo qo k : forall u q j,
  digs_ok u -> digs_ok q -> (uo + j + n + k <= length u)%nat -> (qo + j + k <= length q)%nat ->
  vl u (uo + j) n < V ->
  exists u' q',
    divloop k n u v q uo vp qo j (v !!! (vp + 1)%nat) (v !!! (vp + 2)%nat) = Some (u', q') /\
    length u' = length u /\ digs_ok u' /\ length q' = length q /\ digs_ok q' /\
    (forall i, (i < uo + j)%nat -> u' !!! i = u !!! i) /\
    (forall i, (i < qo + j)%nat -> q' !!! i = q !!! i) /\
    (forall i, (uo + j <= i < uo + j + k)%nat -> u' !!! i = 0) /\
    vl u (uo + j) (k + n) = vl q' (qo + j) k * V + vl u' (uo + j + k) n /\
    vl u' (uo + j + k) n < V.
Proof.
  induction k as [|k IH]; intros u q j Hu Hq Lu Lq Hlt; cbn [divloop].
  - exists u, q. rewrite Nat.add_0_r. split_and!; try done. intros; lia.
  - destruct (divstep_eq u (uo + j)) as (u1 & d & -> & Hd & F & Z0 & E & L); [done|lia|done|].
    cbn [mbind option_bind]. rewrite wr_eq by (done || lia). cbn [mbind option_bind].
    destruct F as (F1 & F2 & F3).
    destruct (IH u1 (<[(qo + j)%nat := d]> q) (S j)) as (u' & q' & -> & A1 & A2 & A3 & A4 & A5 & A6 & A7 & A8 & A9);
      [done|by apply digs_insert|lia|rewrite length_insert; lia|by rewrite Nat.add_succ_r|].
    rewrite length_insert in A3. rewrite (Nat.add_succ_r uo j), (Nat.add_succ_r qo j) in *.
    replace (uo + j + S k)%nat with (S (uo + j) + k)%nat by lia.
    exists u', q'. split_and!; [done|congruence|done|done|done| | | | |done].
    + intros i Hi. rewrite A5, F3 by lia. done.
    + intros i Hi. rewrite A6, tl_insert by lia. case_decide; [lia|done].
    + intros i Hi. destruct (decide (i = uo + j)%nat) as [->|]; [|apply A7; lia].
      rewrite A5 by lia. done.
    + rewrite vl_top, A6, tl_insert, decide_True by (lia || done).
      replace (S k + n)%nat with (S n + k)%nat by lia. rewrite vl_app, E.
      replace (k + n)%nat with (n + k)%nat in A8 by lia. rewrite vl_app in A8.
      rewrite (vl_ext u1 u (S (uo + j) + n)) in A8 by (intros; apply F3; lia).
      rewrite Nat.add_succ_comm in A8. lia.
Qed.
End divstep.

(** ** The whole division *)
Lemma vl_zero l o k : (forall i, (o <= i < o + k)%nat -> l !!! i = 0) -> vl l o k = 0.
Proof.
  induction k as [|k IH]; [done|]. intros H. cbn [vl].
  rewrite IH, H by (lia || (intros; apply H; lia)). done.
Qed.

(** Leading zeros do not count. *)
Lemma vl_skip l o k r : (forall i, (o <= i < o + k)%nat -> l !!! i = 0) ->
  vl l o (k + r) = vl l (o + k) r.
Proof. intros H. rewrite vl_app, (vl_zero _ _ _ H). lia. Qed.

Lemma join_quad_eq l : digs_ok l -> length l = 5%nat -> join_quad l = Some (vl l 1 4).
Proof.
  intros Hl L. unfold join_quad. rewrite !rd_eq by lia. cbn [mbind option_bind vl Nat.add].
  pose proof (fun i => digs_at l i Hl) as H.
  rewrite !COMBINE_eq by apply H. rewrite join32.
  - f_equal. rewrite B_val. lia.
  - pose proof (H 3%nat). pose proof (H 4%nat). rewrite B_val in *. lia.
Qed.

Lemma split_quad_eq j x : dig j -> 0 <= x < 2 ^ 64 ->
  digs_ok (split_quad j x) /\ vl (split_quad j x) 1 4 = x /\ length (split_quad j x) = 5%nat.
Proof.
  intros Hj Hx. unfold split_quad. rewrite !HHALF_div, !LHALF_mod, Z.shiftr_div_pow2 by lia.
  rewrite (u32_small (x / 2 ^ 32)) by dlia. unfold u32. split; [|split; [|done]].
  - unfold digs_ok, dig in *. rewrite B_val in *.
    repeat apply List.Forall_cons; try apply List.Forall_nil; try done; dlia.
  - cbn -[Z.div Z.modulo Z.mul Z.add]. rewrite B_val. dlia.
Qed.

Lemma norm_eq fuel : forall t d, 0 < t < B -> B / 2 <= t * 2 ^ Z.of_nat fuel -> 0 <= d ->
  exists e, norm (S fuel) t d = Some (d + e) /\ 0 <= e <= Z.of_nat fuel /\
    B / 2 <= t * 2 ^ e < B.
Proof.
  induction fuel as [|fuel IH]; intros t d Ht Hf Hd.
  - cbn [norm]. change (2 ^ Z.of_nat 0) with 1 in Hf. zcase; [lia|].
    exists 0. rewrite Z.add_0_r. split; [done|]. lia.
  - cbn [norm]. zcase.
    + rewrite Z.shiftl_mul_pow2 by lia. change (2 ^ 1) with 2.
      change (B / 2) with 32768 in *. rewrite B_val in Ht. rewrite u32_small by lia.
      destruct (IH (t * 2) (d + 1)) as (e & E & He & Hb).
      * rewrite B_val. lia.
      * rewrite Nat2Z.inj_succ, Z.pow_succ_r in Hf by lia. change (B / 2) with 32768. lia.
      * lia.
      * exists (e + 1). cbn [norm] in E. change (B / 2) with 32768 in E. rewrite E.
        split; [f_equal; lia|]. split; [lia|].
        rewrite Z.pow_add_r by lia. change (2 ^ 1) with 2. lia.
    + exists 0. rewrite Z.add_0_r. split; [done|]. lia.
Qed.

Lemma uskip_eq k : forall fuel u m uo,
  (k < fuel)%nat -> (k <= m)%nat -> (uo + k + 1 < length u)%nat ->
  (forall i, (uo < i <= uo + k)%nat -> u !!! i = 0) -> u !!! (uo + k + 1)%nat <> 0 ->
  uskip fuel u m uo = Some ((m - k)%nat, (uo + k)%nat).
Proof.
  induction k as [|k IH]; intros [|fuel] u m uo Hf Hm L Hz Hnz; try lia; cbn [uskip];
    rewrite rd_eq by lia; cbn [mbind option_bind].
  - rewrite Nat.add_0_r in *. zcase; [done|]. by rewrite Nat.sub_0_r.
  - rewrite (Hz (uo + 1)%nat) by lia. cbn [Z.eqb]. destruct m as [|m]; [lia|].
    rewrite IH; [f_equal; f_equal; lia|lia|lia|lia| |].
    + intros i Hi. apply Hz. lia.
    + by replace (uo + 1 + k + 1)%nat with (uo + S k + 1)%nat by lia.
Qed.

Lemma vskip_eq v : length v = 5%nat ->
  (exists n vo, vskip 4 v 4 0 = Some (Some (n, vo)) /\ (vo + n = 4 /\ 2 <= n)%nat /\
     (forall i, (1 <= i < 1 + vo)%nat -> v !!! i = 0) /\ v !!! (vo + 1)%nat <> 0) \/
  (vskip 4 v 4 0 = Some None /\ forall i, (1 <= i < 4)%nat -> v !!! i = 0).
Proof.
  intros L. destruct v as [|j [|a [|b [|c [|d [|]]]]]]; try done. cbn.
  destruct (Z.eqb_spec a 0) as [->|Ha]; cbn.
  2:{ left. exists 4%nat, 0%nat. split_and!; [done|lia|lia|intros; lia|done]. }
  destruct (Z.eqb_spec b 0) as [->|Hb]; cbn.
  2:{ left. exists 3%nat, 1%nat. split_and!; [done|lia|lia| |done].
      intros [|[|i]]; [lia|done|lia]. }
  destruct (Z.eqb_spec c 0) as [->|Hc]; cbn.
  2:{ left. exists 2%nat, 2%nat. split_and!; [done|lia|lia| |done].
      intros [|[|[|i]]]; [lia|done|done|lia]. }
  right. split; [done|]. intros [|[|[|[|i]]]]; [lia|done..|lia].
Qed.

Lemma first_digit (u : digits) k : (exists i, (1 <= i <= k)%nat /\ u !!! i <> 0) ->
  exists e, (e < k)%nat /\ (forall i, (0 < i <= e)%nat -> u !!! i = 0) /\ u !!! (e + 1)%nat <> 0.
Proof.
  induction k as [|k IH]; intros (i & Hi & Hnz); [lia|].
  destruct (decide (Exists (fun i => u !!! i <> 0) (seq 1 k))) as [Hex|Hno].
  - destruct IH as (e & He & A); [|exists e; split; [lia|done]].
    apply Exists_exists in Hex as (x & Hx & Hxz). apply in_seq in Hx. exists x. split; [lia|done].
  - assert (Hz : forall i, (0 < i <= k)%nat -> u !!! i = 0).
    { intros x Hx. destruct (Z.eq_dec (u !!! x) 0) as [|Hxz]; [done|]. destruct Hno.
      apply Exists_exists. exists x. split; [apply in_seq; lia|done]. }
    exists k. split; [lia|]. split; [done|]. rewrite Nat.add_1_r.
    destruct (decide (i = S k)) as [<-|]; [done|]. destruct Hnz. apply Hz. lia.
Qed.

Lemma qzero_eq i : forall q, digs_ok q -> (i <= length q)%nat ->
  exists q', qzero i q = Some q' /\ length q' = length q /\ digs_ok q' /\
    (forall j, (j < i)%nat -> q' !!! j = 0) /\ (forall j, (i <= j)%nat -> q' !!! j = q !!! j).
Proof.
  induction i as [|i IH]; intros q Hq L; cbn [qzero].
  - exists q. split_and!; try done. intros; lia.
  - rewrite wr_eq by (done || lia). cbn [mbind option_bind].
    destruct (IH (<[i := 0]> q)) as (q' & -> & A1 & A2 & A3 & A4);
      [by apply digs_insert|rewrite length_insert; lia|].
    exists q'. rewrite A1, length_insert. split_and!; [done..| |].
    + intros j Hj. destruct (decide (j = i)) as [->|]; [|apply A3; lia].
      rewrite A4, tl_insert, decide_True by (lia || done). done.
    + intros j Hj. rewrite A4, tl_insert by lia. case_decide; [lia|done].
Qed.

Lemma short_div_eq u t : digs_ok u -> length u = 5%nat -> 0 < t < B ->
  short_div u t = Some (vl u 1 4 / t, vl u 1 4 mod t).
Proof.
  intros Hu L Ht. unfold short_div. rewrite !rd_eq by lia. cbn [mbind option_bind vl Nat.add].
  pose proof (digs_at u 1 Hu) as H1. pose proof (digs_at u 2 Hu) as H2.
  pose proof (digs_at u 3 Hu) as H3. pose proof (digs_at u 4 Hu) as H4.
  set (a := u !!! 1%nat) in *. set (b := u !!! 2%nat) in *.
  set (c := u !!! 3%nat) in *. set (d := u !!! 4%nat) in *. clearbody a b c d. clear Hu L.
  assert (Hstep : forall r x, 0 <= r < t -> 0 <= x < B ->
    COMBINE r x = r * B + x /\ u16 ((r * B + x) / t) = (r * B + x) / t /\
    0 <= (r * B + x) / t < B /\ 0 <= (r * B + x) mod t < t /\
    r * B + x = t * ((r * B + x) / t) + (r * B + x) mod t).
  { intros r x Hr Hx. assert (0 <= (r * B + x) / t < B).
    { split; [apply Z.div_pos; rewrite B_val in *; lia|].
      apply Z.div_lt_upper_bound; rewrite B_val in *; nia. }
    split_and!; try lia; [apply COMBINE_eq; lia|apply u16_small; exact H|
      apply Z.mod_pos_bound; lia..|apply Z.div_mod; lia]. }
  destruct (Hstep 0 a) as (_ & A0 & A1 & R1 & E1); [lia|done|].
  rewrite Z.mul_0_l, Z.add_0_l in A0, A1, R1, E1. rewrite A0.
  set (q1 := a / t) in *. set (r1 := a mod t) in *.
  destruct (Hstep r1 b) as (-> & -> & A2 & R2 & E2); [done..|].
  set (q2 := (r1 * B + b) / t) in *. set (r2 := (r1 * B + b) mod t) in *.
  destruct (Hstep r2 c) as (-> & -> & A3 & R3 & E3); [done..|].
  set (q3 := (r2 * B + c) / t) in *. set (r3 := (r2 * B + c) mod t) in *.
  destruct (Hstep r3 d) as (-> & -> & A4 & R4 & E4); [done..|].
  set (q4 := (r3 * B + d) / t) in *. set (r4 := (r3 * B + d) mod t) in *.
  clearbody q1 q2 q3 q4 r1 r2 r3 r4.
  rewrite !COMBINE_eq, join32 by (done || rewrite B_val in *; lia).
  assert (E : (((a * B + b) * B + c) * B + d) =
    t * ((q1 * B + q2) * 2 ^ 32 + (q3 * B + q4)) + r4).
  { change (2 ^ 32) with (B * B). rewrite E1.
    replace ((t * q1 + r1) * B + b) with (t * q1 * B + (r1 * B + b)) by ring. rewrite E2.
    replace ((t * q1 * B + (t * q2 + r2)) * B + c) with ((t * q1 * B + t * q2) * B + (r2 * B + c)) by ring.
    rewrite E3.
    replace (((t * q1 * B + t * q2) * B + (t * q3 + r3)) * B + d)
      with (((t * q1 * B + t * q2) * B + t * q3) * B + (r3 * B + d)) by ring.
    rewrite E4. ring. }
  f_equal. f_equal; [apply (Z.div_unique_pos _ _ _ r4)|
    apply (Z.mod_unique_pos _ _ ((q1 * B + q2) * 2 ^ 32 + (q3 * B + q4)))]; lia.
Qed.

(** A shift by [d], or nothing when [d = 0]. *)
Lemma shl_opt_eq l p k d : digs_ok l -> (p + k < length l)%nat -> 0 <= d < 16 ->
  l !!! p * 2 ^ d + 2 ^ d <= B ->
  exists l', (if 0 <? d then shl l p k d else Some l) = Some l' /\ frame p (p + k) l l' /\
    vl l' p (S k) = 2 ^ d * vl l p (S k).
Proof.
  intros Hl Hk Hd Hx. zcase; [by apply shl_eq|]. assert (d = 0) as -> by lia.
  exists l. split; [done|]. split; [by apply frame_refl|]. lia.
Qed.

Lemma unshift_opt_eq u p k d : digs_ok u -> (p + k < length u)%nat -> 0 <= d < 16 ->
  u !!! p = 0 ->
  exists u', (if 0 <? d then unshift k u p d else Some u) = Some u' /\
    frame p (p + k) u u' /\ u' !!! p = 0 /\ vl u' p (S k) = vl u (S p) k / 2 ^ d.
Proof.
  intros Hu L Hd Hz. assert (E : vl u p (S k) = vl u (S p) k) by (rewrite vl_top, Hz; lia).
  zcase.
  - destruct (unshift_eq k u p d) as (u' & A1 & A2 & A3 & A4); [done..|].
    exists u'. split_and!; [done..|]. rewrite A4, E. apply Z.mod_small.
    pose proof (vl_bound u (S p) k Hu).
    assert (0 < 2 ^ d) by (apply Z.pow_pos_nonneg; lia). split; [apply Z.div_pos; lia|].
    apply Z.div_lt_upper_bound; [done|]. nia.
  - assert (d = 0) as -> by lia. exists u. split; [done|]. split; [by apply frame_refl|].
    split; [done|]. rewrite E. symmetry. apply Z.div_1_r.
Qed.

(** Where the dividend starts. *)
Lemma dividend_start u v n vo : digs_ok u -> digs_ok v -> (vo + n = 4)%nat ->
  vl v 1 4 <= vl u 1 4 -> vl v 1 4 = vl v (S vo) n -> v !!! (vo + 1)%nat <> 0 -> (1 <= n)%nat ->
  exists e, (e <= vo)%nat /\ (forall i, (0 < i <= e)%nat -> u !!! i = 0) /\ u !!! (e + 1)%nat <> 0.
Proof.
  intros Hu Hv Hn Hle Ev Hnz Hn1. destruct (first_digit u (S vo)) as (e & He & A).
  - destruct (decide (Exists (fun i => u !!! i <> 0) (seq 1 (S vo)))) as [Hex|Hno].
    { apply Exists_exists in Hex as (x & Hx & Hxz). apply in_seq in Hx. exists x. split; [lia|done]. }
    exfalso. replace 4%nat with (S vo + (n - 1))%nat in Hle at 2 by lia.
    rewrite vl_skip in Hle.
    2:{ intros x Hx. destruct (Z.eq_dec (u !!! x) 0) as [|Hxz]; [done|]. destruct Hno.
        apply Exists_exists. exists x. split; [apply in_seq; lia|done]. }
    rewrite Ev in Hle. destruct n as [|n]; [lia|]. rewrite vl_top in Hle.
    replace (S n - 1)%nat with n in Hle by lia. pose proof (vl_bound u (1 + S vo) n Hu).
    pose proof (vl_bound v (S (S vo)) n Hv). pose proof (digs_at v (vo + 1) Hv).
    rewrite Nat.add_1_r in *. nia.
  - exists e. split; [lia|done].
Qed.

Lemma scaled_division u v q r d : 0 < d -> 0 < v -> d * u = q * (d * v) + r -> 0 <= r < d * v ->
  q = u / v /\ r / d = u mod v.
Proof.
  intros Hd Hv E Hr. assert (Er : r = d * (u - q * v)) by lia.
  assert (0 <= u - q * v < v) by nia. rewrite Er, (Z.mul_comm d), Z.div_mul by lia.
  split; [apply (Z.div_unique_pos _ _ _ (u - q * v))|apply (Z.mod_unique_pos _ _ q)]; lia.
Qed.

(** The first window, of the [n] top digits of the shifted dividend, is below the shifted
    divisor. *)
Lemma top_window u u1 v uo vo m n d : digs_ok u -> digs_ok u1 -> digs_ok v -> (2 <= n)%nat ->
  0 < 2 ^ d -> u !!! uo = 0 -> v !!! (S vo) <> 0 ->
  vl u1 uo (S (m + n)) = 2 ^ d * vl u uo (S (m + n)) -> vl u1 uo n < 2 ^ d * vl v (S vo) n.
Proof.
  intros Hu Hu1 Hv Hn H2d Hz Hnz Vu. destruct n as [|n']; [lia|].
  assert (L1 : vl u1 uo (S n') * B ^ Z.of_nat (S m) <= vl u1 uo (S (m + S n'))).
  { replace (S (m + S n')) with (S n' + S m)%nat by lia. rewrite vl_app.
    pose proof (vl_bound u1 (uo + S n') (S m) Hu1). lia. }
  assert (L2 : vl u uo (S (m + S n')) < B ^ Z.of_nat n' * B ^ Z.of_nat (S m)).
  { rewrite vl_top, Hz. pose proof (vl_bound u (S uo) (m + S n') Hu) as Hb2.
    rewrite <- Z.pow_add_r by lia. replace (Z.of_nat n' + Z.of_nat (S m)) with (Z.of_nat (m + S n')) by lia.
    lia. }
  assert (L3 : B ^ Z.of_nat n' <= vl v (S vo) (S n')).
  { rewrite vl_top. pose proof (digs_at v (S vo) Hv).
    pose proof (vl_bound v (S (S vo)) n' Hv). pose proof (Bpow_pos n'). nia. }
  pose proof (Bpow_pos (S m)). rewrite Vu in L1.
  apply (Z.mul_lt_mono_pos_r (B ^ Z.of_nat (S m))); [done|].
  apply (Z.le_lt_trans _ _ _ L1). rewrite <- (Z.mul_assoc (2 ^ d)).
  apply Z.mul_lt_mono_pos_l; [done|]. apply (Z.lt_le_trans _ _ _ L2).
  apply Z.mul_le_mono_nonneg_r; lia.
Qed.

(** D1: the shift that makes the top digit of the divisor at least [B / 2]. *)
Lemma norm_shift t : 0 < t < B -> exists d, norm 17 t 0 = Some d /\ 0 <= d < 16 /\
  0 < 2 ^ d <= B /\ B / 2 <= t * 2 ^ d /\ t * 2 ^ d + 2 ^ d <= B.
Proof.
  intros Ht. destruct (norm_eq 16 t 0) as (d & Ed & Hd & Hb); [lia| |lia|].
  { change (B / 2) with 32768. change (2 ^ Z.of_nat 16) with 65536. lia. }
  assert (Hd16 : 0 <= d < 16).
  { split; [lia|]. destruct (Z.eq_dec d 16) as [->|]; [|lia]. rewrite B_val in Hb.
    change (2 ^ 16) with 65536 in Hb. lia. }
  assert (H2d : 0 < 2 ^ d) by (apply Z.pow_pos_nonneg; lia).
  exists d. split_and!; [done|lia|lia|done|unfold B; apply Z.pow_le_mono_r; lia|lia|].
  pose proof (pow_split d Hd16) as EB.
  assert (t < 2 ^ (16 - d)) by (apply (Z.mul_lt_mono_pos_l (2 ^ d)); lia). nia.
Qed.

(** Algorithm D proper, once the lengths are known. *)
Lemma knuth_d junk u v n vo m uo : dig junk -> digs_ok u -> digs_ok v ->
  length u = 5%nat -> length v = 5%nat -> (vo + n = 4 /\ uo + m = vo /\ 2 <= n)%nat ->
  (forall i, (i <= uo)%nat -> u !!! i = 0) -> v !!! (vo + 1)%nat <> 0 ->
  vl v 1 4 = vl v (S vo) n ->
  (q ← qzero (4 - m) (replicate 5 junk);
   t ← rd v (vo + 1);
   d ← norm 17 t 0;
   u ← (if 0 <? d then shl u uo (m + n) d else Some u);
   v ← (if 0 <? d then shl v (vo + 1) (n - 1) d else Some v);
   v1 ← rd v (vo + 1); v2 ← rd v (vo + 2);
   '(u, q) ← divloop (S m) n u v q uo vo (4 - m) 0 v1 v2;
   u ← (if 0 <? d then unshift n u (uo + m) d else Some u);
   r ← join_quad u;
   x ← join_quad q;
   Some (x, r)) = Some (vl u 1 4 / vl v 1 4, vl u 1 4 mod vl v 1 4).
Proof.
  intros Hj Hu Hv Lu Lv (Hn & Hm & Hn2) Hz Hnz Ev.
  destruct (qzero_eq (4 - m) (replicate 5 junk)) as (q0 & -> & Lq0 & Hq0 & Zq0 & _);
    [by apply Forall_replicate|rewrite length_replicate; lia|].
  rewrite length_replicate in Lq0. cbn [mbind option_bind]. rewrite rd_eq by lia.
  cbn [mbind option_bind]. set (t := v !!! (vo + 1)%nat) in *.
  assert (Ht : 0 <= t < B) by (by apply digs_at).
  destruct (norm_shift t) as (d & -> & Hd16 & [H2d H2B] & Hb & Hmul); [lia|].
  cbn [mbind option_bind].
  destruct (shl_opt_eq u uo (m + n) d) as (u1 & -> & Fu & Vu); [done|lia|done|rewrite Hz by lia; lia|].
  cbn [mbind option_bind].
  destruct (shl_opt_eq v (vo + 1) (n - 1) d) as (v1 & -> & Fv & Vv); [done|lia|done|done|].
  cbn [mbind option_bind]. replace (S (n - 1)) with n in Vv by lia. rewrite Nat.add_1_r in Vv at 1 2.
  pose proof (proj1 Fv) as Lv1. rewrite Lv in Lv1.
  rewrite !rd_eq by lia. cbn [mbind option_bind].
  assert (Hnorm : B / 2 <= v1 !!! (vo + 1)%nat).
  { destruct n as [|n]; [lia|]. rewrite !vl_top, <- Nat.add_1_r in Vv.
    pose proof (vl_bound v1 (S (vo + 1)) n (proj1 (proj2 Fv))).
    pose proof (vl_bound v (S (vo + 1)) n Hv). pose proof (Bpow_pos n). fold t in Vv. nia. }
  assert (EU : vl u 1 4 = vl u uo (S (m + n))).
  { assert (E5 : vl u 0 5 = vl u 1 4) by (rewrite (vl_top u 0 4), (Hz 0%nat) by lia; lia).
    rewrite <- E5. replace 5%nat with (uo + S (m + n))%nat by lia.
    apply vl_skip. intros i Hi. apply Hz. lia. }
  assert (HV1 : 0 < vl v (S vo) n).
  { destruct n as [|n']; [lia|]. rewrite vl_top, <- (Nat.add_1_r vo). fold t.
    pose proof (vl_bound v (S (vo + 1)) n' Hv). pose proof (Bpow_pos n'). nia. }
  assert (Hlt : vl u1 uo n < vl v1 (S vo) n).
  { rewrite Vv. apply (top_window u u1 v uo vo m n d); try done; [apply Fu|apply Hz; lia|].
    by rewrite <- Nat.add_1_r. }
  destruct (divloop_eq n v1 vo) with (uo := uo) (qo := (4 - m)%nat) (k := S m) (u := u1) (q := q0) (j := 0%nat)
    as (u2 & q1 & -> & Lu2 & Hu2 & Lq1 & Hq1 & A5 & A6 & A7 & A8 & A9);
    [done|apply Fv|lia|done|apply Fu|done|rewrite (proj1 Fu); lia|lia|by rewrite Nat.add_0_r|].
  cbn [mbind option_bind]. rewrite !Nat.add_0_r in *.
  assert (Lu25 : length u2 = 5%nat) by (rewrite Lu2, (proj1 Fu); done).
  destruct (unshift_opt_eq u2 (uo + m) n d) as (u3 & -> & F3 & Z3 & V3); [done|lia|done|apply A7; lia|].
  cbn [mbind option_bind].
  rewrite (join_quad_eq u3) by (apply F3 || (rewrite (proj1 F3); done)). cbn [mbind option_bind].
  rewrite (join_quad_eq q1) by (done || lia). cbn [mbind option_bind].
  replace (S m + n)%nat with (S (m + n)) in A8 by lia. rewrite Vu, <- EU, Vv, <- Ev in A8.
  rewrite Vv, <- Ev in A9. rewrite <- Ev in HV1.
  destruct (scaled_division (vl u 1 4) (vl v 1 4) (vl q1 (4 - m) (S m)) (vl u2 (uo + S m) n) (2 ^ d))
    as [EQ ER]; [done|done|lia|split; [by apply vl_bound|done]|].
  f_equal. f_equal.
  - rewrite <- EQ. assert (E5 : vl q1 0 5 = vl q1 1 4).
    { rewrite (vl_top q1 0 4), A6, Zq0 by lia. lia. }
    rewrite <- E5. replace 5%nat with (4 - m + S m)%nat by lia.
    apply vl_skip. intros i Hi. rewrite A6, Zq0 by lia. done.
  - rewrite <- ER. replace (uo + S m)%nat with (S (uo + m)) in * by lia. rewrite <- V3.
    assert (Hz3 : forall i, (i <= uo + m)%nat -> u3 !!! i = 0).
    { intros i Hi. destruct (decide (i = uo + m)%nat) as [->|]; [done|].
      rewrite (proj2 (proj2 F3)) by lia. destruct (decide (uo <= i)%nat); [apply A7; lia|].
      rewrite A5, (proj2 (proj2 Fu)) by lia. apply Hz. lia. }
    assert (E5 : vl u3 0 5 = vl u3 1 4) by (rewrite (vl_top u3 0 4), Hz3 by lia; lia).
    rewrite <- E5. replace 5%nat with (uo + m + S n)%nat by lia.
    apply (vl_skip u3 0 (uo + m) (S n)). intros i Hi. apply Hz3. lia.
Qed.

Lemma qdivrem_eq junk uq vq : dig junk -> 0 <= uq < 2 ^ 64 -> 0 < vq < 2 ^ 64 ->
  qdivrem junk uq vq = Some (uq / vq, uq mod vq).
Proof.
  intros Hj Hu Hv. unfold qdivrem. destruct (Z.eqb_spec vq 0) as [|Hv0]; [lia|].
  destruct (Z.ltb_spec uq vq).
  { rewrite Z.div_small, Z.mod_small by lia. done. }
  destruct (split_quad_eq 0 uq) as (Du & Vu & Lu); [done|lia|].
  destruct (split_quad_eq junk vq) as (Dv & Vv & Lv); [done|lia|].
  assert (U0 : split_quad 0 uq !!! 0%nat = 0) by done.
  set (u := split_quad 0 uq) in *. set (v := split_quad junk vq) in *. clearbody u v.
  destruct (vskip_eq v Lv) as [(n & vo & -> & [Hn Hn2] & Hz & Hnz)|[-> Hz]]; cbn [mbind option_bind].
  - assert (Ev : vl v 1 4 = vl v (S vo) n).
    { replace 4%nat with (vo + n)%nat by lia. by apply vl_skip. }
    destruct (dividend_start u v n vo) as (e & He & Hez & Henz); [done..|lia|done|done|lia|].
    rewrite (uskip_eq e) by (done || lia). cbn [mbind option_bind].
    rewrite Nat.add_0_l, <- Vu, <- Vv. apply (knuth_d junk u v n vo (4 - n - e) e); try done; [lia|].
    intros i Hi. destruct i; [done|apply Hez; lia].
  - rewrite rd_eq by lia. cbn [mbind option_bind].
    assert (Et : v !!! 4%nat = vq).
    { rewrite <- Vv. change 4%nat with (3 + 1)%nat at 2. rewrite vl_skip; [|intros; apply Hz; lia].
      cbn. lia. }
    pose proof (digs_at v 4 Dv). rewrite short_div_eq, Et, Vu by (done || lia). done.
Qed.

(** C21: The 64-bit division routines of the 32-bit machines divide: for every dividend
    and every divisor other than zero, whatever the uninitialised digits of its arrays
    hold, [__qdivrem] returns the quotient and the remainder without reading or writing
    outside its arrays; so do [__udivdi3] and [__umoddi3], and [__divdi3] and [__moddi3]
    return the quotient and the remainder truncated towards zero (wrapped only for
    the least integer divided by -1). *)
Theorem qdivrem_divides (junk : Z) : 0 <= junk < B ->
  (forall uq vq, 0 <= uq < 2 ^ 64 -> 0 < vq < 2 ^ 64 ->
     qdivrem junk uq vq = Some (uq / vq, uq mod vq) /\
     udivdi3 junk uq vq = Some (uq / vq) /\ umoddi3 junk uq vq = Some (uq mod vq)) /\
  (forall a b, - 2 ^ 63 <= a < 2 ^ 63 -> - 2 ^ 63 <= b < 2 ^ 63 -> b <> 0 ->
     divdi3 junk a b = Some (s64 (a ÷ b)) /\ moddi3 junk a b = Some (Z.rem a b)).
Proof.
  intros Hj. split.
  { intros uq vq Hu Hv. unfold udivdi3, umoddi3. by rewrite qdivrem_eq. }
  intros a b Ha Hb Hnz. unfold divdi3, moddi3, udivdi3, umoddi3.
  assert (Habs : forall x, - 2 ^ 63 <= x < 2 ^ 63 -> x < 0 -> u64 (- u64 x) = - x).
  { intros x Hx Hn. unfold u64. rewrite <- (Z.mod_unique_pos x (2 ^ 64) (-1) (x + 2 ^ 64)) by lia.
    symmetry. apply (Z.mod_unique_pos _ _ (-1)); lia. }
  assert (Hneg : forall x, s64 (u64 (- x)) = s64 (- x)).
  { intros x. unfold s64, u64. by rewrite Zplus_mod_idemp_l. }
  assert (Hr : - 2 ^ 63 <= Z.rem a b < 2 ^ 63) by (pose proof (Z.rem_bound_abs a b Hnz); lia).
  destruct (Z.ltb_spec a 0), (Z.ltb_spec b 0); rewrite ?Habs by done;
    rewrite qdivrem_eq by (done || lia); cbn [negb fmap option_fmap option_map fst snd mbind option_bind];
    rewrite ?Hneg, <- Z.quot_div_nonneg, <- Z.rem_mod_nonneg by lia;
    rewrite ?Z.quot_opp_l, ?Z.quot_opp_r, ?Z.rem_opp_l, ?Z.rem_opp_r, ?Z.opp_involutive by lia;
    rewrite ?(s64_small (Z.rem _ _)) by done; done.
Qed.

Lemma qdivrem_divides_witness :
  qdivrem 7 (2 ^ 64 - 1) (2 ^ 33 + 12345) = Some (2147480561, 6480559958) /\
  moddi3 7 (-7) 2 = Some (-1).
Proof.
  destruct (qdivrem_divides 7) as [H1 H2]; [split; (reflexivity || discriminate)|]. split.
  - destruct (H1 (2 ^ 64 - 1) (2 ^ 33 + 12345)) as [E _];
      [split; (reflexivity || discriminate)..|]. rewrite E. vm_compute. reflexivity.
  - destruct (H2 (-7) 2) as [_ E]; [split; (reflexivity || discriminate)..|discriminate|]. exact E.
Defined.
