(* ===== verification/Utf.v ===== *)
(** * Utf: partition names (sbin/fgdisk/gpt.c)

    [utf16_to_utf8] and [utf8_to_utf16], over the two arrays each is given: the array it
    reads and the array it fills.  [None] is an access outside one of them.  A unit of a
    UTF-16 array is its value in the host's order ([le16toh], [htole16]).

    They are compared with reference encoders, [utf8] and [utf16], of a code point. *)
From Stdlib Require Import ZArith Lia.
From stdpp Require Import base list option.
From S2P Require Import Prelude.
Open Scope Z_scope.

(** ** The code *)

(** [a[i]], and [a[i] = x] with [x] already cut to the width of an element. *)
Definition aget (a : list Z) (i : nat) : option Z := a !! i.
Definition aset (a : list Z) (i : nat) (x : Z) : option (list Z) :=
  if decide (i < length a)%nat then Some (<[i := x]> a) else None.

(** [while (s[n++] != 0);] *)
Fixpoint len_loop (fuel : nat) (s : list Z) (n : nat) : option nat :=
  match fuel with
  | O => None
  | S fuel => x ← aget s n; if negb (x =? 0) then len_loop fuel s (n + 1) else Some (n + 1)%nat
  end.

(** The character at [s16idx], and the index after it. *)
Definition next16 (s16 : list Z) (s16idx : nat) : option (Z * nat) :=
  utfchar ← aget s16 s16idx;
  let s16idx := (s16idx + 1)%nat in
  if Z.land utfchar 0xf800 =? 0xd800 then
    c ← aget s16 s16idx;
    if negb (Z.land utfchar 0x400 =? 0) || negb (Z.land c 0xfc00 =? 0xdc00)
    then Some (0xfffd, s16idx)
    else Some (utfchar, (s16idx + 1)%nat)
  else Some (utfchar, s16idx).

(** Storing a run of bytes, one after another. *)
Fixpoint aputs (a : list Z) (i : nat) (l : list Z) : option (list Z) :=
  match l with
  | [] => Some a
  | x :: l => a ← aset a i x; aputs a (i + 1) l
  end.

(** The bytes stored for a character: the branches on [utfchar]. *)
Definition bytes8 (utfchar : Z) : list Z :=
  if utfchar <? 0x80 then [u8 utfchar]
  else if utfchar <? 0x800 then
    [u8 (Z.lor 0xc0 (Z.shiftr utfchar 6)); u8 (Z.lor 0x80 (Z.land utfchar 0x3f))]
  else if utfchar <? 0x10000 then
    [u8 (Z.lor 0xe0 (Z.shiftr utfchar 12)); u8 (Z.lor 0x80 (Z.land (Z.shiftr utfchar 6) 0x3f));
     u8 (Z.lor 0x80 (Z.land utfchar 0x3f))]
  else if utfchar <? 0x200000 then
    [u8 (Z.lor 0xf0 (Z.shiftr utfchar 18)); u8 (Z.lor 0x80 (Z.land (Z.shiftr utfchar 12) 0x3f));
     u8 (Z.lor 0x80 (Z.land (Z.shiftr utfchar 6) 0x3f)); u8 (Z.lor 0x80 (Z.land utfchar 0x3f))]
  else [].

(** [while (s16idx < s16len) ...]; the character that does not fit leaves the loop. *)
Fixpoint to8_loop (fuel : nat) (s16 : list Z) (s16len s16idx : nat)
    (s8 : list Z) (s8len s8idx : nat) : option (list Z * nat) :=
  match fuel with
  | O => None
  | S fuel =>
    if decide (s16idx < s16len)%nat then
      '(utfchar, s16idx) ← next16 s16 s16idx;
      let b := bytes8 utfchar in
      if decide (b <> [] /\ s8len <= s8idx + length b)%nat then Some (s8, s8idx)
      else
        s8 ← aputs s8 s8idx b;
        to8_loop fuel s16 s16len s16idx s8 s8len (s8idx + length b)
    else Some (s8, s8idx)
  end.

Definition utf16_to_utf8 (s16 s8 : list Z) (s8len : nat) : option (list Z) :=
  s16len ← len_loop (S (length s16)) s16 0;
  '(s8, s8idx) ← to8_loop (S s16len) s16 s16len 0 s8 s8len 0;
  aset s8 s8idx 0.

(** The state of the loop of [utf8_to_utf16]: the output, and the character so far. *)
Record u16st := { o16 : list Z; o16idx : nat; utfchar : Z; utfbytes : Z }.

(** [s16[s16idx++] = x; if (s16idx == s16len) { s16[--s16idx] = 0; return; }]: the flag says
    that the function returned. *)
Definition put16 (s16 : list Z) (s16idx s16len : nat) (x : Z) : option (list Z * nat * bool) :=
  s16 ← aset s16 s16idx (u16 x);
  let s16idx := (s16idx + 1)%nat in
  if decide (s16idx = s16len) then
    s16 ← aset s16 (s16idx - 1) 0; Some (s16, (s16idx - 1)%nat, true)
  else Some (s16, s16idx, false).

(** An initial byte: what it says of the character. *)
Definition lead8 (c : Z) : Z * Z :=
  if Z.land c 0xf8 =? 0xf0 then (Z.land c 0x07, 3)
  else if Z.land c 0xf0 =? 0xe0 then (Z.land c 0x0f, 2)
  else if Z.land c 0xe0 =? 0xc0 then (Z.land c 0x1f, 1)
  else (Z.land c 0x7f, 0).

(** The first half of the body: the byte [c] read into the character. *)
Definition read8 (c : Z) (s16len : nat) (st : u16st) : option (u16st * bool) :=
  if negb (Z.land c 0xc0 =? 0x80) then
    '(s16, i, ret) ← (if negb (utfbytes st =? 0) then put16 (o16 st) (o16idx st) s16len 0xfffd
                      else Some (o16 st, o16idx st, false));
    if ret : bool then Some ({| o16 := s16; o16idx := i; utfchar := utfchar st; utfbytes := utfbytes st |}, true)
    else
      let '(ch, n) := lead8 c in
      Some ({| o16 := s16; o16idx := i; utfchar := ch; utfbytes := n |}, false)
  else if 0 <? utfbytes st then
    Some ({| o16 := o16 st; o16idx := o16idx st;
             utfchar := u32 (u32 (Z.shiftl (utfchar st) 6) + Z.land c 0x3f);
             utfbytes := utfbytes st - 1 |}, false)
  else
    Some ({| o16 := o16 st; o16idx := o16idx st; utfchar := utfchar st; utfbytes := 2 ^ 32 - 1 |}, false).

(** The second half: a complete character is stored. *)
Definition store16 (s16len : nat) (st : u16st) : option (u16st * bool) :=
  if utfbytes st =? 0 then
    let ch := if (0x10000 <=? utfchar st) && bool_decide (s16len <= o16idx st + 2)%nat
              then 0xfffd else utfchar st in
    '(s16, i, ret) ←
      (if 0x10000 <=? ch then
         s16 ← aset (o16 st) (o16idx st) (u16 (Z.lor 0xd800 (u32 (Z.shiftr ch 10 - 0x40))));
         put16 s16 (o16idx st + 1) s16len (Z.lor 0xdc00 (Z.land ch 0x3ff))
       else put16 (o16 st) (o16idx st) s16len ch);
    Some ({| o16 := s16; o16idx := i; utfchar := ch; utfbytes := 0 |}, ret)
  else Some (st, false).

(** [do { c = s8[s8idx++]; ... } while (c != 0);] *)
Fixpoint to16_loop (fuel : nat) (s8 : list Z) (s8idx s16len : nat) (st : u16st) : option (list Z) :=
  match fuel with
  | O => None
  | S fuel =>
    c ← aget s8 s8idx;
    '(st, ret) ← read8 c s16len st;
    if ret : bool then Some (o16 st)
    else
      '(st, ret) ← store16 s16len st;
      if ret : bool then Some (o16 st)
      else if negb (c =? 0) then to16_loop fuel s8 (s8idx + 1) s16len st
      else Some (o16 st)
  end.

Definition utf8_to_utf16 (s8 s16 : list Z) (s16len : nat) : option (list Z) :=
  s8len ← len_loop (S (length s8)) s8 0;
  to16_loop s8len s8 0 s16len {| o16 := s16; o16idx := 0; utfchar := 0; utfbytes := 0 |}.

(** ** The reference encodings *)
Definition utf8 (c : Z) : list Z :=
  if c <? 0x80 then [c]
  else if c <? 0x800 then [0xc0 + c / 64; 0x80 + c mod 64]
  else if c <? 0x10000 then [0xe0 + c / 4096; 0x80 + c / 64 mod 64; 0x80 + c mod 64]
  else [0xf0 + c / 262144; 0x80 + c / 4096 mod 64; 0x80 + c / 64 mod 64; 0x80 + c mod 64].

Definition utf16 (c : Z) : list Z :=
  if c <? 0x10000 then [c]
  else [0xd800 + (c - 0x10000) / 1024; 0xdc00 + (c - 0x10000) mod 1024].

(** A character that can be part of a name. *)
Definition scalar (c : Z) : Prop := 0 < c < 0xd800 \/ 0xe000 <= c < 0x110000.
Definition bmp (c : Z) : Prop := 0 < c < 0xd800 \/ 0xe000 <= c < 0x10000.

Example utf_e1 : utf8_to_utf16 (utf8 0x41 ++ utf8 0x3b1 ++ utf8 0x20ac ++ utf8 0x1f600 ++ [0]) (replicate 8 7) 8
  = Some (utf16 0x41 ++ utf16 0x3b1 ++ utf16 0x20ac ++ utf16 0x1f600 ++ [0; 7; 7]).
Proof. vm_compute. reflexivity. Qed.
Example utf_e2 : utf16_to_utf8 (utf16 0x41 ++ utf16 0x3b1 ++ utf16 0x20ac ++ [0]) (replicate 9 7) 9
  = Some (utf8 0x41 ++ utf8 0x3b1 ++ utf8 0x20ac ++ [0; 0; 7]).
Proof. vm_compute. reflexivity. Qed.
Example utf_e3 : utf16_to_utf8 (utf16 0x1f600 ++ [0]) (replicate 6 7) 6 = Some [0xed; 0xa0; 0xbd; 0; 0; 7].
Proof. vm_compute. reflexivity. Qed.

(** ** Arrays filled from the left *)

(** [a] with its first elements overwritten by [d]. *)
Definition filled (d a : list Z) : list Z := d ++ drop (length d) a.

Lemma length_filled d a : (length d <= length a)%nat -> length (filled d a) = length a.
Proof. intros. unfold filled. rewrite length_app, length_drop. lia. Qed.

Lemma aset_filled d a x : (length d < length a)%nat ->
  aset (filled d a) (length d) x = Some (filled (d ++ [x]) a).
Proof.
  intros H. unfold aset. rewrite decide_True by (rewrite length_filled; lia).
  f_equal. unfold filled. rewrite insert_app_r_alt, Nat.sub_diag by lia.
  destruct (drop (length d) a) as [|y r] eqn:E.
  { apply (f_equal length) in E. rewrite length_drop in E. cbn in E. lia. }
  cbn. rewrite length_app, <- app_assoc. cbn. f_equal. f_equal.
  rewrite Nat.add_1_r. change (S (length d)) with (1 + length d)%nat. rewrite Nat.add_comm.
  rewrite <- drop_drop, E. done.
Qed.

Lemma aputs_filled l : forall d a, (length d + length l <= length a)%nat ->
  aputs (filled d a) (length d) l = Some (filled (d ++ l) a).
Proof.
  induction l as [|x l IH]; intros d a H; cbn [aputs].
  - by rewrite app_nil_r.
  - cbn in H. rewrite aset_filled by lia. cbn [mbind option_bind].
    replace (length d + 1)%nat with (length (d ++ [x])) by (rewrite length_app; cbn; lia).
    rewrite IH by (rewrite length_app; cbn; lia). by rewrite <- app_assoc.
Qed.

Lemma aget_app l x r i : i = length l -> aget (l ++ x :: r) i = Some x.
Proof. intros ->. apply list_lookup_middle. done. Qed.

Lemma len_loop_eq l r : forall fuel d, Forall (fun x => x <> 0) l -> (length l < fuel)%nat ->
  len_loop fuel (d ++ l ++ 0 :: r) (length d) = Some (length d + length l + 1)%nat.
Proof.
  induction l as [|x l IH]; intros [|fuel] d Hl Hf; cbn in Hf; try lia; cbn [len_loop app].
  - rewrite aget_app by done. cbn. f_equal. lia.
  - rewrite aget_app by done. cbn [mbind option_bind].
    apply Forall_cons_1 in Hl as [Hx Hl]. destruct (Z.eqb_spec x 0); [done|]. cbn [negb].
    replace (length d + 1)%nat with (length (d ++ [x])) by (rewrite length_app; cbn; lia).
    change (x :: l ++ 0 :: r) with ([x] ++ (l ++ 0 :: r)). rewrite app_assoc.
    rewrite IH by (done || lia). rewrite length_app. cbn. f_equal. lia.
Qed.

(** ** Bit fields of characters and bytes *)
Lemma land_f800 x : Z.land x 0xf800 = 2048 * (x / 2048 mod 32).
Proof. exact (land_field x 11 16 ltac:(lia)). Qed.
Lemma land_fc00 x : Z.land x 0xfc00 = 1024 * (x / 1024 mod 64).
Proof. exact (land_field x 10 16 ltac:(lia)). Qed.
Lemma land_400 x : Z.land x 0x400 = 1024 * (x / 1024 mod 2).
Proof. exact (land_field x 10 11 ltac:(lia)). Qed.
Lemma land_c0 x : Z.land x 0xc0 = 64 * (x / 64 mod 4).
Proof. exact (land_field x 6 8 ltac:(lia)). Qed.
Lemma land_f8 x : Z.land x 0xf8 = 8 * (x / 8 mod 32).
Proof. exact (land_field x 3 8 ltac:(lia)). Qed.
Lemma land_f0 x : Z.land x 0xf0 = 16 * (x / 16 mod 16).
Proof. exact (land_field x 4 8 ltac:(lia)). Qed.
Lemma land_e0 x : Z.land x 0xe0 = 32 * (x / 32 mod 8).
Proof. exact (land_field x 5 8 ltac:(lia)). Qed.
Lemma land_3f x : Z.land x 0x3f = x mod 64.
Proof. exact (land_low x 6 ltac:(lia)). Qed.

(** The bytes the code computes are the UTF-8 encoding, also of a surrogate. *)
Lemma bytes8_utf8 c : 0 <= c < 0x110000 -> bytes8 c = utf8 c.
Proof.
  intros Hc. unfold bytes8, utf8. rewrite !land_3f, !Z.shiftr_div_pow2 by lia.
  change (2 ^ 6) with 64. change (2 ^ 12) with 4096. change (2 ^ 18) with 262144.
  assert (L6 : forall x, 0 <= x < 64 -> Z.lor 0x80 x = 0x80 + x) by (intros; by apply (lor_add 2 x 6)).
  repeat zcase; try lia.
  - rewrite u8_small by lia. done.
  - rewrite L6 by dlia. change 0xc0 with (6 * 2 ^ 5) at 1. rewrite lor_add by dlia.
    rewrite !u8_small by dlia. done.
  - rewrite !L6 by dlia. change 0xe0 with (14 * 2 ^ 4) at 1. rewrite lor_add by dlia.
    rewrite !u8_small by dlia. done.
  - rewrite !L6 by dlia. change 0xf0 with (30 * 2 ^ 3) at 1. rewrite lor_add by dlia.
    rewrite !u8_small by dlia. done.
Qed.

Lemma utf8_length c : (1 <= length (utf8 c) <= 4)%nat.
Proof. unfold utf8. repeat case_match; cbn; lia. Qed.

Lemma utf8_nonzero c : 0 < c < 0x110000 -> Forall (fun x => x <> 0) (utf8 c).
Proof.
  intros Hc. unfold utf8. repeat zcase; repeat apply List.Forall_cons; try apply List.Forall_nil; dlia.
Qed.

(** ** From UTF-16 to UTF-8 *)

(** The characters the code sees: what is not a pair is replaced, and of a pair the high
    surrogate is taken. *)
Definition high (u : Z) : bool := (0xd800 <=? u) && (u <? 0xdc00).
Definition low (u : Z) : bool := (0xdc00 <=? u) && (u <? 0xe000).

Fixpoint chars16 (l : list Z) : list Z :=
  match l with
  | [] => []
  | u :: r =>
    if high u then
      match r with
      | v :: r' => if low v then u :: chars16 r' else 0xfffd :: chars16 r
      | [] => [0xfffd]
      end
    else if low u then 0xfffd :: chars16 r
    else u :: chars16 r
  end.

(** The encodings that fit, a byte being left for the NUL. *)
Fixpoint fit (room : nat) (l : list (list Z)) : list Z :=
  match l with
  | [] => []
  | e :: l => if decide (room <= length e)%nat then [] else e ++ fit (room - length e) l
  end.

Lemma surrogate_test u : 0 <= u < 0x10000 -> (Z.land u 0xf800 =? 0xd800) = high u || low u.
Proof.
  intros Hu. rewrite land_f800. unfold high, low.
  destruct (Z.eqb_spec (2048 * (u / 2048 mod 32)) 0xd800),
    (Z.leb_spec 0xd800 u), (Z.ltb_spec u 0xdc00), (Z.leb_spec 0xdc00 u), (Z.ltb_spec u 0xe000);
    cbn; try reflexivity; exfalso; dlia.
Qed.

Lemma high_test u : high u || low u = true -> negb (Z.land u 0x400 =? 0) = low u.
Proof.
  intros Hu. rewrite land_400. unfold high, low in *.
  destruct (Z.eqb_spec (1024 * (u / 1024 mod 2)) 0),
    (Z.leb_spec 0xd800 u), (Z.ltb_spec u 0xdc00), (Z.leb_spec 0xdc00 u), (Z.ltb_spec u 0xe000);
    cbn in *; try reflexivity; try discriminate; exfalso; dlia.
Qed.

Lemma low_test u : 0 <= u < 0x10000 -> (Z.land u 0xfc00 =? 0xdc00) = low u.
Proof.
  intros Hu. rewrite land_fc00. unfold low.
  destruct (Z.eqb_spec (1024 * (u / 1024 mod 64)) 0xdc00), (Z.leb_spec 0xdc00 u), (Z.ltb_spec u 0xe000);
    cbn; try reflexivity; exfalso; dlia.
Qed.

(** One character is read: what [chars16] takes off the front. *)
Lemma next16_eq d l r : Forall (fun u => 0 < u < 0x10000) l -> l <> [] ->
  exists c n, next16 (d ++ l ++ 0 :: r) (length d) = Some (c, (length d + n)%nat) /\
    (1 <= n <= length l)%nat /\ chars16 l = c :: chars16 (drop n l) /\ 0 < c < 0x10000.
Proof.
  intros Hl Hne. destruct l as [|u l]; [done|]. apply Forall_cons_1 in Hl as [Hu Hl].
  unfold next16. cbn [app]. rewrite (aget_app d u (l ++ 0 :: r) (length d)) by done.
  cbn [mbind option_bind]. rewrite surrogate_test by lia. cbn [chars16].
  assert (Hget : exists v, aget (d ++ u :: l ++ 0 :: r) (length d + 1) = Some v /\ 0 <= v < 0x10000 /\
    (match l with v' :: _ => v' = v | [] => v = 0 end)).
  { unfold aget. rewrite lookup_app_r by lia. replace (length d + 1 - length d)%nat with 1%nat by lia.
    destruct l as [|v l]; cbn; [by exists 0|]. apply Forall_cons_1 in Hl as [Hv _].
    exists v. split; [done|]. split; [lia|done]. }
  destruct Hget as (v & -> & Hv & Ev). cbn [mbind option_bind].
  destruct (high u) eqn:Eh; cbn [orb].
  - rewrite high_test, low_test by (done || (rewrite Eh; done)).
    assert (El : low u = false) by (unfold high, low in *; zbool; apply andb_false_iff; left; apply Z.leb_gt; lia).
    rewrite El. cbn [orb]. destruct l as [|v' l].
    + subst v. cbn. exists 0xfffd, 1%nat. split_and!; cbn; try lia; done.
    + subst v'. destruct (low v); cbn [negb].
      * exists u, 2%nat. split_and!; [f_equal; f_equal; lia|lia|cbn; lia|done|lia|lia].
      * exists 0xfffd, 1%nat. split_and!; cbn; try lia; done.
  - destruct (low u) eqn:El.
    + rewrite high_test by (rewrite Eh, El; done). rewrite El. cbn.
      exists 0xfffd, 1%nat. split_and!; cbn; try lia; done.
    + exists u, 1%nat. split_and!; cbn; try lia; done.
Qed.

Lemma next16_end d r : next16 (d ++ 0 :: r) (length d) = Some (0, (length d + 1)%nat).
Proof. unfold next16. by rewrite (aget_app d 0 r (length d)) by done. Qed.

Lemma to8_loop_eq a r : forall n l d fuel out s8len,
  length l = n -> Forall (fun u => 0 < u < 0x10000) l -> (n + 1 < fuel)%nat ->
  (length out < s8len <= length a)%nat ->
  exists out', to8_loop fuel (d ++ l ++ 0 :: r) (length d + length l + 1) (length d) (filled out a) s8len (length out)
    = Some (filled (out ++ out') a, length (out ++ out')) /\
    (out' = fit (s8len - length out) (map utf8 (chars16 l ++ [0]))) /\
    (length (out ++ out') < s8len)%nat.
Proof.
  intros n. induction (lt_wf n) as [n _ IH]. intros l d [|fuel] out s8len Hn Hl Hf Ho; [lia|].
  cbn [to8_loop]. rewrite decide_True by lia. destruct l as [|u l0].
  - cbn [app length]. rewrite next16_end. cbn -[aputs to8_loop decide Nat.add].
    destruct (decide (s8len <= length out + 1)%nat).
    + rewrite decide_True by done. exists []. rewrite app_nil_r. rewrite decide_True by lia. split_and!; [done|done|lia].
    + rewrite decide_False by (intros [_ ?]; lia). rewrite (aputs_filled [0]) by (cbn; lia).
      cbn [mbind option_bind]. destruct fuel as [|fuel]; [cbn in Hn; lia|]. cbn [to8_loop].
      rewrite decide_False by lia. exists [0]. rewrite decide_False by lia. rewrite length_app. cbn.
      split_and!; [done|done|lia].
  - set (l := u :: l0) in *. destruct (next16_eq d l r) as (c & k & E & Hk & Ec & Hc); [done|done|].
    rewrite E. cbn [mbind option_bind]. rewrite bytes8_utf8, Ec by lia. cbn [map app fit].
    pose proof (utf8_length c) as Hlen.
    destruct (decide (s8len <= length out + length (utf8 c))%nat) as [Hfull|Hroom].
    + rewrite decide_True.
      2:{ split; [|done]. intros E0. rewrite E0 in Hlen. cbn in Hlen. lia. }
      exists []. rewrite app_nil_r, decide_True by lia. split_and!; [done|done|lia].
    + rewrite decide_False by (intros [_ ?]; lia). rewrite aputs_filled by lia. cbn [mbind option_bind].
      assert (Es : d ++ l ++ 0 :: r = (d ++ take k l) ++ drop k l ++ 0 :: r)
        by (rewrite <- app_assoc, (app_assoc (take k l)), take_drop; done).
      assert (Ld : length (d ++ take k l) = (length d + k)%nat) by (rewrite length_app, length_take; lia).
      replace (length out + length (utf8 c))%nat with (length (out ++ utf8 c)) by (rewrite length_app; done).
      destruct (IH (n - k)%nat) with (l := drop k l) (d := d ++ take k l) (fuel := fuel)
        (out := out ++ utf8 c) (s8len := s8len) as (out' & E2 & Eo & Hlt).
      { lia. } { rewrite length_drop; lia. } { by apply Forall_drop. } { lia. }
      { rewrite length_app. lia. }
      rewrite Es, <- Ld. replace (length d + length l + 1)%nat
        with (length (d ++ take k l) + length (drop k l) + 1)%nat by (rewrite Ld, length_drop; lia).
      rewrite E2, <- !app_assoc. exists (utf8 c ++ out'). split; [done|].
      rewrite decide_False by lia. split; [|by rewrite app_assoc]. f_equal. rewrite Eo, length_app.
      f_equal. lia.
Qed.

Lemma utf16_to_utf8_eq l r a s8len :
  Forall (fun u => 0 < u < 0x10000) l -> (0 < s8len <= length a)%nat ->
  exists out, utf16_to_utf8 (l ++ 0 :: r) a s8len = Some (filled (out ++ [0]) a) /\
    out = fit s8len (map utf8 (chars16 l ++ [0])) /\ (length out < s8len)%nat.
Proof.
  intros Hl Ha. unfold utf16_to_utf8.
  assert (Hnz : Forall (fun x => x <> 0) l) by (eapply Forall_impl; [|exact Hl]; cbn; lia).
  rewrite (len_loop_eq l r _ []) by (done || (rewrite length_app; cbn; lia)). cbn [mbind option_bind length Nat.add].
  destruct (to8_loop_eq a r (length l) l [] (S (length l + 1)) [] s8len) as (out & E & Eo & Hlt);
    [done|done|lia|cbn; lia|].
  cbn [app length Nat.add] in E, Eo, Hlt. change (filled [] a) with a in E. rewrite E. cbn [mbind option_bind].
  rewrite aset_filled by lia. exists out. rewrite Eo, Nat.sub_0_r in *. done.
Qed.

(** ** From UTF-8 to UTF-16 *)

Lemma put16_eq a i n x : (i < n <= length a)%nat ->
  exists a' j r, put16 a i n x = Some (a', j, r) /\ length a' = length a /\ (j < n)%nat /\
    (r = false -> j = (i + 1)%nat /\ a' = <[i := u16 x]> a) /\ (r = true -> a' !! j = Some 0).
Proof.
  intros H. unfold put16, aset. rewrite decide_True by lia. cbn [mbind option_bind].
  destruct (decide (i + 1 = n)%nat) as [E|E].
  - rewrite decide_True by (rewrite length_insert; lia). cbn [mbind option_bind].
    eexists _, _, _. split; [done|]. rewrite !length_insert. split; [done|]. split; [lia|].
    split; [done|]. intros _. apply list_lookup_insert_eq. rewrite length_insert. lia.
  - eexists _, _, _. split; [done|]. rewrite length_insert. split; [done|]. split; [lia|]. done.
Qed.

(** The state between two bytes: there is room for a unit. *)
Definition u16_ok (len n : nat) (st : u16st) : Prop :=
  length (o16 st) = len /\ (o16idx st < n)%nat.

(** Either the function returned a terminated string, or it goes on. *)
Definition ended (len n : nat) (a : list Z) : Prop :=
  length a = len /\ exists i, (i < n)%nat /\ a !! i = Some 0.

Lemma read8_ok c n len st : u16_ok len n st -> (n <= len)%nat ->
  exists st' r, read8 c n st = Some (st', r) /\
    if r : bool then ended len n (o16 st')
    else u16_ok len n st' /\ (c = 0 -> utfbytes st' = 0 /\ utfchar st' = 0).
Proof.
  intros [HL Hi] Hn. unfold read8. destruct (negb (Z.land c 0xc0 =? 0x80)) eqn:Ec.
  - destruct (negb (utfbytes st =? 0)).
    + destruct (put16_eq (o16 st) (o16idx st) n 0xfffd) as (a & j & r & -> & La & Hj & Hf & Ht); [lia|].
      cbn [mbind option_bind]. destruct r.
      * eexists _, _. split; [done|]. cbn. split; [congruence|]. exists j. split; [lia|by apply Ht].
      * destruct (lead8 c) as [ch k] eqn:El. eexists _, _. split; [done|]. cbn. split; [split; cbn; lia|].
        intros ->. by injection El as <- <-.
    + cbn [mbind option_bind]. destruct (lead8 c) as [ch k] eqn:El.
      eexists _, _. split; [done|]. cbn. split; [split; cbn; lia|]. intros ->. by injection El as <- <-.
  - assert (c <> 0) by (intros ->; discriminate).
    destruct (0 <? utfbytes st); eexists _, _; (split; [done|]); cbn; (split; [split; cbn; lia|done]).
Qed.

Lemma store16_ok n len st : u16_ok len n st -> (n <= len)%nat ->
  exists st' r, store16 n st = Some (st', r) /\
    if r : bool then ended len n (o16 st')
    else u16_ok len n st' /\
      (utfbytes st = 0 -> utfchar st = 0 -> exists i, (i < n)%nat /\ o16 st' !! i = Some 0).
Proof.
  intros [HL Hi] Hn. unfold store16. destruct (Z.eqb_spec (utfbytes st) 0) as [Eb|Eb].
  2:{ exists st, false. split; [done|]. split; [done|]. done. }
  set (ch := if _ && _ then _ else _). destruct (Z.leb_spec 0x10000 ch) as [Hc|Hc].
  - assert (Hroom : (o16idx st + 2 < n)%nat).
    { subst ch. destruct (Z.leb_spec 0x10000 (utfchar st)), (bool_decide_reflect (n <= o16idx st + 2)%nat);
        cbn in Hc; lia. }
    unfold aset. rewrite decide_True by lia. cbn [mbind option_bind].
    match goal with |- context [put16 ?b ?i n ?x] =>
      destruct (put16_eq b i n x) as (a & j & r & -> & La & Hj & Hf & Ht) end;
      [rewrite length_insert; lia|]. rewrite length_insert in La.
    cbn [mbind option_bind]. eexists _, _. split; [done|]. cbn. destruct r.
    + split; [congruence|]. exists j. split; [lia|by apply Ht].
    + split; [split; cbn; lia|]. intros _ Ech. exfalso. subst ch. rewrite Ech in Hc. cbn in Hc. lia.
  - destruct (put16_eq (o16 st) (o16idx st) n ch) as (a & j & r & -> & La & Hj & Hf & Ht); [lia|].
    cbn [mbind option_bind]. eexists _, _. split; [done|]. cbn. destruct r.
    + split; [congruence|]. exists j. split; [lia|by apply Ht].
    + split; [split; cbn; lia|]. intros _ Ech. destruct (Hf eq_refl) as [-> ->].
      exists (o16idx st). split; [lia|]. rewrite list_lookup_insert_eq by lia. subst ch. by rewrite Ech.
Qed.

Lemma to16_loop_ok n len l r : forall k d st fuel,
  length l = k -> u16_ok len n st -> (n <= len)%nat -> (k < fuel)%nat -> Forall (fun x => x <> 0) l ->
  exists a, to16_loop fuel (d ++ l ++ 0 :: r) (length d) n st = Some a /\ ended len n a.
Proof.
  induction l as [|c l IH]; intros k d st fuel Hk Hst Hn Hf Hl; (destruct fuel as [|fuel]; [lia|]);
    cbn [app to16_loop].
  - rewrite aget_app by done. cbn [mbind option_bind].
    destruct (read8_ok 0 n len st Hst Hn) as (st1 & [|] & -> & H1); cbn [mbind option_bind]; [by exists (o16 st1)|].
    destruct H1 as [H1 H0]. destruct (H0 eq_refl) as [Hb Hc].
    destruct (store16_ok n len st1 H1 Hn) as (st2 & [|] & -> & H2); cbn [mbind option_bind]; [by exists (o16 st2)|].
    exists (o16 st2). split; [done|]. destruct H2 as [[HL Hi] He]. split; [done|]. by apply He.
  - rewrite aget_app by done. cbn [mbind option_bind]. apply Forall_cons_1 in Hl as [Hc Hl].
    destruct (read8_ok c n len st Hst Hn) as (st1 & [|] & -> & H1); cbn [mbind option_bind]; [by exists (o16 st1)|].
    destruct H1 as [H1 _].
    destruct (store16_ok n len st1 H1 Hn) as (st2 & [|] & -> & H2); cbn [mbind option_bind]; [by exists (o16 st2)|].
    destruct (Z.eqb_spec c 0); [done|]. cbn [negb].
    change (c :: l ++ 0 :: r) with ([c] ++ (l ++ 0 :: r)). rewrite app_assoc.
    replace (length d + 1)%nat with (length (d ++ [c])) by (rewrite length_app; done).
    apply (IH (length l)); try done; [apply H2|cbn in Hk; lia].
Qed.

Lemma lead8_1 c : 0 <= c < 0x80 -> lead8 c = (c, 0) /\ negb (Z.land c 0xc0 =? 0x80) = true.
Proof.
  intros Hc. unfold lead8. rewrite land_f8, land_f0, land_e0, land_c0.
  change 0x7f with (2 ^ 7 - 1). rewrite land_low by lia. change (2 ^ 7) with 128.
  rewrite (Z.mod_small c 128) by lia.
  destruct (Z.eqb_spec (8 * (c / 8 mod 32)) 240); [exfalso; dlia|].
  destruct (Z.eqb_spec (16 * (c / 16 mod 16)) 224); [exfalso; dlia|].
  destruct (Z.eqb_spec (32 * (c / 32 mod 8)) 192); [exfalso; dlia|].
  destruct (Z.eqb_spec (64 * (c / 64 mod 4)) 128); [exfalso; dlia|]. done.
Qed.

Lemma lead8_2 x : 0 <= x < 32 -> lead8 (0xc0 + x) = (x, 1) /\ negb (Z.land (0xc0 + x) 0xc0 =? 0x80) = true.
Proof.
  intros Hc. unfold lead8. rewrite land_f8, land_f0, land_e0, land_c0.
  change 0x1f with (2 ^ 5 - 1). rewrite land_low by lia. change (2 ^ 5) with 32.
  destruct (Z.eqb_spec (8 * ((192 + x) / 8 mod 32)) 240); [exfalso; dlia|].
  destruct (Z.eqb_spec (16 * ((192 + x) / 16 mod 16)) 224); [exfalso; dlia|].
  destruct (Z.eqb_spec (32 * ((192 + x) / 32 mod 8)) 192); [|exfalso; dlia].
  destruct (Z.eqb_spec (64 * ((192 + x) / 64 mod 4)) 128); [exfalso; dlia|].
  split; [f_equal; dlia|done].
Qed.

Lemma lead8_3 x : 0 <= x < 16 -> lead8 (0xe0 + x) = (x, 2) /\ negb (Z.land (0xe0 + x) 0xc0 =? 0x80) = true.
Proof.
  intros Hc. unfold lead8. rewrite land_f8, land_f0, land_c0.
  change 0x0f with (2 ^ 4 - 1). rewrite land_low by lia. change (2 ^ 4) with 16.
  destruct (Z.eqb_spec (8 * ((224 + x) / 8 mod 32)) 240); [exfalso; dlia|].
  destruct (Z.eqb_spec (16 * ((224 + x) / 16 mod 16)) 224); [|exfalso; dlia].
  destruct (Z.eqb_spec (64 * ((224 + x) / 64 mod 4)) 128); [exfalso; dlia|].
  split; [f_equal; dlia|done].
Qed.

Lemma lead8_4 x : 0 <= x < 8 -> lead8 (0xf0 + x) = (x, 3) /\ negb (Z.land (0xf0 + x) 0xc0 =? 0x80) = true.
Proof.
  intros Hc. unfold lead8. rewrite land_f8, land_c0.
  change 0x07 with (2 ^ 3 - 1). rewrite land_low by lia. change (2 ^ 3) with 8.
  destruct (Z.eqb_spec (8 * ((240 + x) / 8 mod 32)) 240); [|exfalso; dlia].
  destruct (Z.eqb_spec (64 * ((240 + x) / 64 mod 4)) 128); [exfalso; dlia|].
  split; [f_equal; dlia|done].
Qed.

Lemma read_lead b n st ch k :
  lead8 b = (ch, k) /\ negb (Z.land b 0xc0 =? 0x80) = true -> utfbytes st = 0 ->
  read8 b n st = Some ({| o16 := o16 st; o16idx := o16idx st; utfchar := ch; utfbytes := k |}, false).
Proof. intros [E1 E2] H0. unfold read8. by rewrite E2, H0, E1. Qed.

Lemma read_cont x n st : 0 <= x < 64 -> 0 < utfbytes st -> 0 <= utfchar st < 2 ^ 20 ->
  read8 (0x80 + x) n st = Some ({| o16 := o16 st; o16idx := o16idx st;
    utfchar := utfchar st * 64 + x; utfbytes := utfbytes st - 1 |}, false).
Proof.
  intros Hx Hk Hc. unfold read8. rewrite land_c0, land_3f.
  destruct (Z.eqb_spec (64 * ((128 + x) / 64 mod 4)) 0x80); [|exfalso; dlia].
  destruct (Z.ltb_spec 0 (utfbytes st)); [|lia]. cbn [negb].
  rewrite Z.shiftl_mul_pow2 by lia. change (2 ^ 6) with 64.
  replace ((0x80 + x) mod 64) with x by dlia. rewrite (u32_small (utfchar st * 64)) by lia.
  by rewrite u32_small by lia.
Qed.

Lemma store_none n st : utfbytes st <> 0 -> store16 n st = Some (st, false).
Proof. intros H. unfold store16. by destruct (Z.eqb_spec (utfbytes st) 0). Qed.

(** A complete character goes to the end of the output. *)
Lemma store_char n out a c : 0 <= c < 0x110000 -> (length out + length (utf16 c) < n <= length a)%nat ->
  store16 n {| o16 := filled out a; o16idx := length out; utfchar := c; utfbytes := 0 |} =
  Some ({| o16 := filled (out ++ utf16 c) a; o16idx := length (out ++ utf16 c); utfchar := c; utfbytes := 0 |}, false).
Proof.
  intros Hc Hroom. unfold store16, utf16 in *. cbn [utfbytes utfchar o16idx o16 Z.eqb].
  destruct (Z.leb_spec 0x10000 c), (Z.ltb_spec c 0x10000); try lia; cbn [andb length] in *.
  - rewrite bool_decide_eq_false_2 by lia. destruct (Z.leb_spec 0x10000 c); [|lia].
    set (hi := u16 (Z.lor 0xd800 _)). set (lo := Z.lor 0xdc00 _).
    assert (Ehi : hi = 0xd800 + (c - 0x10000) / 1024).
    { unfold hi. rewrite Z.shiftr_div_pow2 by lia. change (2 ^ 10) with 1024. rewrite u32_small by dlia.
      change 0xd800 with (54 * 2 ^ 10). rewrite lor_add by dlia. rewrite u16_small by dlia. dlia. }
    assert (Elo : u16 lo = 0xdc00 + (c - 0x10000) mod 1024).
    { unfold lo. change 0x3ff with (2 ^ 10 - 1). rewrite land_low by lia.
      change 0xdc00 with (55 * 2 ^ 10). rewrite (lor_add 55 _ 10) by (try apply Z.mod_pos_bound; done).
      change (2 ^ 10) with 1024. rewrite u16_small by dlia. dlia. }
    rewrite aset_filled by lia. cbn [mbind option_bind]. unfold put16. rewrite Elo, Ehi.
    replace (length out + 1)%nat with (length (out ++ [0xd800 + (c - 0x10000) / 1024])) by (rewrite length_app; done).
    rewrite aset_filled by (rewrite length_app; cbn; lia). cbn [mbind option_bind].
    rewrite decide_False by (rewrite length_app; cbn; lia). cbn [mbind option_bind].
    rewrite <- app_assoc. rewrite !length_app. cbn. do 2 f_equal. f_equal. lia.
  - destruct (Z.leb_spec 0x10000 c); [lia|]. unfold put16. rewrite u16_small by lia.
    rewrite aset_filled by lia. cbn [mbind option_bind]. rewrite decide_False by lia. cbn [mbind option_bind].
    rewrite length_app. done.
Qed.

Lemma to16_step fuel s8 i n st b st1 st2 :
  aget s8 i = Some b -> b <> 0 -> read8 b n st = Some (st1, false) -> store16 n st1 = Some (st2, false) ->
  to16_loop (S fuel) s8 i n st = to16_loop fuel s8 (i + 1) n st2.
Proof.
  intros E Hb E1 E2. cbn [to16_loop]. rewrite E. cbn [mbind option_bind]. rewrite E1. cbn [mbind option_bind].
  rewrite E2. cbn [mbind option_bind]. by destruct (Z.eqb_spec b 0).
Qed.

(** One character of the input, when there is room for its units and a NUL. *)
Lemma to16_char c d r u out a n fuel : scalar c ->
  (length out + length (utf16 c) < n <= length a)%nat ->
  to16_loop (length (utf8 c) + fuel) (d ++ utf8 c ++ r) (length d) n
    {| o16 := filled out a; o16idx := length out; utfchar := u; utfbytes := 0 |} =
  to16_loop fuel (d ++ utf8 c ++ r) (length d + length (utf8 c)) n
    {| o16 := filled (out ++ utf16 c) a; o16idx := length (out ++ utf16 c); utfchar := c; utfbytes := 0 |}.
Proof.
  intros Hs Hroom. assert (Hc : 0 < c < 0x110000) by (unfold scalar in Hs; lia).
  assert (Hget : forall j x, utf8 c !! j = Some x -> aget (d ++ utf8 c ++ r) (length d + j) = Some x).
  { intros j x E. unfold aget. rewrite lookup_app_r by lia.
    replace (length d + j - length d)%nat with j by lia. rewrite lookup_app_l; [done|].
    by apply lookup_lt_Some in E. }
  pose proof (store_char n out a c ltac:(lia) Hroom) as Hst.
  set (s8 := d ++ utf8 c ++ r) in *. clearbody s8. unfold utf8 in *.
  repeat zcase; cbn [length Nat.add] in *.
  - erewrite to16_step; [done|rewrite <- (Nat.add_0_r (length d)); by apply Hget|lia|
      by apply (read_lead _ n _ _ _ (lead8_1 c ltac:(lia)))|exact Hst].
  - set (x := c / 64) in *. set (y := c mod 64) in *.
    assert (0 <= x < 32 /\ 0 <= y < 64 /\ c = x * 64 + y) as (Hx & Hy & Ec) by (subst x y; dlia).
    erewrite to16_step; [|rewrite <- (Nat.add_0_r (length d)); by apply Hget|lia|
      by apply (read_lead _ n _ _ _ (lead8_2 x Hx))|by apply store_none].
    erewrite to16_step; [|by apply Hget|lia|by apply read_cont; cbn; lia|
      cbn; rewrite <- Ec; exact Hst]. f_equal. lia.
  - set (x := c / 4096) in *. set (y := c / 64 mod 64) in *. set (z := c mod 64) in *.
    assert (0 <= x < 16 /\ 0 <= y < 64 /\ 0 <= z < 64 /\ c = (x * 64 + y) * 64 + z) as (Hx & Hy & Hz & Ec)
      by (subst x y z; dlia).
    erewrite to16_step; [|rewrite <- (Nat.add_0_r (length d)); by apply Hget|lia|
      by apply (read_lead _ n _ _ _ (lead8_3 x Hx))|by apply store_none].
    erewrite to16_step; [|by apply Hget|lia|by apply read_cont; cbn; lia|by apply store_none].
    erewrite to16_step; [|rewrite <- Nat.add_assoc; by apply Hget|lia|by apply read_cont; cbn; lia|
      cbn; rewrite <- Ec; exact Hst]. f_equal. lia.
  - set (x := c / 262144) in *. set (w := c / 4096 mod 64) in *. set (y := c / 64 mod 64) in *. set (z := c mod 64) in *.
    assert (0 <= x < 8 /\ 0 <= w < 64 /\ 0 <= y < 64 /\ 0 <= z < 64 /\ c = ((x * 64 + w) * 64 + y) * 64 + z)
      as (Hx & Hw & Hy & Hz & Ec) by (subst x w y z; dlia).
    erewrite to16_step; [|rewrite <- (Nat.add_0_r (length d)); by apply Hget|lia|
      by apply (read_lead _ n _ _ _ (lead8_4 x Hx))|by apply store_none].
    erewrite to16_step; [|by apply Hget|lia|by apply read_cont; cbn; lia|by apply store_none].
    erewrite to16_step; [|rewrite <- Nat.add_assoc; by apply Hget|lia|by apply read_cont; cbn; lia|by apply store_none].
    erewrite to16_step; [|rewrite <- !Nat.add_assoc; by apply Hget|lia|by apply read_cont; cbn; lia|
      cbn; rewrite <- Ec; exact Hst]. f_equal. lia.
Qed.

(** A whole name. *)
Lemma to16_name cs : forall d r u out a n fuel, Forall scalar cs ->
  (length out + length (concat (map utf16 cs)) < n <= length a)%nat ->
  exists v, to16_loop (length (concat (map utf8 cs)) + fuel) (d ++ concat (map utf8 cs) ++ r) (length d) n
    {| o16 := filled out a; o16idx := length out; utfchar := u; utfbytes := 0 |} =
  to16_loop fuel (d ++ concat (map utf8 cs) ++ r) (length d + length (concat (map utf8 cs))) n
    {| o16 := filled (out ++ concat (map utf16 cs)) a; o16idx := length (out ++ concat (map utf16 cs));
       utfchar := v; utfbytes := 0 |}.
Proof.
  induction cs as [|c cs IH]; intros d r u out a n fuel Hs Hroom; cbn [map concat] in *.
  - exists u. rewrite app_nil_r, Nat.add_0_r. done.
  - apply Forall_cons_1 in Hs as [Hc Hs]. rewrite length_app in Hroom.
    rewrite <- app_assoc, !(length_app (utf8 c)), <- Nat.add_assoc.
    rewrite to16_char by (done || lia).
    destruct (IH (d ++ utf8 c) r c (out ++ utf16 c) a n fuel) as (v & E); [done|rewrite length_app; lia|].
    exists v. rewrite <- app_assoc, !(length_app d), <- Nat.add_assoc in E. rewrite E.
    rewrite <- !(app_assoc out). done.
Qed.

Lemma utf8_to_utf16_eq cs r a n : Forall scalar cs -> (length (concat (map utf16 cs)) < n <= length a)%nat ->
  utf8_to_utf16 (concat (map utf8 cs) ++ 0 :: r) a n =
  Some (filled (concat (map utf16 cs) ++ [0]) a).
Proof.
  intros Hs Hroom. unfold utf8_to_utf16. set (l := concat (map utf8 cs)) in *.
  assert (Hnz : Forall (fun x => x <> 0) l).
  { unfold l. clear - Hs. induction Hs as [|c cs Hc Hs IH]; cbn; [done|].
    apply Forall_app_2; [apply utf8_nonzero; unfold scalar in Hc; lia|done]. }
  rewrite (len_loop_eq l r _ []) by (done || (rewrite length_app; cbn; lia)). cbn [mbind option_bind length Nat.add].
  destruct (to16_name cs [] (0 :: r) 0 [] a n 1 Hs) as (v & E); [cbn; lia|].
  fold l in E. cbn [app length Nat.add] in E. change (filled [] a) with a in E. rewrite E.
  cbn [to16_loop]. rewrite aget_app by done. cbn [mbind option_bind].
  erewrite read_lead; [|exact (lead8_1 0 ltac:(lia))|done]. cbn [mbind option_bind o16 o16idx].
  unfold store16. cbn [utfbytes utfchar o16idx o16 Z.eqb Z.leb andb].
  change (0x10000 <=? 0) with false. cbn [andb]. change (0x10000 <=? 0) with false. unfold put16.
  change (u16 0) with 0. rewrite aset_filled by lia. cbn [mbind option_bind].
  set (k := length (concat (map utf16 cs))) in *.
  destruct (decide (k + 1 = n)%nat) as [E2|E2].
  - replace (k + 1 - 1)%nat with k by lia. unfold aset.
    rewrite decide_True by (rewrite length_filled by (rewrite length_app; cbn; fold k; lia); lia).
    cbn [mbind option_bind o16 negb Z.eqb]. f_equal. apply list_insert_id.
    unfold filled. rewrite lookup_app_l by (rewrite length_app; cbn; fold k; lia).
    by apply list_lookup_middle.
  - cbn [mbind option_bind o16 negb Z.eqb]. done.
Qed.

Lemma utf8_to_utf16_total (n : nat) (a : list Z) : (0 < n <= length a)%nat ->
  forall l r, Forall (fun x => x <> 0) l ->
     exists a', utf8_to_utf16 (l ++ 0 :: r) a n = Some a' /\ length a' = length a /\
       exists i, (i < n)%nat /\ a' !! i = Some 0.
Proof.
  intros Hn l r Hl. unfold utf8_to_utf16.
  rewrite (len_loop_eq l r _ []) by (done || (rewrite length_app; cbn; lia)). cbn [mbind option_bind length Nat.add].
  destruct (to16_loop_ok n (length a) l r (length l) [] {| o16 := a; o16idx := 0; utfchar := 0; utfbytes := 0 |}
    (length l + 1)) as (a' & E & HL & He); [done|split; cbn; lia|lia|lia|done|].
  exists a'. done.
Qed.

(** C22: [utf8_to_utf16] is safe on every NUL-terminated input: it accesses its input
    only up to the NUL and its output only below [s16len], however malformed the input
    is, and leaves a NUL-terminated string there.  On a well-formed name that fits it
    writes the UTF-16 encoding of its characters, surrogate pairs included, and the NUL,
    and nothing else. *)
Theorem utf8_to_utf16_ok (n : nat) (a : list Z) : (0 < n <= length a)%nat ->
  (forall l r, Forall (fun x => x <> 0) l ->
     exists a', utf8_to_utf16 (l ++ 0 :: r) a n = Some a' /\ length a' = length a /\
       exists i, (i < n)%nat /\ a' !! i = Some 0) /\
  (forall cs r, Forall scalar cs -> (length (concat (map utf16 cs)) < n)%nat ->
     utf8_to_utf16 (concat (map utf8 cs) ++ 0 :: r) a n =
     Some (concat (map utf16 cs) ++ 0 :: drop (length (concat (map utf16 cs)) + 1) a)).
Proof.
  intros Hn. split; [by apply utf8_to_utf16_total|].
  intros cs r Hs Hlt. rewrite utf8_to_utf16_eq by (done || lia). unfold filled.
  rewrite length_app, <- app_assoc. done.
Qed.

Lemma utf8_to_utf16_ok_witness :
  utf8_to_utf16 (utf8 0x1f600 ++ [0]) [7; 7; 7; 7] 4 = Some [0xd83d; 0xde00; 0; 7] /\
  (exists a', utf8_to_utf16 [0x80; 0xc3; 0x41; 0] [7; 7] 2 = Some a' /\ length a' = 2%nat /\
     exists i, (i < 2)%nat /\ a' !! i = Some 0).
Proof.
  split.
  - apply (proj2 (utf8_to_utf16_ok 4 [7; 7; 7; 7] ltac:(cbn; lia)) [0x1f600] []); [|cbn; lia].
    constructor; [right; lia|constructor].
  - apply (proj1 (utf8_to_utf16_ok 2 [7; 7] ltac:(cbn; lia)) [0x80; 0xc3; 0x41] []).
    repeat constructor; discriminate.
Defined.



(** C24: A partition name of characters of the Basic Multilingual Plane survives the
    conversion to UTF-16 and back, when the arrays are large enough. *)
Theorem utf_roundtrip (cs r a b : list Z) (n m : nat) :
  Forall bmp cs -> (length cs < n <= length a)%nat ->
  (length (concat (map utf8 cs)) + 1 < m <= length b)%nat ->
  exists s16, utf8_to_utf16 (concat (map utf8 cs) ++ 0 :: r) a n = Some s16 /\
    exists s8, utf16_to_utf8 s16 b m = Some s8 /\ cbytes s8 = concat (map utf8 cs).
Proof.
  intros Hb Hn Hm.
  assert (Hs : Forall scalar cs) by (eapply Forall_impl; [|exact Hb]; unfold scalar, bmp; lia).
  assert (E16 : concat (map utf16 cs) = cs).
  { clear - Hb. induction Hb as [|c cs Hc Hb IH]; cbn; [done|]. rewrite IH. unfold utf16.
    destruct (Z.ltb_spec c 0x10000); [done|]. unfold bmp in Hc. lia. }
  assert (Ech : chars16 cs = cs).
  { clear - Hb. induction Hb as [|c cs Hc Hb IH]; cbn [chars16]; [done|]. rewrite IH.
    unfold high, low, bmp in *. repeat zcase; cbn; done || lia. }
  assert (Hfit : forall l room, (length (concat l) < room)%nat -> fit room l = concat l).
  { induction l as [|e l IH]; intros room Hr; cbn [fit concat] in *; [done|].
    rewrite length_app in Hr. rewrite decide_False by lia. by rewrite IH by lia. }
  rewrite utf8_to_utf16_eq by (rewrite ?E16; done). rewrite E16.
  exists (filled (cs ++ [0]) a). split; [done|]. unfold filled at 1. rewrite <- app_assoc.
  destruct (utf16_to_utf8_eq cs (drop (length (cs ++ [0])) a) b m) as (out & E & Eo & Hlt).
  { eapply Forall_impl; [|exact Hb]. unfold bmp; cbn; lia. } { lia. }
  exists (filled (out ++ [0]) b). split; [exact E|].
  rewrite Eo, Ech, map_app, Hfit; rewrite concat_app; [|rewrite length_app; cbn; lia].
  unfold filled. rewrite <- !app_assoc. cbn [map concat utf8 Z.ltb app].
  assert (Hcb : forall l k, Forall (fun x => x <> 0) l -> cbytes (l ++ 0 :: k) = l).
  { induction 1 as [|x l Hx Hl IH]; cbn; [done|]. destruct (Z.eqb_spec x 0); [done|]. by rewrite IH. }
  apply Hcb. clear - Hs. induction Hs as [|c cs Hc Hs IH]; cbn; [done|].
  apply Forall_app_2; [apply utf8_nonzero; unfold scalar in Hc; lia|done].
Qed.

Lemma utf_roundtrip_witness :
  exists s16, utf8_to_utf16 (concat (map utf8 [0x41; 0x20ac]) ++ 0 :: []) (replicate 36 0) 36 = Some s16 /\
    exists s8, utf16_to_utf8 s16 (replicate 64 0) 64 = Some s8 /\ cbytes s8 = concat (map utf8 [0x41; 0x20ac]).
Proof.
  apply (utf_roundtrip [0x41; 0x20ac] [] (replicate 36 0) (replicate 64 0) 36 64); try (cbn; lia).
  constructor; [left; lia|constructor; [left; lia|constructor]].
Defined.

(** A character outside the Basic Multilingual Plane does not survive: the two
    surrogates are never put together, so that the UTF-8 string holds the three bytes of
    the high surrogate alone, which is no character; two characters of the same high
    surrogate become the same string. *)
Theorem utf16_pair_lost (c : Z) (r a : list Z) (n : nat) :
  0x10000 <= c < 0x110000 -> (4 < n <= length a)%nat ->
  utf16_to_utf8 (utf16 c ++ 0 :: r) a n =
    Some (utf8 (0xd800 + (c - 0x10000) / 1024) ++ 0 :: 0 :: drop 5 a) /\
  utf8 (0xd800 + (c - 0x10000) / 1024) <> utf8 c.
Proof.
  intros Hc Hn.
  assert (Hu : utf16 c = [0xd800 + (c - 0x10000) / 1024; 0xdc00 + (c - 0x10000) mod 1024]).
  { unfold utf16. destruct (Z.ltb_spec c 0x10000); [lia|done]. }
  assert (L3 : length (utf8 (0xd800 + (c - 0x10000) / 1024)) = 3%nat).
  { unfold utf8. repeat zcase; try done; exfalso; dlia. }
  destruct (utf16_to_utf8_eq (utf16 c) r a n) as (out & E & Eo & Hlt); [|lia|].
  { rewrite Hu. constructor; [dlia|constructor; [dlia|constructor]]. }
  assert (Ech : chars16 (utf16 c) = [0xd800 + (c - 0x10000) / 1024]).
  { rewrite Hu. cbn [chars16]. unfold high, low. repeat zcase; cbn; try done; exfalso; dlia. }
  rewrite Ech in Eo. cbn [app map fit] in Eo. rewrite decide_False in Eo by lia.
  change (length (utf8 0)) with 1%nat in Eo. rewrite decide_False in Eo by lia.
  split.
  - rewrite E, Eo. change (utf8 0) with [0]. unfold filled. rewrite !length_app, L3. cbn [length Nat.add app].
    rewrite <- !app_assoc. done.
  - intros Eq. apply (f_equal length) in Eq. rewrite L3 in Eq. revert Eq.
    unfold utf8. repeat zcase; cbn; lia.
Qed.

Lemma utf16_pair_lost_witness :
  utf16_to_utf8 (utf16 0x1f600 ++ 0 :: []) (replicate 8 7) 8 = Some [0xed; 0xa0; 0xbd; 0; 0; 7; 7; 7] /\
  utf8 0xd83d <> utf8 0x1f600.
Proof. apply (utf16_pair_lost 0x1f600 [] (replicate 8 7) 8); cbn; lia. Defined.
