(* ===== verification/Zalloc.v ===== *)
(** * Zalloc: the heap of the boot loader (lib/libstand/zalloc.c, zalloc_malloc.c, sbrk.c)

    The pool allocator with its free list threaded through the free memory itself, the
    guarded [malloc] above it and the [sbrk] below, over the byte memory of CMem: a node
    of the list is the 16 bytes [mr_Next], [mr_Bytes] at the start of a free block, and
    [NULL] is the address 0. *)
From Stdlib Require Import ZArith Lia.
From stdpp Require Import base list option.
From S2P Require Import Prelude CMem.
Open Scope Z_scope.

Record MemPool := { mp_Base : Z; mp_End : Z; mp_First : Z; mp_Size : Z; mp_Used : Z }.

(** The memory, and the static variables of the three files. *)
Record heap := {
  h_mem : mem;
  MallocPool : MemPool;
  maxheap : Z; heapsize : Z; heapbase : Z;
  MallocCount : Z; MallocMax : Z }.

Definition set_mem (m : mem) (h : heap) : heap :=
  {| h_mem := m; MallocPool := MallocPool h; maxheap := maxheap h; heapsize := heapsize h;
     heapbase := heapbase h; MallocCount := MallocCount h; MallocMax := MallocMax h |}.
Definition set_pool (p : MemPool) (h : heap) : heap :=
  {| h_mem := h_mem h; MallocPool := p; maxheap := maxheap h; heapsize := heapsize h;
     heapbase := heapbase h; MallocCount := MallocCount h; MallocMax := MallocMax h |}.
Definition set_heapsize (z : Z) (h : heap) : heap :=
  {| h_mem := h_mem h; MallocPool := MallocPool h; maxheap := maxheap h; heapsize := z;
     heapbase := heapbase h; MallocCount := MallocCount h; MallocMax := MallocMax h |}.
Definition set_count (c x : Z) (h : heap) : heap :=
  {| h_mem := h_mem h; MallocPool := MallocPool h; maxheap := maxheap h; heapsize := heapsize h;
     heapbase := heapbase h; MallocCount := c; MallocMax := x |}.
Definition set_first (z : Z) (p : MemPool) : MemPool :=
  {| mp_Base := mp_Base p; mp_End := mp_End p; mp_First := z; mp_Size := mp_Size p; mp_Used := mp_Used p |}.
Definition set_used (z : Z) (p : MemPool) : MemPool :=
  {| mp_Base := mp_Base p; mp_End := mp_End p; mp_First := mp_First p; mp_Size := mp_Size p; mp_Used := z |}.

(** An operation of CMem on the memory of the heap. *)
Definition on_mem {A} (f : St mem A) : St heap A := fun h =>
  match f (h_mem h) with
  | Some (a, m) => Some (a, set_mem m h)
  | None => None
  end.

Definition rd64 (a : Z) : St heap Z := on_mem (d ← peekn 8 a; mret (le_dec d)).
Definition wr64 (a v : Z) : St heap unit := on_mem (poken a (le_enc 8 v)).

Definition MALLOCALIGN : Z := 16.
Definition MALLOCALIGN_MASK : Z := MALLOCALIGN - 1.
(** [(bytes + MEMNODE_SIZE_MASK) & ~MEMNODE_SIZE_MASK] *)
Definition round16 (bytes : Z) : Z := Z.land (u64 (bytes + MALLOCALIGN_MASK)) (2 ^ 64 - 16).

(** [MemNode **pmn]: [None] is [&mp->mp_First], [Some a] is [&mn->mr_Next] of the node at
    [a], which is also the address [a] itself. *)
Definition load_pmn (pmn : option Z) : St heap Z :=
  match pmn with
  | None => gets (fun h => mp_First (MallocPool h))
  | Some a => rd64 a
  end.
Definition store_pmn (pmn : option Z) (v : Z) : St heap unit :=
  match pmn with
  | None => modify (fun h => set_pool (set_first v (MallocPool h)) h)
  | Some a => wr64 a v
  end.
Definition add_used (d : Z) : St heap unit :=
  modify (fun h => set_pool (set_used (u64 (mp_Used (MallocPool h) + d)) (MallocPool h)) h).

(** ** zalloc.c *)
Fixpoint znalloc_loop (fuel : nat) (bytes : Z) (pmn : option Z) : St heap Z :=
  match fuel with
  | O => ub
  | S fuel =>
    mn ← load_pmn pmn;
    if mn =? 0 then mret 0
    else
      b ← rd64 (mn + 8);
      if b <? bytes then znalloc_loop fuel bytes (Some mn)
      else
        let ptr := mn in
        (if b =? bytes then nx ← rd64 mn; store_pmn pmn nx
         else
           let mn := u64 (mn + bytes) in
           nx ← rd64 ptr; wr64 mn nx;;
           b ← rd64 (ptr + 8); wr64 (mn + 8) (u64 (b - bytes));;
           store_pmn pmn mn);;
        add_used bytes;;
        mret ptr
  end.

Definition znalloc (bytes : Z) : St heap Z :=
  let bytes := round16 bytes in
  if bytes =? 0 then mret (2 ^ 64 - 1)
  else
    h ← get_st;
    let mp := MallocPool h in
    if bytes <=? u64 (mp_Size mp - mp_Used mp) then znalloc_loop (S (length (h_mem h))) bytes None
    else mret 0.

(** [false] is a panic. *)
Definition zfree_end (ptr bytes : Z) (pmn : option Z) : St heap bool :=
  let append := (wr64 ptr 0;; wr64 (ptr + 8) bytes;; store_pmn pmn ptr;; mret true) in
  match pmn with
  | None => append
  | Some p =>
    b ← rd64 (p + 8);
    if negb (u64 (p + b) =? ptr) then append
    else b ← rd64 (p + 8); wr64 (p + 8) (u64 (b + bytes));; mret true
  end.

Definition zfree_here (ptr bytes mn : Z) (pmn : option Z) : St heap bool :=
  (if ptr + bytes =? mn then
     nx ← rd64 mn; wr64 ptr nx;; b ← rd64 (mn + 8); wr64 (ptr + 8) (u64 (bytes + b))
   else wr64 ptr mn;; wr64 (ptr + 8) bytes);;
  store_pmn pmn ptr;;
  match pmn with
  | None => mret true
  | Some p =>
    b ← rd64 (p + 8);
    if u64 (p + b) =? ptr then
      nx ← rd64 ptr; wr64 p nx;;
      b1 ← rd64 (p + 8); b2 ← rd64 (ptr + 8); wr64 (p + 8) (u64 (b1 + b2));;
      mret true
    else mret true
  end.

Fixpoint zfree_loop (fuel : nat) (ptr bytes : Z) (pmn : option Z) : St heap bool :=
  match fuel with
  | O => ub
  | S fuel =>
    mn ← load_pmn pmn;
    if mn =? 0 then zfree_end ptr bytes pmn
    else if ptr <=? mn then
      if mn <? ptr + bytes then mret false else zfree_here ptr bytes mn pmn
    else
      b ← rd64 (mn + 8);
      if ptr <? u64 (mn + b) then mret false else zfree_loop fuel ptr bytes (Some mn)
  end.

Definition zfree (ptr bytes : Z) : St heap bool :=
  let bytes := round16 bytes in
  if bytes =? 0 then mret true
  else
    h ← get_st;
    let mp := MallocPool h in
    if (ptr <? mp_Base mp) || (mp_End mp <? u64 (ptr + bytes)) || negb (Z.land ptr MALLOCALIGN_MASK =? 0)
    then mret false
    else add_used (- bytes);; zfree_loop (S (length (h_mem h))) ptr bytes None.

Definition zextendPool (base bytes : Z) : St heap unit :=
  modify (fun h =>
    let mp := MallocPool h in
    set_pool
      (if mp_Size mp =? 0 then
         {| mp_Base := base; mp_End := u64 (base + bytes); mp_First := mp_First mp;
            mp_Size := bytes; mp_Used := bytes |}
       else
         let pend := u64 (mp_Base mp + mp_Size mp) in
         let mp :=
           if base <? mp_Base mp then
             {| mp_Base := base; mp_End := mp_End mp; mp_First := mp_First mp;
                mp_Size := u64 (mp_Size mp + (mp_Base mp - base));
                mp_Used := u64 (mp_Used mp + (mp_Base mp - base)) |}
           else mp in
         let base := u64 (base + bytes) in
         if pend <? base then
           {| mp_Base := mp_Base mp; mp_End := base; mp_First := mp_First mp;
              mp_Size := u64 (mp_Size mp + (base - pend));
              mp_Used := u64 (mp_Used mp + (base - pend)) |}
         else mp) h).

(** The numbers [zallocstats] prints: the bytes reserved and allocated, the fragments and
    the bytes in them, each an [int]. *)
Fixpoint zallocstats_loop (fuel : nat) (mn abytes hbytes fcount : Z) : St heap (Z * Z * Z) :=
  match fuel with
  | O => ub
  | S fuel =>
    if mn =? 0 then mret (abytes, fcount, hbytes)
    else
      h ← get_st;
      b ← rd64 (mn + 8);
      let frag := negb (u64 (mn + b) =? mp_End (MallocPool h)) in
      let hbytes := if frag then s32 (hbytes + b) else hbytes in
      let fcount := if frag then s32 (fcount + 1) else fcount in
      nx ← rd64 mn;
      let abytes := if negb (nx =? 0) then s32 (abytes + (nx - (mn + b))) else abytes in
      zallocstats_loop fuel nx abytes hbytes fcount
  end.

Definition zallocstats : St heap (Z * (Z * Z * Z)) :=
  h ← get_st;
  let mp := MallocPool h in
  let abytes := if negb (mp_First mp =? mp_Base mp) then s32 (mp_First mp - mp_Base mp) else 0 in
  r ← zallocstats_loop (S (length (h_mem h))) (mp_First mp) abytes 0 0;
  mret (s32 (mp_Size mp), r).

(** ** sbrk.c *)
Definition setheap (base top : Z) (h : heap) : heap :=
  let hb := round16 base in
  {| h_mem := h_mem h; MallocPool := MallocPool h; maxheap := u64 (top - hb); heapsize := heapsize h;
     heapbase := hb; MallocCount := MallocCount h; MallocMax := MallocMax h |}.

(** The base of the heap, and its size in [*sizep]. *)
Definition getheap (h : heap) : Z * Z := (heapbase h, maxheap h).

Definition sbrk (incr : Z) : St heap Z :=
  h ← get_st;
  if u64 (heapsize h + incr) <=? maxheap h then
    let ret := u64 (heapbase h + heapsize h) in
    on_mem (bzero ret (u64 incr));;
    modify (set_heapsize (u64 (heapsize h + incr)));;
    mret ret
  else mret (2 ^ 64 - 1).

(** ** zalloc_malloc.c *)
Definition BLKEXTEND : Z := 4 * 1024.
Definition BLKEXTENDMASK : Z := BLKEXTEND - 1.
Definition GAMAGIC : Z := 0x55FF44FD.
Definition GAFREE : Z := 0x5F54F4DF.

(** [None] is a panic. *)
Fixpoint malloc_loop (fuel : nat) (bytes : Z) : St heap (option Z) :=
  match fuel with
  | O => ub
  | S fuel =>
    res ← znalloc bytes;
    if res =? 0 then
      let incr := s32 (Z.land (u64 (bytes + BLKEXTENDMASK)) (2 ^ 64 - BLKEXTEND)) in
      base ← sbrk incr;
      if base =? 2 ^ 64 - 1 then mret (Some 0)
      else
        zextendPool base (u64 incr);;
        ok ← zfree base (u64 incr);
        if ok : bool then malloc_loop fuel bytes else mret None
    else mret (Some res)
  end.

Definition Malloc (bytes : Z) : St heap (option Z) :=
  let bytes := u64 (bytes + (MALLOCALIGN + 1)) in
  r ← malloc_loop 3 bytes;
  match r with
  | None => mret None
  | Some res =>
    if res =? 0 then mret (Some 0)
    else
      modify (fun h => let c := s32 (MallocCount h + 1) in
        set_count c (if MallocMax h <? c then c else MallocMax h) h);;
      wr64 (res + 8) GAMAGIC;;
      wr64 res bytes;;
      on_mem (poke (res + bytes - 1) (-2));;
      mret (Some (res + MALLOCALIGN))
  end.

(** What became of a [Free]: a duplicate is reported and ignored. *)
Inductive freed := Freed | Twice | Panicked.

Definition Free (ptr : Z) : St heap freed :=
  if negb (ptr =? 0) then
    let res := ptr - MALLOCALIGN in
    magic ← rd64 (res + 8);
    if magic =? GAFREE then mret Twice
    else if negb (magic =? GAMAGIC) then mret Panicked
    else
      wr64 (res + 8) GAFREE;;
      b ← rd64 res;
      c ← on_mem (peek (res + b - 1));
      if c =? 255 then mret Twice
      else if negb (c =? 254) then mret Panicked
      else
        on_mem (poke (res + b - 1) (-1));;
        bytes ← rd64 res;
        ok ← zfree res bytes;
        if ok : bool then
          modify (fun h => set_count (s32 (MallocCount h - 1)) (MallocMax h) h);; mret Freed
        else mret Panicked
  else mret Freed.

Definition Calloc (n1 n2 : Z) : St heap (option Z) :=
  let bytes := u64 (n1 * n2) in
  r ← Malloc bytes;
  match r with
  | Some res => if negb (res =? 0) then on_mem (bzero res bytes);; mret (Some res) else mret (Some res)
  | None => mret None
  end.

Definition Realloc (ptr size : Z) : St heap (option Z) :=
  r ← Malloc size;
  match r with
  | None => mret None
  | Some res =>
    if negb (res =? 0) && negb (ptr =? 0) then
      b ← rd64 (ptr - MALLOCALIGN);
      let old := u64 (u64 (b - MALLOCALIGN) - 1) in
      (if old <? size then on_mem (bcopy ptr res old) else on_mem (bcopy ptr res size));;
      f ← Free ptr;
      match f with Panicked => mret None | _ => mret (Some res) end
    else mret (Some res)
  end.

Definition Reallocf (ptr size : Z) : St heap (option Z) :=
  r ← Realloc ptr size;
  match r with
  | Some res =>
    if res =? 0 then f ← Free ptr; match f with Panicked => mret None | _ => mret (Some res) end
    else mret (Some res)
  | None => mret None
  end.

(** The active and the greatest number of allocations, and the numbers of the pool. *)
Definition mallocstats : St heap (Z * Z * (Z * (Z * Z * Z))) :=
  h ← get_st; r ← zallocstats; mret (MallocCount h, MallocMax h, r).

(** A heap of 16 KB at 16, before the first [malloc]. *)
Definition heap0 : heap :=
  setheap 16 (16 + 16384)
    {| h_mem := replicate (Z.to_nat 16400) 170;
       MallocPool := {| mp_Base := 0; mp_End := 0; mp_First := 0; mp_Size := 0; mp_Used := 0 |};
       maxheap := 0; heapsize := 0; heapbase := 0; MallocCount := 0; MallocMax := 0 |}.

(** A pool of 64 bytes at 16 whose first 16 bytes are in use. *)
Definition heap1 : heap :=
  {| h_mem := replicate 32 170 ++ le_enc 8 0 ++ le_enc 8 48 ++ replicate 48 170;
     MallocPool := {| mp_Base := 16; mp_End := 80; mp_First := 32; mp_Size := 64; mp_Used := 16 |};
     maxheap := 64; heapsize := 64; heapbase := 16; MallocCount := 1; MallocMax := 1 |}.

Definition run_ex : option (list Z * bool * MemPool * (Z * (Z * Z * Z))) :=
  match (a ← znalloc 20; r ← zfree 16 16; b ← znalloc 20; c ← znalloc 10; t ← zallocstats;
         mret ([a; b; c], r, t)) heap1 with
  | Some ((l, r, t), h) => Some (l, r, MallocPool h, t)
  | None => None
  end.
Example run_e1 : run_ex = Some ([32; 0; 16], true,
  {| mp_Base := 16; mp_End := 80; mp_First := 64; mp_Size := 64; mp_Used := 48 |}, (64, (48, 0, 0))).
Proof. vm_compute. reflexivity. Qed.

(** ** Words and nodes in memory *)

Lemma round16_eq b : 0 <= b < 2 ^ 64 - 16 -> round16 b = 16 * ((b + 15) / 16).
Proof.
  intros Hb. unfold round16, MALLOCALIGN_MASK, MALLOCALIGN.
  rewrite u64_small by lia. change (2 ^ 64 - 16) with (2 ^ 64 - 2 ^ 4).
  rewrite land_field by lia. change (2 ^ 4) with 16. rewrite (Z.mod_small (_ / _)); [f_equal; f_equal; lia|].
  change (2 ^ (64 - 4)) with 1152921504606846976. dlia.
Qed.

(** Two memories that agree outside [P]. *)
Definition agree_out (P : Z -> Prop) (m m' : mem) : Prop :=
  length m' = length m /\ forall i : nat, ~ P (Z.of_nat i) -> m' !! i = m !! i.

Lemma agree_refl P m : agree_out P m m.
Proof. done. Qed.

Lemma agree_trans P m m1 m2 : agree_out P m m1 -> agree_out P m1 m2 -> agree_out P m m2.
Proof. intros [L1 A1] [L2 A2]. split; [congruence|]. intros i Hi. by rewrite A2, A1. Qed.

Lemma agree_weaken (P Q : Z -> Prop) m m' :
  agree_out P m m' -> (forall i, P i -> Q i) -> agree_out Q m m'.
Proof. intros [L A] H. split; [done|]. intros i Hi. apply A. auto. Qed.

Lemma agree_store (P : Z -> Prop) m a d : in_mem m a (Z.of_nat (length d)) ->
  (forall i, a <= i < a + Z.of_nat (length d) -> P i) -> agree_out P m (mstore m a d).
Proof.
  intros Hin HP. split; [by apply length_mstore|]. intros i Hi.
  rewrite lookup_mstore by done. case_decide as H; [|done]. destruct Hi. by apply HP.
Qed.

Lemma agree_in_mem P m m' a n : agree_out P m m' -> in_mem m a n -> in_mem m' a n.
Proof. intros [L _] H. unfold in_mem in *. by rewrite L. Qed.

Lemma agree_mbytes P m m' a n : agree_out P m m' -> 0 <= a ->
  (forall i, a <= i < a + Z.of_nat n -> ~ P i) -> mbytes m' a n = mbytes m a n.
Proof.
  intros [L A] Ha H. unfold mbytes. apply list_eq. intros i. rewrite !lookup_sub.
  case_decide; [|done]. apply A, H. lia.
Qed.

(** The 8 bytes at [a] hold [v]. *)
Definition word (m : mem) (a v : Z) : Prop :=
  in_mem m a 8 /\ mbytes m a 8 = le_enc 8 v /\ 0 <= v < 2 ^ 64.

Lemma agree_word P m m' a v : agree_out P m m' -> word m a v ->
  (forall i, a <= i < a + 8 -> ~ P i) -> word m' a v.
Proof.
  intros A (H1 & H2 & H3) H. split; [by eapply agree_in_mem|]. split; [|done].
  rewrite <- H2. eapply agree_mbytes; [done|apply H1|exact H].
Qed.

Lemma word_store m a v : in_mem m a 8 -> 0 <= v < 2 ^ 64 -> word (mstore m a (le_enc 8 v)) a v.
Proof.
  intros H Hv. assert (L : length (le_enc 8 v) = 8%nat) by apply length_le_enc.
  split; [apply (agree_in_mem (fun _ => True) m); [apply agree_store; rewrite ?L; done|done]|].
  split; [|done].
  pose proof (sub_splice_same (Z.to_nat a) (le_enc 8 v) m) as E. rewrite L in E. apply E.
  destruct H as (?&?&?). lia.
Qed.

Lemma word_unique m a v v' : word m a v -> word m a v' -> v = v'.
Proof.
  intros (_ & E & H) (_ & E' & H'). rewrite E in E'. apply (f_equal le_dec) in E'.
  rewrite !le_dec_enc_small in E' by done. done.
Qed.

Lemma wp_on_mem {A} (f : St mem A) h (Q : A -> heap -> Prop) :
  wp f (h_mem h) (fun a m => Q a (set_mem m h)) -> wp (on_mem f) h Q.
Proof. unfold wp, on_mem. destruct (f (h_mem h)) as [[a m]|]; done. Qed.

Lemma wp_rd64 a v h (Q : Z -> heap -> Prop) :
  word (h_mem h) a v -> Q v h -> wp (rd64 a) h Q.
Proof.
  intros (H1 & H2 & H3) HQ. unfold rd64. apply wp_on_mem, wp_bind, wp_peekn; [done|].
  apply wp_ret. rewrite H2, le_dec_enc_small by done. by destruct h.
Qed.

Lemma wp_wr64 a v h (Q : unit -> heap -> Prop) :
  in_mem (h_mem h) a 8 -> Q tt (set_mem (mstore (h_mem h) a (le_enc 8 v)) h) -> wp (wr64 a v) h Q.
Proof. intros H HQ. unfold wr64. apply wp_on_mem, wp_poken; [by rewrite length_le_enc|done]. Qed.

(** The node at [a]: its link and its size. *)
Definition node (m : mem) (a nx n : Z) : Prop := word m a nx /\ word m (a + 8) n.

Lemma agree_node P m m' a nx n : agree_out P m m' -> node m a nx n ->
  (forall i, a <= i < a + 16 -> ~ P i) -> node m' a nx n.
Proof. intros A [H1 H2] H. split; eapply agree_word; eauto; intros i Hi; apply H; lia. Qed.

(** ** The free list *)
Abbreviation blocks := (list (Z * Z)).

Definition within (b : Z * Z) (i : Z) : Prop := fst b <= i < fst b + snd b.
Definition inside (L : blocks) (i : Z) : Prop := Exists (fun b => within b i) L.

(** The nodes of [L], linked from [p]. *)
Fixpoint seg (m : mem) (p : Z) (L : blocks) : Prop :=
  match L with
  | [] => p = 0
  | (a, n) :: L => p = a /\ exists nx, node m a nx n /\ seg m nx L
  end.

(** Blocks in order of address from [lo] to [hi], aligned, and none touching the next. *)
Fixpoint ordered (lo hi : Z) (L : blocks) : Prop :=
  match L with
  | [] => True
  | (a, n) :: L => lo <= a /\ a mod 16 = 0 /\ n mod 16 = 0 /\ 0 < n /\ a + n <= hi /\ ordered (a + n + 1) hi L
  end.

Definition total (L : blocks) : Z := foldr (fun b t => snd b + t) 0 L.

Lemma ordered_weaken lo lo' hi hi' L : lo' <= lo -> hi <= hi' -> ordered lo hi L -> ordered lo' hi' L.
Proof.
  revert lo lo'. induction L as [|[a n] L IH]; [done|]. intros lo lo' ?? (?&?&?&?&?&?).
  cbn. split_and!; try lia; try done. eapply IH; [| |done]; lia.
Qed.

Lemma ordered_inside lo hi L i : ordered lo hi L -> inside L i -> lo <= i < hi.
Proof.
  revert lo. induction L as [|[a n] L IH]; intros lo H Hi; [by apply Exists_nil in Hi|].
  destruct H as (?&?&?&?&?&HL). apply Exists_cons in Hi as [Hi|Hi].
  - unfold within in Hi. cbn in Hi. lia.
  - specialize (IH _ HL Hi). lia.
Qed.

Lemma total_bound lo hi L : ordered lo hi L -> lo <= hi -> 0 <= total L <= hi - lo.
Proof.
  revert lo. induction L as [|[a n] L IH]; intros lo H Hlo; [cbn; lia|].
  destruct H as (?&?&?&?&?&HL). cbn. destruct (Z.le_gt_cases (a + n + 1) hi).
  - specialize (IH _ HL ltac:(lia)). unfold total in IH. lia.
  - destruct L as [|[a' n'] L]; [cbn; lia|]. destruct HL as (?&?&?&?&?&?). lia.
Qed.

Lemma seg_agree P m m' p L lo hi : agree_out P m m' -> seg m p L -> ordered lo hi L ->
  (forall i, inside L i -> ~ P i) -> seg m' p L.
Proof.
  revert p lo. induction L as [|[a n] L IH]; intros p lo A H HO HP; [done|].
  destruct H as [-> (nx & Hn & Hs)]. destruct HO as (?&?&?&?&?&HO).
  split; [done|]. exists nx. split.
  - eapply agree_node; [done|done|]. intros i Hi. apply HP. apply Exists_cons. left.
    unfold within. cbn. dlia.
  - eapply IH; [done|done|done|]. intros i Hi. apply HP. apply Exists_cons. by right.
Qed.

Lemma seg_pos m p a n L : seg m p ((a, n) :: L) -> p = a.
Proof. by intros [-> _]. Qed.

(** What [*pmn] holds. *)
Definition link (h : heap) (pmn : option Z) (v : Z) : Prop :=
  match pmn with
  | None => mp_First (MallocPool h) = v
  | Some a => word (h_mem h) a v
  end.
(** The bytes of memory that are the link. *)
Definition cell (pmn : option Z) (i : Z) : Prop :=
  match pmn with None => False | Some a => a <= i < a + 8 end.

Lemma wp_load_pmn pmn v h (Q : Z -> heap -> Prop) : link h pmn v -> Q v h -> wp (load_pmn pmn) h Q.
Proof.
  destruct pmn as [a|]; intros H HQ; [by eapply wp_rd64|]. unfold wp. cbn in *. by rewrite H.
Qed.

(** The heap with another value in the link. *)
Definition relink (pmn : option Z) (v : Z) (h : heap) : heap :=
  match pmn with
  | None => set_pool (set_first v (MallocPool h)) h
  | Some a => set_mem (mstore (h_mem h) a (le_enc 8 v)) h
  end.

Lemma wp_store_pmn pmn v w h (Q : unit -> heap -> Prop) :
  link h pmn w -> Q tt (relink pmn v h) -> wp (store_pmn pmn v) h Q.
Proof.
  destruct pmn as [a|]; intros H HQ; [apply wp_wr64; [apply H|done]|done].
Qed.

Lemma relink_link pmn v w h : link h pmn w -> 0 <= v < 2 ^ 64 -> link (relink pmn v h) pmn v.
Proof. destruct pmn as [a|]; cbn; [|done]. intros H Hv. apply word_store; [apply H|done]. Qed.

Lemma relink_agree pmn v w h : link h pmn w -> agree_out (cell pmn) (h_mem h) (h_mem (relink pmn v h)).
Proof.
  destruct pmn as [a|]; intros H; [|apply agree_refl].
  apply agree_store; rewrite length_le_enc; [apply H|done].
Qed.

(** What an operation on the list leaves alone: every field but the memory, the first
    link and the count of used bytes. *)
Definition same_but (h h' : heap) : Prop :=
  maxheap h' = maxheap h /\ heapsize h' = heapsize h /\ heapbase h' = heapbase h /\
  MallocCount h' = MallocCount h /\ MallocMax h' = MallocMax h /\
  mp_Base (MallocPool h') = mp_Base (MallocPool h) /\ mp_End (MallocPool h') = mp_End (MallocPool h) /\
  mp_Size (MallocPool h') = mp_Size (MallocPool h).

Lemma same_but_refl h : same_but h h.
Proof. by unfold same_but. Qed.
Lemma same_but_trans h h1 h2 : same_but h h1 -> same_but h1 h2 -> same_but h h2.
Proof. unfold same_but. intuition congruence. Qed.
Lemma same_but_relink pmn v h : same_but h (relink pmn v h).
Proof. by destruct pmn. Qed.
Lemma same_but_mem m h : same_but h (set_mem m h).
Proof. by unfold same_but. Qed.
#[export] Hint Resolve agree_refl same_but_refl same_but_relink same_but_mem : core.

(** ** The abstract operations on the list of free blocks *)

(** First fit. *)
Fixpoint first_fit (b : Z) (L : blocks) : option (Z * blocks) :=
  match L with
  | [] => None
  | (a, n) :: L =>
    if n <? b then '(p, L) ← first_fit b L; Some (p, (a, n) :: L)
    else Some (a, if n =? b then L else (a + b, n - b) :: L)
  end.

(** The block goes to its place, and is joined with those it touches. *)
Fixpoint give_back (p b : Z) (L : blocks) : blocks :=
  match L with
  | [] => [(p, b)]
  | (a, n) :: L =>
    if p <=? a then if p + b =? a then (p, b + n) :: L else (p, b) :: (a, n) :: L
    else if a + n =? p then
      match give_back p b L with
      | (_, n') :: L => (a, n + n') :: L
      | [] => [(a, n)]
      end
    else (a, n) :: give_back p b L
  end.

Lemma node_store m x nx n : in_mem m x 16 -> 0 <= nx < 2 ^ 64 -> 0 <= n < 2 ^ 64 ->
  let m' := mstore (mstore m x (le_enc 8 nx)) (x + 8) (le_enc 8 n) in
  node m' x nx n /\ agree_out (within (x, 16)) m m'.
Proof.
  intros (H1 & H2 & H3) Hnx Hn m'.
  assert (A1 : agree_out (cell (Some x)) m (mstore m x (le_enc 8 nx))).
  { apply agree_store; rewrite length_le_enc; [unfold in_mem; lia|done]. }
  set (m1 := mstore m x (le_enc 8 nx)) in *.
  assert (I2 : in_mem m1 (x + 8) 8) by (apply (agree_in_mem _ _ _ _ _ A1); unfold in_mem; lia).
  assert (A2 : agree_out (cell (Some (x + 8))) m1 m').
  { apply agree_store; rewrite length_le_enc; done. }
  split.
  - split; [|by apply word_store]. eapply agree_word; [exact A2|apply word_store; [unfold in_mem; lia|done]|].
    cbn. lia.
  - eapply agree_trans; (eapply agree_weaken; [eassumption|]); unfold within; cbn; lia.
Qed.

Lemma node_in_mem m a nx n : node m a nx n -> in_mem m a 16.
Proof. intros [((?&?&?)&_) ((?&?&?)&_)]. unfold in_mem in *. lia. Qed.

Lemma in_mem_part m a n b k : in_mem m a n -> a <= b -> 0 <= k -> b + k <= a + n -> in_mem m b k.
Proof. unfold in_mem. lia. Qed.

Lemma wp_add_used d h (Q : unit -> heap -> Prop) :
  Q tt (set_pool (set_used (u64 (mp_Used (MallocPool h) + d)) (MallocPool h)) h) -> wp (add_used d) h Q.
Proof. done. Qed.

Lemma link_used pmn v h u : link h pmn v -> link (set_pool (set_used u (MallocPool h)) h) pmn v.
Proof. by destruct pmn. Qed.

(** ** znalloc takes the first block that fits *)
Section lists.
Context (lo hi : Z) (Hlo : 0 < lo) (Hhi : hi < 2 ^ 64).

(** What holds between a link and the list it leads to. *)
Definition listed (h : heap) (pmn : option Z) (lo' : Z) (L : blocks) : Prop :=
  lo <= lo' /\ (exists p, link h pmn p /\ seg (h_mem h) p L) /\ ordered lo' hi L /\
  (forall i, cell pmn i -> i < lo') /\ in_mem (h_mem h) lo (hi - lo).

(** The first link does not change, when it is not the one at hand. *)
Definition first_kept (pmn : option Z) (h h' : heap) : Prop :=
  match pmn with None => True | Some _ => mp_First (MallocPool h') = mp_First (MallocPool h) end.

Definition touched (pmn : option Z) (L : blocks) (i : Z) : Prop := cell pmn i \/ inside L i.

Lemma listed_tail h pmn lo' a n L : listed h pmn lo' ((a, n) :: L) ->
  16 <= n /\ lo' <= a /\ a + n <= hi /\ a mod 16 = 0 /\ n mod 16 = 0 /\
  link h pmn a /\ (exists nx, node (h_mem h) a nx n) /\ listed h (Some a) (a + 8) L /\
  (exists nx, node (h_mem h) a nx n /\ seg (h_mem h) nx L) /\ ordered (a + n + 1) hi L.
Proof.
  intros (Hl & (p & Hp & -> & nx & Hn & Hs) & (?&?&?&?&?&HO) & Hc & Hm).
  split_and!; try done; try dlia; [eauto| |eauto].
  split; [lia|]. split; [exists nx; split; [apply Hn|done]|]. split; [|split; [cbn; lia|done]].
  eapply ordered_weaken; [| |exact HO]; dlia.
Qed.

(** Putting a block back in front of a list whose link is that of the block. *)
Lemma listed_cons h0 h pmn a n lo' L L' :
  listed h0 pmn lo' ((a, n) :: L) -> same_but h0 h -> first_kept (Some a) h0 h ->
  agree_out (touched (Some a) L) (h_mem h0) (h_mem h) ->
  (exists p, link h (Some a) p /\ seg (h_mem h) p L') -> ordered (a + n + 1) hi L' ->
  listed h pmn lo' ((a, n) :: L') /\
  agree_out (touched pmn ((a, n) :: L)) (h_mem h0) (h_mem h).
Proof.
  intros H Hsame Hf A (p & Hp & Hs) HO.
  destruct (listed_tail _ _ _ _ _ _ H) as (Hn & Hla & Hah & Ha & Hnm & Hlk & (nx & Hnd) & HT & _ & HOL).
  destruct H as (Hl & _ & _ & Hc & Hm).
  assert (Hin : forall i, inside L i -> a + n < i) by (intros i Hi; pose proof (ordered_inside _ _ _ _ HOL Hi); lia).
  split.
  - split; [done|]. split.
    { exists a. split.
      - destruct pmn as [q|]; cbn in *; [|congruence]. eapply agree_word; [exact A|done|].
        intros i Hi [Ht|Ht]; [cbn in Ht; specialize (Hc i Hi); lia|].
        specialize (Hin i Ht). specialize (Hc i Hi). lia.
      - split; [done|]. exists p. split; [|done]. split; [done|].
        eapply agree_word; [exact A|apply Hnd|]. intros i Hi [Ht|Ht]; [cbn in Ht; lia|].
        specialize (Hin i Ht). lia. }
    split; [cbn; split_and!; try done; lia|]. split; [done|]. eapply agree_in_mem; done.
  - eapply agree_weaken; [exact A|]. intros i [Hi|Hi]; right; apply Exists_cons; [left|by right].
    unfold within. cbn in *. lia.
Qed.

Lemma first_fit_ordered b L : forall lo' q L', 0 < b -> b mod 16 = 0 -> ordered lo' hi L ->
  first_fit b L = Some (q, L') ->
  ordered lo' hi L' /\ lo' <= q /\ q + b <= hi /\ q mod 16 = 0 /\
  (forall i, within (q, b) i -> inside L i) /\ (forall i, inside L' i -> inside L i) /\
  (forall i, inside L' i -> ~ within (q, b) i) /\ total L = b + total L'.
Proof.
  induction L as [|[a n] L IH]; intros lo' q L' Hb Hbm HO E; [done|]. cbn [first_fit] in E.
  destruct HO as (Ha & Ham & Hnm & Hn & Hah & HO).
  assert (Hin : forall i, inside L i -> a + n < i) by (intros i Hi; pose proof (ordered_inside _ _ _ _ HO Hi); lia).
  destruct (Z.ltb_spec n b) as [Hnb|Hnb].
  - destruct (first_fit b L) as [[q' L1]|] eqn:E1; [|done]. cbn in E. injection E as -> <-.
    destruct (IH (a + n + 1) q L1 Hb Hbm HO eq_refl) as (A1 & A2 & A3 & A4 & A5 & A6 & A7 & A8).
    split; [by cbn|]. split; [lia|]. split; [done|]. split; [done|]. split_and!.
    + intros i Hi. apply Exists_cons. right. by apply A5.
    + intros i Hi. apply Exists_cons in Hi as [Hi|Hi]; apply Exists_cons; [by left|right; by apply A6].
    + intros i Hi. apply Exists_cons in Hi as [Hi|Hi]; [unfold within in *; cbn in *; lia|by apply A7].
    + cbn in *. unfold total in A8. lia.
  - injection E as -> <-. destruct (Z.eqb_spec n b) as [->|Hne].
    + split_and!; try done; try lia.
      * eapply ordered_weaken; [| |exact HO]; lia.
      * intros i Hi. apply Exists_cons. by left.
      * intros i Hi. apply Exists_cons. by right.
      * intros i Hi Hw. specialize (Hin i Hi). unfold within in Hw. cbn in Hw. lia.
    + split_and!; try done; try lia.
      * cbn. split_and!; try lia; try dlia. eapply ordered_weaken; [| |exact HO]; lia.
      * intros i Hi. apply Exists_cons. left. unfold within in *. cbn in *. lia.
      * intros i Hi. apply Exists_cons in Hi as [Hi|Hi]; apply Exists_cons; [left|by right].
        unfold within in *. cbn in *. lia.
      * intros i Hi Hw. apply Exists_cons in Hi as [Hi|Hi]; [|specialize (Hin i Hi)];
          unfold within in *; cbn in *; lia.
      * cbn. lia.
Qed.

(** The block found at the head of the list is unlinked, or cut. *)
Lemma znalloc_take b h pmn lo' a n L :
  listed h pmn lo' ((a, n) :: L) -> 0 < b <= n -> b mod 16 = 0 ->
  wp ((if n =? b then nx ← rd64 a; store_pmn pmn nx
       else
         let mn := u64 (a + b) in
         nx ← rd64 a; wr64 mn nx;;
         b' ← rd64 (a + 8); wr64 (mn + 8) (u64 (b' - b));;
         store_pmn pmn mn);;
      add_used b;; mret a) h (fun r h' => r = a /\ same_but h h' /\
    mp_Used (MallocPool h') = u64 (mp_Used (MallocPool h) + b) /\ first_kept pmn h h' /\
    agree_out (touched pmn ((a, n) :: L)) (h_mem h) (h_mem h') /\
    exists p, link h' pmn p /\ seg (h_mem h') p (if n =? b then L else (a + b, n - b) :: L)).
Proof.
  intros H Hb Hbm.
  destruct (listed_tail _ _ _ _ _ _ H) as (Hn & Hla & Hah & Ha & Hnm & Hlk & _ & HT & (nx & Hnd & Hs) & HOL).
  destruct H as (Hl & _ & _ & Hc & Hm).
  assert (Hin : forall i, inside L i -> a + n < i) by (intros i Hi; pose proof (ordered_inside _ _ _ _ HOL Hi); lia).
  assert (Hcc : forall i, cell pmn i -> touched pmn ((a, n) :: L) i) by (intros; by left).
  apply wp_bind. destruct (Z.eqb_spec n b) as [->|Hne].
  - apply wp_bind. eapply wp_rd64; [apply Hnd|]. eapply wp_store_pmn; [done|].
    apply wp_bind, wp_add_used, wp_ret. pose proof (relink_agree pmn nx a h Hlk) as A.
    split; [done|]. split; [by destruct pmn|]. split; [by destruct pmn|]. split; [by destruct pmn|]. split.
    { eapply agree_weaken; [exact A|done]. }
    exists nx. split; [apply link_used; eapply relink_link; [done|apply Hnd]|].
    eapply (seg_agree _ (h_mem h)); [exact A|done|exact HOL|].
    intros i Hi Hci. specialize (Hc i Hci). specialize (Hin i Hi). lia.
  - cbv zeta. rewrite (u64_small (a + b)) by lia.
    assert (Hm16 : in_mem (h_mem h) (a + b) 16) by (eapply in_mem_part; [exact Hm|lia|lia|dlia]).
    assert (Hb16 : 16 <= b /\ b + 16 <= n) by dlia.
    destruct (node_store (h_mem h) (a + b) nx (n - b)) as [Hnd2 A2]; [done|apply Hnd|lia|].
    apply wp_bind. eapply wp_rd64; [apply Hnd|]. apply wp_bind.
    apply wp_wr64; [eapply in_mem_part; [exact Hm16|lia..]|].
    set (h1 := set_mem _ h).
    assert (A1 : agree_out (cell (Some (a + b))) (h_mem h) (h_mem h1)).
    { apply agree_store; rewrite length_le_enc; [eapply in_mem_part; [exact Hm16|lia..]|done]. }
    apply wp_bind. eapply wp_rd64.
    { eapply agree_word; [exact A1|apply Hnd|]. cbn. lia. }
    rewrite u64_small by lia. apply wp_bind, wp_wr64.
    { eapply agree_in_mem; [exact A1|]. eapply in_mem_part; [exact Hm16|lia..]. }
    set (h2 := set_mem _ h1). assert (Hlk2 : link h2 pmn a).
    { destruct pmn as [q|]; [|done]. cbn in Hlk, Hc. eapply agree_word; [exact A2|exact Hlk|].
      intros i Hi. specialize (Hc i Hi). unfold within. cbn. lia. }
    eapply wp_store_pmn; [exact Hlk2|]. apply wp_bind, wp_add_used, wp_ret.
    pose proof (relink_agree pmn (a + b) a h2 Hlk2) as A3.
    split; [done|]. split; [by destruct pmn|]. split; [by destruct pmn|]. split; [by destruct pmn|]. split.
    { eapply agree_trans; [eapply agree_weaken; [exact A2|]|eapply agree_weaken; [exact A3|done]].
      intros i Hi. right. apply Exists_cons. left. unfold within in *. cbn in *. lia. }
    exists (a + b). split; [apply link_used; eapply relink_link; [done|lia]|].
    split; [done|]. exists nx. split.
    + eapply (agree_node _ (h_mem h2)); [exact A3|exact Hnd2|]. intros i Hi Hci. specialize (Hc i Hci). lia.
    + eapply (seg_agree _ (h_mem h2)); [exact A3| |exact HOL|].
      * eapply (seg_agree _ (h_mem h)); [exact A2|done|exact HOL|].
        intros i Hi Hw. specialize (Hin i Hi). unfold within in Hw. cbn in Hw. lia.
      * intros i Hi Hci. specialize (Hc i Hci). specialize (Hin i Hi). lia.
Qed.

Lemma znalloc_loop_ok b L : forall fuel pmn lo' h,
  (length L < fuel)%nat -> listed h pmn lo' L -> 0 < b -> b mod 16 = 0 ->
  wp (znalloc_loop fuel b pmn) h (fun r h' =>
    match first_fit b L with
    | None => r = 0 /\ h' = h
    | Some (q, L') => r = q /\ same_but h h' /\
        mp_Used (MallocPool h') = u64 (mp_Used (MallocPool h) + b) /\ first_kept pmn h h' /\
        agree_out (touched pmn L) (h_mem h) (h_mem h') /\
        exists p, link h' pmn p /\ seg (h_mem h') p L'
    end).
Proof.
  induction L as [|[a n] L IH]; intros [|fuel] pmn lo' h Hf H Hb Hbm; cbn in Hf; try lia.
  - destruct H as (_ & (p & Hp & Hs) & _). cbn in Hs. subst p.
    cbn [znalloc_loop]. apply wp_bind. eapply wp_load_pmn; [exact Hp|]. by apply wp_ret.
  - pose proof H as H'.
    destruct (listed_tail _ _ _ _ _ _ H) as (Hn & Hla & Hah & Ha & Hnm & Hlk & (nx & Hnd) & HT & _ & HOL).
    cbn [znalloc_loop]. apply wp_bind. eapply wp_load_pmn; [exact Hlk|].
    destruct H as (Hl & _). destruct (Z.eqb_spec a 0); [lia|].
    apply wp_bind. eapply wp_rd64; [apply Hnd|]. cbn [first_fit]. destruct (Z.ltb_spec n b) as [Hnb|Hnb].
    + eapply wp_mono; [apply (IH fuel (Some a) (a + 8) h); [lia|exact HT|done|done]|].
      intros r h'. destruct (first_fit b L) as [[q L1]|] eqn:E1; [|done].
      intros (-> & Hsm & Hu & Hfk & A & HL). cbn.
      destruct (first_fit_ordered b L (a + n + 1) q L1 Hb Hbm HOL E1) as (O1 & _).
      destruct (listed_cons h h' pmn a n lo' L L1 H' Hsm Hfk A HL O1) as [(_ & HLk & _) A'].
      split_and!; try done. by destruct pmn.
    + destruct (Z.leb_spec b n); [|lia].
      eapply wp_mono; [apply (znalloc_take b h pmn lo' a n L H'); [lia|done]|].
      intros r h' (-> & Hsm & Hu & Hfk & A & HL). split_and!; done.
Qed.

(** ** zfree puts the block back *)

(** The block is aligned, inside the pool and apart from the free blocks. *)
Definition returnable (p b : Z) (L : blocks) : Prop :=
  lo <= p /\ p + b <= hi /\ p mod 16 = 0 /\ b mod 16 = 0 /\ 0 < b /\
  (forall i, within (p, b) i -> ~ inside L i).

Lemma give_back_head p b L : ordered (p + 1) hi L -> p mod 16 = 0 -> b mod 16 = 0 -> 0 < b -> p + b <= hi ->
  (forall i, within (p, b) i -> ~ inside L i) ->
  exists y L', give_back p b L = (p, y) :: L' /\ ordered (p + y + 1) hi L' /\ b <= y /\ y mod 16 = 0 /\ p + y <= hi.
Proof.
  intros HO Hp Hbm Hb Hh Hd. destruct L as [|[a n] L]; cbn [give_back].
  - by exists b, [].
  - destruct HO as (Ha & Ham & Hnm & Hn & Hah & HO). destruct (Z.leb_spec p a); [|lia].
    assert (p + b <= a).
    { destruct (Z.le_gt_cases (p + b) a); [done|]. destruct (Hd a); [unfold within; cbn; lia|].
      apply Exists_cons. left. unfold within. cbn. lia. }
    destruct (Z.eqb_spec (p + b) a) as [<-|Hne].
    + exists (b + n), L. split_and!; try done; try lia; try dlia.
      eapply ordered_weaken; [| |exact HO]; lia.
    + exists b, ((a, n) :: L). split_and!; try done. cbn. split_and!; try done. lia.
Qed.

Lemma give_back_ok p b L : forall lo', lo' <= p -> ordered lo' hi L -> returnable p b L ->
  ordered lo' hi (give_back p b L) /\
  (forall i, inside (give_back p b L) i <-> within (p, b) i \/ inside L i) /\
  total (give_back p b L) = b + total L.
Proof.
  induction L as [|[a n] L IH]; intros lo' Hlp HO HR; pose proof HR as (R1 & R2 & R3 & R4 & R5 & R6);
    cbn [give_back].
  - split; [cbn; split_and!; done|]. split; [|done]. intros i. unfold inside. by rewrite Exists_cons.
  - destruct HO as (Ha & Ham & Hnm & Hn & Hah & HO).
    assert (HR' : returnable p b L).
    { split_and!; try done. intros i Hi Hin. apply (R6 i Hi). apply Exists_cons. by right. }
    assert (Hapart : p + b <= a \/ a + n <= p).
    { destruct (Z.le_gt_cases (p + b) a); [by left|]. destruct (Z.le_gt_cases (a + n) p); [by right|].
      destruct (R6 (Z.max p a)); [unfold within; cbn; lia|]. apply Exists_cons. left. unfold within. cbn. lia. }
    destruct (Z.leb_spec p a) as [Hpa|Hpa].
    + destruct (Z.eqb_spec (p + b) a) as [<-|Hne].
      * split; [cbn; split_and!; try done; try lia; try dlia; eapply ordered_weaken; [| |exact HO]; lia|].
        split; [|cbn; lia]. intros i. unfold inside. rewrite !Exists_cons. unfold within. cbn. intuition lia.
      * split; [cbn; split_and!; try done; lia|]. split; [|done]. intros i. unfold inside. by rewrite !Exists_cons.
    + destruct (Z.eqb_spec (a + n) p) as [Hap|Hne].
      * destruct (IH (a + n + 1 - 1)) as (IO & II & IT); [lia| |done|].
        { eapply ordered_weaken; [| |exact HO]; lia. }
        destruct (give_back_head p b L) as (y & L' & E & HO' & Hy & Hym & Hyh); try done; [by rewrite <- Hap|apply HR'|].
        rewrite E in *. split.
        { cbn. split_and!; try done; try lia; try dlia. eapply ordered_weaken; [| |exact HO']; lia. }
        split.
        -- intros i. specialize (II i). unfold inside in *. rewrite Exists_cons in *. rewrite Exists_cons.
           unfold within in *. cbn in *. destruct II as [I1 I2]. split.
           ++ intros [Hi|Hi]; [|tauto]. destruct (Z.lt_ge_cases i p); [lia|]. destruct I1; [lia|tauto|tauto].
           ++ intros [Hi|[Hi|Hi]]; [destruct I2; [tauto|lia|tauto]|lia|destruct I2; [tauto|lia|tauto]].
        -- cbn in *. unfold total in *. cbn in IT. lia.
      * destruct (IH (a + n + 1)) as (IO & II & IT); [lia|done|done|].
        split; [cbn; split_and!; done|]. split; [|cbn in *; unfold total in *; lia].
        intros i. specialize (II i). unfold inside in *. rewrite !Exists_cons. tauto.
Qed.

(** The block before the place, when there is one: [pb] is its size. *)
Definition before (h : heap) (pmn : option Z) (pb ptr : Z) : Prop :=
  match pmn with
  | None => True
  | Some p => word (h_mem h) (p + 8) pb /\ 16 <= pb /\ p + pb <= ptr /\ lo <= p
  end.
Definition start (pmn : option Z) (pb : Z) : Z :=
  match pmn with None => lo | Some p => p + pb + 1 end.

Definition stirred (pmn : option Z) (ptr b : Z) (L : blocks) (i : Z) : Prop :=
  match pmn with None => False | Some p => within (p, 16) i end \/ within (ptr, b) i \/ inside L i.

(** The list from the link on once the block is back: it may be joined to the one before. *)
Definition joined (h : heap) (pmn : option Z) (pb ptr : Z) (G : blocks) : Prop :=
  match pmn with
  | None => exists q, link h None q /\ seg (h_mem h) q G
  | Some p =>
    if p + pb =? ptr then
      match G with
      | (_, y) :: G => word (h_mem h) (p + 8) (pb + y) /\ exists q, word (h_mem h) p q /\ seg (h_mem h) q G
      | [] => False
      end
    else word (h_mem h) (p + 8) pb /\ exists q, word (h_mem h) p q /\ seg (h_mem h) q G
  end.

(** The place is found: the new node is written, linked, and joined to the one before. *)
Lemma zfree_link h1 pmn pb p G y (Q : bool -> heap -> Prop) w nx :
  before h1 pmn pb p -> link h1 pmn w -> node (h_mem h1) p nx y -> seg (h_mem h1) nx G ->
  ordered (p + y + 1) hi G -> 16 <= y -> p + y <= hi -> lo <= p ->
  (forall h', same_but h1 h' -> mp_Used (MallocPool h') = mp_Used (MallocPool h1) ->
     first_kept pmn h1 h' -> agree_out (stirred pmn p 0 []) (h_mem h1) (h_mem h') ->
     joined h' pmn pb p ((p, y) :: G) -> Q true h') ->
  wp (store_pmn pmn p;;
      match pmn with
      | None => mret true
      | Some q =>
        b' ← rd64 (q + 8);
        if u64 (q + b') =? p then
          nx ← rd64 p; wr64 q nx;;
          b1 ← rd64 (q + 8); b2 ← rd64 (p + 8); wr64 (q + 8) (u64 (b1 + b2));;
          mret true
        else mret true
      end) h1 Q.
Proof.
  intros HB Hlk Hnd Hs HO Hy Hyh Hlp HQ.
  assert (Hin : forall i, inside G i -> p + y < i) by (intros i Hi; pose proof (ordered_inside _ _ _ _ HO Hi); lia).
  apply wp_bind. eapply wp_store_pmn; [exact Hlk|].
  pose proof (relink_agree pmn p w h1 Hlk) as A. set (h2 := relink pmn p h1) in *.
  assert (Hlk2 : link h2 pmn p) by (eapply relink_link; [done|lia]).
  destruct pmn as [q|].
  2:{ apply wp_ret, HQ; try done.
      exists p. split; [done|]. split; [done|]. by exists nx. }
  destruct HB as (Hqb & Hpb & Hqp & Hlq). cbn [link cell] in *.
  assert (Hnd2 : node (h_mem h2) p nx y) by (eapply agree_node; [exact A|done|cbn; lia]).
  assert (Hs2 : seg (h_mem h2) nx G).
  { eapply seg_agree; [exact A|done|exact HO|]. intros i Hi Hc. specialize (Hin i Hi). cbn in Hc. lia. }
  assert (Hqb2 : word (h_mem h2) (q + 8) pb) by (eapply agree_word; [exact A|done|cbn; lia]).
  assert (Hu2 : mp_Used (MallocPool h2) = mp_Used (MallocPool h1)) by done.
  apply wp_bind. eapply wp_rd64; [exact Hqb2|]. rewrite u64_small by lia.
  destruct (Z.eqb_spec (q + pb) p) as [Hj|Hj].
  - apply wp_bind. eapply wp_rd64; [apply Hnd2|]. apply wp_bind, wp_wr64; [apply Hlk2|].
    set (h3 := set_mem _ h2). assert (A3 : agree_out (cell (Some q)) (h_mem h2) (h_mem h3)).
    { apply agree_store; rewrite length_le_enc; [apply Hlk2|done]. }
    assert (W3 : word (h_mem h3) q nx) by (apply word_store; [apply Hlk2|apply Hnd2]).
    apply wp_bind. eapply wp_rd64; [eapply agree_word; [exact A3|exact Hqb2|cbn; lia]|].
    apply wp_bind. eapply wp_rd64; [eapply agree_word; [exact A3|apply Hnd2|cbn; lia]|].
    rewrite u64_small by lia.
    assert (I3 : in_mem (h_mem h3) (q + 8) 8) by (eapply agree_in_mem; [exact A3|apply Hqb2]).
    apply wp_bind, wp_wr64; [exact I3|]. set (h4 := set_mem _ h3).
    assert (A4 : agree_out (cell (Some (q + 8))) (h_mem h3) (h_mem h4)).
    { apply agree_store; rewrite length_le_enc; done. }
    apply wp_ret, HQ; [done|done|done| |].
    + eapply agree_trans; [|eapply agree_weaken; [exact A4|]]; [eapply agree_trans; (eapply agree_weaken; [eassumption|])|];
        intros i Hi; left; unfold within; cbn in *; lia.
    + unfold joined. destruct (Z.eqb_spec (q + pb) p); [|done]. split; [apply word_store; [done|lia]|].
      exists nx. split; [eapply agree_word; [exact A4|exact W3|cbn; lia]|].
      eapply seg_agree; [exact A4| |exact HO|].
      * eapply seg_agree; [exact A3|exact Hs2|exact HO|]. intros i Hi Hc. specialize (Hin i Hi). cbn in Hc. lia.
      * intros i Hi Hc. specialize (Hin i Hi). cbn in Hc. lia.
  - apply wp_ret, HQ; [done|done|done| |].
    + eapply agree_weaken; [exact A|]. intros i Hi. left. unfold within. cbn in *. lia.
    + unfold joined. destruct (Z.eqb_spec (q + pb) p); [done|]. split; [done|]. exists p. split; [done|].
      split; [done|]. by exists nx.
Qed.

(** What the loop establishes when the block can be returned. *)
Definition freed_at (h : heap) (pmn : option Z) (pb ptr b : Z) (L : blocks) (r : bool) (h' : heap) : Prop :=
  r = true /\ same_but h h' /\ mp_Used (MallocPool h') = mp_Used (MallocPool h) /\ first_kept pmn h h' /\
  agree_out (stirred pmn ptr b L) (h_mem h) (h_mem h') /\ joined h' pmn pb ptr (give_back ptr b L).

Lemma before_agree P h h' pmn pb ptr : agree_out P (h_mem h) (h_mem h') -> before h pmn pb ptr ->
  (forall i, P i -> ptr <= i) -> before h' pmn pb ptr.
Proof.
  intros A HB HP. destruct pmn as [q|]; [|done]. destruct HB as (H1 & H2 & H3 & H4).
  split; [|done]. eapply agree_word; [exact A|done|]. intros i Hi Hp. specialize (HP i Hp). lia.
Qed.

Lemma link_agree P h h' pmn v pb ptr : agree_out P (h_mem h) (h_mem h') -> link h pmn v ->
  mp_First (MallocPool h') = mp_First (MallocPool h) ->
  before h pmn pb ptr -> (forall i, P i -> ptr <= i) -> link h' pmn v.
Proof.
  intros A Hl HF HB HP. destruct pmn as [q|]; cbn in *; [|congruence]. destruct HB as (H1 & H2 & H3 & H4).
  eapply agree_word; [exact A|done|]. intros i Hi Hp. specialize (HP i Hp). lia.
Qed.

(** The two words of a new node at [ptr]; between them, the memory [m'] it is computed
    from may be read. *)
Lemma node_steps h ptr nx y : in_mem (h_mem h) ptr 16 -> 0 <= nx < 2 ^ 64 -> 0 <= y < 2 ^ 64 ->
  let h1 := set_mem (mstore (h_mem h) ptr (le_enc 8 nx)) h in
  let h2 := set_mem (mstore (h_mem h1) (ptr + 8) (le_enc 8 y)) h1 in
  in_mem (h_mem h) ptr 8 /\ in_mem (h_mem h1) (ptr + 8) 8 /\
  agree_out (cell (Some ptr)) (h_mem h) (h_mem h1) /\
  node (h_mem h2) ptr nx y /\ agree_out (within (ptr, 16)) (h_mem h) (h_mem h2) /\
  same_but h h2 /\ MallocPool h2 = MallocPool h.
Proof.
  intros Hm16 Hnx Hy h1 h2. destruct (node_store (h_mem h) ptr nx y Hm16 Hnx Hy) as [Hnd A].
  assert (I1 : in_mem (h_mem h) ptr 8) by (eapply in_mem_part; [exact Hm16|lia..]).
  assert (A1 : agree_out (cell (Some ptr)) (h_mem h) (h_mem h1)).
  { apply agree_store; rewrite length_le_enc; done. }
  split_and!; try done. eapply agree_in_mem; [exact A1|]. eapply in_mem_part; [exact Hm16|lia..].
Qed.

(** A new node at [ptr] goes in front of what follows. *)
Lemma freed_link h h1 pmn pb ptr b nx y w L G :
  before h pmn pb ptr -> link h pmn w -> returnable ptr b L ->
  node (h_mem h1) ptr nx y -> agree_out (within (ptr, 16)) (h_mem h) (h_mem h1) ->
  same_but h h1 -> MallocPool h1 = MallocPool h ->
  16 <= y -> ptr + y <= hi -> ordered (ptr + y + 1) hi G ->
  seg (h_mem h) nx G -> give_back ptr b L = (ptr, y) :: G ->
  wp (store_pmn pmn ptr;;
      match pmn with
      | None => mret true
      | Some q =>
        b' ← rd64 (q + 8);
        if u64 (q + b') =? ptr then
          nx ← rd64 ptr; wr64 q nx;;
          b1 ← rd64 (q + 8); b2 ← rd64 (ptr + 8); wr64 (q + 8) (u64 (b1 + b2));;
          mret true
        else mret true
      end) h1 (freed_at h pmn pb ptr b L).
Proof.
  intros HB Hlk HR Hnd A Hsm Hpl Hy Hyh HO Hs EG. pose proof HR as (R1 & R2 & R3 & R4 & R5 & R6).
  assert (Hb16 : 16 <= b) by dlia.
  assert (Hge : forall i, within (ptr, 16) i -> ptr <= i) by (unfold within; cbn; lia).
  eapply (zfree_link h1 pmn pb ptr G y _ w nx).
  - eapply before_agree; done.
  - eapply link_agree; try done. by rewrite Hpl.
  - exact Hnd.
  - eapply (seg_agree _ (h_mem h)); [exact A|done|exact HO|].
    intros i Hi Hw. pose proof (ordered_inside _ _ _ _ HO Hi). unfold within in Hw. cbn in Hw. lia.
  - done.
  - done.
  - done.
  - lia.
  - intros h' S1 U1 F1 A1 J. split; [done|]. split; [by eapply same_but_trans|].
    split; [by rewrite U1, Hpl|]. split; [destruct pmn; [cbn in *; by rewrite F1, Hpl|done]|]. split.
    + eapply agree_trans; (eapply agree_weaken; [eassumption|]); intros i Hi.
      * right. left. unfold within in *. cbn in *. lia.
      * destruct Hi as [Hi|[Hi|Hi]]; [by left|unfold within in Hi; cbn in Hi; lia|by apply Exists_nil in Hi].
    + by rewrite EG.
Qed.

(** In front of the node at [a]. *)
Lemma zfree_here_ok h pmn pb ptr b a n L :
  listed h pmn (start pmn pb) ((a, n) :: L) -> before h pmn pb ptr ->
  returnable ptr b ((a, n) :: L) -> ptr <= a ->
  wp (zfree_here ptr b a pmn) h (freed_at h pmn pb ptr b ((a, n) :: L)).
Proof.
  intros H HB HR Hpa. pose proof HR as (R1 & R2 & R3 & R4 & R5 & R6).
  destruct (listed_tail _ _ _ _ _ _ H) as (Hn & Hla & Hah & Ha & Hnm & Hlk & _ & HT & (nx & Hnd & Hs) & HOL).
  destruct H as (Hl & _ & _ & Hc & Hm).
  assert (Hend : ptr + b <= a).
  { destruct (Z.le_gt_cases (ptr + b) a); [done|]. destruct (R6 a); [unfold within; cbn; lia|].
    apply Exists_cons. left. unfold within. cbn. lia. }
  assert (Hb16 : 16 <= b) by dlia.
  assert (Hm16 : in_mem (h_mem h) ptr 16) by (eapply in_mem_part; [exact Hm|lia..]).
  unfold zfree_here. apply wp_bind. destruct (Z.eqb_spec (ptr + b) a) as [Ej|Hne].
  - destruct (node_steps h ptr nx (b + n) Hm16) as (I1 & I2 & A1 & N & A & Sm & Pl); [apply Hnd|lia|].
    apply wp_bind. eapply wp_rd64; [apply Hnd|]. apply wp_bind, wp_wr64; [done|].
    apply wp_bind. eapply wp_rd64; [eapply agree_word; [exact A1|apply Hnd|cbn; lia]|].
    rewrite u64_small by lia. apply wp_wr64; [done|].
    eapply (freed_link h _ pmn pb ptr b nx (b + n) a _ L); try done; try lia.
    + eapply ordered_weaken; [| |exact HOL]; lia.
    + cbn [give_back]. destruct (Z.leb_spec ptr a); [|lia]. destruct (Z.eqb_spec (ptr + b) a); done.
  - destruct (node_steps h ptr a b Hm16) as (I1 & I2 & A1 & N & A & Sm & Pl); [lia|lia|].
    apply wp_bind, wp_wr64; [done|]. apply wp_wr64; [done|].
    eapply (freed_link h _ pmn pb ptr b a b a _ ((a, n) :: L)); try done.
    + cbn. split_and!; try done; lia.
    + split; [done|]. by exists nx.
    + cbn [give_back]. destruct (Z.leb_spec ptr a); [|lia]. destruct (Z.eqb_spec (ptr + b) a); done.
Qed.

(** After the last node. *)
Lemma zfree_append h pmn pb ptr b :
  listed h pmn (start pmn pb) [] -> before h pmn pb ptr -> returnable ptr b [] ->
  (forall q, pmn = Some q -> q + pb <> ptr) ->
  wp (wr64 ptr 0;; wr64 (ptr + 8) b;; store_pmn pmn ptr;; mret true) h (freed_at h pmn pb ptr b []).
Proof.
  intros H HB HR Hnj. pose proof HR as (R1 & R2 & R3 & R4 & R5 & R6).
  destruct H as (Hl & (p & Hlk & Hs) & _ & Hc & Hm). cbn in Hs. subst p.
  assert (Hb16 : 16 <= b) by dlia.
  assert (Hm16 : in_mem (h_mem h) ptr 16) by (eapply in_mem_part; [exact Hm|lia..]).
  destruct (node_steps h ptr 0 b Hm16) as (I1 & I2 & A1 & N & A & Sm & Pl); [lia|lia|].
  apply wp_bind, wp_wr64; [done|]. apply wp_bind, wp_wr64; [done|].
  set (h2 := set_mem _ (set_mem _ h)) in *.
  assert (Hge : forall i, within (ptr, 16) i -> ptr <= i) by (unfold within; cbn; lia).
  assert (Hlk2 : link h2 pmn 0) by (eapply link_agree; done).
  apply wp_bind. eapply wp_store_pmn; [exact Hlk2|]. apply wp_ret.
  pose proof (relink_agree pmn ptr 0 h2 Hlk2) as A2.
  assert (Hlk3 : link (relink pmn ptr h2) pmn ptr) by (eapply relink_link; [done|lia]).
  destruct pmn as [q|].
  - destruct HB as (Hqb & Hpb & Hqp & Hlq). specialize (Hnj q eq_refl). split_and!; try done.
    + eapply agree_trans; (eapply agree_weaken; [eassumption|]); intros i Hi.
      * right. left. unfold within in *. cbn in *. lia.
      * left. unfold within. cbn in *. lia.
    + cbn. destruct (Z.eqb_spec (q + pb) ptr); [done|]. split.
      * eapply agree_word; [exact A2| |cbn; lia].
        eapply agree_word; [exact A|done|]. unfold within. cbn. lia.
      * exists ptr. split; [done|]. split; [done|]. exists 0. split; [|done].
        eapply agree_node; [exact A2|exact N|cbn; lia].
  - split_and!; try done.
    + eapply agree_weaken; [exact A|]. intros i Hi. right. left. unfold within in *. cbn in *. lia.
    + exists ptr. split; [done|]. split; [done|]. by exists 0.
Qed.

Lemma zfree_end_ok h pmn pb ptr b :
  listed h pmn (start pmn pb) [] -> before h pmn pb ptr -> returnable ptr b [] ->
  wp (zfree_end ptr b pmn) h (freed_at h pmn pb ptr b []).
Proof.
  intros H HB HR. pose proof HR as (R1 & R2 & R3 & R4 & R5 & R6).
  pose proof (zfree_append h pmn pb ptr b H HB HR) as HN.
  destruct H as (Hl & (p & Hlk & Hs) & _ & Hc & Hm). cbn in Hs. subst p.
  destruct pmn as [q|]; [|apply HN; done]. unfold zfree_end. pose proof HB as (Hqb & Hpb & Hqp & Hlq).
  apply wp_bind. eapply wp_rd64; [exact Hqb|]. rewrite u64_small by lia.
  destruct (Z.eqb_spec (q + pb) ptr) as [Ej|Ej]; cbn [negb]; [|apply HN; congruence].
  apply wp_bind. eapply wp_rd64; [exact Hqb|]. rewrite u64_small by lia.
  apply wp_bind, wp_wr64; [apply Hqb|]. apply wp_ret. set (h1 := set_mem _ h).
  assert (A1 : agree_out (cell (Some (q + 8))) (h_mem h) (h_mem h1)).
  { apply agree_store; rewrite length_le_enc; [apply Hqb|done]. }
  split_and!; try done.
  - eapply agree_weaken; [exact A1|]. intros i Hi. left. unfold within. cbn in *. lia.
  - cbn. destruct (Z.eqb_spec (q + pb) ptr); [|done]. split; [apply word_store; [apply Hqb|lia]|].
    exists 0. split; [|done]. eapply agree_word; [exact A1|exact Hlk|cbn; lia].
Qed.

Lemma stirred_tail pmn pb a n ptr b L i : start pmn pb <= a -> 16 <= n ->
  stirred (Some a) ptr b L i -> stirred pmn ptr b ((a, n) :: L) i.
Proof.
  intros _ Hn [Hi|[Hi|Hi]]; right; [right|by left|right]; apply Exists_cons; [left|by right].
  unfold within in *. cbn in *. lia.
Qed.

(** Past a node: what was established from its link holds from the link before it. *)
Lemma freed_past h h' r pmn pb ptr b a n L :
  listed h pmn (start pmn pb) ((a, n) :: L) -> before h pmn pb ptr -> returnable ptr b ((a, n) :: L) ->
  a + n <= ptr -> freed_at h (Some a) n ptr b L r h' -> freed_at h pmn pb ptr b ((a, n) :: L) r h'.
Proof.
  intros H HB HR Hap (-> & Sm & Us & Fk & A & J). pose proof HR as (R1 & R2 & R3 & R4 & R5 & R6).
  destruct (listed_tail _ _ _ _ _ _ H) as (Hn & Hla & Hah & Ha & Hnm & Hlk & (nx & Hnd) & HT & _ & HOL).
  destruct H as (Hl & _ & _ & Hc & Hm).
  assert (Hin : forall i, inside L i -> a + n < i) by (intros i Hi; pose proof (ordered_inside _ _ _ _ HOL Hi); lia).
  cbn [first_kept] in Fk.
  assert (Hout : forall i, i < a -> ~ stirred (Some a) ptr b L i).
  { intros i Hi [Hs|[Hs|Hs]]; [unfold within in Hs; cbn in Hs; lia..|specialize (Hin i Hs); lia]. }
  assert (Hj : exists y G, give_back ptr b ((a, n) :: L) = (a, y) :: G /\
    exists nx, node (h_mem h') a nx y /\ seg (h_mem h') nx G).
  { cbn [give_back]. destruct (Z.leb_spec ptr a); [lia|]. cbn [joined] in J.
    destruct (Z.eqb_spec (a + n) ptr).
    - destruct (give_back ptr b L) as [|[x y] G]; [done|]. destruct J as (J1 & q & J2 & J3).
      exists (n + y), G. split; [done|]. by exists q.
    - destruct J as (J1 & q & J2 & J3). exists n, (give_back ptr b L). split; [done|]. by exists q. }
  destruct Hj as (y & G & EG & nx' & Hnd' & Hs'). split; [done|]. split; [done|]. split; [done|].
  split; [by destruct pmn|]. split.
  { eapply agree_weaken; [exact A|]. intros i Hi. by eapply stirred_tail. }
  rewrite EG. destruct pmn as [q|]; cbn [joined link before start] in *.
  - destruct HB as (Hqb & Hpb & Hqp & Hlq). destruct (Z.eqb_spec (q + pb) ptr); [lia|]. split.
    + eapply agree_word; [exact A|done|]. intros i Hi. apply Hout. lia.
    + exists a. split; [|split; [done|by exists nx']]. eapply agree_word; [exact A|done|].
      intros i Hi. apply Hout. specialize (Hc i Hi). lia.
  - exists a. split; [congruence|]. split; [done|]. by exists nx'.
Qed.

Lemma returnable_tail p b a n L : returnable p b ((a, n) :: L) -> returnable p b L.
Proof.
  intros (R1 & R2 & R3 & R4 & R5 & R6). split_and!; try done.
  intros i Hi Hin. apply (R6 i Hi). apply Exists_cons. by right.
Qed.

Lemma zfree_loop_ok ptr b L : forall fuel pmn pb h,
  (length L < fuel)%nat -> listed h pmn (start pmn pb) L -> before h pmn pb ptr ->
  returnable ptr b L -> wp (zfree_loop fuel ptr b pmn) h (freed_at h pmn pb ptr b L).
Proof.
  induction L as [|[a n] L IH]; intros [|fuel] pmn pb h Hf H HB HR; cbn in Hf; try lia; cbn [zfree_loop].
  - pose proof H as (_ & (p & Hlk & Hs) & _). cbn in Hs. subst p.
    apply wp_bind. eapply wp_load_pmn; [exact Hlk|]. cbn [Z.eqb]. by apply zfree_end_ok.
  - destruct (listed_tail _ _ _ _ _ _ H) as (Hn & Hla & Hah & Ha & Hnm & Hlk & (nx & Hnd) & HT & _ & HOL).
    pose proof H as (Hl & _ & _ & Hc & Hm). pose proof HR as (R1 & R2 & R3 & R4 & R5 & R6).
    apply wp_bind. eapply wp_load_pmn; [exact Hlk|]. destruct (Z.eqb_spec a 0); [lia|].
    destruct (Z.leb_spec ptr a).
    + destruct (Z.ltb_spec a (ptr + b)); [|by apply zfree_here_ok].
      destruct (R6 a); [unfold within; cbn; lia|]. apply Exists_cons. left. unfold within. cbn. lia.
    + apply wp_bind. eapply wp_rd64; [apply Hnd|]. rewrite u64_small by lia.
      destruct (Z.ltb_spec ptr (a + n)).
      { destruct (R6 ptr); [unfold within; cbn; lia|]. apply Exists_cons. left. unfold within. cbn. lia. }
      eapply wp_mono; [apply (IH fuel (Some a) n h); [lia| | |by eapply returnable_tail]|].
      * destruct HT as (T1 & T2 & T3 & T4 & T5). split; [cbn; lia|]. split; [done|]. split; [done|].
        split; [|done]. intros i Hi. specialize (T4 i Hi). cbn. lia.
      * split; [apply Hnd|]. lia.
      * intros r h'. by apply freed_past.
Qed.

(** A block that overlaps a free one is found out. *)
Lemma zfree_loop_panics ptr b L : forall fuel pmn pb h,
  (length L < fuel)%nat -> listed h pmn (start pmn pb) L -> 0 < b -> lo <= ptr ->
  (exists i, within (ptr, b) i /\ inside L i) -> wp (zfree_loop fuel ptr b pmn) h (fun r _ => r = false).
Proof.
  induction L as [|[a n] L IH]; intros [|fuel] pmn pb h Hf H Hb Hlp (i & Hi & Hin); cbn in Hf; try lia;
    [by apply Exists_nil in Hin|]. cbn [zfree_loop].
  destruct (listed_tail _ _ _ _ _ _ H) as (Hn & Hla & Hah & Ha & Hnm & Hlk & (nx & Hnd) & HT & _ & HOL).
  pose proof H as (Hl & _ & _ & Hc & Hm).
  apply wp_bind. eapply wp_load_pmn; [exact Hlk|]. destruct (Z.eqb_spec a 0); [lia|].
  unfold within in Hi. cbn in Hi. apply Exists_cons in Hin as [Hin|Hin].
  - unfold within in Hin. cbn in Hin. destruct (Z.leb_spec ptr a).
    + destruct (Z.ltb_spec a (ptr + b)); [done|lia].
    + apply wp_bind. eapply wp_rd64; [apply Hnd|]. rewrite u64_small by lia.
      destruct (Z.ltb_spec ptr (a + n)); [done|lia].
  - pose proof (ordered_inside _ _ _ _ HOL Hin). destruct (Z.leb_spec ptr a).
    + destruct (Z.ltb_spec a (ptr + b)); [done|lia].
    + apply wp_bind. eapply wp_rd64; [apply Hnd|]. rewrite u64_small by lia.
      destruct (Z.ltb_spec ptr (a + n)); [done|]. apply (IH fuel (Some a) n h); [lia| |done|done|].
      * destruct HT as (T1 & T2 & T3 & T4 & T5). split; [cbn; lia|]. split; [done|]. split; [done|].
        split; [|done]. intros k Hk. specialize (T4 k Hk). cbn. lia.
      * exists i. split; [unfold within; cbn; lia|done].
Qed.
End lists.

(** ** The pool *)

(** The pool is a range of memory; [L] are its free blocks, linked from [mp_First], and
    [mp_Used] counts the rest. *)
Definition pool_ok (h : heap) (L : blocks) : Prop :=
  let mp := MallocPool h in
  0 < mp_Base mp /\ mp_Base mp <= mp_End mp < 2 ^ 64 /\
  in_mem (h_mem h) (mp_Base mp) (mp_End mp - mp_Base mp) /\
  (exists p, link h None p /\ seg (h_mem h) p L) /\ ordered (mp_Base mp) (mp_End mp) L /\
  mp_Size mp = mp_End mp - mp_Base mp /\ mp_Used mp = mp_Size mp - total L.

Lemma pool_listed h L : pool_ok h L ->
  listed (mp_Base (MallocPool h)) (mp_End (MallocPool h)) h None (mp_Base (MallocPool h)) L.
Proof. intros (P1 & P2 & P3 & P4 & P5 & P6 & P7). split_and!; try done. Qed.

Lemma ordered_length lo hi L : ordered lo hi L -> lo <= hi -> 16 * Z.of_nat (length L) <= hi - lo.
Proof.
  revert lo. induction L as [|[a n] L IH]; intros lo HO Hlo; [cbn; lia|].
  destruct HO as (Ha & Ham & Hnm & Hn & Hah & HO). cbn [length].
  destruct (Z.le_gt_cases (a + n + 1) hi).
  - specialize (IH _ HO ltac:(lia)). dlia.
  - destruct L as [|[a' n'] L]; [cbn; dlia|]. destruct HO as (?&?&?&?&?&?). lia.
Qed.

Lemma pool_fuel h L : pool_ok h L -> (length L < S (length (h_mem h)))%nat.
Proof.
  intros (P1 & P2 & (?&?&?) & P4 & P5 & P6 & P7).
  pose proof (ordered_length _ _ _ P5 ltac:(lia)). lia.
Qed.

Lemma same_but_pool h h' : same_but h h' -> mp_Base (MallocPool h') = mp_Base (MallocPool h) /\
  mp_End (MallocPool h') = mp_End (MallocPool h) /\ mp_Size (MallocPool h') = mp_Size (MallocPool h).
Proof. by intros (?&?&?&?&?&?&?&?). Qed.

Lemma pool_after P h h' L L' : pool_ok h L -> same_but h h' -> agree_out P (h_mem h) (h_mem h') ->
  (exists p, link h' None p /\ seg (h_mem h') p L') ->
  ordered (mp_Base (MallocPool h)) (mp_End (MallocPool h)) L' ->
  mp_Used (MallocPool h') = mp_Size (MallocPool h) - total L' -> pool_ok h' L'.
Proof.
  intros (P1 & P2 & P3 & P4 & P5 & P6 & P7) Sm A HL HO HU. destruct (same_but_pool _ _ Sm) as (B1 & B2 & B3).
  unfold pool_ok. rewrite B1, B2, B3. do 2 (split; [done|]). split; [by eapply agree_in_mem|].
  do 3 (split; [done|]). done.
Qed.

Lemma first_fit_none b L : first_fit b L = None -> Forall (fun x => snd x < b) L.
Proof.
  induction L as [|[a n] L IH]; [constructor|]. cbn. destruct (Z.ltb_spec n b); [|done].
  destruct (first_fit b L) as [[q L']|] eqn:E; [done|]. intros _. constructor; [done|by apply IH].
Qed.

(** [znalloc] on a pool in order, for a size that does not wrap around. *)
Lemma znalloc_eq h L bytes : pool_ok h L -> 0 < bytes < 2 ^ 64 - 16 ->
  wp (znalloc bytes) h (fun r h' =>
    match first_fit (round16 bytes) L with
    | None => r = 0 /\ h' = h
    | Some (q, L') => r = q /\ same_but h h' /\ pool_ok h' L' /\
        agree_out (inside L) (h_mem h) (h_mem h')
    end).
Proof.
  intros HP Hb. unfold znalloc. pose proof (round16_eq bytes ltac:(lia)) as Er.
  set (b := round16 bytes) in *.
  assert (Hb16 : 0 < b < 2 ^ 64 /\ b mod 16 = 0) by dlia. clearbody b.
  destruct (Z.eqb_spec b 0); [lia|].
  pose proof HP as (P1 & P2 & P3 & P4 & P5 & P6 & P7).
  pose proof (total_bound _ _ _ P5 ltac:(lia)) as Ht. apply wp_bind. unfold wp at 1. cbn [get_st].
  rewrite u64_small by lia. destruct (Z.leb_spec b (mp_Size (MallocPool h) - mp_Used (MallocPool h))).
  - eapply wp_mono; [apply (znalloc_loop_ok (mp_Base (MallocPool h)) (mp_End (MallocPool h)) ltac:(lia) ltac:(lia) b L _ None (mp_Base (MallocPool h)) h);
      [by apply pool_fuel|by apply pool_listed|lia|lia]|].
    intros r h'. destruct (first_fit b L) as [[q L']|] eqn:E; [|done].
    intros (-> & Sm & Us & _ & A & HL). destruct (same_but_pool _ _ Sm) as (B1 & B2 & B3).
    destruct (first_fit_ordered (mp_End (MallocPool h)) b L (mp_Base (MallocPool h)) q L') as (O1 & O2 & O3 & O4 & O5 & O6 & O7 & O8); try done; try lia.
    pose proof (total_bound _ _ _ O1 ltac:(lia)).
    split; [done|]. split; [done|]. split.
    + eapply pool_after; try done. rewrite Us, u64_small by lia. lia.
    + eapply agree_weaken; [exact A|]. intros i [Hi|Hi]; done.
  - apply wp_ret. destruct (first_fit b L) as [[q L']|] eqn:E; [|done]. exfalso.
    destruct (first_fit_ordered (mp_End (MallocPool h)) b L (mp_Base (MallocPool h)) q L') as (O1 & O2 & O3 & O4 & O5 & O6 & O7 & O8); try done; try lia.
    pose proof (total_bound _ _ _ O1 ltac:(lia)). lia.
Qed.

(** [zfree] of a block that can be returned, and of one that cannot. *)
Lemma zfree_eq h L p bytes : pool_ok h L -> 0 < bytes < 2 ^ 64 - 16 ->
  returnable (mp_Base (MallocPool h)) (mp_End (MallocPool h)) p (round16 bytes) L ->
  wp (zfree p bytes) h (fun r h' => r = true /\ same_but h h' /\
    pool_ok h' (give_back p (round16 bytes) L) /\
    agree_out (fun i => within (p, round16 bytes) i \/ inside L i) (h_mem h) (h_mem h')).
Proof.
  intros HP Hb HR. unfold zfree. set (b := round16 bytes) in *.
  pose proof HR as (R1 & R2 & R3 & R4 & R5 & R6). pose proof HP as (P1 & P2 & P3 & P4 & P5 & P6 & P7).
  destruct (Z.eqb_spec b 0); [lia|]. apply wp_bind. unfold wp at 1. cbn [get_st].
  rewrite u64_small by lia. change MALLOCALIGN_MASK with (2 ^ 4 - 1). rewrite land_low by lia.
  change (2 ^ 4) with 16. destruct (Z.ltb_spec p (mp_Base (MallocPool h))); [lia|].
  destruct (Z.ltb_spec (mp_End (MallocPool h)) (p + b)); [lia|]. rewrite R3. cbn [orb negb Z.eqb].
  apply wp_bind, wp_add_used. set (h1 := set_pool _ h).
  pose proof (total_bound _ _ _ P5 ltac:(lia)) as Ht.
  eapply wp_mono; [apply (zfree_loop_ok (mp_Base (MallocPool h)) (mp_End (MallocPool h)) ltac:(lia) ltac:(lia)
    p b L _ None 0 h1); [exact (pool_fuel h L HP)|exact (pool_listed h L HP)|done|done]|].
  intros r h' (-> & Sm & Us & _ & A & J). destruct (same_but_pool _ _ Sm) as (B1 & B2 & B3).
  cbn [h1 set_pool MallocPool set_used mp_Base mp_End mp_Size mp_Used] in B1, B2, B3, Us.
  destruct (give_back_ok (mp_Base (MallocPool h)) (mp_End (MallocPool h)) p b L (mp_Base (MallocPool h)))
    as (G1 & G2 & G3); [lia|done|done|].
  pose proof (total_bound _ _ _ G1 ltac:(lia)).
  split; [done|]. split; [done|]. split.
  - eapply (pool_after _ h); try done. rewrite Us. cbn. rewrite u64_small by lia. lia.
  - eapply agree_weaken; [exact A|]. intros i [Hi|Hi]; [done|exact Hi].
Qed.

Lemma zfree_wild h L p bytes : pool_ok h L -> 0 < bytes < 2 ^ 64 - 16 ->
  0 <= p -> p + round16 bytes < 2 ^ 64 ->
  ~ returnable (mp_Base (MallocPool h)) (mp_End (MallocPool h)) p (round16 bytes) L ->
  wp (zfree p bytes) h (fun r _ => r = false).
Proof.
  intros HP Hb Hp Hpb HR. unfold zfree. pose proof (round16_eq bytes ltac:(lia)) as Er.
  set (b := round16 bytes) in *. assert (Hb16 : 0 < b /\ b mod 16 = 0) by dlia. clearbody b.
  pose proof HP as (P1 & P2 & P3 & P4 & P5 & P6 & P7).
  destruct (Z.eqb_spec b 0); [lia|]. apply wp_bind. unfold wp at 1. cbn [get_st].
  rewrite u64_small by lia. change MALLOCALIGN_MASK with (2 ^ 4 - 1). rewrite land_low by lia.
  change (2 ^ 4) with 16. destruct (Z.ltb_spec p (mp_Base (MallocPool h))); [done|].
  destruct (Z.ltb_spec (mp_End (MallocPool h)) (p + b)); [done|].
  destruct (Z.eqb_spec (p mod 16) 0); [|done]. cbn [orb negb].
  apply wp_bind, wp_add_used. set (h1 := set_pool _ h).
  eapply (zfree_loop_panics (mp_Base (MallocPool h)) (mp_End (MallocPool h)) ltac:(lia) ltac:(lia)
    p b L _ None 0 h1); [exact (pool_fuel h L HP)|exact (pool_listed h L HP)|lia|done|].
  assert (Hdec : forall k, (exists i, p <= i < p + Z.of_nat k /\ inside L i) \/ (forall i, p <= i < p + Z.of_nat k -> ~ inside L i)).
  { induction k as [|k IH]; [right; lia|]. destruct IH as [(i & Hi & Hin)|Hno]; [left; exists i; split; [lia|done]|].
    assert (Hd : Decision (inside L (p + Z.of_nat k))) by (unfold inside, within; apply _).
    destruct Hd as [Hin|Hout]; [left; exists (p + Z.of_nat k); split; [lia|done]|].
    right. intros i Hi. destruct (Z.eq_dec i (p + Z.of_nat k)) as [->|]; [done|]. apply Hno. lia. }
  destruct (Hdec (Z.to_nat b)) as [(i & Hi & Hin)|Hno].
  - exists i. split; [unfold within; cbn; lia|done].
  - destruct HR. split_and!; try done; try lia. intros i Hi. apply Hno. unfold within in Hi. cbn in Hi. lia.
Qed.

(** ** malloc and free *)

(** A block in use: its address, and its size as [Malloc] recorded it. *)
Definition block (x : Z * Z) : Z * Z := (fst x, round16 (snd x)).

Definition guarded (m : mem) (x : Z * Z) : Prop :=
  word m (fst x) (snd x) /\ word m (fst x + 8) GAMAGIC /\
  m !! Z.to_nat (fst x + snd x - 1) = Some 254 /\ 17 <= snd x < 2 ^ 31.

(** Two blocks share no byte. *)
Definition apart (x y : Z * Z) : Prop := forall i, within (block x) i -> ~ within (block y) i.

(** The area [sbrk] hands out, the part of it that is the pool, and the list in it. *)
Definition pool_rel (h : heap) (L : blocks) : Prop :=
  let mp := MallocPool h in
  (pool_ok h L /\ mp_Base mp = heapbase h /\ mp_Size mp = heapsize h) \/
  (L = [] /\ mp_First mp = 0 /\ mp_Size mp = 0 /\ mp_Used mp = 0 /\ mp_Base mp = 0 /\ mp_End mp = 0 /\
   heapsize h = 0).

Definition area_ok (h : heap) : Prop :=
  16 <= heapbase h /\ heapbase h mod 16 = 0 /\ heapsize h mod 16 = 0 /\ 0 <= heapsize h <= maxheap h /\
  heapbase h + maxheap h < 2 ^ 63 /\ in_mem (h_mem h) (heapbase h) (maxheap h).

(** The heap with the blocks in use [live]: guarded, apart from the free list and from
    each other. *)
Definition heap_ok (h : heap) (live : blocks) : Prop :=
  area_ok h /\ exists L, pool_rel h L /\
    Forall (fun x => guarded (h_mem h) x /\
      returnable (mp_Base (MallocPool h)) (mp_End (MallocPool h)) (fst x) (round16 (snd x)) L) live /\
    ForallOrdPairs apart live.

(** The bytes of the blocks in use are as they were. *)
Definition kept (live : blocks) (m m' : mem) : Prop :=
  forall x i, x ∈ live -> within (block x) (Z.of_nat i) -> m' !! i = m !! i.

Lemma round16_bounds b : 0 < b < 2 ^ 64 - 16 ->
  b <= round16 b < b + 16 /\ round16 b mod 16 = 0 /\ 16 <= round16 b.
Proof. intros Hb. rewrite round16_eq by lia. dlia. Qed.

Lemma guarded_agree P m m' x : agree_out P m m' -> guarded m x -> 0 <= fst x ->
  (forall i, within (block x) i -> ~ P i) -> guarded m' x.
Proof.
  intros A (G1 & G2 & G3 & G4) Hx HP. pose proof (round16_bounds (snd x) ltac:(lia)).
  assert (H17 : 32 <= round16 (snd x)) by dlia.
  unfold within, block in HP. cbn in HP. split; [eapply agree_word; [exact A|done|]|split;
    [eapply agree_word; [exact A|done|]|split; [|done]]].
  - intros i Hi. apply HP. lia.
  - intros i Hi. apply HP. lia.
  - destruct A as [_ A]. rewrite A; [done|]. rewrite Z2Nat.id by lia. apply HP. lia.
Qed.

(** The block whose guards are set anew. *)
Lemma guarded_set m r b : in_mem m r b -> 17 <= b < 2 ^ 31 ->
  let m1 := mstore m (r + 8) (le_enc 8 GAMAGIC) in
  let m2 := mstore m1 r (le_enc 8 b) in
  let m3 := mstore m2 (r + b - 1) [254] in
  in_mem m (r + 8) 8 /\ in_mem m1 r 8 /\ in_mem m2 (r + b - 1) 1 /\
  guarded m3 (r, b) /\ agree_out (within (r, b)) m m3.
Proof.
  intros Hin Hb m1 m2 m3.
  assert (I1 : in_mem m (r + 8) 8) by (eapply in_mem_part; [exact Hin|lia..]).
  assert (A1 : agree_out (cell (Some (r + 8))) m m1) by (apply agree_store; rewrite length_le_enc; done).
  assert (I2 : in_mem m1 r 8) by (eapply agree_in_mem; [exact A1|]; eapply in_mem_part; [exact Hin|lia..]).
  assert (A2 : agree_out (cell (Some r)) m1 m2) by (apply agree_store; rewrite length_le_enc; done).
  assert (I3 : in_mem m2 (r + b - 1) 1).
  { eapply agree_in_mem; [exact A2|]. eapply agree_in_mem; [exact A1|]. eapply in_mem_part; [exact Hin|lia..]. }
  assert (A3 : agree_out (within (r + b - 1, 1)) m2 m3) by (apply agree_store; done).
  do 3 (split; [done|]). split.
  - split; [|split; [|split; [|cbn; lia]]]; cbn [fst snd].
    + eapply agree_word; [exact A3|apply word_store; [done|lia]|]. unfold within. cbn. lia.
    + eapply agree_word; [exact A3| |unfold within; cbn; lia].
      eapply agree_word; [exact A2|apply word_store; [done|]|cbn; lia]. unfold GAMAGIC. lia.
    + unfold m3. rewrite lookup_mstore by done. cbn [length]. destruct Hin as (?&?&?).
      rewrite Z2Nat.id by lia. rewrite decide_True by lia. by rewrite Nat.sub_diag.
  - eapply agree_trans; [eapply agree_trans; (eapply agree_weaken; [eassumption|])|eapply agree_weaken; [exact A3|]];
      unfold within; cbn; lia.
Qed.

(** *** Growing the pool *)
Lemma give_back_has p b L : 0 < b -> Forall (fun x => 0 < snd x) L ->
  Exists (fun x => b <= snd x) (give_back p b L).
Proof.
  intros Hb. induction 1 as [|[a n] L Hn HL IH]; cbn [give_back]; [left; cbn; lia|]. cbn in Hn.
  destruct (p <=? a); [destruct (p + b =? a); left; cbn; lia|].
  destruct (a + n =? p); [|by right]. destruct (give_back p b L) as [|[x y] G]; [by apply Exists_nil in IH|].
  apply Exists_cons in IH as [IH|IH]; [left|right; done]. cbn in *. lia.
Qed.

Lemma ordered_pos lo hi L : ordered lo hi L -> Forall (fun x => 0 < snd x) L.
Proof.
  revert lo. induction L as [|[a n] L IH]; intros lo H; [constructor|].
  destruct H as (?&?&?&?&?&?). constructor; [done|by eapply IH].
Qed.

Lemma sbrk_eq h incr : area_ok h -> 0 <= incr < 2 ^ 31 ->
  sbrk incr h =
    if heapsize h + incr <=? maxheap h then
      Some (heapbase h + heapsize h,
            set_heapsize (heapsize h + incr)
              (set_mem (mstore (h_mem h) (heapbase h + heapsize h) (replicate (Z.to_nat incr) 0)) h))
    else Some (2 ^ 64 - 1, h).
Proof.
  intros (A1 & A2 & A3 & A4 & A5 & A6) Hi. pose proof A6 as (?&?&?).
  unfold sbrk, mbind, St_bind, get_st. rewrite u64_small by lia.
  destruct (Z.leb_spec (heapsize h + incr) (maxheap h)); [|done].
  rewrite !u64_small by lia. unfold on_mem. rewrite bzero_eq by (unfold in_mem; lia). done.
Qed.

Lemma extend_eq h L incr : area_ok h -> pool_rel h L -> 0 < incr < 2 ^ 31 -> incr mod 16 = 0 ->
  heapsize h + incr <= maxheap h ->
  let m := mstore (h_mem h) (heapbase h + heapsize h) (replicate (Z.to_nat incr) 0) in
  exists mp, zextendPool (heapbase h + heapsize h) incr (set_heapsize (heapsize h + incr) (set_mem m h)) =
      Some (tt, set_pool mp (set_heapsize (heapsize h + incr) (set_mem m h))) /\
    pool_ok (set_pool mp (set_heapsize (heapsize h + incr) (set_mem m h))) L /\
    mp_Base mp = heapbase h /\ mp_End mp = heapbase h + heapsize h + incr /\
    agree_out (within (heapbase h + heapsize h, incr)) (h_mem h) m /\
    (mp_Base (MallocPool h) = heapbase h \/ (mp_Base (MallocPool h) = 0 /\ mp_End (MallocPool h) = 0)) /\
    mp_End (MallocPool h) <= heapbase h + heapsize h.
Proof.
  intros (A1 & A2 & A3 & A4 & A5 & A6) HR Hi Him Hfit m. pose proof A6 as (?&?&?).
  set (base := heapbase h + heapsize h) in *.
  assert (AG : agree_out (within (base, incr)) (h_mem h) m).
  { apply agree_store; rewrite length_replicate, Z2Nat.id by lia; [unfold in_mem; lia|done]. }
  eexists. split; [reflexivity|]. destruct HR as [(HP & HB & HS)|(-> & F & S0 & U0 & B0 & E0 & HS)].
  - destruct HP as (P1 & P2 & P3 & (p & Hp & Hs) & P5 & P6 & P7).
    cbn [MallocPool set_heapsize set_mem set_pool].
    destruct (Z.eqb_spec (mp_Size (MallocPool h)) 0) as [Hz|Hz].
    + assert (L = []) as ->.
      { destruct L as [|[a n] L]; [done|]. destruct P5 as (?&?&?&?&?&?). lia. }
      cbn [mp_Base mp_End]. rewrite u64_small by lia. split_and!; try done; try lia.
      unfold pool_ok. cbn [MallocPool set_pool mp_Base mp_End mp_Size mp_Used total foldr].
      split; [lia|]. split; [lia|]. split; [|split; [by exists p|split; [done|lia]]].
      eapply agree_in_mem; [exact AG|]. unfold in_mem. lia.
    + rewrite !u64_small by lia. destruct (Z.ltb_spec base (mp_Base (MallocPool h))); [lia|].
      destruct (Z.ltb_spec (mp_Base (MallocPool h) + mp_Size (MallocPool h)) (base + incr)); [|lia].
      cbn [mp_Base mp_End]. split_and!; try done; try lia. unfold pool_ok.
      cbn [MallocPool set_pool mp_Base mp_End mp_Size mp_Used].
      pose proof (total_bound _ _ _ P5 ltac:(lia)).
      split; [lia|]. split; [lia|]. split; [|split; [|split; [|rewrite !u64_small; lia]]].
      * eapply agree_in_mem; [exact AG|]. unfold in_mem. lia.
      * exists p. split; [done|]. eapply seg_agree; [exact AG|done|exact P5|].
        intros i Hin Hw. pose proof (ordered_inside _ _ _ _ P5 Hin). unfold within in Hw. cbn in Hw. lia.
      * eapply ordered_weaken; [| |exact P5]; lia.
  - cbn [MallocPool set_heapsize set_mem set_pool]. rewrite S0. cbn [Z.eqb mp_Base mp_End].
    rewrite u64_small by lia. split_and!; try done; try lia.
    unfold pool_ok. cbn [MallocPool set_pool mp_Base mp_End mp_Size mp_Used total foldr].
    split; [lia|]. split; [lia|]. split; [|split; [by exists 0|split; [done|lia]]].
    eapply agree_in_mem; [exact AG|]. unfold in_mem. lia.
Qed.

(** The blocks in use are where the pool may not touch them. *)
Definition live_out (h : heap) (L live : blocks) : Prop :=
  Forall (fun x => returnable (mp_Base (MallocPool h)) (mp_End (MallocPool h)) (fst x) (round16 (snd x)) L) live.

Lemma live_out_at h L live x : live_out h L live -> x ∈ live ->
  returnable (mp_Base (MallocPool h)) (mp_End (MallocPool h)) (fst x) (round16 (snd x)) L.
Proof. unfold live_out. rewrite Forall_forall, list_elem_of_In. auto. Qed.

Lemma live_out_kept P h L live m' : live_out h L live -> agree_out P (h_mem h) m' ->
  (forall i, P i -> inside L i \/ mp_End (MallocPool h) <= i) -> kept live (h_mem h) m'.
Proof.
  intros HL A HP x i Hx Hi. destruct (live_out_at _ _ _ _ HL Hx) as (R1 & R2 & R3 & R4 & R5 & R6). apply A. intros Hp.
  destruct (HP _ Hp) as [Hp'|Hp']; [by apply (R6 _ Hi)|].
  unfold within, block in Hi. cbn in Hi. lia.
Qed.

Lemma kept_trans live m m1 m2 : kept live m m1 -> kept live m1 m2 -> kept live m m2.
Proof. intros K1 K2 x i Hx Hi. by rewrite (K2 x), (K1 x). Qed.

(** [sbrk], [zextendPool] and [zfree]: the pool grows by a free block of [incr] bytes. *)
Lemma grow_eq h L incr live : area_ok h -> pool_rel h L -> 0 < incr < 2 ^ 31 -> incr mod 16 = 0 ->
  live_out h L live -> heapsize h + incr <= maxheap h ->
  wp (base ← sbrk incr; zextendPool base (u64 incr);; zfree base (u64 incr)) h
    (fun r h' => r = true /\ area_ok h' /\ exists L', pool_ok h' L' /\ pool_rel h' L' /\
       Exists (fun x => incr <= snd x) L' /\ kept live (h_mem h) (h_mem h') /\
       length (h_mem h') = length (h_mem h) /\ live_out h' L' live).
Proof.
  intros HA HR Hi Him HL Hfit. destruct (extend_eq h L incr HA HR Hi Him Hfit) as (mp & E & HP & EB & EE & AG & HB & HE).
  pose proof HA as (A1 & A2 & A3 & A4 & A5 & A6).
  unfold wp, mbind, St_bind. rewrite sbrk_eq by (done || lia).
  destruct (Z.leb_spec (heapsize h + incr) (maxheap h)); [|lia]. rewrite u64_small by lia. rewrite E.
  set (h2 := set_pool _ _) in *. set (base := heapbase h + heapsize h) in *.
  assert (Er : round16 incr = incr) by (rewrite round16_eq by lia; dlia).
  assert (HRet : returnable (mp_Base (MallocPool h2)) (mp_End (MallocPool h2)) base incr L).
  { cbn. rewrite EB, EE. split_and!; try lia; try dlia. intros i Hw Hin.
    destruct HR as [((P1 & P2 & P3 & P4 & P5 & P6 & P7) & HB' & HS)|(-> & _)]; [|by apply Exists_nil in Hin].
    pose proof (ordered_inside _ _ _ _ P5 Hin). unfold within in Hw. cbn in Hw. lia. }
  pose proof (zfree_eq h2 L base incr HP ltac:(lia)) as Z. rewrite Er in Z. specialize (Z HRet).
  unfold wp in Z. destruct (zfree base incr h2) as [[r h3]|]; [|done].
  destruct Z as (-> & Sm & HP3 & A). split; [done|].
  destruct (same_but_pool _ _ Sm) as (B1 & B2 & B3). pose proof Sm as (S1 & S2 & S3 & _).
  cbn in B1, B2, B3, S1, S2, S3.
  assert (L3 : length (h_mem h3) = length (h_mem h)) by (rewrite (proj1 A); apply AG).
  split.
  { unfold area_ok. rewrite S1, S2, S3. split_and!; try done; try lia; try dlia.
    all: unfold in_mem in *; rewrite ?L3; lia. }
  exists (give_back base incr L). split; [done|]. split.
  { left. split; [done|]. rewrite B1, S2, S3. split; [done|].
    destruct HP3 as (_ & _ & _ & _ & _ & Q & _). rewrite Q, B1, B2. lia. }
  split.
  { apply give_back_has; [lia|]. destruct HP as (_ & _ & _ & _ & P5 & _). by eapply ordered_pos. }
  destruct (give_back_ok (mp_Base mp) (mp_End mp) base incr L (mp_Base mp)) as (G1 & G2 & G3);
    [lia|apply HP|exact HRet|].
  assert (HL2 : live_out h2 L live).
  { eapply Forall_impl; [|exact HL]. intros x (R1 & R2 & R3 & R4 & R5 & R6). cbn.
    split_and!; try done; [destruct HB; lia|lia]. }
  split.
  { eapply kept_trans; [apply (live_out_kept _ h L live _ HL AG)|].
    - intros i Hw. right. unfold within in Hw. cbn in Hw. lia.
    - intros x i Hx Hw. apply A. intros [Hb|Hb].
      + destruct (live_out_at _ _ _ _ HL Hx) as (R1 & R2 & R3 & R4 & R5 & R6).
        unfold within, block in *. cbn in *. lia.
      + destruct (live_out_at _ _ _ _ HL Hx) as (R1 & R2 & R3 & R4 & R5 & R6). by apply (R6 _ Hw). }
  split; [done|]. unfold live_out in *. rewrite Forall_forall in *. intros x Hx.
  destruct (HL2 x Hx) as (R1 & R2 & R3 & R4 & R5 & R6). destruct (HL x Hx) as (T1 & T2 & _).
  rewrite B1, B2. split_and!; try done. intros i Hw Hin. apply G2 in Hin as [Hin|Hin]; [|by apply (R6 i)].
  unfold within in *. cbn in *. lia.
Qed.

Lemma pool_rel_agree P h h' L : pool_rel h L -> MallocPool h' = MallocPool h ->
  heapbase h' = heapbase h -> heapsize h' = heapsize h ->
  agree_out P (h_mem h) (h_mem h') -> (forall i, inside L i -> ~ P i) -> pool_rel h' L.
Proof.
  intros [((P1 & P2 & P3 & (p & Hp & Hs) & P5 & P6 & P7) & HB & HS)|HR] E1 E2 E3 A HP;
    unfold pool_rel; rewrite E1, E2, E3; [left|by right].
  split; [|done]. unfold pool_ok. rewrite E1. do 2 (split; [done|]). split; [by eapply agree_in_mem|].
  split; [|done]. exists p. split; [by cbn; rewrite E1|]. by eapply seg_agree.
Qed.

Lemma area_ok_same h h' : area_ok h -> maxheap h' = maxheap h -> heapsize h' = heapsize h ->
  heapbase h' = heapbase h -> length (h_mem h') = length (h_mem h) -> area_ok h'.
Proof. unfold area_ok, in_mem. intros HA -> -> -> ->. exact HA. Qed.

(** What [znalloc] gives: a block apart from the free list and the blocks in use. *)
Definition carved (h : heap) (live : blocks) (bytes q : Z) (h' : heap) : Prop :=
  0 < q /\ area_ok h' /\ exists L', pool_rel h' L' /\ live_out h' L' ((q, bytes) :: live) /\
    kept live (h_mem h) (h_mem h') /\ length (h_mem h') = length (h_mem h) /\
    Forall (apart (q, bytes)) live.

Lemma alloc_eq h L live bytes : area_ok h -> pool_rel h L -> live_out h L live -> 0 < bytes < 2 ^ 64 - 16 ->
  wp (znalloc bytes) h (fun r h' =>
    match first_fit (round16 bytes) L with
    | None => r = 0 /\ h' = h
    | Some _ => carved h live bytes r h'
    end).
Proof.
  intros HA HR HL Hb. destruct (round16_bounds bytes Hb) as (Hb1 & Hb2 & Hb3).
  destruct HR as [(HP & HB & HS)|(-> & F & S0 & U0 & B0 & E0 & HS)].
  - eapply wp_mono; [by apply (znalloc_eq h L bytes HP)|]. intros r h'.
    destruct (first_fit (round16 bytes) L) as [[q L']|] eqn:E; [|done].
    intros (-> & Sm & HP' & A). destruct (same_but_pool _ _ Sm) as (B1 & B2 & B3).
    pose proof Sm as (S1 & S2 & S3 & _). pose proof HP as (P1 & P2 & _ & _ & P5 & _).
    destruct (first_fit_ordered (mp_End (MallocPool h)) (round16 bytes) L (mp_Base (MallocPool h)) q L')
      as (O1 & O2 & O3 & O4 & O5 & O6 & O7 & O8); [lia|done|done|done|].
    split; [lia|]. split; [eapply area_ok_same; try done; apply A|]. exists L'. split.
    { left. split; [done|]. by rewrite B1, B3, S2, S3. }
    split.
    { unfold live_out. rewrite B1, B2. constructor.
      - cbn. split_and!; try done; try lia. intros i Hi Hin. by apply (O7 i).
      - eapply Forall_impl; [|exact HL]. intros x (R1 & R2 & R3 & R4 & R5 & R6). split_and!; try done.
        intros i Hi Hin. apply (R6 i Hi). by apply O6. }
    split; [eapply live_out_kept; [exact HL|exact A|by left]|]. split; [apply A|].
    apply Forall_forall. intros x Hx i Hi Hix. apply list_elem_of_In in Hx.
    destruct (live_out_at _ _ _ _ HL Hx) as (_ & _ & _ & _ & _ & R6). apply (R6 i Hix). by apply O5.
  - cbn [first_fit]. unfold znalloc. destruct (Z.eqb_spec (round16 bytes) 0); [lia|].
    apply wp_bind. unfold wp at 1. cbn [get_st]. rewrite S0, U0. change (u64 (0 - 0)) with 0.
    destruct (Z.leb_spec (round16 bytes) 0); [lia|]. by apply wp_ret.
Qed.

(** What [Malloc] asks of [sbrk] when no block fits. *)
Definition extension (bytes : Z) : Z := 4096 * ((bytes + 4095) / 4096).

Lemma incr_eq bytes : 0 < bytes -> bytes + 4095 < 2 ^ 31 ->
  s32 (Z.land (u64 (bytes + BLKEXTENDMASK)) (2 ^ 64 - BLKEXTEND)) = extension bytes.
Proof.
  intros Hb Hb2. unfold BLKEXTENDMASK, BLKEXTEND, extension. change (4 * 1024 - 1) with 4095.
  change (4 * 1024) with (2 ^ 12). rewrite u64_small by lia. rewrite land_field by lia.
  change (2 ^ 12) with 4096. rewrite (Z.mod_small (_ / _)) by (change (2 ^ (64 - 12)) with 4503599627370496; dlia).
  apply s32_small. dlia.
Qed.

(** Why there is no block: none that fits, and no room to extend the pool. *)
Definition exhausted (h : heap) (bytes : Z) : Prop :=
  maxheap h < heapsize h + extension bytes /\
  exists L, pool_rel h L /\ Forall (fun x => snd x < round16 bytes) L.

Lemma malloc_loop_eq h L live bytes : area_ok h -> pool_rel h L -> live_out h L live ->
  17 <= bytes -> bytes + 4095 < 2 ^ 31 ->
  wp (malloc_loop 3 bytes) h (fun r h' =>
    (r = Some 0 /\ h' = h /\ exhausted h bytes) \/ (exists q, r = Some q /\ carved h live bytes q h')).
Proof.
  intros HA HR HL Hb Hb2. change 3%nat with (S 2). cbn [malloc_loop].
  apply wp_bind. eapply wp_mono; [apply (alloc_eq h L live bytes HA HR HL ltac:(lia))|].
  intros r h1. destruct (first_fit (round16 bytes) L) as [[q L1]|] eqn:E.
  { intros Hc. pose proof Hc as (Hr & _). destruct (Z.eqb_spec r 0); [lia|]. apply wp_ret. right. by exists r. }
  intros [-> ->]. cbn [Z.eqb]. rewrite incr_eq by lia. set (incr := extension bytes).
  assert (Hi : bytes <= incr < 2 ^ 31 /\ incr mod 16 = 0 /\ 0 < incr) by (unfold incr, extension; dlia).
  destruct (round16_bounds bytes ltac:(lia)) as (Hr1 & Hr2 & Hr3).
  pose proof HA as (A1 & A2 & A3 & A4 & A5 & A6).
  destruct (Z.leb_spec (heapsize h + incr) (maxheap h)) as [Hfit|Hfull].
  - pose proof (grow_eq h L incr live HA HR ltac:(lia) (proj1 (proj2 Hi)) HL Hfit) as G.
    unfold wp, mbind, St_bind in G |- *. rewrite sbrk_eq in G |- * by (done || lia).
    destruct (Z.leb_spec (heapsize h + incr) (maxheap h)); [|lia].
    destruct (Z.eqb_spec (heapbase h + heapsize h) (2 ^ 64 - 1)); [lia|].
    destruct (zextendPool _ _ _) as [[[] h2]|]; [|done]. destruct (zfree _ _ h2) as [[ok h3]|]; [|done].
    destruct G as (-> & HA3 & L3 & HP3 & HR3 & Hex & HK & HLen & HL3).
    pose proof (alloc_eq h3 L3 live bytes HA3 HR3 HL3 ltac:(lia)) as W. unfold wp in W.
    destruct (znalloc bytes h3) as [[r4 h4]|]; [|done].
    destruct (first_fit (round16 bytes) L3) as [[q L4]|] eqn:E3.
    + pose proof W as (Hr & HA4 & L' & W1 & W2 & W3 & W4 & W5). destruct (Z.eqb_spec r4 0); [lia|]. right.
      exists r4. split; [done|]. split; [done|]. split; [done|]. exists L'. split_and!; try done; [|congruence].
      by eapply kept_trans.
    + exfalso. apply first_fit_none in E3. rewrite Forall_forall in E3. apply List.Exists_exists in Hex as (x & Hx & Hn).
      specialize (E3 x Hx). dlia.
  - apply wp_bind. unfold wp. rewrite sbrk_eq by (done || lia).
    destruct (Z.leb_spec (heapsize h + incr) (maxheap h)); [lia|]. cbn. left. split; [done|]. split; [done|].
    split; [done|]. exists L. split; [done|]. by apply first_fit_none.
Qed.

(** The guards of a fresh block are set. *)
Lemma guard_eq h0 h live bytes q : carved h0 live bytes q h -> 17 <= bytes < 2 ^ 31 ->
  Forall (guarded (h_mem h0)) live -> Forall (fun x => 0 <= fst x) live -> ForallOrdPairs apart live ->
  forall c x, wp (wr64 (q + 8) GAMAGIC;; wr64 q bytes;; on_mem (poke (q + bytes - 1) (-2));; mret (Some (q + MALLOCALIGN)))
    (set_count c x h) (fun r h' => r = Some (q + 16) /\ heap_ok h' ((q, bytes) :: live) /\
      kept live (h_mem h0) (h_mem h') /\ in_mem (h_mem h') (q + 16) (bytes - 17)).
Proof.
  intros (Hq & HA & L & HR & HL & HK & HLen & HAp) Hb HG Hpos HO c x.
  destruct (round16_bounds bytes ltac:(lia)) as (Hr1 & Hr2 & Hr3).
  pose proof (live_out_at _ _ _ (q, bytes) HL ltac:(by left)) as (R1 & R2 & R3 & R4 & R5 & R6). cbn in R1, R2, R3, R6.
  pose proof HA as (A1 & A2 & A3 & A4 & A5 & A6).
  assert (Hin : in_mem (h_mem h) q (round16 bytes)).
  { destruct HR as [((P1 & P2 & P3 & _) & _)|(_ & _ & _ & _ & B0 & E0 & _)]; [|lia].
    eapply in_mem_part; [exact P3|lia..]. }
  destruct (guarded_set (h_mem h) q bytes) as (I1 & I2 & I3 & HGn & A); [eapply in_mem_part; [exact Hin|lia..]|done|].
  apply wp_bind, wp_wr64; [done|]. apply wp_bind, wp_wr64; [done|]. apply wp_bind, wp_on_mem.
  unfold poke. change (u8 (-2)) with 254. apply wp_poken; [exact I3|]. apply wp_ret.
  set (h' := set_mem _ _). change (guarded (h_mem h') (q, bytes)) in HGn.
  change (agree_out (within (q, bytes)) (h_mem h) (h_mem h')) in A.
  assert (Hsub : forall i, within (q, bytes) i -> within (q, round16 bytes) i) by (unfold within; cbn; lia).
  assert (HK' : kept live (h_mem h0) (h_mem h')).
  { eapply kept_trans; [exact HK|]. intros y i Hy Hi. apply A. intros Hw. apply Hsub in Hw.
    rewrite Forall_forall in HAp. apply list_elem_of_In in Hy. by apply (HAp y Hy (Z.of_nat i)). }
  split; [done|]. split.
  - split; [eapply area_ok_same; try done; apply A|]. exists L. split.
    { eapply pool_rel_agree; try done. intros i Hi Hw. by apply (R6 i (Hsub i Hw)). }
    split; [|by constructor]. apply Forall_forall. intros y Hy. split.
    + destruct Hy as [<-|Hy]; [exact HGn|]. rewrite Forall_forall in HG, Hpos.
      eapply (guarded_agree (fun i => ~ within (block y) i) (h_mem h0)); [|by apply HG|by apply Hpos|tauto].
      split; [by rewrite (proj1 A), HLen|]. intros i Hi. apply (HK' y); [by apply list_elem_of_In|].
      destruct (decide (within (block y) (Z.of_nat i))); [done|tauto].
    + apply list_elem_of_In in Hy. exact (live_out_at _ _ _ _ HL Hy).
  - split; [done|]. eapply agree_in_mem; [exact A|]. eapply in_mem_part; [exact Hin|lia..].
Qed.

Lemma Malloc_eq h live n : heap_ok h live -> 0 <= n < 2 ^ 31 - 8192 ->
  wp (Malloc n) h (fun r h' =>
    (r = Some 0 /\ h' = h /\ exhausted h (n + 17)) \/
    (exists p, r = Some p /\ 16 < p /\ p mod 16 = 0 /\ heap_ok h' ((p - 16, n + 17) :: live) /\
       kept live (h_mem h) (h_mem h') /\ in_mem (h_mem h') p n)).
Proof.
  intros (HA & L & HR & HF & HO) Hn. unfold Malloc. change (MALLOCALIGN + 1) with 17. rewrite u64_small by lia.
  assert (HL : live_out h L live) by (eapply Forall_impl; [|exact HF]; by intros x [_ Hx]).
  assert (HG : Forall (guarded (h_mem h)) live) by (eapply Forall_impl; [|exact HF]; by intros x [Hx _]).
  assert (Hpos : Forall (fun x => 0 <= fst x) live).
  { eapply Forall_impl; [|exact HG]. by intros x (((H0 & _) & _) & _). }
  apply wp_bind. eapply wp_mono; [apply (malloc_loop_eq h L live (n + 17)); try done; lia|].
  intros r h1 [(-> & -> & He)|(q & -> & HC)].
  - cbn. left. done.
  - pose proof HC as (Hq & HA1 & L1 & HR1 & HL1 & _). destruct (Z.eqb_spec q 0); [lia|].
    pose proof (live_out_at _ _ _ (q, n + 17) HL1 ltac:(by left)) as (_ & _ & R3 & _). cbn in R3.
    apply wp_bind, wp_modify.
    eapply wp_mono; [apply (guard_eq h h1 live (n + 17) q HC); [lia|done..]|].
    intros r h' (-> & Hok & HK & Hin). right. exists (q + 16). replace (q + 16 - 16) with q by lia.
    replace (n + 17 - 17) with n in Hin by lia. split_and!; try done; [lia|dlia].
Qed.

(** *** Blocks in use *)
Lemma heap_ok_parts h live : heap_ok h live -> exists L, area_ok h /\ pool_rel h L /\
  Forall (guarded (h_mem h)) live /\ live_out h L live /\ ForallOrdPairs apart live.
Proof.
  intros (HA & L & HR & HF & HO). exists L. split_and!; try done.
  - eapply Forall_impl; [|exact HF]. by intros x [Hx _].
  - eapply Forall_impl; [|exact HF]. by intros x [_ Hx].
Qed.

Lemma heap_ok_intro h L live : area_ok h -> pool_rel h L -> Forall (guarded (h_mem h)) live ->
  live_out h L live -> ForallOrdPairs apart live -> heap_ok h live.
Proof.
  intros HA HR HG HL HO. split; [done|]. exists L. split; [done|]. split; [|done].
  unfold live_out in HL. rewrite Forall_forall in *. auto.
Qed.

Lemma apart_sym x y : apart x y -> apart y x.
Proof. intros H i Hy Hx. by apply (H i). Qed.

Lemma live_apart live x y : ForallOrdPairs apart live -> x ∈ live -> y ∈ live -> x = y \/ apart x y.
Proof.
  intros HO Hx Hy. rewrite !list_elem_of_In in *.
  destruct (ForallOrdPairs_In HO x y Hx Hy) as [|[|]]; auto using apart_sym.
Qed.

Lemma pairs_remove l1 x l2 : ForallOrdPairs apart (l1 ++ x :: l2) ->
  ForallOrdPairs apart (l1 ++ l2) /\ Forall (apart x) (l1 ++ l2).
Proof.
  induction l1 as [|y l1 IH]; cbn; intros H; inversion H as [|? ? H1 H2]; subst; [done|].
  destruct (IH H2) as [I1 I2]. apply Forall_app in H1 as [H1 H3]. apply Forall_cons_1 in H3 as [H3 H4].
  split; [constructor; [by apply Forall_app_2|done]|constructor; [by apply apart_sym|done]].
Qed.

(** The program may write what it likes in the part of a block it was given. *)
Lemma heap_ok_user h live x m' : heap_ok h live -> x ∈ live ->
  agree_out (within (fst x + 16, snd x - 17)) (h_mem h) m' -> heap_ok (set_mem m' h) live.
Proof.
  intros H Hx A. destruct (heap_ok_parts _ _ H) as (L & HA & HR & HG & HL & HO).
  pose proof (live_out_at _ _ _ _ HL Hx) as (_ & _ & _ & _ & _ & R6).
  assert (Hgx : guarded (h_mem h) x) by (rewrite Forall_forall in HG; by apply HG, list_elem_of_In).
  pose proof Hgx as (_ & _ & _ & Hb). destruct (round16_bounds (snd x) ltac:(lia)) as (Hr1 & Hr2 & Hr3).
  assert (Hsub : forall i, within (fst x + 16, snd x - 17) i -> within (block x) i)
    by (unfold within, block; cbn; lia).
  apply (heap_ok_intro _ L); [eapply area_ok_same; try done; apply A| | |done|done].
  - eapply pool_rel_agree; try done. intros i Hi Hw. apply (R6 i); [|done]. by apply Hsub.
  - apply Forall_forall. intros y Hy. rewrite Forall_forall in HG. pose proof (HG y Hy) as Hgy.
    destruct (live_apart _ x y HO Hx ltac:(by apply list_elem_of_In)) as [<-|Hap].
    + destruct Hgx as (G1 & G2 & G3 & _). split; [|split; [|split; [|done]]].
      * eapply agree_word; [exact A|done|]. unfold within. cbn. lia.
      * eapply agree_word; [exact A|done|]. unfold within. cbn. lia.
      * cbn. destruct A as [_ A]. destruct G1 as ((?&_)&_). rewrite A; [done|].
        rewrite Z2Nat.id by lia. unfold within. cbn. lia.
    + eapply guarded_agree; [exact A|done| |].
      * destruct Hgy as (((?&_)&_)&_). done.
      * intros i Hi Hw. apply (Hap i); [by apply Hsub|done].
Qed.

Lemma kept_of P l m m' : agree_out P m m' -> (forall x i, x ∈ l -> within (block x) i -> ~ P i) -> kept l m m'.
Proof. intros [_ A] HP x i Hx Hi. apply A. by eapply HP. Qed.

(** *** free *)
Lemma Free_eq h l1 x l2 : heap_ok h (l1 ++ x :: l2) ->
  wp (Free (fst x + 16)) h (fun r h' => r = Freed /\ heap_ok h' (l1 ++ l2) /\
    kept (l1 ++ l2) (h_mem h) (h_mem h')).
Proof.
  intros H. destruct (heap_ok_parts _ _ H) as (L & HA & HR & HG & HL & HO).
  assert (Hx : x ∈ l1 ++ x :: l2) by (apply elem_of_app; right; left).
  pose proof (live_out_at _ _ _ _ HL Hx) as HRet. pose proof HRet as (R1 & R2 & R3 & R4 & R5 & R6).
  destruct (pairs_remove _ _ _ HO) as [HO' HAp].
  apply Forall_app in HG as [HG1 HG2]. apply Forall_cons_1 in HG2 as [Hgx HG2].
  assert (HG : Forall (guarded (h_mem h)) (l1 ++ l2)) by by apply Forall_app_2.
  assert (HL' : live_out h L (l1 ++ l2)).
  { apply Forall_app in HL as [HL1 HL2]. apply Forall_cons_1 in HL2 as [_ HL2]. by apply Forall_app_2. }
  destruct Hgx as (G1 & G2 & G3 & Hb). destruct x as [q b]. cbn [fst snd] in *.
  destruct (round16_bounds b ltac:(lia)) as (Hr1 & Hr2 & Hr3). pose proof G1 as ((Hq0 & _) & _).
  destruct HR as [(HP & HB & HS)|(_ & _ & _ & _ & B0 & E0 & _)]; [|lia].
  assert (Hin : in_mem (h_mem h) q (round16 b)) by (destruct HP as (_ & _ & P3 & _); eapply in_mem_part; [exact P3|lia..]).
  unfold Free. destruct (Z.eqb_spec (q + 16) 0); [lia|]. cbn [negb]. unfold MALLOCALIGN.
  replace (q + 16 - 16) with q by lia.
  apply wp_bind. eapply wp_rd64; [exact G2|]. change (GAMAGIC =? GAFREE) with false.
  rewrite Z.eqb_refl. cbn [negb]. apply wp_bind, wp_wr64; [apply G2|]. set (h1 := set_mem _ h).
  assert (A1 : agree_out (cell (Some (q + 8))) (h_mem h) (h_mem h1)).
  { apply agree_store; rewrite length_le_enc; [apply G2|done]. }
  assert (W1 : word (h_mem h1) q b) by (eapply agree_word; [exact A1|done|cbn; lia]).
  apply wp_bind. eapply wp_rd64; [exact W1|]. apply wp_bind, wp_on_mem.
  eapply wp_peek; [lia| |].
  { rewrite (proj2 A1); [exact G3|]. rewrite Z2Nat.id by lia. cbn. lia. }
  change (254 =? 255) with false. change (negb (254 =? 254)) with false. cbv iota.
  assert (I3 : in_mem (h_mem h1) (q + b - 1) 1).
  { eapply agree_in_mem; [exact A1|]. eapply in_mem_part; [exact Hin|lia..]. }
  apply wp_bind, wp_on_mem. unfold poke. change (u8 (-1)) with 255. apply wp_poken; [exact I3|].
  set (h2 := set_mem _ _). assert (A2 : agree_out (within (q + b - 1, 1)) (h_mem h1) (h_mem h2)).
  { by apply agree_store. }
  assert (W2 : word (h_mem h2) q b) by (eapply agree_word; [exact A2|done|unfold within; cbn; lia]).
  assert (A12 : agree_out (within (q, round16 b)) (h_mem h) (h_mem h2)).
  { eapply agree_trans; (eapply agree_weaken; [eassumption|]); unfold within; cbn; lia. }
  apply wp_bind. eapply wp_rd64; [exact W2|].
  assert (HR2 : pool_rel h2 L).
  { apply (pool_rel_agree (within (q, round16 b)) h); try done; [by left|]. intros i Hi Hw. by apply (R6 i). }
  destruct HR2 as [(HP2 & _ & _)|(_ & _ & _ & _ & B0 & E0 & _)]; [|cbn in B0, E0; lia].
  apply wp_bind. eapply wp_mono; [by apply (zfree_eq h2 L q b HP2); [lia|]|].
  intros r h3 (-> & Sm & HP3 & A3). apply wp_bind, wp_modify, wp_ret. split; [done|].
  destruct (same_but_pool _ _ Sm) as (B1 & B2 & B3). pose proof Sm as (S1 & S2 & S3 & _).
  set (h4 := set_count _ _ h3). assert (A : agree_out (fun i => within (q, round16 b) i \/ inside L i) (h_mem h) (h_mem h4)).
  { eapply agree_trans; [eapply agree_weaken; [exact A12|by left]|exact A3]. }
  assert (Hfree : forall y i, y ∈ l1 ++ l2 -> within (block y) i -> ~ (within (q, round16 b) i \/ inside L i)).
  { intros y i Hy Hi [Hw|Hw].
    - rewrite Forall_forall in HAp. apply list_elem_of_In in Hy. by apply (HAp y Hy i).
    - destruct (live_out_at _ _ _ _ HL' Hy) as (_ & _ & _ & _ & _ & Q6). by apply (Q6 i). }
  split; [|by eapply kept_of].
  destruct (give_back_ok (mp_Base (MallocPool h)) (mp_End (MallocPool h)) q (round16 b) L (mp_Base (MallocPool h)))
    as (GB1 & GB2 & GB3); [lia|apply HP|done|].
  apply (heap_ok_intro _ (give_back q (round16 b) L)).
  - eapply area_ok_same; try done. apply A.
  - left. split; [exact HP3|]. cbn. rewrite B1, B3, S2, S3. done.
  - apply Forall_forall. intros y Hy. rewrite Forall_forall in HG. pose proof (HG y Hy) as Hgy.
    eapply guarded_agree; [exact A|done| |].
    + destruct Hgy as (((?&_)&_)&_). done.
    + intros i Hi. apply (Hfree y); [by apply list_elem_of_In|done].
  - unfold live_out. cbn. rewrite B1, B2. apply Forall_forall. intros y Hy. apply list_elem_of_In in Hy.
    destruct (live_out_at _ _ _ _ HL' Hy) as (Q1 & Q2 & Q3 & Q4 & Q5 & Q6). split_and!; try done.
    intros i Hi Hg. apply GB2 in Hg. by apply (Hfree y i Hy Hi).
  - done.
Qed.

(** *** realloc, calloc *)
Lemma mbytes_kept live m m' x a n : kept live m m' -> x ∈ live -> 0 <= a ->
  (forall i, a <= i < a + Z.of_nat n -> within (block x) i) -> mbytes m' a n = mbytes m a n.
Proof.
  intros HK Hx Ha H. unfold mbytes. apply list_eq. intros i. rewrite !lookup_sub.
  case_decide; [|done]. apply (HK x); [done|]. apply H. lia.
Qed.

(** What [Realloc] moves. *)
Lemma Realloc_eq h l1 x l2 n : heap_ok h (l1 ++ x :: l2) -> 0 <= n < 2 ^ 31 - 8192 ->
  wp (Realloc (fst x + 16) n) h (fun r h' =>
    (r = Some 0 /\ h' = h) \/
    (exists p, r = Some p /\ p mod 16 = 0 /\ heap_ok h' ((p - 16, n + 17) :: l1 ++ l2) /\
       kept (l1 ++ l2) (h_mem h) (h_mem h') /\
       let k := Z.to_nat (Z.min n (snd x - 17)) in
       mbytes (h_mem h') p k = mbytes (h_mem h) (fst x + 16) k)).
Proof.
  intros H Hn. assert (Hx : x ∈ l1 ++ x :: l2) by (apply elem_of_app; right; left).
  unfold Realloc. apply wp_bind. eapply wp_mono; [by apply Malloc_eq|].
  intros r h1 [(-> & -> & _)|(p & -> & Hp & Hpm & Hok & HK & Hin)]; [by left|].
  destruct (Z.eqb_spec p 0); [lia|]. cbn [negb].
  destruct (heap_ok_parts _ _ Hok) as (L & HA & HR & HG & HL & HO).
  apply Forall_cons_1 in HG as [HGn HG]. apply Forall_app in HG as [HG1 HG2]. apply Forall_cons_1 in HG2 as [Hgx HG2].
  destruct Hgx as (G1 & G2 & G3 & Hb). destruct x as [q b]. cbn [fst snd] in *. pose proof G1 as ((Hq0 & _) & _).
  destruct (round16_bounds b ltac:(lia)) as (Hr1 & Hr2 & Hr3).
  destruct (round16_bounds (n + 17) ltac:(lia)) as (Hs1 & Hs2 & Hs3).
  destruct (Z.eqb_spec (q + 16) 0); [lia|]. cbn [negb andb]. unfold MALLOCALIGN.
  replace (q + 16 - 16) with q by lia. apply wp_bind. eapply wp_rd64; [exact G1|].
  rewrite (u64_small (b - 16)) by lia. rewrite u64_small by lia. replace (b - 16 - 1) with (b - 17) by lia.
  set (k := Z.min n (b - 17)).
  assert (Hxin : in_mem (h_mem h1) (q + 16) (b - 17)).
  { pose proof (live_out_at _ _ _ (q, b) HL ltac:(right; done)) as (Q1 & Q2 & _). cbn in Q1, Q2.
    destruct HR as [((P1 & P2 & P3 & _) & _)|(_ & _ & _ & _ & B0 & E0 & _)]; [|lia].
    eapply in_mem_part; [exact P3|lia..]. }
  assert (I1 : in_mem (h_mem h1) (q + 16) k) by (eapply in_mem_part; [exact Hxin|lia..]).
  assert (I2 : in_mem (h_mem h1) p k) by (eapply in_mem_part; [exact Hin|lia..]).
  apply wp_bind. set (m2 := mstore (h_mem h1) p (mbytes (h_mem h1) (q + 16) (Z.to_nat k))).
  assert (Lk : length (mbytes (h_mem h1) (q + 16) (Z.to_nat k)) = Z.to_nat k).
  { apply length_mbytes. rewrite Z2Nat.id by lia. done. }
  assert (A2 : agree_out (within (p - 16 + 16, n + 17 - 17)) (h_mem h1) m2).
  { apply agree_store; rewrite Lk, Z2Nat.id by lia; [done|]. unfold within. cbn. lia. }
  assert (Hcopy : wp (if b - 17 <? n then on_mem (bcopy (q + 16) p (b - 17)) else on_mem (bcopy (q + 16) p n)) h1
    (fun _ h2 => h2 = set_mem m2 h1)).
  { destruct (Z.ltb_spec (b - 17) n); apply wp_on_mem.
    - eapply wp_mono; [apply wp_bcopy; [exact Hxin|eapply in_mem_part; [exact Hin|lia..]]|].
      intros _ m ->. unfold m2, k. by rewrite Z.min_r by lia.
    - eapply wp_mono; [apply wp_bcopy; [eapply in_mem_part; [exact Hxin|lia..]|exact Hin]|].
      intros _ m ->. unfold m2, k. by rewrite Z.min_l by lia. }
  eapply wp_mono; [exact Hcopy|]. intros _ h2 ->.
  pose proof (heap_ok_user h1 _ (p - 16, n + 17) m2 Hok ltac:(left) A2) as Hok2.
  apply wp_bind. eapply wp_mono; [apply (Free_eq (set_mem m2 h1) ((p - 16, n + 17) :: l1) (q, b) l2 Hok2)|].
  cbn [fst snd app]. intros f h3 (-> & Hok3 & HK3). apply wp_ret. right. exists p. split; [done|]. split; [done|].
  split; [exact Hok3|].
  assert (HKn : forall y i, y ∈ l1 ++ (q, b) :: l2 -> within (block y) (Z.of_nat i) -> m2 !! i = h_mem h1 !! i).
  { intros y i Hy Hi. apply A2. intros Hw. inversion HO as [|? ? HO1 HO2]; subst.
    rewrite Forall_forall in HO1. apply list_elem_of_In in Hy. apply (HO1 y Hy (Z.of_nat i)); [|done].
    unfold within, block in *. cbn in *. lia. }
  split.
  - intros y i Hy Hi. rewrite (HK3 y i) by (done || by right).
    assert (Hy' : y ∈ l1 ++ (q, b) :: l2) by (apply elem_of_app in Hy; apply elem_of_app; destruct Hy; [by left|right; by right]).
    cbn. rewrite (HKn y i) by done. by apply (HK y).
  - cbv zeta. rewrite (mbytes_kept _ _ _ (p - 16, n + 17) p (Z.to_nat k) HK3); [|left|lia|unfold within, block; cbn; lia].
    cbn [h_mem set_mem]. assert (E2 : mbytes m2 p (Z.to_nat k) = mbytes (h_mem h1) (q + 16) (Z.to_nat k)).
    { pose proof (sub_splice_same (Z.to_nat p) (mbytes (h_mem h1) (q + 16) (Z.to_nat k)) (h_mem h1)) as E.
      rewrite Lk in E. apply E. destruct I2 as (?&?&?). lia. }
    rewrite E2. apply (mbytes_kept _ _ _ (q, b) (q + 16) (Z.to_nat k) HK); [|lia|unfold within, block; cbn; lia].
    apply elem_of_app. right. left.
Qed.

Lemma Calloc_eq h live n1 n2 : heap_ok h live -> u64 (n1 * n2) < 2 ^ 31 - 8192 ->
  wp (Calloc n1 n2) h (fun r h' =>
    (r = Some 0 /\ h' = h) \/
    (exists p, r = Some p /\ p mod 16 = 0 /\ heap_ok h' ((p - 16, u64 (n1 * n2) + 17) :: live) /\
       kept live (h_mem h) (h_mem h') /\
       mbytes (h_mem h') p (Z.to_nat (u64 (n1 * n2))) = replicate (Z.to_nat (u64 (n1 * n2))) 0)).
Proof.
  intros H Hn. pose proof (u64_bound (n1 * n2)) as Hb. unfold Calloc. set (n := u64 (n1 * n2)) in *.
  apply wp_bind. eapply wp_mono; [apply (Malloc_eq h live n H); lia|].
  intros r h1 [(-> & -> & _)|(p & -> & Hp & Hpm & Hok & HK & Hin)]; [by left|].
  destruct (Z.eqb_spec p 0); [lia|]. cbn [negb]. apply wp_bind, wp_on_mem. unfold wp.
  rewrite bzero_eq by done. cbn. right. exists p. split; [done|]. split; [done|].
  set (m2 := mstore _ _ _).
  assert (A2 : agree_out (within (p - 16 + 16, n + 17 - 17)) (h_mem h1) m2).
  { apply agree_store; rewrite length_replicate, Z2Nat.id by lia; [done|]. unfold within. cbn. lia. }
  split; [by apply (heap_ok_user h1 _ (p - 16, n + 17)); [|left|]|]. split.
  - eapply kept_trans; [exact HK|]. destruct (heap_ok_parts _ _ Hok) as (L & _ & _ & _ & _ & HO).
    destruct (round16_bounds (n + 17) ltac:(lia)) as (Hs1 & Hs2 & Hs3).
    eapply kept_of; [exact A2|]. intros y i Hy Hi Hw. inversion HO as [|? ? HO1 HO2]; subst.
    rewrite Forall_forall in HO1. apply list_elem_of_In in Hy. apply (HO1 y Hy i); [|done].
    unfold within, block in *. cbn in *. lia.
  - pose proof (sub_splice_same (Z.to_nat p) (replicate (Z.to_nat n) 0) (h_mem h1)) as E.
    rewrite length_replicate in E. apply E. destruct Hin as (?&?&?). lia.
Qed.

(** ** The properties *)

(** [znalloc] on a pool in order takes the first free block that is large enough and
    cuts the block returned from its beginning: the block is aligned, lies in what was
    free and outside what stays free, the list stays in order of address with no two
    blocks touching, [mp_Used] counts the bytes that are not free, and no byte outside
    the free blocks changes; when no block fits it returns NULL and changes nothing. *)
Theorem znalloc_first_fit h L bytes : pool_ok h L -> 0 < bytes < 2 ^ 64 - 16 ->
  wp (znalloc bytes) h (fun r h' =>
    match first_fit (round16 bytes) L with
    | None => r = 0 /\ h' = h /\ Forall (fun x => snd x < round16 bytes) L
    | Some (q, L') => r = q /\ pool_ok h' L' /\ q mod 16 = 0 /\ bytes <= round16 bytes < bytes + 16 /\
        (forall i, within (q, round16 bytes) i -> inside L i /\ ~ inside L' i) /\
        (forall i, inside L' i -> inside L i) /\ total L = round16 bytes + total L' /\
        agree_out (inside L) (h_mem h) (h_mem h')
    end).
Proof.
  intros HP Hb. pose proof (round16_bounds bytes Hb) as (B1 & B2 & B3).
  eapply wp_mono; [by apply (znalloc_eq h L bytes)|]. intros r h'.
  destruct (first_fit (round16 bytes) L) as [[q L']|] eqn:E.
  - intros (-> & Sm & HP' & A). pose proof HP as (P1 & P2 & _ & _ & P5 & _).
    destruct (first_fit_ordered (mp_End (MallocPool h)) (round16 bytes) L (mp_Base (MallocPool h)) q L')
      as (O1 & O2 & O3 & O4 & O5 & O6 & O7 & O8); [lia|done|done|done|].
    do 4 (split; [done|]). split; [|done]. intros i Hi. split; [by apply O5|]. intros Hin. by apply (O7 i).
  - intros [-> ->]. split; [done|]. split; [done|]. by apply first_fit_none.
Qed.

Lemma heap1_pool : pool_ok heap1 [(32, 48)].
Proof.
  unfold pool_ok. split; [done|]. split; [done|]. split; [split_and!; vm_compute; discriminate|]. split.
  - exists 32. split; [done|]. split; [done|]. exists 0.
    split; [|done]. split; (split; [split_and!; vm_compute; discriminate|]; split; [vm_compute; done|];
      split; [discriminate|done]).
  - split; [|split; done]. cbn. split_and!; done.
Qed.

Lemma znalloc_first_fit_witness :
  exists h', znalloc 20 heap1 = Some (32, h') /\ pool_ok h' [(64, 16)].
Proof.
  pose proof (znalloc_first_fit heap1 [(32, 48)] 20 heap1_pool ltac:(split; done)) as W.
  apply wp_elim in W as (r & h' & E & -> & HP & _). exists h'. split; [exact E|exact HP].
Defined.

(** [zfree] of an aligned block of the pool that overlaps no free block puts it in
    its place in the list and joins it with the free blocks it touches, so that what is
    free afterwards is what was free and the block; any other block, which is misaligned,
    out of the pool or overlaps a free block, is detected and is a panic. *)
Theorem zfree_coalesces h L p bytes : pool_ok h L -> 0 < bytes < 2 ^ 64 - 16 ->
  0 <= p -> p + round16 bytes < 2 ^ 64 ->
  let R := returnable (mp_Base (MallocPool h)) (mp_End (MallocPool h)) p (round16 bytes) L in
  (R -> wp (zfree p bytes) h (fun r h' => r = true /\ pool_ok h' (give_back p (round16 bytes) L) /\
     (forall i, inside (give_back p (round16 bytes) L) i <-> within (p, round16 bytes) i \/ inside L i) /\
     total (give_back p (round16 bytes) L) = round16 bytes + total L /\
     agree_out (fun i => within (p, round16 bytes) i \/ inside L i) (h_mem h) (h_mem h'))) /\
  (~ R -> wp (zfree p bytes) h (fun r _ => r = false)).
Proof.
  intros HP Hb Hp Hpb R. split; [|by apply (zfree_wild h L)].
  intros HR. eapply wp_mono; [by apply (zfree_eq h L p bytes)|]. intros r h' (-> & Sm & HP' & A).
  destruct (give_back_ok (mp_Base (MallocPool h)) (mp_End (MallocPool h)) p (round16 bytes) L (mp_Base (MallocPool h)))
    as (G1 & G2 & G3); [apply HR|apply HP|done|]. done.
Qed.

Lemma zfree_coalesces_witness :
  (exists h', zfree 16 16 heap1 = Some (true, h') /\ pool_ok h' [(16, 64)]) /\
  (exists h', zfree 16 32 heap1 = Some (false, h')).
Proof.
  split.
  - pose proof (zfree_coalesces heap1 [(32, 48)] 16 16 heap1_pool ltac:(split; done)
      ltac:(discriminate) ltac:(done)) as [W _].
    apply wp_elim in W as (r & h' & E & -> & HP & _); [by exists h'|].
    split_and!; try done.
    intros i Hi Hin. apply Exists_cons in Hin as [Hin|Hin]; [|by apply Exists_nil in Hin].
    destruct Hi as [_ Hi], Hin as [Hin _]. change (i < 32) in Hi. change (32 <= i) in Hin. lia.
  - pose proof (zfree_coalesces heap1 [(32, 48)] 16 32 heap1_pool ltac:(split; done)
      ltac:(discriminate) ltac:(done)) as [_ W].
    apply wp_elim in W as (r & h' & E & ->); [by exists h'|].
    intros (_ & _ & _ & _ & _ & R6). apply (R6 32).
    + split; [discriminate|done].
    + left. split; [discriminate|done].
Defined.


Lemma heap0_ok : heap_ok heap0 [].
Proof.
  split.
  - unfold area_ok, in_mem, heap0, setheap. cbn [h_mem heapbase heapsize maxheap].
    rewrite length_replicate, Z2Nat.id by done. split_and!; done.
  - exists []. split; [|split; constructor]. right. done.
Qed.




(** [realloc] moves a block: either it returns NULL and nothing changes, or the new
    block holds the first bytes of the old one, as many as both have, the old block is
    free and every other block keeps its contents. *)
Theorem realloc_moves h l1 x l2 n : heap_ok h (l1 ++ x :: l2) -> 0 <= n < 2 ^ 31 - 8192 ->
  wp (Realloc (fst x + 16) n) h (fun r h' =>
    (r = Some 0 /\ h' = h) \/
    (exists p, r = Some p /\ p mod 16 = 0 /\ heap_ok h' ((p - 16, n + 17) :: l1 ++ l2) /\
       kept (l1 ++ l2) (h_mem h) (h_mem h') /\
       let k := Z.to_nat (Z.min n (snd x - 17)) in
       mbytes (h_mem h') p k = mbytes (h_mem h) (fst x + 16) k)).
Proof. apply Realloc_eq. Qed.

Lemma realloc_moves_witness :
  exists p h' r h'', Malloc 100 heap0 = Some (Some p, h') /\ Realloc (p - 16 + 16) 50 h' = Some (r, h'').
Proof.
  pose proof (Malloc_eq heap0 [] 100 heap0_ok ltac:(split; [discriminate|reflexivity])) as W.
  rewrite wp_elim in W. destruct W as (r & h' & E & [(_ & _ & Hx & _)|(p & -> & _ & _ & Hok & _)]); [vm_compute in Hx; discriminate Hx|].
  pose proof (realloc_moves h' [] (p - 16, 117) [] 50 Hok ltac:(split; [discriminate|reflexivity])) as W.
  rewrite wp_elim in W. destruct W as (r & h'' & E2 & _). exists p, h', r, h''. split; [exact E|exact E2].
Defined.

(** [calloc] returns a block of zeroes, but of the size that the product of its
    arguments has modulo 2^64: the multiplication is not checked, so that a request for
    more memory than there is can be granted with a block that is too small. *)
Theorem calloc_wraps h live n1 n2 : heap_ok h live -> u64 (n1 * n2) < 2 ^ 31 - 8192 ->
  wp (Calloc n1 n2) h (fun r h' =>
    (r = Some 0 /\ h' = h) \/
    (exists p, r = Some p /\ p mod 16 = 0 /\ heap_ok h' ((p - 16, u64 (n1 * n2) + 17) :: live) /\
       kept live (h_mem h) (h_mem h') /\
       mbytes (h_mem h') p (Z.to_nat (u64 (n1 * n2))) = replicate (Z.to_nat (u64 (n1 * n2))) 0)).
Proof. apply Calloc_eq. Qed.

(** [calloc(2^60 + 1, 16)] is granted, with 16 bytes. *)
Lemma calloc_wraps_witness :
  exists r h', Calloc (2 ^ 60 + 1) 16 heap0 = Some (r, h').
Proof.
  pose proof (calloc_wraps heap0 [] (2 ^ 60 + 1) 16 heap0_ok ltac:(reflexivity)) as W.
  rewrite wp_elim in W. destruct W as (r & h' & E & _). exists r, h'. exact E.
Defined.


