(* ===== verification/Environment.v ===== *)
(** * Environment: the variables of the boot loader (lib/libstand/environment.c)

    A doubly linked list of [struct env_var], kept in the order of [strcmp], with the
    strings it owns in a heap it shares with its callers, and strdup.c.  The
    specification is a finite map from names to values ([env_rep]): the list, its
    order, the links and the ownership of every string are the representation. *)
From Stdlib Require Import ZArith Lia Sorting.Sorted String.
From stdpp Require Import base list option gmap sorting.
From S2P Require Import Prelude Dll CMem CString.
Open Scope Z_scope.

(** A [char *]: a string literal, or a place in an allocated object. *)
Inductive cptr : Type :=
| CLit (s : list Z)
| CObj (b : loc) (ofs : nat).

(** A [ev_sethook_t *] and a [ev_unsethook_t *]: [env_noset] and [env_nounset], or a
    function of a client. *)
Inductive sethook : Type := env_noset_fn | sethook_fn (n : nat).
Inductive unsethook : Type := env_nounset_fn | unsethook_fn (n : nat).

Definition EV_DYNAMIC := 0x1.
Definition EV_VOLATILE := 0x2.
Definition EV_NOHOOK := 0x4.

Definition EPERM := 1.
Definition ENOENT := 2.

(** [struct env_var]. *)
Record env_var := EnvVar {
  ev_name : option cptr;
  ev_flags : Z;
  ev_value : option cptr;
  ev_sethook : option sethook;
  ev_unsethook : option unsethook;
  ev_next : option loc;
  ev_prev : option loc;
}.

Definition set_ev_value (p : option cptr) (n : env_var) : env_var :=
  EnvVar (ev_name n) (ev_flags n) p (ev_sethook n) (ev_unsethook n) (ev_next n) (ev_prev n).
Definition set_ev_flags (f : Z) (n : env_var) : env_var :=
  EnvVar (ev_name n) f (ev_value n) (ev_sethook n) (ev_unsethook n) (ev_next n) (ev_prev n).
Definition set_ev_next (q : option loc) (n : env_var) : env_var :=
  EnvVar (ev_name n) (ev_flags n) (ev_value n) (ev_sethook n) (ev_unsethook n) q (ev_prev n).
Definition set_ev_prev (p : option loc) (n : env_var) : env_var :=
  EnvVar (ev_name n) (ev_flags n) (ev_value n) (ev_sethook n) (ev_unsethook n) (ev_next n) p.

(** The memory: the variables, the character objects (with their NUL bytes), the number
    of allocations made, and the global [environ]. *)
Record env := Env {
  e_vars : gmap loc env_var;
  e_strs : gmap loc (list Z);
  e_brk : loc;
  e_environ : option loc;
}.

Definition on_vars (f : gmap loc env_var -> gmap loc env_var) (e : env) : env :=
  Env (f (e_vars e)) (e_strs e) (e_brk e) (e_environ e).
Definition on_strs (f : gmap loc (list Z) -> gmap loc (list Z)) (e : env) : env :=
  Env (e_vars e) (f (e_strs e)) (e_brk e) (e_environ e).
Definition on_ebrk (f : loc -> loc) (e : env) : env :=
  Env (e_vars e) (e_strs e) (f (e_brk e)) (e_environ e).
Definition set_environ (q : option loc) (e : env) : env :=
  Env (e_vars e) (e_strs e) (e_brk e) q.

(** The string at a pointer: an object must hold its terminating NUL. *)
Definition str_at (m : gmap loc (list Z)) (p : cptr) : option (list Z) :=
  match p with
  | CLit s => Some (cbytes s)
  | CObj b o =>
    l ← m !! b; if decide (0 ∈ drop o l) then Some (cbytes (drop o l)) else None
  end.

(** [strcmp], as [CString.strings_compared] has it. *)
Definition str_cmp (a b : list Z) : Z := list_cmp (a ++ [0]) (b ++ [0]).

Section environment.
(** Whether the [k]-th allocation succeeds, and the hooks of the clients. *)
Context (alloc : loc -> bool).
Context (sethooks : nat -> loc -> Z -> option cptr -> St env Z).
Context (unsethooks : nat -> loc -> St env Z).

Definition load_ev (x : loc) : St env env_var := fun e => of_opt (e_vars e !! x) e.
Definition update_ev (x : loc) (f : env_var -> env_var) : St env unit := fun e =>
  _ ← e_vars e !! x; Some (tt, on_vars (alter f x) e).
(** Reading the string at a pointer that must not be NULL. *)
Definition read_str (p : option cptr) : St env (list Z) := fun e =>
  match p with Some p => of_opt (str_at (e_strs e) p) e | None => None end.

Definition malloc_str (d : list Z) : St env (option loc) := fun e =>
  let k := e_brk e in
  let e := on_ebrk S e in
  if alloc k then Some (Some k, on_strs <[k := d]> e) else Some (None, e).
Definition malloc_ev (n : env_var) : St env (option loc) := fun e =>
  let k := e_brk e in
  let e := on_ebrk S e in
  if alloc k then Some (Some k, on_vars <[k := n]> e) else Some (None, e).
Definition free_str (p : option cptr) : St env unit := fun e =>
  match p with
  | None => Some (tt, e)
  | Some (CObj b O) => _ ← e_strs e !! b; Some (tt, on_strs (delete b) e)
  | Some _ => None
  end.
Definition free_ev (x : loc) : St env unit := fun e =>
  _ ← e_vars e !! x; Some (tt, on_vars (delete x) e).

(** strdup.c *)
Definition strdup (str : option cptr) : St env (option cptr) :=
  match str with
  | None => mret None
  | Some p =>
    s ← read_str (Some p);
    copy ← malloc_str (s ++ [0]);
    mret ((fun b => CObj b 0) <$> copy)
  end.

(** ** environment.c *)
Fixpoint getenv_loop (fuel : nat) (ev : option loc) (name : option cptr) : St env (option loc) :=
  match ev with
  | None => mret None
  | Some x =>
    match fuel with
    | O => ub
    | S fuel =>
      n ← load_ev x;
      a ← read_str (ev_name n);
      b ← read_str name;
      if str_cmp a b =? 0 then mret ev else getenv_loop fuel (ev_next n) name
    end
  end.

Definition env_getenv (name : option cptr) : St env (option loc) :=
  fuel ← gets (fun e => S (size (e_vars e)));
  ev ← gets e_environ;
  getenv_loop fuel ev name.

Definition call_sethook (h : sethook) (ev : loc) (flags : Z) (value : option cptr) : St env Z :=
  match h with
  | env_noset_fn => mret EPERM
  | sethook_fn n => sethooks n ev flags value
  end.
Definition call_unsethook (h : unsethook) (ev : loc) : St env Z :=
  match h with
  | env_nounset_fn => mret EPERM
  | unsethook_fn n => unsethooks n ev
  end.

(** [p->next = ev], or [environ = ev] where there is no [p]. *)
Definition link_from (p : option loc) (ev : option loc) : St env unit :=
  match p with
  | Some p => update_ev p (set_ev_next ev)
  | None => modify (set_environ ev)
  end.

(** The search for the variable to insert [ev] before, and the insertion. *)
Fixpoint insert_loop (fuel : nat) (ev : loc) (last curr : option loc) : St env unit :=
  match curr with
  | None =>
    link_from last (Some ev);;
    match last with
    | Some _ => update_ev ev (set_ev_prev last)
    | None => mret tt
    end
  | Some c =>
    match fuel with
    | O => ub
    | S fuel =>
      n ← load_ev ev;
      m ← load_ev c;
      a ← read_str (ev_name n);
      b ← read_str (ev_name m);
      if str_cmp a b <? 0 then
        link_from (ev_prev m) (Some ev);;
        update_ev ev (set_ev_next (Some c));;
        update_ev ev (set_ev_prev (ev_prev m));;
        update_ev c (set_ev_prev (Some ev))
      else insert_loop fuel ev (Some c) (ev_next m)
    end
  end.

(** The [else] branch of [env_setenv]: a new variable, sorted into the list. *)
Definition new_var (name : option cptr) (sh : option sethook) (uh : option unsethook) :
    St env loc :=
  ev ← malloc_ev (EnvVar None 0 None sh uh None None);
  match ev with
  | None => ub
  | Some ev =>
    nm ← strdup name;
    update_ev ev (fun n => EnvVar nm (ev_flags n) (ev_value n) (ev_sethook n)
      (ev_unsethook n) (ev_next n) (ev_prev n));;
    fuel ← gets (fun e => S (size (e_vars e)));
    curr ← gets e_environ;
    insert_loop fuel ev None curr;;
    mret ev
  end.

Definition dynamic (n : env_var) : bool := negb (Z.land (ev_flags n) EV_DYNAMIC =? 0).

(** [if (ev->ev_value != NULL && (ev->ev_flags & EV_DYNAMIC) != 0) free(ev->ev_value);] *)
Definition free_value (ev : loc) : St env unit :=
  n ← load_ev ev;
  if dynamic n then free_str (ev_value n) else mret tt.

(** [ev->ev_value = NULL; ev->ev_flags &= ~EV_DYNAMIC] *)
Definition clear_value (ev : loc) : St env unit :=
  free_value ev;;
  update_ev ev (set_ev_value None);;
  update_ev ev (fun n => set_ev_flags (Z.land (ev_flags n) (Z.lnot EV_DYNAMIC)) n).

(** The end of [env_setenv]: the new value. *)
Definition put_value (ev : loc) (flags : Z) (value : option cptr) : St env unit :=
  if negb (Z.land flags EV_VOLATILE =? 0) then
    copy ← strdup value;
    update_ev ev (set_ev_value copy);;
    update_ev ev (fun n => set_ev_flags (Z.lor (ev_flags n) EV_DYNAMIC) n)
  else
    update_ev ev (set_ev_value value);;
    update_ev ev (fun n => set_ev_flags (Z.lor (ev_flags n) (Z.land flags EV_DYNAMIC)) n).

Definition env_setenv (name : option cptr) (flags : Z) (value : option cptr)
    (sh : option sethook) (uh : option unsethook) : St env Z :=
  ev ← env_getenv name;
  match ev with
  | Some ev =>
    n ← load_ev ev;
    match ev_sethook n, Z.land flags EV_NOHOOK =? 0 with
    | Some h, true => call_sethook h ev flags value
    | _, _ => clear_value ev;; put_value ev flags value;; mret 0
    end
  | None =>
    ev ← new_var name sh uh;
    put_value ev flags value;; mret 0
  end.

Definition getenv (name : option cptr) : St env (option cptr) :=
  ev ← env_getenv name;
  match ev with
  | Some ev =>
    n ← load_ev ev;
    match ev_value n with
    | Some p => mret (Some p)
    | None => mret (Some (CLit []))
    end
  | None => mret None
  end.

Definition setenv (name value : option cptr) (overwrite : bool) : St env Z :=
  go ← (if overwrite then mret true else ev ← env_getenv name; mret (bool_decide (ev = None)));
  if go : bool then env_setenv name EV_VOLATILE value None None else mret 0.

(** [*p = 0] *)
Definition put_nul (b : loc) (o : nat) : St env unit := fun e =>
  l ← e_strs e !! b;
  if decide (o < length l)%nat then Some (tt, on_strs <[b := <[o := 0]> l]> e) else None.

Definition putenv (string : option cptr) : St env Z :=
  copy ← strdup string;
  match copy with
  | Some (CObj b o) =>
    s ← read_str copy;
    value ← match index_of 61 s with
            | Some i => put_nul b (o + i);; mret (Some (CObj b (S (o + i))))
            | None => mret None
            end;
    result ← setenv copy value true;
    free_str copy;;
    mret result
  | _ => ub
  end.

Definition env_discard (ev : loc) : St env unit :=
  n ← load_ev ev;
  match ev_prev n with
  | Some p => update_ev p (set_ev_next (ev_next n))
  | None => mret tt
  end;;
  match ev_next n with
  | Some q => update_ev q (set_ev_prev (ev_prev n))
  | None => mret tt
  end;;
  environ ← gets e_environ;
  (if decide (environ = Some ev) then modify (set_environ (ev_next n)) else mret tt);;
  free_str (ev_name n);;
  free_value ev;;
  free_ev ev.

Definition unsetenv (name : option cptr) : St env Z :=
  ev ← env_getenv name;
  match ev with
  | None => mret ENOENT
  | Some ev =>
    n ← load_ev ev;
    err ← match ev_unsethook n with
          | Some h => call_unsethook h ev
          | None => mret 0
          end;
    (if err =? 0 then env_discard ev else mret tt);;
    mret err
  end.
End environment.

(** ** The order of [strcmp] *)
Definition str_lt (a b : list Z) : Prop := str_cmp a b < 0.

Lemma str_cmp_eq a b : cstring_ok a -> cstring_ok b -> str_cmp a b = 0 <-> a = b.
Proof. apply list_cmp_strings. Qed.

Lemma list_cmp_opp a b : list_cmp b a = - list_cmp a b.
Proof.
  revert b. induction a as [|x a IH]; intros [|y b]; cbn [list_cmp]; try done.
  rewrite (Z.eqb_sym y x), IH. destruct (x =? y); lia.
Qed.


Lemma str_lt_total a b : cstring_ok a -> cstring_ok b -> a <> b -> 0 <= str_cmp a b -> str_lt b a.
Proof.
  intros Ha Hb Hne H. unfold str_lt, str_cmp in *. rewrite list_cmp_opp.
  enough (list_cmp (a ++ [0]) (b ++ [0]) <> 0) by lia. by rewrite list_cmp_strings.
Qed.

Lemma str_lt_trans a b c :
  cstring_ok a -> cstring_ok b -> cstring_ok c -> str_lt a b -> str_lt b c -> str_lt a c.
Proof.
  unfold str_lt, str_cmp. intros Ha Hb Hc. revert b c Hb Hc.
  induction Ha as [|x a Hx Ha IH]; intros b c Hb Hc;
    destruct Hb as [|y b Hy Hb]; destruct Hc as [|z c Hz Hc]; cbn [app list_cmp];
    repeat match goal with |- context [?u =? ?v] => destruct (Z.eqb_spec u v) end;
    subst; try lia. by apply IH.
Qed.

Lemma str_lt_irrefl a : cstring_ok a -> ~ str_lt a a.
Proof.
  intros Ha H. unfold str_lt in H. rewrite (proj2 (str_cmp_eq a a Ha Ha) eq_refl) in H. lia.
Qed.

(** ** Representation *)

(** What a [struct env_var] carries besides its links. *)
Record evp := Evp {
  p_name : option cptr;
  p_flags : Z;
  p_value : option cptr;
  p_sethook : option sethook;
  p_unsethook : option unsethook;
}.

Definition evp_of (n : env_var) : evp :=
  Evp (ev_name n) (ev_flags n) (ev_value n) (ev_sethook n) (ev_unsethook n).

#[export] Instance env_linked : Linked env_var evp.
Proof.
  by refine {| lk_next := ev_next; lk_prev := ev_prev; lk_val := evp_of;
    lk_set_next := set_ev_next; lk_set_prev := set_ev_prev |}.
Defined.

(** The value of a variable: none, an object the environment owns, or a pointer of the
    caller's. *)
Inductive aval : Type := VNone | VOwn (buf : list Z) | VBorrow (p : cptr).

Record avar := AVar {
  a_value : aval;
  a_sethook : option sethook;
  a_unsethook : option unsethook;
}.

Inductive value_is (flags : Z) : option cptr -> aval -> list (loc * list Z) -> Prop :=
| value_none : value_is flags None VNone []
| value_own b buf : Z.testbit flags 0 = true ->
    value_is flags (Some (CObj b 0)) (VOwn buf) [(b, buf)]
| value_borrow p : Z.testbit flags 0 = false -> value_is flags (Some p) (VBorrow p) [].

(** A variable of the list, its name, its meaning, and the strings it owns. *)
Inductive entry : evp -> list Z -> avar -> list (loc * list Z) -> Prop :=
| entry_intro bn nm flags p val sh uh own :
    cstring_ok nm -> value_is flags p val own ->
    entry (Evp (Some (CObj bn 0)) flags p sh uh) nm (AVar val sh uh) ((bn, nm ++ [0]) :: own).

Inductive entries : list (loc * evp) -> list (list Z * avar) -> list (loc * list Z) -> Prop :=
| entries_nil : entries [] [] []
| entries_cons x v nm a own l nas owns :
    entry v nm a own -> entries l nas owns ->
    entries ((x, v) :: l) ((nm, a) :: nas) (own ++ owns).

(** The state [e] holds the variables [nas] in the list [l]; besides the strings they
    own, the character objects are those of [F], the callers'. *)
Record env_shape (e : env) (l : list (loc * evp)) (nas : list (list Z * avar))
    (own : list (loc * list Z)) (F : gmap loc (list Z)) : Prop := {
  sh_dll : dll (e_vars e) None l None;
  sh_nodup : NoDup l.*1;
  sh_dom : forall x, is_Some (e_vars e !! x) -> x ∈ l.*1;
  sh_head : e_environ e = first_of l None;
  sh_entries : entries l nas own;
  sh_strs : map_to_list (e_strs e) ≡ₚ own ++ map_to_list F;
  sh_fresh : forall b, (e_brk e <= b)%nat -> e_vars e !! b = None /\ e_strs e !! b = None;
  sh_sorted : StronglySorted str_lt nas.*1;
}.

(** The environment [e] is the finite map [M] from names to values. *)
Definition env_rep (e : env) (M : gmap (list Z) avar) (F : gmap loc (list Z)) : Prop :=
  exists l nas own, env_shape e l nas own F /\ M = list_to_map nas.

Lemma entries_app l1 n1 o1 l2 n2 o2 :
  entries l1 n1 o1 -> entries l2 n2 o2 -> entries (l1 ++ l2) (n1 ++ n2) (o1 ++ o2).
Proof.
  induction 1; [done|]. intros. cbn [app]. rewrite <- app_assoc. constructor; auto.
Qed.

Lemma entries_split l1 l2 nas own :
  entries (l1 ++ l2) nas own ->
  exists n1 n2 o1 o2, nas = n1 ++ n2 /\ own = o1 ++ o2 /\
    entries l1 n1 o1 /\ entries l2 n2 o2.
Proof.
  revert nas own. induction l1 as [|[x v] l1 IH]; intros nas own H.
  - exists [], nas, [], own. split_and!; done || constructor.
  - inversion H; subst. destruct (IH _ _ H6) as (n1 & n2 & o1 & o2 & -> & -> & ? & ?).
    exists ((nm, a) :: n1), n2, (own0 ++ o1), o2. rewrite app_assoc.
    split_and!; try done. by constructor.
Qed.

Lemma entries_names l nas own : entries l nas own -> Forall cstring_ok nas.*1.
Proof. induction 1 as [|???????? []]; constructor; done. Qed.

Lemma cbytes_cstring s r : cstring_ok s -> cbytes (s ++ 0 :: r) = s.
Proof.
  induction 1 as [|c s Hc Hs IH]; cbn [app cbytes]; [done|].
  destruct (Z.eqb_spec c 0); [lia|]. by f_equal.
Qed.

Lemma str_at_dup m b s : cstring_ok s -> m !! b = Some (s ++ [0]) -> str_at m (CObj b 0) = Some s.
Proof.
  intros Hs E. cbn [str_at]. rewrite E. cbn. rewrite drop_0, decide_True.
  - by rewrite cbytes_cstring.
  - apply elem_of_app. right. apply elem_of_cons. by left.
Qed.

(** Objects that are the environment's, and objects that are the callers'. *)
Abbreviation strs := (gmap loc (list Z)) (only parsing).

Lemma strs_own (m : strs) own (F : strs) b buf :
  map_to_list m ≡ₚ own ++ map_to_list F -> (b, buf) ∈ own -> m !! b = Some buf.
Proof.
  intros P H. apply elem_of_map_to_list. rewrite P. apply elem_of_app. by left.
Qed.

Lemma strs_frame (m : strs) own (F : strs) b buf :
  map_to_list m ≡ₚ own ++ map_to_list F -> F !! b = Some buf -> m !! b = Some buf.
Proof.
  intros P H. apply elem_of_map_to_list. rewrite P. apply elem_of_app. right.
  by apply elem_of_map_to_list.
Qed.

Lemma str_at_frame m own (F : strs) p s :
  map_to_list m ≡ₚ own ++ map_to_list F -> str_at F p = Some s -> str_at m p = Some s.
Proof.
  intros P. destruct p as [|b o]; [done|]. cbn [str_at].
  destruct (F !! b) as [buf|] eqn:E; [|done]. by rewrite (strs_frame _ _ _ _ _ P E).
Qed.

(** Freeing an owned object, and a fresh one. *)
Lemma strs_delete (m : strs) b buf rest :
  map_to_list m ≡ₚ (b, buf) :: rest -> map_to_list (delete b m) ≡ₚ rest.
Proof.
  intros P1. assert (E : m !! b = Some buf).
  { apply elem_of_map_to_list. rewrite P1. apply elem_of_cons. by left. }
  apply (Permutation_cons_inv (a := (b, buf))). rewrite <- P1. by apply map_to_list_delete.
Qed.

Lemma strs_insert (m : strs) own b buf :
  m !! b = None -> map_to_list m ≡ₚ own -> map_to_list (<[b:=buf]> m) ≡ₚ (b, buf) :: own.
Proof. intros E P. rewrite map_to_list_insert by done. by rewrite P. Qed.

(** The variable [nm] sits at [x], between two parts of the list. *)
Definition found (l : list (loc * evp)) (nas : list (list Z * avar)) (own : list (loc * list Z))
    (nm : list Z) (x : loc) (v : evp) (a : avar) : Prop :=
  exists l1 l2 n1 n2 o1 o o2,
    l = l1 ++ (x, v) :: l2 /\ nas = n1 ++ (nm, a) :: n2 /\ own = o1 ++ o ++ o2 /\
    entries l1 n1 o1 /\ entry v nm a o /\ entries l2 n2 o2.

Section rules.
Context (alloc : loc -> bool).
Context (sethooks : nat -> loc -> Z -> option cptr -> St env Z).
Context (unsethooks : nat -> loc -> St env Z).

Lemma wp_load_ev x n e (Q : env_var -> env -> Prop) :
  e_vars e !! x = Some n -> Q n e -> wp (load_ev x) e Q.
Proof. intros H HQ. unfold wp, load_ev. by rewrite H. Qed.

Lemma wp_update_ev x f e (Q : unit -> env -> Prop) :
  is_Some (e_vars e !! x) -> Q tt (on_vars (alter f x) e) -> wp (update_ev x f) e Q.
Proof. intros [n H] HQ. unfold wp, update_ev. by rewrite H. Qed.

Lemma wp_read_str p s e (Q : list Z -> env -> Prop) :
  str_at (e_strs e) p = Some s -> Q s e -> wp (read_str (Some p)) e Q.
Proof. intros H HQ. unfold wp, read_str. by rewrite H. Qed.

Lemma wp_free_str b e (Q : unit -> env -> Prop) :
  is_Some (e_strs e !! b) -> Q tt (on_strs (delete b) e) -> wp (free_str (Some (CObj b 0))) e Q.
Proof. intros [n H] HQ. unfold wp, free_str. by rewrite H. Qed.

(** What the environment becomes by the copy of a string. *)
Definition dup_env (e : env) (s : list Z) : env :=
  if alloc (e_brk e) then on_strs <[e_brk e := s ++ [0]]> (on_ebrk S e) else on_ebrk S e.
Definition dup_ptr (e : env) : option cptr :=
  if alloc (e_brk e) then Some (CObj (e_brk e) 0) else None.

Lemma wp_strdup p s e (Q : option cptr -> env -> Prop) :
  str_at (e_strs e) p = Some s -> Q (dup_ptr e) (dup_env e s) ->
  wp (strdup alloc (Some p)) e Q.
Proof.
  intros H HQ. apply wp_bind, (wp_read_str _ s); [done|]. apply wp_bind.
  unfold wp, malloc_str, dup_ptr, dup_env in *. by destruct (alloc (e_brk e)).
Qed.

Lemma wp_getenv_loop fuel e l nas own F name nm la lb na nb oa ob (Q : option loc -> env -> Prop) :
  env_shape e l nas own F -> l = la ++ lb -> nas = na ++ nb -> own = oa ++ ob ->
  entries la na oa -> entries lb nb ob -> nm ∉ na.*1 ->
  (length lb <= fuel)%nat -> cstring_ok nm -> str_at (e_strs e) name = Some nm ->
  (forall x v a, found l nas own nm x v a -> Q (Some x) e) ->
  (nm ∉ nas.*1 -> Q None e) ->
  wp (getenv_loop fuel (first_of lb None) (Some name)) e Q.
Proof.
  intros Hs El En Eo Ha Hb Hnm Hf Hok Hname Hyes Hno.
  revert la na oa fuel El En Eo Ha Hnm Hf.
  induction Hb as [|x v nm' a o lb nb ob He Hb IH]; intros la na oa fuel El En Eo Ha Hnm Hf.
  - assert (Q None e) by (apply Hno; by rewrite En, app_nil_r). by destruct fuel.
  - destruct fuel as [|fuel]; [cbn in Hf; lia|]. cbn [first_of getenv_loop].
    pose proof (sh_dll _ _ _ _ _ Hs) as Hd. rewrite El in Hd.
    apply dll_app in Hd as [_ [(n & Hn & Hv & Hp & Hq) _]].
    apply wp_bind, (wp_load_ev _ n); [done|].
    destruct He as [bn nm' flags p val sh uh o Hok' Hval].
    replace (ev_name n) with (Some (CObj bn 0)) by (by injection Hv).
    apply wp_bind, (wp_read_str _ nm').
    { apply str_at_dup; [done|]. eapply strs_own; [apply Hs|]. rewrite Eo.
      apply elem_of_app. right. apply elem_of_cons. by left. }
    apply wp_bind, (wp_read_str _ nm); [done|].
    destruct (Z.eqb_spec (str_cmp nm' nm) 0) as [E|E].
    + assert (nm' = nm) as -> by (by apply str_cmp_eq). apply wp_ret.
      eapply Hyes. exists la, lb, na, nb, oa. eexists _, ob. by split_and!.
    + cbn in Hq. rewrite Hq.
      eapply (IH (la ++ [(x, _)]) (na ++ [(nm', _)]) (oa ++ _)).
      * by rewrite <- app_assoc.
      * by rewrite <- app_assoc.
      * rewrite <- app_assoc. exact Eo.
      * apply entries_app; [done|]. rewrite <- (app_nil_r (_ :: o)).
        constructor; [by constructor|constructor].
      * rewrite fmap_app, not_elem_of_app. split; [done|].
        intros [->|?%elem_of_nil]%elem_of_cons; [|done]. by apply E, str_cmp_eq.
      * cbn in Hf. lia.
Qed.

(** Looking a name up: [Some] and its place, or [None] if there is no such variable. *)
Lemma wp_env_getenv e l nas own F name nm (Q : option loc -> env -> Prop) :
  env_shape e l nas own F -> cstring_ok nm -> str_at F name = Some nm ->
  (forall x v a, found l nas own nm x v a -> Q (Some x) e) ->
  (nm ∉ nas.*1 -> Q None e) ->
  wp (env_getenv (Some name)) e Q.
Proof.
  intros Hs Hok Hname Hyes Hno. unfold env_getenv.
  apply wp_bind, wp_gets. apply wp_bind, wp_gets. rewrite (sh_head _ _ _ _ _ Hs).
  eapply (wp_getenv_loop _ _ l nas own F name nm [] l [] nas [] own); try done.
  - constructor.
  - apply Hs.
  - by intros ?%elem_of_nil.
  - pose proof (dll_length _ _ _ _ (sh_nodup _ _ _ _ _ Hs) (sh_dll _ _ _ _ _ Hs)). lia.
  - by eapply str_at_frame; [apply Hs|].
Qed.

(** Changing the value of the variable at [x]. *)
Lemma shape_set e e' l1 x v v' l2 n1 nm a a' n2 o1 o o' o2 F F' f :
  env_shape e (l1 ++ (x, v) :: l2) (n1 ++ (nm, a) :: n2) (o1 ++ o ++ o2) F ->
  entries l1 n1 o1 -> entries l2 n2 o2 -> entry v' nm a' o' ->
  (forall n, evp_of n = v ->
    evp_of (f n) = v' /\ ev_next (f n) = ev_next n /\ ev_prev (f n) = ev_prev n) ->
  e_vars e' = alter f x (e_vars e) -> e_environ e' = e_environ e ->
  map_to_list (e_strs e') ≡ₚ (o1 ++ o' ++ o2) ++ map_to_list F' ->
  (e_brk e <= e_brk e')%nat -> (forall b, (e_brk e' <= b)%nat -> e_strs e' !! b = None) ->
  env_shape e' (l1 ++ (x, v') :: l2) (n1 ++ (nm, a') :: n2) (o1 ++ o' ++ o2) F'.
Proof.
  intros [Hd Hn Hdom Hh _ _ Hfr Hso] H1 H2 He Hf Ev Ee Hp Hb Hfr'.
  assert (Ek : (l1 ++ (x, v') :: l2).*1 = (l1 ++ (x, v) :: l2).*1) by (by rewrite !fmap_app).
  split; rewrite ?Ek; try done.
  - rewrite Ev. apply (dll_alter _ _ _ _ v); try done. intros n _ E. by apply Hf.
  - intros y Hy. apply Hdom. rewrite Ev in Hy. by apply lookup_alter_is_Some in Hy.
  - rewrite Ee, Hh. by rewrite !first_of_app.
  - by apply entries_app, entries_cons.
  - intros b Hb'. split; [|by apply Hfr']. rewrite Ev. apply lookup_alter_None, Hfr. lia.
  - replace ((n1 ++ (nm, a') :: n2).*1) with ((n1 ++ (nm, a) :: n2).*1); [done|].
    by rewrite !fmap_app.
Qed.

Lemma alter_alter (f g : env_var -> env_var) x (m : gmap loc env_var) :
  alter f x (alter g x m) = alter (f ∘ g) x m.
Proof.
  apply map_eq. intros y. destruct (decide (y = x)) as [->|].
  - rewrite !lookup_alter_eq. by destruct (m !! x).
  - by rewrite !lookup_alter_ne.
Qed.

Lemma flag_bit (f : Z) k : negb (Z.land f (2 ^ Z.of_nat k) =? 0) = Z.testbit f (Z.of_nat k).
Proof.
  destruct (Z.testbit f (Z.of_nat k)) eqn:E.
  - apply negb_true_iff, Z.eqb_neq. intros H.
    assert (T : Z.testbit (Z.land f (2 ^ Z.of_nat k)) (Z.of_nat k) = true)
      by (rewrite Z.land_spec, E, Z.pow2_bits_true; [done|lia]).
    by rewrite H, Z.bits_0 in T.
  - apply negb_false_iff, Z.eqb_eq, Z.bits_inj'. intros i Hi. rewrite Z.land_spec, Z.bits_0.
    destruct (Z.eq_dec i (Z.of_nat k)) as [->|Hne]; [by rewrite E|].
    rewrite Z.pow2_bits_false by lia. apply andb_false_r.
Qed.

(** The variable found is an object, and knows its links. *)
Lemma shape_node e l1 x v l2 nas own F :
  env_shape e (l1 ++ (x, v) :: l2) nas own F ->
  exists n, e_vars e !! x = Some n /\ evp_of n = v /\ ev_prev n = last_of None l1 /\
    ev_next n = first_of l2 None.
Proof. intros H. by destruct (proj1 (dll_app _ _ _ _ _) (sh_dll _ _ _ _ _ H)) as [_ [? _]]. Qed.

(** [free_value] frees what the variable owns besides its name. *)
Lemma wp_free_value e x n nm a bn o rest (Q : unit -> env -> Prop) :
  e_vars e !! x = Some n -> entry (evp_of n) nm a ((bn, nm ++ [0]) :: o) ->
  map_to_list (e_strs e) ≡ₚ o ++ rest ->
  (forall m, map_to_list m ≡ₚ rest -> (forall b, e_strs e !! b = None -> m !! b = None) ->
    Q tt (on_strs (fun _ => m) e)) ->
  wp (free_value x) e Q.
Proof.
  intros Hn He P HQ. unfold free_value. apply wp_bind, (wp_load_ev _ n); [done|].
  assert (D : dynamic n = Z.testbit (ev_flags n) 0) by exact (flag_bit _ 0). rewrite D.
  assert (Same : o = [] -> wp (free_str None) e Q /\ wp (mret tt) e Q).
  { intros ->. specialize (HQ (e_strs e) P). destruct e. split; apply HQ; auto. }
  assert (Hval : exists val, value_is (ev_flags n) (ev_value n) val o)
    by (inversion He; subst; by eexists).
  destruct Hval as [val Hval].
  inversion Hval as [|b buf Ht|q Ht]; subst; rewrite ?Ht.
  - destruct (Same eq_refl). by destruct (Z.testbit _ _).
  - apply wp_free_str.
    + exists buf. apply elem_of_map_to_list. rewrite P. apply elem_of_cons. by left.
    + apply (HQ (delete b (e_strs e))); [by apply (strs_delete _ _ _ _ P)|].
      intros b' Hb'. by apply lookup_delete_None; right.
  - by destruct (Same eq_refl).
Qed.

Lemma wp_clear_value e l1 x v l2 n1 nm a n2 o1 o o2 F (Q : unit -> env -> Prop) :
  env_shape e (l1 ++ (x, v) :: l2) (n1 ++ (nm, a) :: n2) (o1 ++ o ++ o2) F ->
  entries l1 n1 o1 -> entry v nm a o -> entries l2 n2 o2 ->
  (forall e' v' o', e_brk e' = e_brk e -> Z.testbit (p_flags v') 0 = false ->
    o' = take 1 o -> env_shape e' (l1 ++ (x, v') :: l2)
      (n1 ++ (nm, AVar VNone (a_sethook a) (a_unsethook a)) :: n2) (o1 ++ o' ++ o2) F ->
    entry v' nm (AVar VNone (a_sethook a) (a_unsethook a)) o' -> Q tt e') ->
  wp (clear_value x) e Q.
Proof.
  intros Hs H1 He H2 HQ. destruct (shape_node _ _ _ _ _ _ _ _ Hs) as (n & Hn & Ev & _).
  destruct He as [bn nm fl p val sh uh o Hok Hval].
  apply wp_bind, (wp_free_value _ _ n nm (AVar val sh uh) bn o
    (((bn, nm ++ [0]) :: o1 ++ o2) ++ map_to_list F)); [done|rewrite Ev; by constructor| |].
  { rewrite (sh_strs _ _ _ _ _ Hs), <- !app_assoc. solve_Permutation. }
  intros m P Hm. apply wp_bind, wp_update_ev; [by exists n|].
  apply wp_update_ev; [apply lookup_alter_is_Some; by exists n|].
  assert (He' : entry (Evp (Some (CObj bn 0)) (Z.land fl (Z.lnot EV_DYNAMIC)) None sh uh) nm
    (AVar VNone sh uh) [(bn, nm ++ [0])]) by (constructor; [done|constructor]).
  eapply (HQ _ _ [(bn, nm ++ [0])]); [done| |done| |exact He'].
  - cbn [p_flags]. rewrite Z.land_spec, Z.lnot_spec by lia. apply andb_false_r.
  - eapply (shape_set e) with (f := (fun n => set_ev_flags
      (Z.land (ev_flags n) (Z.lnot EV_DYNAMIC)) n) ∘ set_ev_value None); try done.
    + intros n' E. injection E as <- <- <- <- <-. done.
    + apply alter_alter.
    + rewrite P, <- !app_assoc. solve_Permutation.
    + intros b Hb. apply Hm. by apply (sh_fresh _ _ _ _ _ Hs).
Qed.

(** What storing [value] makes of a variable that has none, and of the callers' objects:
    [ok] tells whether there was memory for a copy. *)
Inductive stored (F : strs) (flags : Z) (ok : bool) : option cptr -> aval -> strs -> Prop :=
| stored_copy p s : Z.testbit flags 1 = true -> str_at F p = Some s ->
    stored F flags ok (Some p) (if ok then VOwn (s ++ [0]) else VNone) F
| stored_none : stored F flags ok None VNone F
| stored_given b buf : Z.testbit flags 1 = false -> Z.testbit flags 0 = true ->
    F !! b = Some buf -> stored F flags ok (Some (CObj b 0)) (VOwn buf) (delete b F)
| stored_lent p : Z.testbit flags 1 = false -> Z.testbit flags 0 = false ->
    stored F flags ok (Some p) (VBorrow p) F.

(** The two assignments of [put_value]. *)
Lemma wp_put_fields e e1 l1 x l2 n1 nm sh uh n2 o1 o2 F F' bn fl p val own w
    (Q : unit -> env -> Prop) :
  env_shape e (l1 ++ (x, Evp (Some (CObj bn 0)) fl None sh uh) :: l2)
    (n1 ++ (nm, AVar VNone sh uh) :: n2) (o1 ++ [(bn, nm ++ [0])] ++ o2) F ->
  entries l1 n1 o1 -> entries l2 n2 o2 -> cstring_ok nm ->
  value_is (Z.lor fl w) p val own ->
  e_vars e1 = e_vars e -> e_environ e1 = e_environ e -> (e_brk e <= e_brk e1)%nat ->
  (forall b, (e_brk e1 <= b)%nat -> e_strs e1 !! b = None) ->
  map_to_list (e_strs e1) ≡ₚ own ++ (o1 ++ [(bn, nm ++ [0])] ++ o2) ++ map_to_list F' ->
  (forall e' v' o',
    env_shape e' (l1 ++ (x, v') :: l2) (n1 ++ (nm, AVar val sh uh) :: n2) (o1 ++ o' ++ o2) F' ->
    Q tt e') ->
  wp (update_ev x (set_ev_value p);;
      update_ev x (fun n => set_ev_flags (Z.lor (ev_flags n) w) n)) e1 Q.
Proof.
  intros Hs H1 H2 Hok Hval Ev Ee Eb Hfr P HQ.
  destruct (shape_node _ _ _ _ _ _ _ _ Hs) as (n & Hn & _).
  apply wp_bind, wp_update_ev; [rewrite Ev; by exists n|].
  apply wp_update_ev; [apply lookup_alter_is_Some; rewrite Ev; by exists n|].
  eapply (HQ _ (Evp (Some (CObj bn 0)) (Z.lor fl w) p sh uh) ((bn, nm ++ [0]) :: own)).
  eapply (shape_set e) with
    (f := (fun n => set_ev_flags (Z.lor (ev_flags n) w) n) ∘ set_ev_value p); try done.
  - intros [] E. unfold evp_of in E. by simplify_eq/=.
  - cbn [on_vars e_vars]. rewrite Ev. apply alter_alter.
  - cbn [on_vars e_strs]. rewrite P, <- !app_assoc. solve_Permutation.
Qed.

Lemma wp_put_value e l1 x v l2 n1 nm sh uh n2 o1 o o2 F F' flags value val
    (Q : unit -> env -> Prop) :
  env_shape e (l1 ++ (x, v) :: l2) (n1 ++ (nm, AVar VNone sh uh) :: n2) (o1 ++ o ++ o2) F ->
  entries l1 n1 o1 -> entry v nm (AVar VNone sh uh) o -> entries l2 n2 o2 ->
  Z.testbit (p_flags v) 0 = false ->
  stored F flags (alloc (e_brk e)) value val F' ->
  (forall e' v' o',
    env_shape e' (l1 ++ (x, v') :: l2) (n1 ++ (nm, AVar val sh uh) :: n2) (o1 ++ o' ++ o2) F' ->
    Q tt e') ->
  wp (put_value alloc x flags value) e Q.
Proof.
  intros Hs H1 He H2 Hfl Hst HQ.
  assert (exists bn fl, v = Evp (Some (CObj bn 0)) fl None sh uh /\ o = [(bn, nm ++ [0])] /\
    cstring_ok nm) as (bn & fl & -> & -> & Hok).
  { inversion He as [???????? Hok Hval]; subst. inversion Hval; subst. eauto. }
  cbn [p_flags] in Hfl.
  assert (Hfresh : forall b, (e_brk e <= b)%nat -> e_strs e !! b = None)
    by (intros; by apply (sh_fresh _ _ _ _ _ Hs)).
  pose proof (sh_strs _ _ _ _ _ Hs) as P.
  unfold put_value. change EV_VOLATILE with (2 ^ Z.of_nat 1).
  rewrite (flag_bit flags 1). change (Z.of_nat 1) with 1.
  assert (Hbit : Z.testbit (Z.lor fl (Z.land flags EV_DYNAMIC)) 0 = Z.testbit flags 0).
  { rewrite Z.lor_spec, Hfl, Z.land_spec. apply andb_true_r. }
  destruct Hst as [p s Hv Hp| |b buf Hv Hd Hb|p Hv Hd]; try rewrite Hv.
  - apply wp_bind, (wp_strdup _ s); [by eapply str_at_frame|].
    unfold dup_ptr, dup_env. destruct (alloc (e_brk e)).
    + eapply (wp_put_fields e); try done.
      * constructor. rewrite Z.lor_spec, Hfl. done.
      * cbn. lia.
      * intros b Hb. cbn in *. rewrite lookup_insert_ne by lia. apply Hfresh. lia.
      * cbn. apply (strs_insert _ _ (e_brk e)); [by apply Hfresh|done].
    + eapply (wp_put_fields e); try done.
      * constructor.
      * cbn. lia.
      * intros b Hb. apply Hfresh. cbn in Hb. lia.
      * exact P.
  - destruct (Z.testbit flags 1).
    + apply wp_bind, wp_ret. eapply (wp_put_fields e); try done; [constructor|exact P].
    + eapply (wp_put_fields e); try done; [constructor|exact P].
  - eapply (wp_put_fields e); try done.
    + constructor. by rewrite Hbit.
    + rewrite P. rewrite <- (map_to_list_delete F b buf) at 1 by done. solve_Permutation.
  - eapply (wp_put_fields e); try done; [constructor; by rewrite Hbit|exact P].
Qed.


(** What [link_from] makes of the variables, and of [environ]. *)
Definition linked_from (p : option loc) (ev : option loc) (e : env) : env :=
  match p with
  | Some p => on_vars (alter (set_ev_next ev) p) e
  | None => set_environ ev e
  end.

Lemma wp_link_from p ev e (Q : unit -> env -> Prop) :
  (forall y, p = Some y -> is_Some (e_vars e !! y)) -> Q tt (linked_from p ev e) ->
  wp (link_from p ev) e Q.
Proof.
  intros Hp HQ. destruct p as [y|]; [|done]. apply wp_update_ev; [by apply Hp|done].
Qed.

Lemma lookup_linked p ev e y :
  e_vars (linked_from p ev e) !! y =
    if decide (p = Some y) then set_ev_next ev <$> e_vars e !! y else e_vars e !! y.
Proof.
  destruct p as [z|]; cbn; case_decide; simplify_eq; try done.
  - by rewrite lookup_alter_eq.
  - rewrite lookup_alter_ne by congruence. done.
Qed.

Lemma alter_some (f : env_var -> env_var) x (h : gmap loc env_var) y :
  is_Some (alter f x h !! y) <-> is_Some (h !! y).
Proof. apply lookup_alter_is_Some. Qed.

Lemma linked_some p ev e y :
  is_Some (e_vars (linked_from p ev e) !! y) <-> is_Some (e_vars e !! y).
Proof. rewrite lookup_linked. case_decide; [|done]. by rewrite fmap_is_Some. Qed.

(** The variable [x] has been put in between [l1] and [l2]. *)
Definition inserted (e e' : env) (x : loc) (v : evp) (l1 l2 : list (loc * evp)) : Prop :=
  dll (e_vars e') None (l1 ++ (x, v) :: l2) None /\
  e_environ e' = first_of (l1 ++ (x, v) :: l2) None /\
  e_strs e' = e_strs e /\ e_brk e' = e_brk e /\
  (forall y, is_Some (e_vars e' !! y) <-> is_Some (e_vars e !! y)).

Section insert.
Context (e : env) (x : loc) (nx : env_var) (l1 l2 : list (loc * evp)).
Context (Hx : x ∉ (l1 ++ l2).*1) (Hnx : e_vars e !! x = Some nx).
Context (Hnext : ev_next nx = None) (Hprev : ev_prev nx = None).
Context (Hnd : NoDup (l1 ++ l2).*1) (Hd : dll (e_vars e) None (l1 ++ l2) None).
Context (Hhead : e_environ e = first_of (l1 ++ l2) None).

Lemma last_not_x : last_of None l1 <> Some x.
Proof. intros H%last_of_in. apply Hx. rewrite fmap_app. apply elem_of_app. by left. Qed.

Lemma first_not_x : first_of l2 None <> Some x.
Proof. intros H%first_of_in. apply Hx. rewrite fmap_app. apply elem_of_app. by right. Qed.

Lemma last_not_first y : last_of None l1 = Some y -> first_of l2 None <> Some y.
Proof.
  intros H1%last_of_in H2%first_of_in. rewrite fmap_app in Hnd.
  apply NoDup_app in Hnd as (_ & H & _). by apply (H y).
Qed.

Lemma last_is_var y : last_of None l1 = Some y -> is_Some (e_vars e !! y).
Proof.
  intros H%last_of_in. apply (dll_lookup _ None (l1 ++ l2) None); [|done].
  rewrite fmap_app. apply elem_of_app. by left.
Qed.

Lemma head_linked v :
  e_environ (linked_from (last_of None l1) (Some x) e) = first_of (l1 ++ (x, v) :: l2) None.
Proof.
  destruct l1 as [|[y w] r] eqn:E; [done|]. rewrite <- E in *.
  destruct (last_of None l1) as [z|] eqn:El.
  - cbn. rewrite Hhead, E. done.
  - subst l1. destruct r as [|? ? _] using rev_ind; [done|].
    rewrite app_comm_cons in El. destruct x0. by rewrite last_of_snoc in El.
Qed.

(** Insertion before the first element of [l2]. *)
Lemma wp_insert_before c m (Q : unit -> env -> Prop) :
  first_of l2 None = Some c -> e_vars e !! c = Some m -> ev_prev m = last_of None l1 ->
  (forall e', inserted e e' x (evp_of nx) l1 l2 -> Q tt e') ->
  wp (link_from (ev_prev m) (Some x);;
      update_ev x (set_ev_next (Some c));;
      update_ev x (set_ev_prev (ev_prev m));;
      update_ev c (set_ev_prev (Some x))) e Q.
Proof.
  intros Hc Hm Hp HQ. rewrite Hp.
  pose proof last_not_x as Lx. pose proof first_not_x as Fx. rewrite Hc in Fx.
  apply wp_bind, wp_link_from; [apply last_is_var|].
  apply wp_bind, wp_update_ev; [apply linked_some; by exists nx|].
  apply wp_bind, wp_update_ev; [apply alter_some, linked_some; by exists nx|].
  apply wp_update_ev; [apply alter_some, alter_some, linked_some; by exists m|].
  apply HQ. split_and!; [|apply head_linked|by destruct (last_of None l1)..|].
  - apply (dll_link (e_vars e) _ l1 l2 x _
      (set_ev_prev (last_of None l1) (set_ev_next (Some c) nx))); try done; cbn [on_vars e_vars].
    + rewrite lookup_alter_ne by congruence. rewrite !lookup_alter_eq, lookup_linked, Hnx.
      by rewrite decide_False.
    + intros y n Hy Hn. pose proof (last_not_first _ Hy).
      rewrite !lookup_alter_ne by congruence. rewrite lookup_linked, Hn. by rewrite decide_True.
    + intros y n Hy Hn. rewrite Hc in Hy. injection Hy as <-. rewrite lookup_alter_eq.
      rewrite !lookup_alter_ne by congruence. rewrite lookup_linked, Hn, decide_False; [done|].
      intros Hy. by apply (last_not_first _ Hy).
    + intros y Hy Hl Hf. rewrite Hc in Hf. assert (y <> x) by (intros ->; done).
      rewrite !lookup_alter_ne by congruence. rewrite lookup_linked. by rewrite decide_False.
  - intros y. cbn [on_vars e_vars]. by rewrite !alter_some, linked_some.
Qed.

(** Insertion at the end. *)
Lemma wp_insert_last (Q : unit -> env -> Prop) :
  l2 = [] -> (forall e', inserted e e' x (evp_of nx) l1 l2 -> Q tt e') ->
  wp (link_from (last_of None l1) (Some x);;
      match last_of None l1 with
      | Some _ => update_ev x (set_ev_prev (last_of None l1))
      | None => mret tt
      end) e Q.
Proof.
  intros E2 HQ. pose proof last_not_x as Lx.
  apply wp_bind, wp_link_from; [apply last_is_var|].
  enough (HQ' : Q tt (match last_of None l1 with
      | Some _ => on_vars (alter (set_ev_prev (last_of None l1)) x)
      | None => id end (linked_from (last_of None l1) (Some x) e))).
  { destruct (last_of None l1); [|done]. apply wp_update_ev; [|done].
    apply linked_some. by exists nx. }
  apply HQ. pose proof (head_linked (evp_of nx)) as Hh. pose proof last_not_first as LF.
  split_and!; try by destruct (last_of None l1).
  - apply (dll_link (e_vars e) _ l1 l2 x _ (set_ev_prev (last_of None l1) nx)); try done.
    + destruct (last_of None l1) eqn:E; [cbn|by destruct nx; cbn in *; subst].
      rewrite lookup_alter_eq, lookup_alter_ne, Hnx by congruence. done.
    + by rewrite E2.
    + intros y n Hy Hn. rewrite Hy. cbn. rewrite lookup_alter_ne by congruence.
      by rewrite lookup_alter_eq, Hn.
    + by rewrite E2.
    + intros y Hy Hl _. assert (y <> x) by (intros ->; done).
      destruct (last_of None l1); [|done]. cbn. by rewrite !lookup_alter_ne by congruence.
  - intros y. destruct (last_of None l1); [|done]. cbn. by rewrite !alter_some.
Qed.
End insert.


Lemma wp_insert_loop fuel e x nx p nm l nas own la na oa lb nb ob (Q : unit -> env -> Prop) :
  x ∉ l.*1 -> e_vars e !! x = Some nx -> ev_next nx = None -> ev_prev nx = None ->
  ev_name nx = Some p -> str_at (e_strs e) p = Some nm -> cstring_ok nm ->
  NoDup l.*1 -> dll (e_vars e) None l None -> e_environ e = first_of l None ->
  (forall b buf, (b, buf) ∈ own -> e_strs e !! b = Some buf) ->
  StronglySorted str_lt nas.*1 -> nm ∉ nas.*1 ->
  l = la ++ lb -> nas = na ++ nb -> own = oa ++ ob ->
  entries la na oa -> entries lb nb ob ->
  Forall (fun m => str_lt m nm) na.*1 -> (length lb <= fuel)%nat ->
  (forall e' l1 l2 n1 n2 o1 o2, l = l1 ++ l2 -> nas = n1 ++ n2 -> own = o1 ++ o2 ->
    entries l1 n1 o1 -> entries l2 n2 o2 ->
    Forall (fun m => str_lt m nm) n1.*1 -> Forall (str_lt nm) n2.*1 ->
    inserted e e' x (evp_of nx) l1 l2 -> Q tt e') ->
  wp (insert_loop fuel x (last_of None la) (first_of lb None)) e Q.
Proof.
  intros Hx Hnx Hnext Hprev Hname Hstr Hok Hnd Hd Hhead Hown Hso Hnm El En Eo Ha Hb Hlt Hf HQ.
  revert la na oa fuel El En Eo Ha Hlt Hf.
  induction Hb as [|c v nm' a o lb nb ob He Hb IH]; intros la na oa fuel El En Eo Ha Hlt Hf.
  - assert (Hlast : wp (link_from (last_of None la) (Some x);;
      match last_of None la with
      | Some _ => update_ev x (set_ev_prev (last_of None la))
      | None => mret tt
      end) e Q).
    { rewrite El in *. apply (wp_insert_last e x nx la []); try done. intros e' Hi.
      eapply (HQ e' la [] na [] oa []); try done; constructor. }
    by destruct fuel.
  - destruct fuel as [|fuel]; [cbn in Hf; lia|]. cbn [first_of insert_loop].
    pose proof Hd as Hd'. rewrite El in Hd'.
    apply dll_app in Hd' as [_ [(n & Hn & Hv & Hp & Hq) _]].
    apply wp_bind, (wp_load_ev _ nx); [done|]. apply wp_bind, (wp_load_ev _ n); [done|].
    rewrite Hname. apply wp_bind, (wp_read_str _ nm); [done|].
    pose proof He as He'. destruct He' as [bn nm' flags q val sh uh o' Hok' Hval].
    replace (ev_name n) with (Some (CObj bn 0)) by (by injection Hv).
    apply wp_bind, (wp_read_str _ nm').
    { apply str_at_dup; [done|]. apply Hown. rewrite Eo.
      apply elem_of_app. right. apply elem_of_cons. by left. }
    rewrite En, fmap_app, fmap_cons in Hso. cbn [fst] in Hso.
    pose proof (StronglySorted_app_1_r _ _ _ Hso) as Hso2.
    apply StronglySorted_inv in Hso2 as [_ Hall].
    pose proof (entries_names _ _ _ Hb) as Hoks.
    destruct (Z.ltb_spec (str_cmp nm nm') 0) as [E|E].
    + rewrite El in *.
      eapply (wp_insert_before e x nx la) with (m := n); [done..|by cbn|done|done|].
      intros e' Hi. eapply (HQ e' la _ na _ oa _); [done..|by constructor|done| |done].
      constructor; [done|]. rewrite Forall_forall in Hall, Hoks |- *. intros z Hz.
      apply (str_lt_trans nm nm' z); auto.
    + cbn in Hq. rewrite Hq.
      match type of He with entry ?w _ _ _ => rewrite <- (last_of_snoc None la c w) end.
      eapply (IH (la ++ [(c, _)]) (na ++ [(nm', _)]) (oa ++ _)).
      * by rewrite <- app_assoc.
      * by rewrite <- app_assoc.
      * rewrite <- app_assoc. exact Eo.
      * apply entries_app; [done|]. rewrite <- (app_nil_r (_ :: o')).
        constructor; [by constructor|constructor].
      * rewrite fmap_app. apply Forall_app. split; [done|]. constructor; [|constructor].
        apply str_lt_total; try done. intros ->. apply Hnm. rewrite En, fmap_app.
        apply elem_of_app. right. apply elem_of_cons. by left.
      * cbn in Hf. lia.
Qed.

Lemma sorted_put (R : list Z -> list Z -> Prop) l1 x l2 :
  StronglySorted R (l1 ++ l2) -> Forall (fun y => R y x) l1 -> Forall (R x) l2 ->
  StronglySorted R (l1 ++ x :: l2).
Proof.
  induction l1 as [|y l1 IH]; cbn [app]; intros Hs H1 H2; [by constructor|].
  apply StronglySorted_inv in Hs as [Hs Hall]. apply Forall_cons in H1 as [Hy H1].
  apply Forall_app in Hall as [? ?].
  constructor; [by apply IH|]. apply Forall_app. split; [done|]. by constructor.
Qed.

Lemma sorted_remove (R : list Z -> list Z -> Prop) l1 x l2 :
  StronglySorted R (l1 ++ x :: l2) -> StronglySorted R (l1 ++ l2).
Proof.
  induction l1 as [|y l1 IH]; cbn [app]; intros [Hs Hall]%StronglySorted_inv; [done|].
  constructor; [by apply IH|]. apply Forall_app in Hall as [? [_ ?]%Forall_cons].
  by apply Forall_app.
Qed.

Lemma wp_new_var e l nas own F name nm sh uh (Q : loc -> env -> Prop) :
  env_shape e l nas own F -> str_at F name = Some nm -> cstring_ok nm -> nm ∉ nas.*1 ->
  alloc (e_brk e) = true -> alloc (S (e_brk e)) = true ->
  (forall e' x v l1 l2 n1 n2 o1 o o2,
    e_brk e' = S (S (e_brk e)) -> Z.testbit (p_flags v) 0 = false -> nas = n1 ++ n2 ->
    env_shape e' (l1 ++ (x, v) :: l2) (n1 ++ (nm, AVar VNone sh uh) :: n2) (o1 ++ o ++ o2) F ->
    entries l1 n1 o1 -> entry v nm (AVar VNone sh uh) o -> entries l2 n2 o2 -> Q x e') ->
  wp (new_var alloc (Some name) sh uh) e Q.
Proof.
  intros Hs Hname Hok Hnm A1 A2 HQ. set (x := e_brk e) in *.
  pose proof (sh_strs _ _ _ _ _ Hs) as P. pose proof (sh_fresh _ _ _ _ _ Hs) as Hfr.
  assert (Hx : x ∉ l.*1).
  { eapply dll_fresh; [|apply Hs]. by apply Hfr. }
  apply wp_bind. unfold wp at 1, malloc_ev. fold x. rewrite A1.
  apply wp_bind, (wp_strdup _ nm); [by eapply str_at_frame|].
  unfold dup_ptr, dup_env. cbn [on_vars on_ebrk on_strs e_brk e_vars e_strs e_environ].
  fold x. rewrite A2.
  apply wp_bind, wp_update_ev; cbn [on_vars on_ebrk on_strs e_brk e_vars e_strs e_environ].
  { rewrite lookup_insert_eq. by eexists. }
  apply wp_bind, wp_gets. apply wp_bind, wp_gets.
  match goal with |- wp _ ?e0 _ => set (e1 := e0) end.
  assert (Hvars : e_vars e1 =
    <[x := EnvVar (Some (CObj (S x) 0)) 0 None sh uh None None]> (e_vars e))
    by (cbn; by rewrite alter_insert_eq).
  assert (Hsub : forall y, y ∈ l.*1 -> e_vars e1 !! y = e_vars e !! y).
  { intros y Hy. rewrite Hvars, lookup_insert_ne; [done|by intros ->]. }
  assert (Hd1 : dll (e_vars e1) None l None) by (eapply dll_ext; [exact Hsub|apply Hs]).
  assert (Hstr : map_to_list (e_strs e1) ≡ₚ (S x, nm ++ [0]) :: own ++ map_to_list F).
  { apply strs_insert; [|done]. apply Hfr. unfold x. lia. }
  change (e_environ e1) with (e_environ e). rewrite (sh_head _ _ _ _ _ Hs).
  apply wp_bind, (wp_insert_loop _ e1 x (EnvVar (Some (CObj (S x) 0)) 0 None sh uh None None)
    (CObj (S x) 0) nm l nas own [] [] [] l nas own); try done; try apply Hs.
  - by rewrite Hvars, lookup_insert_eq.
  - apply str_at_dup; [done|]. apply elem_of_map_to_list. rewrite Hstr. apply elem_of_cons. by left.
  - intros b buf Hb. apply elem_of_map_to_list. rewrite Hstr. apply elem_of_cons. right.
    apply elem_of_app. by left.
  - constructor.
  - apply le_S, (dll_length _ None _ None); [apply Hs|done].
  - intros e' l1 l2 n1 n2 o1 o2 -> -> -> E1 E2 F1 F2 (Id & Ih & Is & Ib & Ivs). apply wp_ret.
    assert (He : entry (Evp (Some (CObj (S x) 0)) 0 None sh uh) nm (AVar VNone sh uh)
      [(S x, nm ++ [0])]) by (constructor; [done|constructor]).
    set (v := Evp _ _ _ _ _) in He.
    assert (Pk : (l1 ++ (x, v) :: l2).*1 ≡ₚ x :: (l1 ++ l2).*1)
      by (rewrite !fmap_app, fmap_cons; cbn [fst]; solve_Permutation).
    eapply (HQ e' x v l1 l2 n1 n2 o1 _ o2); try done. split; try done.
    + rewrite Pk. constructor; [done|apply Hs].
    + intros y Hy%Ivs. rewrite Pk, elem_of_cons. rewrite Hvars in Hy.
      destruct (decide (y = x)) as [->|Hne]; [by left|right].
      rewrite lookup_insert_ne in Hy by done. by apply Hs.
    + by apply entries_app, entries_cons.
    + rewrite Is, Hstr. rewrite <- !app_assoc. solve_Permutation.
    + intros b Hb. rewrite Ib in Hb. cbn in Hb. rewrite Is. split.
      * apply eq_None_not_Some. rewrite Ivs, Hvars, lookup_insert_ne by lia.
        apply eq_None_not_Some, Hfr. lia.
      * cbn. rewrite lookup_insert_ne by lia. apply Hfr. lia.
    + rewrite fmap_app, fmap_cons. apply sorted_put; [|done..].
      rewrite <- fmap_app. apply Hs.
Qed.

(** What the unlinking of [env_discard] makes of the state. *)
Definition unlinked (p q : option loc) (e : env) : env :=
  let e1 := match p with Some y => on_vars (alter (set_ev_next q) y) e | None => e end in
  let e2 := match q with Some y => on_vars (alter (set_ev_prev p) y) e1 | None => e1 end in
  match p with Some _ => e2 | None => set_environ q e2 end.

Lemma lookup_unlinked p q e y :
  e_vars (unlinked p q e) !! y =
    (if decide (q = Some y) then fmap (set_ev_prev p) else id)
      ((if decide (p = Some y) then fmap (set_ev_next q) else id) (e_vars e !! y)).
Proof.
  unfold unlinked. destruct p as [a|], q as [b|]; cbn; repeat case_decide; simplify_eq; cbn;
    rewrite ?lookup_alter_eq, ?lookup_alter_ne, ?lookup_alter_eq by congruence; done.
Qed.

Lemma unlinked_same p q e :
  e_strs (unlinked p q e) = e_strs e /\ e_brk (unlinked p q e) = e_brk e /\
  e_environ (unlinked p q e) = match p with Some _ => e_environ e | None => q end.
Proof. by destruct p, q. Qed.

Lemma shape_unlinked e l1 x v l2 nas own F :
  env_shape e (l1 ++ (x, v) :: l2) nas own F ->
  dll (e_vars (unlinked (last_of None l1) (first_of l2 None) e)) None (l1 ++ l2) None /\
  e_environ (unlinked (last_of None l1) (first_of l2 None) e) = first_of (l1 ++ l2) None.
Proof.
  intros Hs. pose proof (sh_nodup _ _ _ _ _ Hs) as Hnd. split.
  - apply (dll_unlink (e_vars e) _ _ _ x v); [done|apply Hs| | |].
    + intros y m Hy Hm. rewrite lookup_unlinked, Hm, (decide_True _ _ Hy), decide_False; [done|].
      intros Hc%first_of_in. apply last_of_in in Hy. rewrite fmap_app in Hnd.
      apply NoDup_app in Hnd as (_ & Hnd & _). apply (Hnd y Hy), elem_of_cons. by right.
    + intros y m Hy Hm. rewrite lookup_unlinked, Hm, (decide_True _ _ Hy), decide_False; [done|].
      intros Hc%last_of_in. apply first_of_in in Hy. rewrite fmap_app in Hnd.
      apply NoDup_app in Hnd as (_ & Hnd & _). apply (Hnd y Hc), elem_of_cons. by right.
    + intros y _ Hl Hf. rewrite lookup_unlinked. by rewrite !decide_False.
  - destruct (unlinked_same (last_of None l1) (first_of l2 None) e) as (_ & _ & ->).
    rewrite (sh_head _ _ _ _ _ Hs).
    destruct l1 as [|[y w] r _] using rev_ind; [done|]. rewrite last_of_snoc.
    by rewrite <- !app_assoc, !first_of_app.
Qed.

(** The unlinking of [env_discard], [m] being the rest of it. *)
Lemma wp_unlink p q x e (m : St env unit) (Q : unit -> env -> Prop) :
  (forall y, p = Some y -> is_Some (e_vars e !! y)) ->
  (forall y, q = Some y -> is_Some (e_vars e !! y)) ->
  (e_environ e = Some x <-> p = None) ->
  wp m (unlinked p q e) Q ->
  wp (match p with Some p => update_ev p (set_ev_next q) | None => mret tt end;;
      match q with Some q => update_ev q (set_ev_prev p) | None => mret tt end;;
      environ ← gets e_environ;
      (if decide (environ = Some x) then modify (set_environ q) else mret tt);; m) e Q.
Proof.
  intros Hp Hq He HQ.
  assert (Tail : forall e0 Q0, e_environ e0 = e_environ e ->
    wp m (match p with Some _ => e0 | None => set_environ q e0 end) Q0 ->
    wp (environ ← gets e_environ;
      (if decide (environ = Some x) then modify (set_environ q) else mret tt);; m) e0 Q0).
  { intros e0 Q0 E H. apply wp_bind, wp_gets. rewrite E. apply wp_bind. case_decide as D.
    - apply wp_modify. by rewrite (proj1 He D) in H.
    - apply wp_ret. destruct p; [done|]. by destruct D; apply He. }
  unfold unlinked in HQ. apply wp_bind.
  destruct p as [y|]; [apply wp_update_ev; [by apply Hp|]|apply wp_ret]; apply wp_bind;
    (destruct q as [z|]; [apply wp_update_ev|apply wp_ret; by apply Tail]).
  - apply alter_some. by apply Hq.
  - by apply Tail.
  - by apply Hq.
  - by apply Tail.
Qed.

Lemma wp_env_discard e l1 x v l2 n1 nm a n2 o1 o o2 F (Q : unit -> env -> Prop) :
  env_shape e (l1 ++ (x, v) :: l2) (n1 ++ (nm, a) :: n2) (o1 ++ o ++ o2) F ->
  entries l1 n1 o1 -> entry v nm a o -> entries l2 n2 o2 ->
  (forall e', env_shape e' (l1 ++ l2) (n1 ++ n2) (o1 ++ o2) F -> Q tt e') ->
  wp (env_discard x) e Q.
Proof.
  intros Hs H1 He H2 HQ. destruct (shape_node _ _ _ _ _ _ _ _ Hs) as (n & Hn & Ev & Ep & En).
  pose proof (sh_nodup _ _ _ _ _ Hs) as Hnd.
  assert (Hx : last_of None l1 <> Some x /\ first_of l2 None <> Some x /\ x ∉ (l1 ++ l2).*1).
  { rewrite fmap_app, fmap_cons in Hnd. apply NoDup_app in Hnd as (N1 & D & [N2 _]%NoDup_cons).
    assert (x ∉ l1.*1) by (intros ?; apply (D x); [done|apply elem_of_cons; by left]).
    split_and!; [by intros ?%last_of_in|by intros ?%first_of_in|].
    rewrite fmap_app. by rewrite not_elem_of_app. }
  destruct Hx as (Lx & Fx & Hx).
  apply wp_bind, (wp_load_ev _ n); [done|].
  set (p := last_of None l1) in *. set (q := first_of l2 None) in *.
  set (e1 := unlinked p q e).
  assert (Main : wp (free_str (ev_name n);; free_value x;; free_ev x) e1 Q).
  { destruct (unlinked_same p q e) as (Es & Eb & _).
    destruct (shape_unlinked _ _ _ _ _ _ _ _ Hs) as [Hd1 Hh1].
    destruct He as [bn nm fl pv val sh uh o Hok Hval].
    replace (ev_name n) with (Some (CObj bn 0)) by (by injection Ev).
    pose proof (sh_strs _ _ _ _ _ Hs) as P. rewrite <- Es in P.
    assert (P1 : map_to_list (e_strs e1) ≡ₚ (bn, nm ++ [0]) :: o ++ (o1 ++ o2) ++ map_to_list F)
      by (unfold e1; rewrite P, <- !app_assoc; solve_Permutation).
    apply wp_bind, wp_free_str.
    { exists (nm ++ [0]). apply elem_of_map_to_list. rewrite P1. apply elem_of_cons. by left. }
    assert (Hn1 : e_vars e1 !! x = Some n).
    { unfold e1. rewrite lookup_unlinked. rewrite !decide_False by done. done. }
    apply wp_bind, (wp_free_value _ x n nm (AVar val sh uh) bn o ((o1 ++ o2) ++ map_to_list F));
      [done|rewrite Ev; by constructor|by apply (strs_delete _ _ _ _ P1)|].
    intros m Pm Hm. unfold wp, free_ev. cbn [on_strs e_vars]. rewrite Hn1. cbn.
    apply HQ. split; cbn; try done.
    - apply dll_delete_ne; done.
    - rewrite fmap_app, fmap_cons, <- Permutation_middle in Hnd.
      rewrite fmap_app. by apply NoDup_cons in Hnd as [_ Hnd].
    - intros y [z Hy]. apply lookup_delete_Some in Hy as [Hne Hy].
      assert (Hin : y ∈ (l1 ++ (x, Evp (Some (CObj bn 0)) fl pv sh uh) :: l2).*1).
      { apply (sh_dom _ _ _ _ _ Hs). unfold e1 in Hy. rewrite lookup_unlinked in Hy.
        destruct (e_vars e !! y); [by eexists|]. by repeat case_decide. }
      rewrite fmap_app, fmap_cons, elem_of_app, elem_of_cons in Hin.
      rewrite fmap_app, elem_of_app. destruct Hin as [|[|]]; [by left|done|by right].
    - by apply entries_app.
    - intros b Hb. change (e_brk (unlinked p q e) <= b)%nat in Hb. rewrite Eb in Hb.
      destruct (sh_fresh _ _ _ _ _ Hs b Hb) as [Hb1 Hb2]. split.
      + apply lookup_delete_None. right. unfold e1. rewrite lookup_unlinked, Hb1.
        by repeat case_decide.
      + apply Hm. apply lookup_delete_None. right.
        change (e_strs (unlinked p q e) !! b = None). by rewrite Es.
    - rewrite fmap_app. eapply sorted_remove.
      rewrite <- (fmap_cons fst (nm, AVar val sh uh)), <- fmap_app. apply Hs. }
  rewrite Ep, En. apply wp_unlink; [| | |exact Main].
  - intros y Hy. apply (dll_lookup _ None (l1 ++ (x, v) :: l2) None); [|apply Hs].
    rewrite fmap_app. apply elem_of_app. left. by apply last_of_in.
  - intros y Hy. apply (dll_lookup _ None (l1 ++ (x, v) :: l2) None); [|apply Hs].
    rewrite fmap_app. apply elem_of_app. right. apply elem_of_cons. right. by apply first_of_in.
  - rewrite (sh_head _ _ _ _ _ Hs). unfold p. destruct l1 as [|[y w] r]; [done|].
    destruct r as [|[y' w'] r _] using rev_ind; [cbn|rewrite app_comm_cons, last_of_snoc];
      (split; [|done]); cbn; intros [= ->]; destruct Hx; apply elem_of_cons; by left.
Qed.

(** ** The environment as a map *)
Lemma names_nodup e l nas own F : env_shape e l nas own F -> NoDup nas.*1.
Proof.
  intros Hs. pose proof (sh_sorted _ _ _ _ _ Hs) as Hso.
  pose proof (entries_names _ _ _ (sh_entries _ _ _ _ _ Hs)) as Hok. clear Hs.
  induction Hso as [|a r Hr IH Ha]; [constructor|]. apply Forall_cons in Hok as [Hoka Hok].
  constructor; [|by apply IH]. intros Hin. rewrite Forall_forall in Ha.
  by apply (str_lt_irrefl a), Ha.
Qed.

Lemma map_middle (n1 n2 : list (list Z * avar)) nm a :
  NoDup (n1 ++ (nm, a) :: n2).*1 ->
  (list_to_map (n1 ++ (nm, a) :: n2) : gmap (list Z) avar) =
    <[nm := a]> (list_to_map (n1 ++ n2)) /\
  (list_to_map (n1 ++ n2) : gmap (list Z) avar) !! nm = None.
Proof.
  intros Hnd. split.
  - rewrite <- list_to_map_cons. apply list_to_map_proper; [done|]. solve_Permutation.
  - apply not_elem_of_list_to_map. rewrite fmap_app, fmap_cons, <- Permutation_middle in Hnd.
    rewrite fmap_app. by apply NoDup_cons in Hnd as [? _].
Qed.

Lemma names_same (n1 n2 : list (list Z * avar)) nm a a' :
  (n1 ++ (nm, a) :: n2).*1 = (n1 ++ (nm, a') :: n2).*1.
Proof. by rewrite !fmap_app. Qed.

Lemma found_lookup e l nas own F nm x v a :
  env_shape e l nas own F -> found l nas own nm x v a ->
  (list_to_map nas : gmap (list Z) avar) !! nm = Some a.
Proof.
  intros Hs (? & ? & n1 & n2 & ? & ? & ? & _ & -> & _).
  destruct (map_middle n1 n2 nm a (names_nodup _ _ _ _ _ Hs)) as [-> _].
  by rewrite lookup_insert_eq.
Qed.

(** The variable [a] with the value [val]. *)
Definition with_value (val : aval) (a : avar) : avar := AVar val (a_sethook a) (a_unsethook a).

(** Whether [setenv] leaves the work to the set hook of a variable. *)
Definition hooked (flags : Z) (a : avar) : bool :=
  match a_sethook a with Some _ => negb (Z.testbit flags 2) | None => false end.

Lemma wp_env_setenv e M F name nm flags value val F' sh uh :
  env_rep e M F -> str_at F name = Some nm -> cstring_ok nm ->
  match M !! nm with
  | Some a => hooked flags a = false /\ stored F flags (alloc (e_brk e)) value val F'
  | None => alloc (e_brk e) = true /\ alloc (S (e_brk e)) = true /\
            stored F flags (alloc (S (S (e_brk e)))) value val F'
  end ->
  wp (env_setenv alloc sethooks (Some name) flags value sh uh) e (fun r e' =>
    r = 0 /\
    env_rep e' (<[nm := with_value val (default (AVar VNone sh uh) (M !! nm))]> M) F').
Proof.
  intros (l & nas & own & Hs & ->) Hname Hok Hcase. apply wp_bind.
  eapply wp_env_getenv; try done.
  - intros x v a Hf. rewrite (found_lookup _ _ _ _ _ _ _ _ _ Hs Hf) in *.
    destruct Hcase as [Hh Hst].
    destruct Hf as (l1 & l2 & n1 & n2 & o1 & o & o2 & -> & -> & -> & H1 & He & H2).
    destruct (shape_node _ _ _ _ _ _ _ _ Hs) as (n & Hn & Ev & _).
    apply wp_bind, (wp_load_ev _ n); [done|].
    assert (Eh : ev_sethook n = a_sethook a) by (destruct He; by injection Ev).
    assert (Main : wp (clear_value x;; put_value alloc x flags value;; mret 0) e (fun r e' =>
      r = 0 /\ env_rep e' (<[nm := with_value val a]> (list_to_map (n1 ++ (nm, a) :: n2))) F')).
    { apply wp_bind. eapply wp_clear_value; try done. intros e' v' o' Eb Hfl _ Hs' He'.
      apply wp_bind. eapply wp_put_value; try done; [by rewrite Eb|].
      intros e2 v2 o3 Hs2. apply wp_ret. split; [done|]. eexists _, _, _. split; [exact Hs2|].
      pose proof (names_nodup _ _ _ _ _ Hs2) as Hnd.
      rewrite (proj1 (map_middle _ _ _ _ Hnd)). erewrite names_same in Hnd.
      rewrite (proj1 (map_middle _ _ _ _ Hnd)). by rewrite insert_insert_eq. }
    rewrite Eh. unfold hooked in Hh. change EV_NOHOOK with (2 ^ Z.of_nat 2).
    pose proof (flag_bit flags 2) as Hb. change (Z.of_nat 2) with 2 in *.
    destruct (a_sethook a); [|exact Main]. apply negb_false_iff in Hh. rewrite Hh in Hb.
    apply negb_true_iff in Hb. by rewrite Hb.
  - intros Hnm. assert (E : (list_to_map nas : gmap (list Z) avar) !! nm = None)
      by (by apply not_elem_of_list_to_map).
    rewrite E in *. destruct Hcase as (A1 & A2 & Hst). apply wp_bind.
    eapply wp_new_var; try done. intros e' x v l1 l2 n1 n2 o1 o o2 Eb Hfl -> Hs' H1 He H2.
    apply wp_bind. eapply wp_put_value; try done; [by rewrite Eb|].
    intros e2 v2 o3 Hs2. apply wp_ret. split; [done|]. eexists _, _, _. split; [exact Hs2|].
    by rewrite (proj1 (map_middle _ _ _ _ (names_nodup _ _ _ _ _ Hs2))).
Qed.


Lemma getenv_value e M F name nm :
  env_rep e M F -> str_at F name = Some nm -> cstring_ok nm ->
  exists r, getenv (Some name) e = Some (r, e) /\
    match M !! nm with
    | None => r = None
    | Some a =>
      match a_value a with
      | VNone => r = Some (CLit [])
      | VOwn buf => exists b, r = Some (CObj b 0) /\ e_strs e !! b = Some buf
      | VBorrow p => r = Some p
      end
    end.
Proof.
  intros (l & nas & own & Hs & ->) Hname Hok.
  enough (wp (getenv (Some name)) e (fun r e' => e' = e /\
    match (list_to_map nas : gmap (list Z) avar) !! nm with
    | None => r = None
    | Some a =>
      match a_value a with
      | VNone => r = Some (CLit [])
      | VOwn buf => exists b, r = Some (CObj b 0) /\ e_strs e !! b = Some buf
      | VBorrow p => r = Some p
      end
    end)) as (r & e' & E & -> & H)%wp_elim by by exists r.
  apply wp_bind. eapply wp_env_getenv; try done.
  - intros x v a Hf. rewrite (found_lookup _ _ _ _ _ _ _ _ _ Hs Hf).
    destruct Hf as (l1 & l2 & n1 & n2 & o1 & o & o2 & -> & -> & -> & H1 & He & H2).
    destruct (shape_node _ _ _ _ _ _ _ _ Hs) as (n & Hn & Ev & _).
    apply wp_bind, (wp_load_ev _ n); [done|].
    pose proof (sh_strs _ _ _ _ _ Hs) as P.
    destruct He as [bn nm fl p val sh uh o _ Hval].
    replace (ev_value n) with p by (by injection Ev).
    destruct Hval as [|b buf|p]; apply wp_ret; split; try done. exists b. split; [done|].
    apply (strs_own _ _ _ _ _ P). apply elem_of_app. right.
    apply elem_of_app. left. apply elem_of_cons. right. apply elem_of_cons. by left.
  - intros Hnm. rewrite (proj1 (not_elem_of_list_to_map _ _) Hnm). by apply wp_ret.
Qed.

(** [getenv] finds exactly the variables that are set, and changes nothing; what it
    returns is the value, or the empty string for a variable that is set to nothing. *)
Theorem getenv_gets e M F name nm :
  env_rep e M F -> str_at F name = Some nm -> cstring_ok nm ->
  exists r, getenv (Some name) e = Some (r, e) /\
    match M !! nm with
    | None => r = None
    | Some a =>
      match a_value a with
      | VNone => r = Some (CLit [])
      | VOwn buf => exists b, r = Some (CObj b 0) /\ e_strs e !! b = Some buf
      | VBorrow p => r = Some p
      end
    end.
Proof. apply getenv_value. Qed.

(** C29: [unsetenv] is the deletion of the binding, with the variable, its name and its value
    freed; it answers ENOENT, and changes nothing, where there is none.  An unset hook is
    asked first: [env_nounset] refuses with EPERM, and what another hook answers is final
    unless it is 0. *)
Theorem unsetenv_unsets e M F name nm :
  env_rep e M F -> str_at F name = Some nm -> cstring_ok nm ->
  match M !! nm with
  | None => unsetenv unsethooks (Some name) e = Some (ENOENT, e)
  | Some a =>
    match a_unsethook a with
    | None => exists e', unsetenv unsethooks (Some name) e = Some (0, e') /\
                env_rep e' (delete nm M) F
    | Some env_nounset_fn => unsetenv unsethooks (Some name) e = Some (EPERM, e)
    | Some (unsethook_fn k) => exists x, forall err e1, unsethooks k x e = Some (err, e1) ->
        (err <> 0 -> unsetenv unsethooks (Some name) e = Some (err, e1)) /\
        (err = 0 -> e1 = e -> exists e', unsetenv unsethooks (Some name) e = Some (0, e') /\
           env_rep e' (delete nm M) F)
    end
  end.
Proof.
  intros (l & nas & own & Hs & ->) Hname Hok.
  assert (G : wp (env_getenv (Some name)) e (fun r e' => e' = e /\
    match r with
    | Some x => exists v a, found l nas own nm x v a
    | None => nm ∉ nas.*1
    end)).
  { eapply wp_env_getenv; try done. intros x v a Hf. split; [done|]. by exists v, a. }
  apply wp_elim in G as (r & e' & E & -> & Hr).
  unfold unsetenv, mbind, St_bind. rewrite E. destruct r as [x|]; cycle 1.
  { by rewrite (proj1 (not_elem_of_list_to_map _ _) Hr). }
  destruct Hr as (v & a & Hf). rewrite (found_lookup _ _ _ _ _ _ _ _ _ Hs Hf).
  destruct Hf as (l1 & l2 & n1 & n2 & o1 & o & o2 & -> & -> & -> & H1 & He & H2).
  destruct (shape_node _ _ _ _ _ _ _ _ Hs) as (n & Hn & Ev & _).
  unfold load_ev at 1 2 3 4, of_opt. rewrite Hn.
  assert (Eh : ev_unsethook n = a_unsethook a) by (destruct He; by injection Ev). rewrite Eh.
  assert (D : exists e', env_discard x e = Some (tt, e') /\
    env_rep e' (delete nm (list_to_map (n1 ++ (nm, a) :: n2))) F).
  { enough (wp (env_discard x) e (fun _ e' =>
      env_rep e' (delete nm (list_to_map (n1 ++ (nm, a) :: n2))) F))
      as ([] & e' & ? & ?)%wp_elim by by exists e'.
    eapply wp_env_discard; try done. intros e' Hs'. exists (l1 ++ l2), (n1 ++ n2), (o1 ++ o2).
    split; [done|]. destruct (map_middle _ _ _ _ (names_nodup _ _ _ _ _ Hs)) as [-> Hnone].
    by rewrite delete_insert_id. }
  destruct D as (e' & D & Hrep).
  destruct (a_unsethook a) as [[|k]|]; cbn [call_unsethook]; try done.
  - exists x. intros err e1 Eu. rewrite Eu. split.
    + intros Hne. by rewrite (proj2 (Z.eqb_neq err 0) Hne).
    + intros -> ->. cbn. rewrite D. by exists e'.
  - cbn. rewrite D. by exists e'.
Qed.

(** The outcome of looking up a variable that is set. *)
Lemma getenv_found e l nas own F name nm a :
  env_shape e l nas own F -> str_at F name = Some nm -> cstring_ok nm ->
  (list_to_map nas : gmap (list Z) avar) !! nm = Some a ->
  exists x v, env_getenv (Some name) e = Some (Some x, e) /\ found l nas own nm x v a.
Proof.
  intros Hs Hname Hok Ha.
  assert (G : wp (env_getenv (Some name)) e (fun r e' => e' = e /\
    exists x v, r = Some x /\ found l nas own nm x v a)).
  { eapply wp_env_getenv; try done.
    - intros x v a' Hf. split; [done|]. exists x, v. split; [done|].
      rewrite (found_lookup _ _ _ _ _ _ _ _ _ Hs Hf) in Ha. by injection Ha as <-.
    - intros Hnm. by rewrite (proj1 (not_elem_of_list_to_map _ _) Hnm) in Ha. }
  apply wp_elim in G as (r & e' & E & -> & x & v & -> & Hf). by exists x, v.
Qed.

(** The set hook of a variable decides what setting it does, unless EV_NOHOOK is given;
    and [setenv] without [overwrite] leaves a variable that is set alone. *)
Theorem set_hooks_decide e M F name nm a value flags sh uh :
  env_rep e M F -> str_at F name = Some nm -> cstring_ok nm -> M !! nm = Some a ->
  (forall h, a_sethook a = Some h -> Z.testbit flags 2 = false -> exists x,
    env_setenv alloc sethooks (Some name) flags value sh uh e =
      call_sethook sethooks h x flags value e) /\
  setenv alloc sethooks (Some name) value false e = Some (0, e).
Proof.
  intros (l & nas & own & Hs & ->) Hname Hok Ha.
  destruct (getenv_found _ _ _ _ _ _ _ _ Hs Hname Hok Ha) as (x & v & E & Hf). split.
  - intros h Hh Hb. exists x. unfold env_setenv, mbind, St_bind. rewrite E.
    destruct Hf as (l1 & l2 & n1 & n2 & o1 & o & o2 & -> & -> & -> & H1 & He & H2).
    destruct (shape_node _ _ _ _ _ _ _ _ Hs) as (n & Hn & Ev & _).
    unfold load_ev, of_opt at 1. rewrite Hn.
    assert (Eh : ev_sethook n = a_sethook a) by (destruct He; by injection Ev).
    rewrite Eh, Hh. change EV_NOHOOK with (2 ^ Z.of_nat 2).
    pose proof (flag_bit flags 2) as Hf. change (Z.of_nat 2) with 2 in *.
    rewrite Hb in Hf. apply negb_false_iff in Hf. by rewrite Hf.
  - unfold setenv, mbind, St_bind. by rewrite E.
Qed.

(** C30: Setting a variable to its own value, as [setenv(n, getenv(n), 1)] does, reads memory
    that has been freed: the old value is discarded before the new one is copied. *)
Theorem setenv_own_value_ub e M F name nm buf uh v :
  env_rep e M F -> str_at F name = Some nm -> cstring_ok nm ->
  M !! nm = Some (AVar (VOwn buf) None uh) ->
  getenv (Some name) e = Some (Some v, e) ->
  setenv alloc sethooks (Some name) (Some v) true e = None.
Proof.
  intros (l & nas & own & Hs & ->) Hname Hok Ha Hget.
  destruct (getenv_found _ _ _ _ _ _ _ _ Hs Hname Hok Ha) as (x & v' & E & Hf).
  destruct Hf as (l1 & l2 & n1 & n2 & o1 & o & o2 & -> & -> & -> & H1 & He & H2).
  destruct (shape_node _ _ _ _ _ _ _ _ Hs) as (n & Hn & Ev & _).
  unfold getenv, mbind, St_bind in Hget. rewrite E in Hget.
  unfold load_ev, of_opt in Hget. rewrite Hn in Hget.
  unfold setenv, env_setenv, mbind, St_bind, mret, St_ret. rewrite E.
  unfold load_ev at 1, of_opt. rewrite Hn.
  assert (exists bn b, ev_value n = Some (CObj b 0) /\ o = [(bn, nm ++ [0]); (b, buf)] /\
    ev_sethook n = None) as (bn & b & Evv & Ho & Eh).
  { subst v'. clear - He. destruct n. cbn in He. inversion He as [????????? Hval]; subst.
    inversion Hval; subst. by eexists _, _. }
  rewrite Evv in Hget. injection Hget as <-. rewrite Eh.
  assert (C : wp (clear_value x) e (fun _ e' => str_at (e_strs e') (CObj b 0) = None)).
  { eapply wp_clear_value; try done. intros e' v2 o' _ _ Eo Hs' _.
    cbn [str_at]. rewrite Eo, Ho in Hs'. cbn [take] in Hs'. rewrite Ho in Hs.
    enough (e_strs e' !! b = None) as -> by done. apply eq_None_not_Some. intros [buf' Hb'].
    pose proof (sh_strs _ _ _ _ _ Hs) as P. pose proof (sh_strs _ _ _ _ _ Hs') as P'.
    apply elem_of_map_to_list in Hb'. rewrite P' in Hb'.
    assert (Hnd : NoDup ((b, buf) :: (o1 ++ take 1 [(bn, nm ++ [0])] ++ o2) ++ map_to_list F).*1).
    { pose proof (NoDup_fst_map_to_list (e_strs e)) as Hnd. rewrite P in Hnd. clear - Hnd.
      eapply NoDup_Permutation_proper; [|exact Hnd]. apply Permutation_map.
      rewrite <- !app_assoc. cbn [take]. solve_Permutation. }
    rewrite fmap_cons in Hnd. apply NoDup_cons in Hnd as [Hnin _]. apply Hnin.
    apply (list_elem_of_fmap_2 fst) in Hb'. exact Hb'. }
  apply wp_elim in C as ([] & e' & Ec & Hv). rewrite Ec.
  unfold put_value, strdup, mbind, St_bind, read_str, of_opt.
  change (negb (Z.land EV_VOLATILE EV_VOLATILE =? 0)) with true. cbn beta iota. by rewrite Hv.
Qed.

(** What the callers do with their own objects. *)
Lemma rep_frame e e' M F F' :
  env_rep e M F -> e_vars e' = e_vars e -> e_environ e' = e_environ e ->
  (e_brk e <= e_brk e')%nat ->
  (forall b, (e_brk e' <= b)%nat -> e_strs e !! b = None -> e_strs e' !! b = None) ->
  (forall own, map_to_list (e_strs e) ≡ₚ own ++ map_to_list F ->
    map_to_list (e_strs e') ≡ₚ own ++ map_to_list F') ->
  env_rep e' M F'.
Proof.
  intros (l & nas & own & [] & ->) Ev Ee Eb Hfr HF. exists l, nas, own. split; [|done].
  split; rewrite ?Ev, ?Ee; auto. intros b Hb.
  destruct (sh_fresh0 b ltac:(lia)). split; [done|]. by apply Hfr.
Qed.

Lemma frame_in (m : strs) own (F : strs) b :
  map_to_list m ≡ₚ own ++ map_to_list F -> m !! b = None -> F !! b = None.
Proof.
  intros P Hb. apply eq_None_not_Some. intros [l Hl].
  by rewrite (strs_frame _ _ _ _ _ P Hl) in Hb.
Qed.

Lemma rep_fresh e M F : env_rep e M F -> F !! e_brk e = None.
Proof.
  intros (l & nas & own & Hs & _). apply (frame_in (e_strs e) own); [apply Hs|].
  by apply (sh_fresh _ _ _ _ _ Hs).
Qed.

Lemma rep_dup e M F s :
  env_rep e M F -> alloc (e_brk e) = true ->
  env_rep (dup_env e s) M (<[e_brk e := s ++ [0]]> F).
Proof.
  intros Hr Ha. pose proof (rep_fresh _ _ _ Hr) as HF. unfold dup_env. rewrite Ha.
  assert (Hn : e_strs e !! e_brk e = None).
  { destruct Hr as (l & nas & own & Hs & _). by apply (sh_fresh _ _ _ _ _ Hs). }
  eapply rep_frame; [exact Hr|done..|cbn; lia| |].
  - intros b Hb Hbn. cbn in *. by rewrite lookup_insert_ne by lia.
  - intros own P. cbn. rewrite (strs_insert _ _ _ _ Hn P), map_to_list_insert by done.
    solve_Permutation.
Qed.

Lemma rep_free e M F b l :
  env_rep e M F -> F !! b = Some l -> env_rep (on_strs (delete b) e) M (delete b F).
Proof.
  intros Hr Hb. eapply rep_frame; [exact Hr|done..| |].
  - intros b' _ Hbn. apply lookup_delete_None. by right.
  - intros own P. apply (strs_delete _ b l). rewrite P, <- (map_to_list_delete F b l) by done.
    solve_Permutation.
Qed.

Lemma rep_poke e M F b l l' :
  env_rep e M F -> F !! b = Some l -> env_rep (on_strs <[b := l']> e) M (<[b := l']> F).
Proof.
  intros Hr Hb.
  assert (Hin : e_strs e !! b = Some l).
  { destruct Hr as (? & ? & own & Hs & _). by apply (strs_frame _ own F); [apply Hs|]. }
  eapply rep_frame; [exact Hr|done..| |].
  - intros b' _ Hbn. cbn. rewrite lookup_insert_ne; [done|]. by intros <-; rewrite Hin in Hbn.
  - intros own P. cbn. rewrite <- (insert_delete_eq (e_strs e)), <- (insert_delete_eq F).
    rewrite !map_to_list_insert by apply lookup_delete_eq.
    rewrite (strs_delete _ b l (own ++ map_to_list (delete b F))); [solve_Permutation|].
    rewrite P, <- (map_to_list_delete F b l) by done. solve_Permutation.
Qed.

Lemma frame_lookup e M F b l : env_rep e M F -> F !! b = Some l -> e_strs e !! b = Some l.
Proof. intros (? & ? & own & Hs & _) Hb. by apply (strs_frame _ own F); [apply Hs|]. Qed.

(** The two halves of ["name=value"], if there is a ['=']. *)
Definition split_def (s : list Z) : list Z * option (list Z) :=
  match index_of 61 s with
  | Some i => (take i s, Some (drop (S i) s))
  | None => (s, None)
  end.

Lemma index_of_split s i : index_of 61 s = Some i ->
  s = take i s ++ 61 :: drop (S i) s /\ (i < length s)%nat.
Proof.
  intros H. apply index_of_spec in H as [H _]. split; [by rewrite take_drop_middle|].
  by apply lookup_lt_Some in H.
Qed.

(** The value a definition stores. *)
Definition def_value (s : list Z) : aval :=
  match snd (split_def s) with Some v => VOwn (v ++ [0]) | None => VNone end.

(** [putenv] once it has its copy of the string and ended the name in it. *)
Lemma putenv_tail e M b buf nm value val :
  forall F, env_rep e M (<[b := buf]> F) -> F !! b = None ->
  str_at (<[b := buf]> F) (CObj b 0) = Some nm -> cstring_ok nm ->
  (forall k, alloc k = true) ->
  (forall a, M !! nm = Some a -> a_sethook a = None) ->
  stored (<[b := buf]> F) EV_VOLATILE true value val (<[b := buf]> F) ->
  wp (result ← setenv alloc sethooks (Some (CObj b 0)) value true;
      free_str (Some (CObj b 0));; mret result) e (fun r e' => r = 0 /\
    env_rep e' (<[nm := with_value val (default (AVar VNone None None) (M !! nm))]> M) F).
Proof.
  intros F Hr HF Hnm Hok Hall Hh Hst. apply wp_bind, wp_bind, wp_ret. cbn iota.
  eapply wp_mono.
  - apply (wp_env_setenv e M (<[b := buf]> F) _ nm EV_VOLATILE value val (<[b := buf]> F));
      try done.
    rewrite !Hall. destruct (M !! nm) as [a|] eqn:E; [|done].
    split; [|done]. unfold hooked. by rewrite (Hh a eq_refl).
  - intros r e' [-> Hr']. cbn beta in Hr'. apply wp_bind, wp_free_str.
    + exists buf. eapply frame_lookup; [exact Hr'|]. apply lookup_insert_eq.
    + apply wp_ret. split; [done|]. rewrite <- (delete_insert_id F b buf) by done.
      eapply rep_free; [exact Hr'|]. apply lookup_insert_eq.
Qed.

(** [putenv] of ["name=value"] sets the variable to a copy of the value, and of a string
    without ['='] to nothing; the working copy is freed whatever happens. *)
Theorem putenv_puts e M F p s :
  env_rep e M F -> str_at F p = Some s -> cstring_ok s -> (forall k, alloc k = true) ->
  (forall a, M !! fst (split_def s) = Some a -> a_sethook a = None) ->
  wp (putenv alloc sethooks (Some p)) e (fun r e' => r = 0 /\
    env_rep e' (<[fst (split_def s) :=
      with_value (def_value s) (default (AVar VNone None None) (M !! fst (split_def s)))]> M) F).
Proof.
  intros Hr Hp Hok Hall Hh. pose proof (rep_fresh _ _ _ Hr) as HF.
  assert (Hp' : str_at (e_strs e) p = Some s)
    by (destruct Hr as (? & ? & own & Hs & _); by eapply str_at_frame; [apply Hs|]).
  pose proof (rep_dup _ _ _ s Hr (Hall _)) as Hr1. unfold dup_env in Hr1. rewrite Hall in Hr1.
  apply wp_bind, (wp_strdup _ s); [done|]. unfold dup_ptr, dup_env. rewrite Hall.
  set (b := e_brk e) in *. set (e1 := on_strs _ _) in *.
  assert (Hb : e_strs e1 !! b = Some (s ++ [0])) by apply lookup_insert_eq.
  apply wp_bind, (wp_read_str _ s); [by apply str_at_dup|]. unfold def_value, split_def in *.
  destruct (index_of 61 s) as [i|] eqn:Ei; cbn [fst snd] in *; apply wp_bind.
  - destruct (index_of_split _ _ Ei) as [Es Hi]. set (k := take i s) in *.
    set (v := drop (S i) s) in *.
    assert (Lk : length k = i) by (apply length_take_le; lia).
    assert (Ebuf : <[i := 0]> (s ++ [0]) = k ++ 0 :: v ++ [0]).
    { rewrite Es, <- app_assoc. cbn. rewrite <- Lk, insert_app_r_alt by lia.
      by rewrite Nat.sub_diag. }
    apply wp_bind. unfold wp at 1, put_nul. rewrite Hb. cbn [mbind option_bind].
    rewrite decide_True by (rewrite length_app; cbn; lia). rewrite Nat.add_0_l, Ebuf. apply wp_ret.
    pose proof (Forall_take _ i _ Hok) as Hk. fold k in Hk.
    pose proof (Forall_drop _ (S i) _ Hok) as Hv. fold v in Hv.
    apply (putenv_tail _ _ _ (k ++ 0 :: v ++ [0])); try done.
    + rewrite <- (insert_insert_eq F b _ (s ++ [0])). eapply rep_poke; [exact Hr1|].
      apply lookup_insert_eq.
    + cbn [str_at]. rewrite lookup_insert_eq. cbn [mbind option_bind]. rewrite drop_0.
      rewrite decide_True; [by rewrite cbytes_cstring|].
      apply elem_of_app. right. apply elem_of_cons. by left.
    + apply (stored_copy _ _ true _ v); [done|]. cbn [str_at]. rewrite lookup_insert_eq.
      cbn [mbind option_bind]. assert (Ed : drop (S i) (k ++ 0 :: v ++ [0]) = v ++ [0]).
      { rewrite <- Lk, drop_app_ge by lia.
        by replace (S (length k) - length k)%nat with 1%nat by lia. }
      rewrite Ed, decide_True; [by rewrite cbytes_cstring|].
      apply elem_of_app. right. apply elem_of_cons. by left.
  - apply wp_ret. apply (putenv_tail _ _ _ (s ++ [0])); try done.
    + apply str_at_dup; [done|]. apply lookup_insert_eq.
    + constructor.
Qed.
End rules.

(** ** Examples: one variable, [a=b], with the given hooks *)
Definition ex_env (sh : option sethook) (uh : option unsethook) : env :=
  Env {[0%nat := EnvVar (Some (CObj 1 0)) 1 (Some (CObj 2 0)) sh uh None None]}
    (<[1%nat := cstr "a" ++ [0]]> (<[2%nat := cstr "b" ++ [0]]> ∅)) 3 (Some 0%nat).
Definition ex_vars (sh : option sethook) (uh : option unsethook) : gmap (list Z) avar :=
  {[cstr "a" := AVar (VOwn (cstr "b" ++ [0])) sh uh]}.
Definition ex_alloc (k : loc) : bool := true.
Definition ex_sethooks (n : nat) (ev : loc) (flags : Z) (value : option cptr) : St env Z := mret 7.
Definition ex_unsethooks (n : nat) (ev : loc) : St env Z := mret 0.

Lemma ex_rep sh uh : env_rep (ex_env sh uh) (ex_vars sh uh) ∅.
Proof.
  exists [(0%nat, Evp (Some (CObj 1 0)) 1 (Some (CObj 2 0)) sh uh)],
    [(cstr "a", AVar (VOwn (cstr "b" ++ [0])) sh uh)],
    ([(1%nat, cstr "a" ++ [0]); (2%nat, cstr "b" ++ [0])] ++ []).
  split; [split|].
  - cbn. split; [|done]. eexists. split; [apply lookup_singleton_eq|done].
  - repeat constructor. by intros ?%elem_of_nil.
  - intros x [n Hn]. unfold ex_env in Hn. cbn [e_vars] in Hn.
    apply lookup_singleton_Some in Hn as [<- _]. by left.
  - done.
  - constructor; [|constructor]. constructor; [repeat constructor; lia|]. by constructor.
  - unfold ex_env. cbn [e_strs]. rewrite !map_to_list_insert, map_to_list_empty by done. done.
  - intros b Hb. cbn in Hb. split; [apply lookup_singleton_ne; lia|].
    unfold ex_env. cbn [e_strs]. rewrite !lookup_insert_ne by lia. done.
  - repeat constructor.
  - done.
Qed.

Lemma ex_var_ok : cstring_ok (cstr "a").
Proof. repeat constructor; lia. Qed.


Lemma getenv_gets_witness :
  exists r, getenv (Some (CLit (cstr "a"))) (ex_env None None) = Some (r, ex_env None None) /\
    exists b, r = Some (CObj b 0) /\ e_strs (ex_env None None) !! b = Some (cstr "b" ++ [0]).
Proof.
  exact (getenv_gets _ _ ∅ (CLit (cstr "a")) (cstr "a") (ex_rep None None) eq_refl ex_var_ok).
Defined.

Lemma unsetenv_unsets_witness :
  (exists e', unsetenv ex_unsethooks (Some (CLit (cstr "a"))) (ex_env None None) = Some (0, e') /\
    env_rep e' (delete (cstr "a") (ex_vars None None)) ∅) /\
  unsetenv ex_unsethooks (Some (CLit (cstr "a"))) (ex_env None (Some env_nounset_fn)) =
    Some (EPERM, ex_env None (Some env_nounset_fn)).
Proof.
  split.
  - exact (unsetenv_unsets ex_unsethooks _ _ ∅ (CLit (cstr "a")) (cstr "a") (ex_rep None None)
      eq_refl ex_var_ok).
  - exact (unsetenv_unsets ex_unsethooks _ _ ∅ (CLit (cstr "a")) (cstr "a")
      (ex_rep None (Some env_nounset_fn)) eq_refl ex_var_ok).
Defined.

Lemma set_hooks_decide_witness :
  env_setenv ex_alloc ex_sethooks (Some (CLit (cstr "a"))) EV_VOLATILE None None None
    (ex_env (Some env_noset_fn) None) = Some (EPERM, ex_env (Some env_noset_fn) None) /\
  setenv ex_alloc ex_sethooks (Some (CLit (cstr "a"))) None false
    (ex_env (Some env_noset_fn) None) = Some (0, ex_env (Some env_noset_fn) None).
Proof.
  destruct (set_hooks_decide ex_alloc ex_sethooks _ _ ∅ (CLit (cstr "a")) (cstr "a")
    (AVar (VOwn (cstr "b" ++ [0])) (Some env_noset_fn) None) None EV_VOLATILE None None
    (ex_rep (Some env_noset_fn) None) eq_refl ex_var_ok eq_refl) as [H1 H2].
  split; [|exact H2]. destruct (H1 env_noset_fn eq_refl eq_refl) as [x H]. exact H.
Defined.

Lemma setenv_own_value_ub_witness :
  setenv ex_alloc ex_sethooks (Some (CLit (cstr "a"))) (Some (CObj 2 0)) true
    (ex_env None None) = None.
Proof.
  exact (setenv_own_value_ub ex_alloc ex_sethooks _ _ ∅ (CLit (cstr "a")) (cstr "a")
    (cstr "b" ++ [0]) None (CObj 2 0) (ex_rep None None) eq_refl ex_var_ok eq_refl eq_refl).
Defined.

Lemma putenv_puts_witness :
  wp (putenv ex_alloc ex_sethooks (Some (CLit (cstr "c=d")))) (ex_env None None) (fun r e' =>
    r = 0 /\ env_rep e' (<[cstr "c" := AVar (VOwn (cstr "d" ++ [0])) None None]> (ex_vars None None)) ∅).
Proof.
  refine (putenv_puts ex_alloc ex_sethooks _ _ ∅ (CLit (cstr "c=d")) (cstr "c=d")
    (ex_rep None None) eq_refl _ (fun _ => eq_refl) _).
  - repeat constructor; lia.
  - intros a Ha. discriminate Ha.
Defined.
