(* ===== verification/Bcache.v ===== *)
(** * Bcache: the block cache of the boot loader (sys/boot/common/bcache.c)

    The control blocks and the data of the cache, the bitmap of misses, and the disks
    behind it.  The specification is the disk itself: [bcache_strategy] answers what the
    device would, as long as the cache is coherent with it ([ready]), which every operation but
    a write that bypasses the cache preserves. *)
From Stdlib Require Import ZArith Lia.
From stdpp Require Import base list option gmap.
From S2P Require Import Prelude.
Open Scope Z_scope.

Definition F_READ := 0x1.
Definition F_WRITE := 0x2.
Definition BCACHE_TIMEOUT := 2.
Definition ENOENT := 2.
Definition EIO := 5.
Definition ENOMEM := 12.

(** [struct bcachectl]. *)
Record bcachectl := Ctl {
  bc_blkno : Z;
  bc_stamp : Z;
  bc_count : Z;
}.

(** The static variables of bcache.c ([None]: a pointer that must not be followed, NULL or
    dangling), the static [bcache_unit] of [bcache_strategy], the calls made of [time] and
    of the device so far, the disks by unit, and the buffer of the request. *)
Record bcache := Bcache {
  bcache_ctl : option (list bcachectl);
  bcache_data : option (list Z);
  bcache_miss : option (list bool);
  bcache_nblks : Z;
  bcache_blksize : Z;
  bcache_bcount : Z;
  bcache_unit : Z;
  bcache_stats : list Z;
  w_times : nat;
  w_ios : nat;
  w_disks : gmap Z (list Z);
  w_buf : list Z;
}.

Definition set_ctls (v : option (list bcachectl)) (s : bcache) : bcache :=
  Bcache v (bcache_data s) (bcache_miss s) (bcache_nblks s) (bcache_blksize s)
    (bcache_bcount s) (bcache_unit s) (bcache_stats s) (w_times s) (w_ios s) (w_disks s) (w_buf s).
Definition set_data (v : option (list Z)) (s : bcache) : bcache :=
  Bcache (bcache_ctl s) v (bcache_miss s) (bcache_nblks s) (bcache_blksize s)
    (bcache_bcount s) (bcache_unit s) (bcache_stats s) (w_times s) (w_ios s) (w_disks s) (w_buf s).
Definition set_misses (v : option (list bool)) (s : bcache) : bcache :=
  Bcache (bcache_ctl s) (bcache_data s) v (bcache_nblks s) (bcache_blksize s)
    (bcache_bcount s) (bcache_unit s) (bcache_stats s) (w_times s) (w_ios s) (w_disks s) (w_buf s).
Definition set_size (n b : Z) (s : bcache) : bcache :=
  Bcache (bcache_ctl s) (bcache_data s) (bcache_miss s) n b
    (bcache_bcount s) (bcache_unit s) (bcache_stats s) (w_times s) (w_ios s) (w_disks s) (w_buf s).
Definition set_bcount (v : Z) (s : bcache) : bcache :=
  Bcache (bcache_ctl s) (bcache_data s) (bcache_miss s) (bcache_nblks s) (bcache_blksize s)
    v (bcache_unit s) (bcache_stats s) (w_times s) (w_ios s) (w_disks s) (w_buf s).
Definition set_unit (v : Z) (s : bcache) : bcache :=
  Bcache (bcache_ctl s) (bcache_data s) (bcache_miss s) (bcache_nblks s) (bcache_blksize s)
    (bcache_bcount s) v (bcache_stats s) (w_times s) (w_ios s) (w_disks s) (w_buf s).
Definition set_stats (v : list Z) (s : bcache) : bcache :=
  Bcache (bcache_ctl s) (bcache_data s) (bcache_miss s) (bcache_nblks s) (bcache_blksize s)
    (bcache_bcount s) (bcache_unit s) v (w_times s) (w_ios s) (w_disks s) (w_buf s).
Definition set_times (v : nat) (s : bcache) : bcache :=
  Bcache (bcache_ctl s) (bcache_data s) (bcache_miss s) (bcache_nblks s) (bcache_blksize s)
    (bcache_bcount s) (bcache_unit s) (bcache_stats s) v (w_ios s) (w_disks s) (w_buf s).
Definition set_ios (v : nat) (s : bcache) : bcache :=
  Bcache (bcache_ctl s) (bcache_data s) (bcache_miss s) (bcache_nblks s) (bcache_blksize s)
    (bcache_bcount s) (bcache_unit s) (bcache_stats s) (w_times s) v (w_disks s) (w_buf s).
Definition set_disks (v : gmap Z (list Z)) (s : bcache) : bcache :=
  Bcache (bcache_ctl s) (bcache_data s) (bcache_miss s) (bcache_nblks s) (bcache_blksize s)
    (bcache_bcount s) (bcache_unit s) (bcache_stats s) (w_times s) (w_ios s) v (w_buf s).
Definition set_buf (v : list Z) (s : bcache) : bcache :=
  Bcache (bcache_ctl s) (bcache_data s) (bcache_miss s) (bcache_nblks s) (bcache_blksize s)
    (bcache_bcount s) (bcache_unit s) (bcache_stats s) (w_times s) (w_ios s) (w_disks s) v.

(** The statistics: [bcache_hits], [bcache_misses], [bcache_ops], [bcache_bypasses],
    [bcache_flushes], in this order. *)
Definition count_stat (i : nat) : St bcache unit :=
  modify (fun s => set_stats (alter (fun v => u32 (v + 1)) i (bcache_stats s)) s).

Section bcache.
(** The world: what the [k]-th call of [time] tells, how the [k]-th transfer ends (0 or an
    error), the size of the sectors of the devices, and what an allocation yields. *)
Context (time : nat -> Z) (dv_err : nat -> Z) (secsz : Z).

Definition now : St bcache Z := fun s =>
  Some (time (w_times s), set_times (S (w_times s)) s).

(** [dd->dv_strategy(dd->dv_devdata, rw, blk, size, buf, rsize)]: the error, and what is
    stored through [rsize].  A transfer that fails, or lies outside the disk, moves
    nothing; the buffer must hold the whole of it. *)
Definition dv_strategy (unit rw blk size : Z) (buf : nat) : St bcache (Z * Z) := fun s =>
  let k := w_ios s in
  let s := set_ios (S k) s in
  let n := Z.to_nat size in
  let o := Z.to_nat (blk * secsz) in
  if negb (buf + n <=? length (w_buf s))%nat then None
  else
    match w_disks s !! unit with
    | None => Some ((EIO, 0), s)
    | Some d =>
      if negb (dv_err k =? 0) then Some ((dv_err k, 0), s)
      else if negb ((0 <=? blk) && (blk * secsz + size <=? Z.of_nat (length d)))
        then Some ((EIO, 0), s)
      else if rw =? F_READ then Some ((0, size), set_buf (splice buf (sub o n d) (w_buf s)) s)
      else if rw =? F_WRITE then
        Some ((0, size), set_disks (<[unit := splice o (sub buf n (w_buf s)) d]> (w_disks s)) s)
      else Some ((EIO, 0), s)
    end.

(** [bcache_ctl[i]], read and written. *)
Definition get_ctl (i : nat) : St bcache bcachectl := fun s =>
  l ← bcache_ctl s; c ← l !! i; Some (c, s).
Definition set_ctl (i : nat) (c : bcachectl) : St bcache unit := fun s =>
  l ← bcache_ctl s; _ ← l !! i; Some (tt, set_ctls (Some (<[i := c]> l)) s).

(** [bcopy(buf, bcache_data + (bcache_blksize * i), bcache_blksize)], and back. *)
Definition copy_in (buf i : nat) : St bcache unit := fun s =>
  d ← bcache_data s;
  let n := Z.to_nat (bcache_blksize s) in
  if decide (buf + n <= length (w_buf s) /\ i * n + n <= length d)%nat
  then Some (tt, set_data (Some (splice (i * n) (sub buf n (w_buf s)) d)) s) else None.
Definition copy_out (i buf : nat) : St bcache unit := fun s =>
  d ← bcache_data s;
  let n := Z.to_nat (bcache_blksize s) in
  if decide (buf + n <= length (w_buf s) /\ i * n + n <= length d)%nat
  then Some (tt, set_buf (splice buf (sub (i * n) n d) (w_buf s)) s) else None.

(** [bit_set], [bit_clear] and [bit_test] on [bcache_miss]. *)
Definition bit_put (i : nat) (b : bool) : St bcache unit := fun s =>
  l ← bcache_miss s; _ ← l !! i; Some (tt, set_misses (Some (<[i := b]> l)) s).
Definition bit_test (i : nat) : St bcache bool := fun s =>
  l ← bcache_miss s; b ← l !! i; Some (b, s).

(** ** [bcache_insert]: [n] slots from [i] on are left to look at *)
Fixpoint oldest (n i : nat) (blkno : Z) (cand : nat) (ocount : Z) : St bcache nat :=
  match n with
  | O => mret cand
  | S n =>
    c ← get_ctl i;
    if bc_blkno c =? blkno then mret i
    else if bc_count c <? ocount then oldest n (S i) blkno i (bc_count c)
    else oldest n (S i) blkno cand ocount
  end.

Definition bcache_insert (buf : nat) (blkno : Z) : St bcache unit :=
  t ← now;
  c0 ← get_ctl 0;
  nblks ← gets bcache_nblks;
  cand ← oldest (Z.to_nat nblks - 1) 1 blkno 0 (bc_count c0);
  copy_in buf cand;;
  count ← gets bcache_bcount;
  set_ctl cand (Ctl blkno t (s32 count));;
  modify (set_bcount (u32 (count + 1))).

Fixpoint lookup_loop (n i : nat) (buf : nat) (blkno t : Z) : St bcache Z :=
  match n with
  | O => mret ENOENT
  | S n =>
    c ← get_ctl i;
    if (bc_blkno c =? blkno) && (t <=? bc_stamp c + BCACHE_TIMEOUT)
    then copy_out i buf;; mret 0
    else lookup_loop n (S i) buf blkno t
  end.

Definition bcache_lookup (buf : nat) (blkno : Z) : St bcache Z :=
  t ← now; nblks ← gets bcache_nblks; lookup_loop (Z.to_nat nblks) 0 buf blkno t.

Fixpoint invalidate_loop (n i : nat) (blkno : Z) : St bcache unit :=
  match n with
  | O => mret tt
  | S n =>
    c ← get_ctl i;
    if bc_blkno c =? blkno then set_ctl i (Ctl (-1) (bc_stamp c) (-1))
    else invalidate_loop n (S i) blkno
  end.

Definition bcache_invalidate (blkno : Z) : St bcache unit :=
  nblks ← gets bcache_nblks; invalidate_loop (Z.to_nat nblks) 0 blkno.

Fixpoint flush_loop (n i : nat) : St bcache unit :=
  match n with
  | O => mret tt
  | S n => c ← get_ctl i; set_ctl i (Ctl (-1) (bc_stamp c) (-1));; flush_loop n (S i)
  end.

Definition bcache_flush : St bcache unit :=
  count_stat 4;;
  nblks ← gets bcache_nblks; flush_loop (Z.to_nat nblks) 0.

(** [malloc]: three allocations, each of which may fail; [ctls] and [data] are what the
    memory happens to hold. *)
Definition bcache_init (ok_data ok_ctl ok_miss : bool) (ctls : list bcachectl) (data : list Z)
    (nblks bsize : Z) : St bcache Z :=
  modify (set_size nblks bsize);;
  if ok_data && ok_ctl && ok_miss then
    modify (set_data (Some data));;
    modify (set_ctls (Some ctls));;
    modify (set_misses (Some (replicate (Z.to_nat (u32 (nblks + 1) / 2)) false)));;
    mret 0
  else
    modify (set_data None);;
    modify (set_ctls None);;
    modify (set_misses None);;
    mret ENOMEM.

(** ** Requests *)
Fixpoint invalidate_blocks (n : nat) (blk : Z) : St bcache unit :=
  match n with
  | O => mret tt
  | S n => bcache_invalidate blk;; invalidate_blocks n (blk + 1)
  end.

Fixpoint insert_blocks (n : nat) (buf : nat) (blk : Z) : St bcache unit :=
  match n with
  | O => mret tt
  | S n =>
    bcache_insert buf blk;;
    bs ← gets bcache_blksize;
    insert_blocks n (buf + Z.to_nat bs) (blk + 1)
  end.

Definition write_strategy (unit rw blk size : Z) (buf : nat) : St bcache (Z * option Z) :=
  bs ← gets bcache_blksize;
  let nblk := Z.to_nat (size / bs) in
  invalidate_blocks nblk blk;;
  '(err, rsize) ← dv_strategy unit rw blk size buf;
  (if err =? 0 then insert_blocks nblk buf blk else mret tt);;
  mret (err, Some rsize).

(** The first loop of [read_strategy]. *)
Fixpoint lookup_blocks (n i : nat) (buf : nat) (blk : Z) : St bcache unit :=
  match n with
  | O => mret tt
  | S n =>
    bs ← gets bcache_blksize;
    r ← bcache_lookup (buf + Z.to_nat bs * i) (blk + Z.of_nat i);
    (if r =? 0 then bit_put i false;; count_stat 0 else bit_put i true;; count_stat 1);;
    lookup_blocks n (S i) buf blk
  end.

(** A pending transfer: [p_blk], [p_buf] and [p_size], none where [p_blk] is -1. *)
Definition transfer (unit rw : Z) (p : Z * nat * nat) : St bcache Z :=
  let '(p_blk, p_buf, p_size) := p in
  bs ← gets bcache_blksize;
  '(result, _) ← dv_strategy unit rw p_blk (Z.of_nat p_size * bs) p_buf;
  if negb (result =? 0) then mret result
  else insert_blocks p_size p_buf p_blk;; mret 0.

Fixpoint fill_misses (n i : nat) (unit rw : Z) (buf : nat) (blk : Z) (p : Z * nat * nat) :
    St bcache Z :=
  match n with
  | O => if fst (fst p) =? -1 then mret 0 else transfer unit rw p
  | S n =>
    miss ← bit_test i;
    bs ← gets bcache_blksize;
    let '(p_blk, p_buf, p_size) := p in
    if miss : bool then
      if p_blk =? -1
      then fill_misses n (S i) unit rw buf blk
             (blk + Z.of_nat i, (buf + Z.to_nat bs * i)%nat, 1%nat)
      else fill_misses n (S i) unit rw buf blk (p_blk, p_buf, S p_size)
    else if negb (p_blk =? -1) then
      result ← transfer unit rw p;
      if negb (result =? 0) then mret result
      else fill_misses n (S i) unit rw buf blk (-1, p_buf, p_size)
    else fill_misses n (S i) unit rw buf blk p
  end.

Definition read_strategy (unit rw blk size : Z) (buf : nat) : St bcache (Z * option Z) :=
  bs ← gets bcache_blksize;
  let nblk := Z.to_nat (size / bs) in
  lookup_blocks nblk 0 buf blk;;
  result ← fill_misses nblk 0 unit rw buf blk (-1, O, O);
  mret (result, if result =? 0 then Some size else None).

Definition bcache_strategy (unit rw blk size : Z) (buf : nat) : St bcache (Z * option Z) :=
  count_stat 2;;
  u ← gets bcache_unit;
  (if negb (u =? unit) then bcache_flush;; modify (set_unit unit) else mret tt);;
  data ← gets bcache_data;
  bs ← gets bcache_blksize;
  nblks ← gets bcache_nblks;
  bypass ← match data with
           | None => mret true
           | Some _ => if bs =? 0 then ub else mret (nblks <? u64 (size * 2) / bs)
           end;
  if bypass : bool then
    count_stat 3;;
    '(err, rsize) ← dv_strategy unit rw blk size buf;
    mret (err, Some rsize)
  else if rw =? F_READ then read_strategy unit rw blk size buf
  else if rw =? F_WRITE then write_strategy unit rw blk size buf
  else mret (-1, None).
End bcache.

(** ** Slots *)
Section slots.
Context (n : nat).
Implicit Types (ctls : list bcachectl) (data d w : list Z) (b : Z).

(** Slot [i] holds block [b]. *)
Definition holds ctls (i : nat) b : Prop := exists c, ctls !! i = Some c /\ bc_blkno c = b.

(** Block [b] of the disk [d], and whether the disk has it. *)
Definition on_disk d b : Prop := 0 <= b /\ (Z.to_nat b * n + n <= length d)%nat.
Definition dblock d b : list Z := sub (Z.to_nat b * n) n d.

(** Every slot that holds [b] has its data. *)
Definition good ctls data d b : Prop :=
  forall i, holds ctls i b -> on_disk d b /\ sub (i * n) n data = dblock d b.

(** But for the first slot, no two slots hold the same block. *)
Definition uniq ctls : Prop :=
  forall i j b, (1 <= i)%nat -> (1 <= j)%nat -> b <> -1 ->
    holds ctls i b -> holds ctls j b -> i = j.

Definition coherent ctls data d : Prop :=
  uniq ctls /\ forall b, b <> -1 -> good ctls data d b.

(** Block [b], with the data [w], has been put into a slot: into the one of the others
    that holds it, if there is one. *)
Definition put_block ctls data b w ctls' data' : Prop :=
  exists cand c, (cand < length ctls)%nat /\ ctls' = <[cand := c]> ctls /\ bc_blkno c = b /\
    data' = splice (cand * n) w data /\
    ((exists j, (1 <= j)%nat /\ holds ctls j b) -> (1 <= cand)%nat /\ holds ctls cand b).

Lemma holds_insert ctls cand c i b :
  (cand < length ctls)%nat ->
  holds (<[cand := c]> ctls) i b <->
    (i = cand /\ bc_blkno c = b) \/ (i <> cand /\ holds ctls i b).
Proof.
  intros Hc. unfold holds. destruct (decide (i = cand)) as [->|Hne].
  - rewrite list_lookup_insert_eq by done. split.
    + intros (c' & [= <-] & ?). by left.
    + intros [[_ ?]|[? _]]; [by exists c|done].
  - rewrite list_lookup_insert_ne by done. split; [by right|]. by intros [[? _]|[_ ?]].
Qed.

Lemma holds_fun ctls i b b' : holds ctls i b -> holds ctls i b' -> b = b'.
Proof. intros (c & H & <-) (c' & H' & <-). congruence. Qed.

Lemma holds_lt ctls i b : holds ctls i b -> (i < length ctls)%nat.
Proof. intros (c & H & _). by eapply lookup_lt_Some. Qed.

Section put.
Context ctls data d b w ctls' data'.
Context (Hput : put_block ctls data b w ctls' data').
Context (Hw : length w = n) (Hdata : length data = (length ctls * n)%nat).

Lemma put_length : length ctls' = length ctls /\ length data' = length data.
Proof.
  destruct Hput as (cand & c & Hc & -> & _ & -> & _). rewrite length_insert. split; [done|].
  apply length_splice. nia.
Qed.

Lemma put_uniq : b <> -1 -> uniq ctls -> uniq ctls'.
Proof.
  intros Hb Hu. destruct Hput as (cand & c & Hc & -> & Hcb & _ & Hre).
  intros i j b' Hi Hj Hb'. rewrite !holds_insert by done.
  intros [[-> E1]|[Hne1 H1]] [[-> E2]|[Hne2 H2]]; try done.
  - rewrite Hcb in E1. subst b'. destruct Hne2. destruct Hre as [? ?]; [by exists j|]. eauto.
  - rewrite Hcb in E2. subst b'. destruct Hne1. destruct Hre as [? ?]; [by exists i|]. eauto.
  - eauto.
Qed.

Lemma put_good : b <> -1 -> uniq ctls -> good ctls data d b \/ ~ holds ctls 0 b ->
  on_disk d b -> w = dblock d b -> good ctls' data' d b.
Proof.
  intros Hb Hu Hold Hd Ew. destruct Hput as (cand & c & Hc & -> & Hcb & -> & Hre).
  intros i. rewrite holds_insert by done. intros [[-> _]|[Hne Hi]]; (split; [done|]).
  - rewrite <- Ew, <- Hw. apply sub_splice_same. nia.
  - pose proof (holds_lt _ _ _ Hi).
    destruct (decide (i = 0%nat)) as [->|Hi0].
    + destruct Hold as [Hg|Hn]; [|done]. rewrite <- (proj2 (Hg 0%nat Hi)).
      apply sub_splice_other; [nia|]. destruct cand; [done|]. left. nia.
    + destruct Hre as [Hc1 Hc2]; [by exists i; split; [lia|]|].
      destruct Hne. apply (Hu i cand b); [lia|done..].
Qed.

Lemma put_other b' : b' <> b -> good ctls data d b' -> good ctls' data' d b'.
Proof.
  intros Hne Hg. destruct Hput as (cand & c & Hc & -> & Hcb & -> & _).
  intros i. rewrite holds_insert by done. intros [[_ E]|[Hi Hh]]; [congruence|].
  destruct (Hg i Hh) as [Hd <-]. split; [done|]. pose proof (holds_lt _ _ _ Hh).
  apply sub_splice_other; [nia|]. destruct (decide (i < cand)%nat); [left|right]; nia.
Qed.

Lemma put_first b' : b' <> b -> ~ holds ctls 0 b' -> ~ holds ctls' 0 b'.
Proof.
  intros Hne Hn. destruct Hput as (cand & c & Hc & -> & Hcb & _ & _).
  rewrite holds_insert by done. intros [[_ E]|[_ Hh]]; congruence.
Qed.
End put.

(** The first slot that holds [b] has been emptied. *)
Definition drop_block ctls b ctls' : Prop :=
  ctls' = ctls /\ (forall i, ~ holds ctls i b) \/
  exists i c, holds ctls i b /\ (forall j, (j < i)%nat -> ~ holds ctls j b) /\
    bc_blkno c = -1 /\ ctls' = <[i := c]> ctls.

Lemma drop_props ctls b ctls' :
  b <> -1 -> drop_block ctls b ctls' -> uniq ctls ->
  length ctls' = length ctls /\ uniq ctls' /\ ~ holds ctls' 0 b /\
  (forall i b', b' <> -1 -> holds ctls' i b' -> holds ctls i b').
Proof.
  intros Hb [[-> Hno]|(i & c & Hi & Hfirst & Hc & ->)] Hu; [by split_and!|].
  pose proof (holds_lt _ _ _ Hi) as Hlt.
  assert (Hsub : forall j b', b' <> -1 -> holds (<[i := c]> ctls) j b' -> holds ctls j b').
  { intros j b' Hb'. rewrite holds_insert by done. intros [[_ E]|[_ ?]]; [congruence|done]. }
  split_and!; [by rewrite length_insert| | |done].
  - intros j k b' Hj Hk Hb' H1 H2. eauto.
  - rewrite holds_insert by done. intros [[_ E]|[Hne H0]]; [congruence|].
    apply (Hfirst 0%nat); [lia|done].
Qed.
End slots.

(** ** The state of an initialised cache *)
Record cache_at (secsz : Z) (s : bcache) (ctls : list bcachectl) (data : list Z)
    (miss : list bool) (unit : Z) (D : gmap Z (list Z)) (buf : list Z) : Prop := {
  ca_ctl : bcache_ctl s = Some ctls;
  ca_data : bcache_data s = Some data;
  ca_miss : bcache_miss s = Some miss;
  ca_nblks : bcache_nblks s = Z.of_nat (length ctls);
  ca_some : 0 < Z.of_nat (length ctls) < 2 ^ 31;
  ca_bs : bcache_blksize s = secsz;
  ca_secsz : 0 < secsz < 2 ^ 32;
  ca_len : length data = (length ctls * Z.to_nat secsz)%nat;
  ca_bits : (length ctls <= 2 * length miss)%nat;
  ca_unit : bcache_unit s = unit;
  ca_disks : w_disks s = D;
  ca_buf : w_buf s = buf;
}.

Section rules.
Context (time : nat -> Z) (dv_err : nat -> Z) (secsz : Z).
Abbreviation n := (Z.to_nat secsz).
Implicit Types (s : bcache) (ctls : list bcachectl) (data buf : list Z) (miss : list bool).

Lemma wp_count_stat i s ctls data miss u D buf (Q : unit -> bcache -> Prop) :
  cache_at secsz s ctls data miss u D buf ->
  (forall s', cache_at secsz s' ctls data miss u D buf -> w_ios s' = w_ios s -> Q tt s') ->
  wp (count_stat i) s Q.
Proof. intros [] HQ. apply wp_modify, HQ; [by split|done]. Qed.

Lemma wp_now s ctls data miss u D buf (Q : Z -> bcache -> Prop) :
  cache_at secsz s ctls data miss u D buf ->
  (forall t s', cache_at secsz s' ctls data miss u D buf -> w_ios s' = w_ios s -> Q t s') ->
  wp (now time) s Q.
Proof. intros [] HQ. apply HQ; [by split|done]. Qed.

Lemma wp_get_ctl s ctls data miss u D buf i c (Q : bcachectl -> bcache -> Prop) :
  cache_at secsz s ctls data miss u D buf -> ctls !! i = Some c -> Q c s -> wp (get_ctl i) s Q.
Proof. intros [E] Hc HQ. unfold wp, get_ctl. rewrite E. cbn. by rewrite Hc. Qed.

Lemma wp_set_ctl s ctls data miss u D buf i c (Q : unit -> bcache -> Prop) :
  cache_at secsz s ctls data miss u D buf -> (i < length ctls)%nat ->
  (forall s', cache_at secsz s' (<[i := c]> ctls) data miss u D buf -> w_ios s' = w_ios s ->
    Q tt s') ->
  wp (set_ctl i c) s Q.
Proof.
  intros [E] [c0 Hi]%lookup_lt_is_Some HQ. unfold wp, set_ctl. rewrite E. cbn. rewrite Hi.
  apply HQ; [|done]. by split; rewrite ?length_insert.
Qed.

Lemma wp_copy_in s ctls data miss u D buf o i (Q : unit -> bcache -> Prop) :
  cache_at secsz s ctls data miss u D buf -> (o + n <= length buf)%nat ->
  (i < length ctls)%nat ->
  (forall s', cache_at secsz s' ctls (splice (i * n) (sub o n buf) data) miss u D buf ->
    w_ios s' = w_ios s -> Q tt s') ->
  wp (copy_in o i) s Q.
Proof.
  intros Hs Ho Hi HQ. pose proof (ca_len _ _ _ _ _ _ _ _ Hs) as L. destruct Hs.
  unfold wp, copy_in. rewrite ca_data0. cbn. rewrite ca_bs0, ca_buf0, decide_True by nia.
  apply HQ; [|done]. split; try done. cbn. rewrite length_splice; [done|].
  rewrite length_sub by done. nia.
Qed.

Lemma wp_copy_out s ctls data miss u D buf o i (Q : unit -> bcache -> Prop) :
  cache_at secsz s ctls data miss u D buf -> (o + n <= length buf)%nat ->
  (i < length ctls)%nat ->
  (forall s', cache_at secsz s' ctls data miss u D (splice o (sub (i * n) n data) buf) ->
    w_ios s' = w_ios s -> Q tt s') ->
  wp (copy_out i o) s Q.
Proof.
  intros Hs Ho Hi HQ. pose proof (ca_len _ _ _ _ _ _ _ _ Hs) as L. destruct Hs.
  unfold wp, copy_out. rewrite ca_data0. cbn. rewrite ca_bs0, ca_buf0, decide_True by nia.
  apply HQ; [|done]. by split.
Qed.

Lemma wp_oldest k i b cand ocount s ctls data miss u D buf (Q : nat -> bcache -> Prop) :
  cache_at secsz s ctls data miss u D buf -> (i + k = length ctls)%nat -> (1 <= i)%nat ->
  (cand < length ctls)%nat ->
  (forall r, (r < length ctls)%nat ->
    ((exists j, (i <= j)%nat /\ holds ctls j b) -> (i <= r)%nat /\ holds ctls r b) -> Q r s) ->
  wp (oldest k i b cand ocount) s Q.
Proof.
  intros Hs. revert i cand ocount. induction k as [|k IH]; intros i cand ocount Hk Hi Hc HQ.
  - apply wp_ret, HQ; [done|]. intros (j & Hj & Hh%holds_lt). lia.
  - destruct (lookup_lt_is_Some_2 ctls i ltac:(lia)) as [c Ec].
    apply wp_bind, (wp_get_ctl _ _ _ _ _ _ _ _ _ _ Hs Ec).
    destruct (Z.eqb_spec (bc_blkno c) b) as [E|E].
    + apply wp_ret, HQ; [lia|]. intros _. split; [lia|]. by exists c.
    + assert (Next : forall r, (r < length ctls)%nat ->
        ((exists j, (S i <= j)%nat /\ holds ctls j b) -> (S i <= r)%nat /\ holds ctls r b) ->
        Q r s).
      { intros r Hr Hre. apply HQ; [done|]. intros (j & Hj & Hh).
        destruct (decide (j = i)) as [->|]; 
          [|destruct Hre; [exists j; split; [lia|done]|by split; [lia|]]].
        destruct Hh as (c' & Hc' & ?). congruence. }
      destruct (bc_count c <? ocount); apply IH; try done; lia.
Qed.

Lemma wp_bcache_insert s ctls data miss u D buf o b (Q : unit -> bcache -> Prop) :
  cache_at secsz s ctls data miss u D buf -> (o + n <= length buf)%nat ->
  (forall s' ctls' data', cache_at secsz s' ctls' data' miss u D buf -> w_ios s' = w_ios s ->
    put_block n ctls data b (sub o n buf) ctls' data' -> Q tt s') ->
  wp (bcache_insert time o b) s Q.
Proof.
  intros Hs Ho HQ. apply wp_bind, (wp_now _ _ _ _ _ _ _ _ Hs). intros t s1 Hs1 I1.
  pose proof (ca_some _ _ _ _ _ _ _ _ Hs1) as Hsome.
  destruct (lookup_lt_is_Some_2 ctls 0%nat ltac:(lia)) as [c0 E0].
  apply wp_bind, (wp_get_ctl _ _ _ _ _ _ _ _ _ _ Hs1 E0).
  apply wp_bind, wp_gets. rewrite (ca_nblks _ _ _ _ _ _ _ _ Hs1), Nat2Z.id.
  apply wp_bind, (wp_oldest _ _ _ _ _ _ _ _ _ _ _ _ _ Hs1); [lia..|]. intros cand Hc Hre.
  apply wp_bind, (wp_copy_in _ _ _ _ _ _ _ _ _ _ Hs1 Ho Hc). intros s2 Hs2 I2.
  apply wp_bind, wp_gets. apply wp_bind, (wp_set_ctl _ _ _ _ _ _ _ _ _ _ Hs2 Hc). intros s3 Hs3 I3.
  apply wp_modify. eapply HQ; [|cbn; congruence|].
  - destruct Hs3. split; cbn; try done; eassumption.
  - eexists cand, _. by split_and!.
Qed.

Lemma wp_lookup_loop k i o b t s ctls data miss u D buf (Q : Z -> bcache -> Prop) :
  cache_at secsz s ctls data miss u D buf -> (i + k = length ctls)%nat ->
  (o + n <= length buf)%nat ->
  (forall j s', (i <= j)%nat -> holds ctls j b -> w_ios s' = w_ios s ->
    cache_at secsz s' ctls data miss u D (splice o (sub (j * n) n data) buf) -> Q 0 s') ->
  Q ENOENT s -> wp (lookup_loop k i o b t) s Q.
Proof.
  intros Hs. revert i. induction k as [|k IH]; intros i Hk Ho Hhit Hmiss; [by apply wp_ret|].
  destruct (lookup_lt_is_Some_2 ctls i ltac:(lia)) as [c Ec].
  apply wp_bind, (wp_get_ctl _ _ _ _ _ _ _ _ _ _ Hs Ec).
  destruct (Z.eqb_spec (bc_blkno c) b) as [E|E]; cbn [andb].
  - destruct (t <=? bc_stamp c + BCACHE_TIMEOUT).
    + apply wp_bind. eapply wp_copy_out; [exact Hs|done|lia|]. intros s' Hs' I.
      apply wp_ret. apply (Hhit i); [lia|by exists c|done..].
    + apply IH; try done; [lia|]. intros j s' Hj. apply Hhit. lia.
  - apply IH; try done; [lia|]. intros j s' Hj. apply Hhit. lia.
Qed.

Lemma wp_bcache_lookup o b s ctls data miss u D buf (Q : Z -> bcache -> Prop) :
  cache_at secsz s ctls data miss u D buf -> (o + n <= length buf)%nat ->
  (forall j s', holds ctls j b -> w_ios s' = w_ios s ->
    cache_at secsz s' ctls data miss u D (splice o (sub (j * n) n data) buf) -> Q 0 s') ->
  (forall s', cache_at secsz s' ctls data miss u D buf -> w_ios s' = w_ios s -> Q ENOENT s') ->
  wp (bcache_lookup time o b) s Q.
Proof.
  intros Hs Ho Hhit Hmiss. apply wp_bind, (wp_now _ _ _ _ _ _ _ _ Hs). intros t s1 Hs1 I1.
  apply wp_bind, wp_gets. rewrite (ca_nblks _ _ _ _ _ _ _ _ Hs1), Nat2Z.id.
  apply (wp_lookup_loop _ _ _ _ _ _ _ _ _ _ _ _ _ Hs1); [lia|done| |by apply Hmiss].
  intros j s' _ Hh I2. apply Hhit; [done|congruence].
Qed.

Lemma wp_invalidate_loop k i b s ctls data miss u D buf (Q : unit -> bcache -> Prop) :
  cache_at secsz s ctls data miss u D buf -> (i + k = length ctls)%nat ->
  (forall j, (j < i)%nat -> ~ holds ctls j b) ->
  (forall s' ctls', cache_at secsz s' ctls' data miss u D buf -> w_ios s' = w_ios s ->
    drop_block ctls b ctls' -> Q tt s') ->
  wp (invalidate_loop k i b) s Q.
Proof.
  intros Hs. revert i. induction k as [|k IH]; intros i Hk Hno HQ.
  - apply wp_ret, (HQ s ctls Hs eq_refl). left. split; [done|]. intros j Hh.
    pose proof (holds_lt _ _ _ Hh). apply (Hno j); [lia|done].
  - destruct (lookup_lt_is_Some_2 ctls i ltac:(lia)) as [c Ec].
    apply wp_bind, (wp_get_ctl _ _ _ _ _ _ _ _ _ _ Hs Ec).
    destruct (Z.eqb_spec (bc_blkno c) b) as [E|E].
    + eapply wp_set_ctl; [exact Hs|lia|]. intros s' Hs' I.
      apply (HQ _ _ Hs' I). right.
      exists i, (Ctl (-1) (bc_stamp c) (-1)). split_and!; [by exists c|exact Hno|done|done].
    + apply IH; try done; [lia|]. intros j Hj Hh. destruct (decide (j = i)) as [->|].
      * destruct Hh as (c' & Hc' & ?). congruence.
      * apply (Hno j); [lia|done].
Qed.

Lemma wp_bcache_invalidate b s ctls data miss u D buf (Q : unit -> bcache -> Prop) :
  cache_at secsz s ctls data miss u D buf ->
  (forall s' ctls', cache_at secsz s' ctls' data miss u D buf -> w_ios s' = w_ios s ->
    drop_block ctls b ctls' -> Q tt s') ->
  wp (bcache_invalidate b) s Q.
Proof.
  intros Hs HQ. apply wp_bind, wp_gets. rewrite (ca_nblks _ _ _ _ _ _ _ _ Hs), Nat2Z.id.
  apply (wp_invalidate_loop _ _ _ _ _ _ _ _ _ _ _ Hs); [done| |done]. lia.
Qed.

Lemma wp_flush_loop k i s ctls data miss u D buf (Q : unit -> bcache -> Prop) :
  cache_at secsz s ctls data miss u D buf -> (i + k = length ctls)%nat ->
  (forall j b, (j < i)%nat -> holds ctls j b -> b = -1) ->
  (forall s' ctls', cache_at secsz s' ctls' data miss u D buf -> w_ios s' = w_ios s ->
    length ctls' = length ctls -> (forall j b, holds ctls' j b -> b = -1) -> Q tt s') ->
  wp (flush_loop k i) s Q.
Proof.
  revert i s ctls. induction k as [|k IH]; intros i s ctls Hs Hk Hno HQ.
  - apply wp_ret, (HQ s ctls Hs eq_refl eq_refl). intros j b Hh. pose proof (holds_lt _ _ _ Hh).
    apply (Hno j); [lia|done].
  - destruct (lookup_lt_is_Some_2 ctls i ltac:(lia)) as [c Ec].
    apply wp_bind, (wp_get_ctl _ _ _ _ _ _ _ _ _ _ Hs Ec).
    apply wp_bind. eapply wp_set_ctl; [exact Hs|lia|]. intros s' Hs' I.
    eapply (IH _ _ _ Hs'); [rewrite length_insert; lia| |].
    + intros j b Hj. rewrite holds_insert by lia. intros [[_ <-]|[Hne Hh]]; [done|].
      apply (Hno j); [lia|done].
    + intros s2 ctls2 Hs2 I2 L2. apply HQ; [done|congruence|by rewrite L2, length_insert].
Qed.

(** ** The device *)

(** The disk of a unit, and the transfers it has room for. *)
Definition disk_of (D : gmap Z (list Z)) (unit : Z) : list Z := default [] (D !! unit).
Definition fits (D : gmap Z (list Z)) (unit blk size : Z) : Prop :=
  exists d, D !! unit = Some d /\ 0 <= blk /\ blk * secsz + size <= Z.of_nat (length d).

(** The device never fails. *)
Definition reliable : Prop := forall k, dv_err k = 0.

(** What a transfer that succeeds makes of the disks and of the buffer. *)
Definition moved (rw unit blk size : Z) (o : nat) (D : gmap Z (list Z)) (buf : list Z) :
    gmap Z (list Z) * list Z :=
  let d := disk_of D unit in
  let p := Z.to_nat (blk * secsz) in
  if rw =? F_READ then (D, splice o (sub p (Z.to_nat size) d) buf)
  else (<[unit := splice p (sub o (Z.to_nat size) buf) d]> D, buf).

Lemma wp_dv_strategy s ctls data miss u D buf unit rw blk size o (Q : Z * Z -> bcache -> Prop) :
  cache_at secsz s ctls data miss u D buf -> (o + Z.to_nat size <= length buf)%nat ->
  rw = F_READ \/ rw = F_WRITE ->
  (forall s', fits D unit blk size ->
    cache_at secsz s' ctls data miss u (fst (moved rw unit blk size o D buf))
      (snd (moved rw unit blk size o D buf)) -> Q (0, size) s') ->
  (forall e s', e <> 0 -> (reliable -> ~ fits D unit blk size) ->
    cache_at secsz s' ctls data miss u D buf -> Q (e, 0) s') ->
  wp (dv_strategy dv_err secsz unit rw blk size o) s Q.
Proof.
  intros Hs Ho Hrw Hok Hbad. pose proof Hs as [].
  assert (Hs' : cache_at secsz (set_ios (S (w_ios s)) s) ctls data miss u D buf) by by split.
  unfold wp, dv_strategy. cbn [set_ios w_buf w_disks]. rewrite ca_buf0, ca_disks0.
  destruct (Nat.leb_spec (o + Z.to_nat size) (length buf)); [|lia]. cbn [negb].
  destruct (D !! unit) as [d|] eqn:Ed.
  2: { apply Hbad; [done| |done]. intros _ (d & ? & _). congruence. }
  destruct (Z.eqb_spec (dv_err (w_ios s)) 0) as [E|E]; cbn [negb];
    [|apply Hbad; [done| |done]; intros Hr _; by apply E, Hr].
  destruct (Z.leb_spec 0 blk), (Z.leb_spec (blk * secsz + size) (Z.of_nat (length d)));
    cbn [andb negb];
    try (apply Hbad; [done| |done]; intros _ (d' & ? & ? & ?);
         assert (d' = d) by congruence; subst; lia).
  unfold moved, disk_of in Hok. rewrite Ed in Hok. cbn [default] in Hok.
  destruct Hrw as [-> | ->]; (apply Hok; [by exists d|by split]).
Qed.

(** ** Blocks of a request: block [j] lies at [o + n * j] of the buffer *)
Definition filled (d buf : list Z) (o : nat) (blk : Z) (j : nat) : Prop :=
  on_disk n d (blk + Z.of_nat j) /\ sub (o + n * j) n buf = dblock n d (blk + Z.of_nat j).

Definition outside (o len : nat) (buf' buf : list Z) : Prop :=
  length buf' = length buf /\
  forall k, (k < o \/ o + len <= k)%nat -> buf' !! k = buf !! k.

Lemma outside_refl o len buf : outside o len buf buf.
Proof. done. Qed.

Lemma outside_trans o len b1 b2 b3 :
  outside o len b1 b2 -> outside o len b2 b3 -> outside o len b1 b3.
Proof. intros [L1 H1] [L2 H2]. split; [congruence|]. intros k Hk. by rewrite H1, H2. Qed.

Lemma outside_splice o len p w buf :
  (o <= p)%nat -> (p + length w <= o + len)%nat -> (o + len <= length buf)%nat ->
  outside o len (splice p w buf) buf.
Proof.
  intros. split; [apply length_splice; lia|]. intros k Hk. rewrite lookup_splice by lia.
  repeat case_decide; done || lia.
Qed.

(** Putting blocks that are on the disk, one after the other. *)
Lemma wp_insert_blocks k b o s ctls data miss u D buf d (Q : unit -> bcache -> Prop) :
  cache_at secsz s ctls data miss u D buf -> (o + n * k <= length buf)%nat -> 0 <= b ->
  (forall j, (j < k)%nat -> filled d buf o b j) ->
  uniq ctls ->
  (forall b', b' <> -1 -> good n ctls data d b' \/ (b <= b' < b + Z.of_nat k /\ ~ holds ctls 0 b')) ->
  (forall s' ctls' data', cache_at secsz s' ctls' data' miss u D buf ->
    coherent n ctls' data' d -> Q tt s') ->
  wp (insert_blocks time k o b) s Q.
Proof.
  revert b o s ctls data. induction k as [|k IH]; intros b o s ctls data Hs Ho Hb Hf Hu Hg HQ.
  - apply wp_ret. eapply HQ; [exact Hs|]. split; [done|]. intros b' Hb'.
    destruct (Hg b' Hb') as [|[? _]]; [done|lia].
  - destruct (Hf 0%nat ltac:(lia)) as [Hd Hw].
    rewrite Nat.mul_0_r, Nat.add_0_r in Hw. rewrite Z.add_0_r in Hd, Hw.
    apply wp_bind. eapply wp_bcache_insert; [exact Hs|lia|]. intros s1 ctls1 data1 Hs1 _ Hput.
    apply wp_bind, wp_gets. rewrite (ca_bs _ _ _ _ _ _ _ _ Hs1).
    assert (Lw : length (sub o n buf) = n) by (apply length_sub; lia).
    pose proof (ca_len _ _ _ _ _ _ _ _ Hs) as Ld.
    eapply (IH _ _ _ _ _ Hs1); [lia|lia| | | |exact HQ].
    + intros j Hj. destruct (Hf (S j) ltac:(lia)) as [Hd' Hw']. unfold filled.
      replace (b + 1 + Z.of_nat j) with (b + Z.of_nat (S j)) by lia.
      replace (o + n + n * j)%nat with (o + n * S j)%nat by lia. done.
    + eapply put_uniq; [exact Hput|lia|done].
    + intros b' Hb'. destruct (decide (b' = b)) as [->|Hne].
      * left. eapply (put_good n ctls data d b); [exact Hput|done..| |done|done].
        destruct (Hg b Hb') as [|[_ ?]]; [by left|by right].
      * destruct (Hg b' Hb') as [Hgood|[Hr Hn]]; [left|right; split; [lia|]].
        -- eapply put_other; [exact Hput|done..].
        -- eapply put_first; [exact Hput|done..].
Qed.

Lemma filled_splice d buf o blk j p w :
  (p + length w <= length buf)%nat ->
  (o + n * j + n <= p \/ p + length w <= o + n * j)%nat ->
  filled d buf o blk j -> filled d (splice p w buf) o blk j.
Proof. intros Hp Hj [Hd Hw]. split; [done|]. by rewrite sub_splice_other. Qed.

Lemma wp_bit_put s ctls data miss u D buf i b (Q : unit -> bcache -> Prop) :
  cache_at secsz s ctls data miss u D buf -> (i < length miss)%nat ->
  (forall s', cache_at secsz s' ctls data (<[i := b]> miss) u D buf -> Q tt s') ->
  wp (bit_put i b) s Q.
Proof.
  intros [] [b0 Hi]%lookup_lt_is_Some HQ. unfold wp, bit_put. rewrite ca_miss0. cbn. rewrite Hi.
  apply HQ. by split; rewrite ?length_insert.
Qed.

(** What the bitmap says of block [j]: a hit is there already. *)
Definition marked (d : list Z) (miss : list bool) (buf : list Z) (o : nat) (blk : Z) (j : nat) :
    Prop :=
  exists b, miss !! j = Some b /\ (b = false -> filled d buf o blk j).

Lemma marked_put d miss buf o blk i j b p w :
  (i < length miss)%nat -> (p + length w <= length buf)%nat -> j <> i ->
  (o + n * j + n <= p \/ p + length w <= o + n * j)%nat ->
  marked d miss buf o blk j -> marked d (<[i := b]> miss) (splice p w buf) o blk j.
Proof.
  intros Hi Hp Hne Hj (b0 & Hb & Hf). exists b0. rewrite list_lookup_insert_ne by done.
  split; [done|]. intros E. by apply filled_splice, Hf.
Qed.

Lemma wp_lookup_blocks k i o blk s ctls data miss u D buf d (Q : unit -> bcache -> Prop) :
  cache_at secsz s ctls data miss u D buf -> coherent n ctls data d -> 0 <= blk ->
  (o + n * (i + k) <= length buf)%nat -> (i + k <= length miss)%nat ->
  (forall j, (j < i)%nat -> marked d miss buf o blk j) ->
  (forall s' miss' buf', cache_at secsz s' ctls data miss' u D buf' ->
    outside o (n * (i + k)) buf' buf -> length miss' = length miss ->
    (forall j, (j < i + k)%nat -> marked d miss' buf' o blk j) -> Q tt s') ->
  wp (lookup_blocks time k i o blk) s Q.
Proof.
  revert i s miss buf. induction k as [|k IH]; intros i s miss buf Hs Hc Hblk Ho Hm Hmark HQ.
  - apply wp_ret. apply (HQ s miss buf); try done. by rewrite Nat.add_0_r.
  - apply wp_bind, wp_gets. rewrite (ca_bs _ _ _ _ _ _ _ _ Hs).
    assert (Step : forall s1 b w, cache_at secsz s1 ctls data miss u D (splice (o + n * i) w buf) ->
      (w = [] /\ b = true) \/
        (length w = n /\ on_disk n d (blk + Z.of_nat i) /\ w = dblock n d (blk + Z.of_nat i)) ->
      forall st, wp (bit_put i b;; count_stat st) s1 (fun _ s' =>
        wp (lookup_blocks time k (S i) o blk) s' Q)).
    { intros s1 b w Hs1 Hw st.
      assert (Lw : (length w <= n)%nat) by (destruct Hw as [[-> _]|[-> _]]; [cbn; lia|done]).
      apply wp_bind. eapply wp_bit_put; [exact Hs1|lia|]. intros s2 Hs2.
      eapply wp_count_stat; [exact Hs2|]. intros s3 Hs3 _.
      assert (Lb : (o + n * i + length w <= length buf)%nat) by nia.
      pose proof (length_splice _ _ _ Lb) as Ls.
      eapply (IH _ _ _ _ Hs3); [done|done|rewrite Ls; nia|rewrite length_insert; lia| |].
      - intros j Hj. destruct (decide (j = i)) as [->|Hne].
        + exists b. rewrite list_lookup_insert_eq by lia. split; [done|]. intros ->.
          destruct Hw as [[_ ?]|(E & Hd & Ew)]; [done|]. split; [done|]. rewrite <- Ew.
          rewrite <- E at 2. apply sub_splice_same. lia.
        + apply marked_put; [lia|lia|done|left; nia|]. apply Hmark. lia.
      - intros s' miss' buf' Hs' Hout Hlen Hmk. replace (S i + k)%nat with (i + S k)%nat in * by lia.
        eapply HQ; [exact Hs'| |by rewrite Hlen, length_insert|done].
        eapply outside_trans; [exact Hout|]. apply outside_splice; [lia|nia|lia]. }
    apply wp_bind. eapply wp_bcache_lookup; [exact Hs|nia| |].
    + intros j s1 Hh _ Hs1. apply wp_bind. 
      assert (Hne1 : blk + Z.of_nat i <> -1) by lia.
      destruct (proj2 Hc _ Hne1 _ Hh) as [Hd Hw].
      rewrite Hw in Hs1. eapply (Step _ _ _ Hs1). right. split_and!; try done.
      unfold dblock. apply length_sub. apply Hd.
    + intros s1 Hs1 _. apply wp_bind. rewrite <- (splice_nil (o + n * i) buf) in Hs1.
      eapply (Step _ _ _ Hs1). by left.
Qed.

Lemma of_blk b : 0 <= b -> Z.to_nat (b * secsz) = (Z.to_nat b * n)%nat.
Proof. intros. destruct (Z.lt_ge_cases 0 secsz); [lia|]. nia. Qed.

(** A read of [k] blocks puts them where they belong. *)
Lemma read_fills D u b k o buf j :
  fits D u b (Z.of_nat k * secsz) -> 0 < secsz -> (o + n * k <= length buf)%nat -> (j < k)%nat ->
  filled (disk_of D u)
    (splice o (sub (Z.to_nat (b * secsz)) (Z.to_nat (Z.of_nat k * secsz)) (disk_of D u)) buf) o b j.
Proof.
  intros (d & Ed & Hb & Hr) Hsz Ho Hj. unfold disk_of. rewrite Ed.
  change (default [] (Some d)) with d.
  rewrite !of_blk, Nat2Z.id by lia.
  assert (Hd : (Z.to_nat b * n + k * n <= length d)%nat).
  { apply Nat2Z.inj_le. rewrite Nat2Z.inj_add, !Nat2Z.inj_mul, !Z2Nat.id by lia. lia. }
  pose proof (Nat.mul_le_mono_r (S j) k n ltac:(lia)) as Hjk. cbn [Nat.mul] in Hjk.
  split; [split; [lia|]|].
  { rewrite Z2Nat.inj_add, Nat2Z.id, Nat.mul_add_distr_r by lia. lia. }
  unfold dblock. rewrite Z2Nat.inj_add, Nat2Z.id by lia. apply list_eq. intros i.
  rewrite !lookup_sub. case_decide; [|done].
  assert (L : length (sub (Z.to_nat b * n) (k * n) d) = (k * n)%nat) by (apply length_sub; lia).
  rewrite lookup_splice, L by nia. rewrite decide_False, decide_True by nia.
  rewrite lookup_sub, decide_True by nia. f_equal. nia.
Qed.

Lemma filled_shift d buf o blk i j :
  filled d buf (o + n * i) (blk + Z.of_nat i) j <-> filled d buf o blk (i + j).
Proof.
  unfold filled. replace (blk + Z.of_nat i + Z.of_nat j) with (blk + Z.of_nat (i + j)) by lia.
  by replace (o + n * i + n * j)%nat with (o + n * (i + j))%nat by lia.
Qed.

Lemma fits_sub D u blk total i k :
  0 < secsz -> (i + k <= total)%nat ->
  fits D u blk (Z.of_nat total * secsz) -> fits D u (blk + Z.of_nat i) (Z.of_nat k * secsz).
Proof.
  intros Hs Ht (d & Ed & Hb & Hr). exists d. split_and!; [done|lia|].
  etrans; [|exact Hr]. rewrite <- !Z.mul_add_distr_r. apply Z.mul_le_mono_nonneg_r; lia.
Qed.

Lemma wp_transfer k b po s ctls data miss u D buf (Q : Z -> bcache -> Prop) :
  cache_at secsz s ctls data miss u D buf -> coherent n ctls data (disk_of D u) -> 0 <= b ->
  (po + n * k <= length buf)%nat ->
  (forall s' ctls' data' w, cache_at secsz s' ctls' data' miss u D (splice po w buf) ->
    coherent n ctls' data' (disk_of D u) -> length w = (n * k)%nat ->
    (forall j, (j < k)%nat -> filled (disk_of D u) (splice po w buf) po b j) -> Q 0 s') ->
  (forall e s', e <> 0 -> (reliable -> ~ fits D u b (Z.of_nat k * secsz)) ->
    cache_at secsz s' ctls data miss u D buf -> Q e s') ->
  wp (transfer time dv_err secsz u F_READ (b, po, k)) s Q.
Proof.
  intros Hs Hc Hb Ho Hok Hbad. pose proof (ca_secsz _ _ _ _ _ _ _ _ Hs) as Hsz.
  apply wp_bind, wp_gets. rewrite (ca_bs _ _ _ _ _ _ _ _ Hs).
  assert (Ek : Z.to_nat (Z.of_nat k * secsz) = (n * k)%nat) by (rewrite of_blk; lia).
  apply wp_bind. eapply wp_dv_strategy; [exact Hs|rewrite Ek; lia|by left| |].
  - intros s1 Hfit Hs1. cbn in Hs1. cbn [Z.eqb negb].
    assert (Hf : forall j, (j < k)%nat -> filled (disk_of D u) (splice po (sub (Z.to_nat (b * secsz))
      (Z.to_nat (Z.of_nat k * secsz)) (disk_of D u)) buf) po b j)
      by (intros; apply read_fills; [done|lia..]).
    set (w := sub _ _ _) in *.
    assert (Lw : length w = (n * k)%nat).
    { unfold w. rewrite <- Ek. apply length_sub. destruct Hfit as (d & Ed & _ & Hr).
      unfold disk_of. rewrite Ed. change (default [] (Some d)) with d. lia. }
    apply wp_bind. eapply wp_insert_blocks; [exact Hs1|rewrite length_splice; lia|done|exact Hf|apply Hc| |].
    + intros b' Hb'. left. by apply Hc.
    + intros s2 ctls2 data2 Hs2 Hc2. apply wp_ret. by eapply Hok.
  - intros e s1 He Hr Hs1. rewrite (proj2 (Z.eqb_neq e 0) He). apply wp_ret. by apply Hbad.
Qed.

Lemma wp_fill_misses k i i0 p o blk s ctls data miss u D buf (Q : Z -> bcache -> Prop) :
  cache_at secsz s ctls data miss u D buf -> coherent n ctls data (disk_of D u) -> 0 <= blk ->
  (o + n * (i + k) <= length buf)%nat -> (i0 <= i)%nat ->
  (i0 = i -> fst (fst p) = -1) ->
  ((i0 < i)%nat -> p = (blk + Z.of_nat i0, (o + n * i0)%nat, (i - i0)%nat)) ->
  (forall j, (j < i0)%nat -> filled (disk_of D u) buf o blk j) ->
  (forall j, (i <= j < i + k)%nat -> marked (disk_of D u) miss buf o blk j) ->
  (forall s' ctls' data' buf', cache_at secsz s' ctls' data' miss u D buf' ->
    coherent n ctls' data' (disk_of D u) -> outside o (n * (i + k)) buf' buf ->
    (forall j, (j < i + k)%nat -> filled (disk_of D u) buf' o blk j) -> Q 0 s') ->
  (forall e s' ctls' data' buf', e <> 0 ->
    (reliable -> ~ fits D u blk (Z.of_nat (i + k) * secsz)) ->
    cache_at secsz s' ctls' data' miss u D buf' -> coherent n ctls' data' (disk_of D u) ->
    outside o (n * (i + k)) buf' buf -> Q e s') ->
  wp (fill_misses time dv_err secsz k i u F_READ o blk p) s Q.
Proof.
  revert i i0 p s ctls data buf.
  assert (Flush : forall i i0 k s ctls data buf (Q : Z -> bcache -> Prop),
    cache_at secsz s ctls data miss u D buf -> coherent n ctls data (disk_of D u) -> 0 <= blk ->
    (o + n * (i + k) <= length buf)%nat -> (i0 < i)%nat ->
    (forall j, (j < i0)%nat -> filled (disk_of D u) buf o blk j) ->
    (forall s' ctls' data' w, cache_at secsz s' ctls' data' miss u D (splice (o + n * i0) w buf) ->
      coherent n ctls' data' (disk_of D u) -> length w = (n * (i - i0))%nat ->
      (forall j, (j < i)%nat -> filled (disk_of D u) (splice (o + n * i0) w buf) o blk j) -> Q 0 s') ->
    (forall e s', e <> 0 -> (reliable -> ~ fits D u blk (Z.of_nat (i + k) * secsz)) ->
      cache_at secsz s' ctls data miss u D buf -> Q e s') ->
    wp (transfer time dv_err secsz u F_READ
      (blk + Z.of_nat i0, (o + n * i0)%nat, (i - i0)%nat)) s Q).
  { intros i i0 k0 s ctls data buf Q0 Hs Hc Hblk Ho Hi Hfill Hok Hbad.
    pose proof (ca_secsz _ _ _ _ _ _ _ _ Hs) as Hsz.
    eapply wp_transfer; [exact Hs|done|lia|nia| |].
    - intros s1 ctls1 data1 w Hs1 Hc1 Lw Hf. eapply Hok; [exact Hs1|done..|]. intros j Hj.
      destruct (decide (j < i0)%nat).
      + apply filled_splice; [nia|left; nia|by apply Hfill].
      + replace j with (i0 + (j - i0))%nat by lia. apply filled_shift, Hf. lia.
    - intros e s1 He Hr Hs1. apply (Hbad e s1 He); [|done]. intros Hrel Hfit.
      apply (Hr Hrel). eapply fits_sub; [lia| |exact Hfit]. lia. }
  induction k as [|k IH]; intros i i0 p s ctls data buf Hs Hc Hblk Ho Hi Hp0 Hp1 Hfill Hmark Hok Hbad.
  - cbn [fill_misses]. destruct (decide (i0 = i)) as [->|Hne].
    + rewrite (Hp0 eq_refl). apply wp_ret. eapply Hok; [exact Hs|done|done|].
      intros j Hj. apply Hfill. lia.
    + rewrite (Hp1 ltac:(lia)). cbn [fst]. destruct (Z.eqb_spec (blk + Z.of_nat i0) (-1)) as [?|_]; [lia|].
      eapply (Flush i i0 0%nat _ _ _ _ _ Hs); [done|done|done|lia|done| |].
      * intros s1 ctls1 data1 w Hs1 Hc1 Lw Hf. eapply Hok; [exact Hs1|done| |].
        -- apply outside_splice; nia.
        -- intros j Hj. apply Hf. lia.
      * intros e s1 He Hr Hs1. eapply Hbad; [done|done|exact Hs1|done|done].
  - destruct (Hmark i ltac:(lia)) as (b & Eb & Hb). cbn [fill_misses].
    replace (i + S k)%nat with (S i + k)%nat in * by lia.
    apply wp_bind. unfold wp at 1, bit_test. rewrite (ca_miss _ _ _ _ _ _ _ _ Hs). cbn [mbind option_bind].
    rewrite Eb. apply wp_bind, wp_gets. rewrite (ca_bs _ _ _ _ _ _ _ _ Hs).
    assert (Hmark' : forall j, (S i <= j < S i + k)%nat -> marked (disk_of D u) miss buf o blk j)
      by (intros; apply Hmark; lia).
    destruct p as [[p_blk p_buf] p_size]. cbn [fst] in Hp0.
    destruct (decide (i0 = i)) as [->|Hne].
    + rewrite (Hp0 eq_refl). cbn [Z.eqb Pos.eqb negb]. destruct b.
      * eapply (IH (S i) i); [exact Hs|done..|lia|lia| |done|done|exact Hok|exact Hbad].
        intros _. by replace (S i - i)%nat with 1%nat by lia.
      * eapply (IH (S i) (S i)); [exact Hs|done..|lia| |done|exact Hok|exact Hbad].
        intros j Hj. destruct (decide (j = i)) as [->|]; [by apply Hb|]. apply Hfill. lia.
    + pose proof (Hp1 ltac:(lia)) as Ep. injection Ep as -> -> ->.
      destruct (Z.eqb_spec (blk + Z.of_nat i0) (-1)) as [?|_]; [lia|]. cbn [negb]. destruct b.
      * eapply (IH (S i) i0); [exact Hs|done..|lia|lia| |done|done|exact Hok|exact Hbad].
        intros _. by replace (S i - i0)%nat with (S (i - i0)) by lia.
      * apply wp_bind. eapply (Flush i i0 (S k) _ _ _ _ _ Hs); [done|done|lia|lia|done| |].
        -- intros s1 ctls1 data1 w Hs1 Hc1 Lw Hf. cbn [Z.eqb negb].
           assert (Lb : (o + n * i0 + length w <= length buf)%nat) by nia.
           pose proof (length_splice _ _ _ Lb) as Ls.
           assert (Hout : outside o (n * (S i + k)) (splice (o + n * i0) w buf) buf)
             by (apply outside_splice; nia).
           eapply (IH (S i) (S i)); [exact Hs1|done|done|lia|done|done|lia| | | |].
           ++ intros j Hj. destruct (decide (j = i)) as [->|]; [|apply Hf; lia].
              apply filled_splice; [done|right; nia|by apply Hb].
           ++ intros j Hj. destruct (Hmark' j Hj) as (b' & Eb' & Hb'). exists b'.
              split; [done|]. intros E. apply filled_splice; [done|right; nia|by apply Hb'].
           ++ intros s2 ctls2 data2 buf2 Hs2 Hc2 Ho2. apply (Hok _ _ _ _ Hs2 Hc2).
              by eapply outside_trans.
           ++ intros e s2 ctls2 data2 buf2 He Hr Hs2 Hc2 Ho2. eapply Hbad; [done|done|exact Hs2|done|].
              by eapply outside_trans.
        -- intros e s1 He Hr Hs1. rewrite (proj2 (Z.eqb_neq e 0) He). cbn [negb]. apply wp_ret.
           eapply Hbad; [done| |exact Hs1|done|done].
           by replace (S i + k)%nat with (i + S k)%nat by lia.
Qed.

(** Blocks that are all in place make up the whole request. *)
Lemma filled_all d buf o blk k :
  0 < secsz -> 0 <= blk -> (forall j, (j < k)%nat -> filled d buf o blk j) ->
  sub o (n * k) buf = sub (Z.to_nat blk * n) (n * k) d.
Proof.
  intros Hs Hb Hf. apply list_eq. intros i. rewrite !lookup_sub. case_decide as Hi; [|done].
  assert (Hn : n <> 0%nat) by lia.
  pose proof (Nat.div_mod_eq i n) as E. pose proof (Nat.mod_upper_bound i n Hn) as Hr.
  assert (Hq : (i / n < k)%nat) by (apply Nat.Div0.div_lt_upper_bound; lia).
  destruct (Hf _ Hq) as [_ Hw].
  assert (El : sub (o + n * (i / n)) n buf !! (i mod n)%nat =
      dblock n d (blk + Z.of_nat (i / n)) !! (i mod n)%nat)
    by (by rewrite Hw).
  unfold dblock in El. rewrite !lookup_sub, !decide_True in El by done.
  rewrite Z2Nat.inj_add, Nat2Z.id in El by lia.
  replace (o + i)%nat with (o + n * (i / n) + i mod n)%nat by lia.
  replace (Z.to_nat blk * n + i)%nat with ((Z.to_nat blk + i / n) * n + i mod n)%nat by lia. done.
Qed.

(** The state between two requests: an initialised cache, coherent with the disk of the
    unit it caches, if any. *)
Definition ready (s : bcache) : Prop :=
  exists ctls data miss,
    cache_at secsz s ctls data miss (bcache_unit s) (w_disks s) (w_buf s) /\
    (bcache_unit s <> -1 ->
     coherent n ctls data (disk_of (w_disks s) (bcache_unit s))).

Lemma ready_intro s ctls data miss u D buf :
  cache_at secsz s ctls data miss u D buf -> coherent n ctls data (disk_of D u) -> ready s.
Proof.
  intros Hs Hc. exists ctls, data, miss. destruct Hs as []; subst. by split.
Qed.

Lemma coherent_empty ctls data d : (forall j b, holds ctls j b -> b = -1) -> coherent n ctls data d.
Proof.
  intros H. split.
  - intros i j b _ _ Hb Hh. by destruct Hb; eapply H.
  - intros b Hb i Hh. by destruct Hb; eapply H.
Qed.

(** A request first makes the cache that of its unit. *)
Lemma wp_switch {A} s u (m : St bcache A) (Q : A -> bcache -> Prop) :
  ready s -> u <> -1 ->
  (forall s' ctls data miss, cache_at secsz s' ctls data miss u (w_disks s) (w_buf s) ->
    Z.of_nat (length ctls) = bcache_nblks s ->
    coherent n ctls data (disk_of (w_disks s) u) -> wp m s' Q) ->
  wp (count_stat 2;; u0 ← gets bcache_unit;
      (if negb (u0 =? u) then bcache_flush;; modify (set_unit u) else mret tt);; m) s Q.
Proof.
  intros (ctls & data & miss & Hs & Hc) Hu HQ. apply wp_bind.
  eapply wp_count_stat; [exact Hs|]. intros s1 Hs1 _. apply wp_bind, wp_gets, wp_bind.
  rewrite (ca_unit _ _ _ _ _ _ _ _ Hs1). destruct (Z.eqb_spec (bcache_unit s) u) as [E|E]; cbn [negb].
  - apply wp_ret. eapply HQ; [rewrite E in Hs1; exact Hs1|by rewrite (ca_nblks _ _ _ _ _ _ _ _ Hs)|].
    rewrite E in Hc. by apply Hc.
  - apply wp_bind, wp_bind. eapply wp_count_stat; [exact Hs1|]. intros s2 Hs2 _.
    apply wp_bind, wp_gets. rewrite (ca_nblks _ _ _ _ _ _ _ _ Hs2), Nat2Z.id.
    eapply wp_flush_loop; [exact Hs2|lia|lia|]. intros s3 ctls3 Hs3 _ Hl He. apply wp_modify.
    eapply HQ; [|by rewrite (ca_nblks _ _ _ _ _ _ _ _ Hs), Hl|by apply coherent_empty].
    destruct Hs3. by split.
Qed.

Lemma wp_invalidate_blocks k b s ctls data miss u D buf d (Q : unit -> bcache -> Prop) :
  cache_at secsz s ctls data miss u D buf -> coherent n ctls data d -> 0 <= b ->
  (forall s' ctls', cache_at secsz s' ctls' data miss u D buf -> coherent n ctls' data d ->
    (forall i b', b' <> -1 -> holds ctls' i b' -> holds ctls i b') ->
    (forall b', b <= b' < b + Z.of_nat k -> ~ holds ctls' 0 b') -> Q tt s') ->
  wp (invalidate_blocks k b) s Q.
Proof.
  revert b s ctls. induction k as [|k IH]; intros b s ctls Hs Hc Hb HQ.
  - apply wp_ret. apply (HQ s ctls Hs Hc); [done|lia].
  - apply wp_bind. eapply wp_bcache_invalidate; [exact Hs|]. intros s1 ctls1 Hs1 _ Hd.
    assert (Hb1 : b <> -1) by lia.
    destruct (drop_props _ _ _ Hb1 Hd (proj1 Hc)) as (_ & Hu & Hn & Hsub).
    eapply (IH _ _ _ Hs1); [|lia|].
    + split; [done|]. intros b' Hb' i Hh. by apply (proj2 Hc b' Hb'), Hsub.
    + intros s2 ctls2 Hs2 Hc2 Hsub2 Hn2. apply (HQ _ _ Hs2 Hc2).
      * intros i b' Hb' Hh. by apply Hsub, Hsub2.
      * intros b' Hr. destruct (decide (b' = b)) as [->|].
        -- intros Hh. apply Hn, (Hsub2 0%nat b); [lia|done].
        -- apply Hn2. lia.
Qed.

(** Whether a request of [k] blocks bypasses the cache. *)
Lemma bypass_test k nblks :
  0 < secsz -> Z.of_nat k * secsz * 2 < 2 ^ 64 ->
  (nblks <? u64 (Z.of_nat k * secsz * 2) / secsz) = (nblks <? 2 * Z.of_nat k).
Proof.
  intros Hs Hk. rewrite u64_small by lia.
  replace (Z.of_nat k * secsz * 2) with (2 * Z.of_nat k * secsz) by lia. by rewrite Z.div_mul by lia.
Qed.

Lemma wp_bypass_test s ctls data miss u D buf k {A} (f : bool -> St bcache A)
    (Q : A -> bcache -> Prop) :
  cache_at secsz s ctls data miss u D buf -> Z.of_nat k * secsz * 2 < 2 ^ 64 ->
  wp (f (Z.of_nat (length ctls) <? 2 * Z.of_nat k)) s Q ->
  wp (data ← gets bcache_data; bs ← gets bcache_blksize; nblks ← gets bcache_nblks;
      bypass ← match data with
               | None => mret true
               | Some _ => if bs =? 0 then ub else mret (nblks <? u64 (Z.of_nat k * secsz * 2) / bs)
               end; f bypass) s Q.
Proof.
  intros Hs Hk HQ. pose proof (ca_secsz _ _ _ _ _ _ _ _ Hs) as Hsz.
  do 3 apply wp_bind, wp_gets. apply wp_bind.
  rewrite (ca_data _ _ _ _ _ _ _ _ Hs), (ca_bs _ _ _ _ _ _ _ _ Hs), (ca_nblks _ _ _ _ _ _ _ _ Hs).
  destruct (Z.eqb_spec secsz 0); [lia|]. apply wp_ret. by rewrite bypass_test by lia.
Qed.

Lemma nblk_of k : 0 < secsz -> Z.to_nat (Z.of_nat k * secsz / secsz) = k.
Proof. intros. rewrite Z.div_mul by lia. apply Nat2Z.id. Qed.

(** C31: A read through the cache gives the bytes of the disk, as reading the device would:
    if it succeeds the buffer holds the blocks asked for, nothing else of it and nothing on
    the disks has changed, and the cache stays coherent; and it succeeds whenever the device
    works and has the blocks. *)
Theorem bcache_reads s u blk k o :
  ready s -> u <> -1 -> 0 <= blk -> Z.of_nat k * secsz * 2 < 2 ^ 64 ->
  (o + n * k <= length (w_buf s))%nat ->
  wp (bcache_strategy time dv_err secsz u F_READ blk (Z.of_nat k * secsz) o) s
    (fun '(err, rsize) s' =>
      ready s' /\ w_disks s' = w_disks s /\ outside o (n * k) (w_buf s') (w_buf s) /\
      (err = 0 -> rsize = Some (Z.of_nat k * secsz) /\
        sub o (n * k) (w_buf s') = sub (Z.to_nat blk * n) (n * k) (disk_of (w_disks s) u)) /\
      (reliable -> fits (w_disks s) u blk (Z.of_nat k * secsz) -> err = 0)).
Proof.
  intros Hr Hu Hblk Hk Ho. apply wp_switch; [done..|]. intros s1 ctls data miss Hs1 Hl Hc.
  pose proof (ca_secsz _ _ _ _ _ _ _ _ Hs1) as Hsz.
  assert (Ek : Z.to_nat (Z.of_nat k * secsz) = (n * k)%nat) by (rewrite of_blk; lia).
  eapply wp_bypass_test; [exact Hs1|done|].
  destruct (Z.ltb_spec (Z.of_nat (length ctls)) (2 * Z.of_nat k)) as [Hby|Hby].
  - apply wp_bind. eapply wp_count_stat; [exact Hs1|]. intros s2 Hs2 _. apply wp_bind.
    eapply wp_dv_strategy; [exact Hs2|by rewrite Ek|by left| |].
    + intros s3 Hfit Hs3. apply wp_ret. cbn in Hs3. rewrite (ca_disks _ _ _ _ _ _ _ _ Hs3).
      rewrite (ca_buf _ _ _ _ _ _ _ _ Hs3).
      pose proof Hfit as (d & Ed & _ & Hd).
      assert (Lw : length (sub (Z.to_nat (blk * secsz)) (Z.to_nat (Z.of_nat k * secsz))
        (disk_of (w_disks s) u)) = (n * k)%nat).
      { rewrite <- Ek. apply length_sub. unfold disk_of. rewrite Ed.
        change (default [] (Some d)) with d. lia. }
      split_and!; [by eapply ready_intro|done|apply outside_splice; lia| |done].
      intros _. split; [done|]. rewrite <- Lw at 1. rewrite sub_splice_same by lia.
      by rewrite Ek, of_blk.
    + intros e s3 He Hbad Hs3. apply wp_ret.
      rewrite (ca_disks _ _ _ _ _ _ _ _ Hs3), (ca_buf _ _ _ _ _ _ _ _ Hs3).
      split_and!; [by eapply ready_intro|done|done|done|].
      intros Hrel Hfit. by destruct (Hbad Hrel).
  - change (F_READ =? F_READ) with true. cbn iota. apply wp_bind, wp_gets.
    rewrite (ca_bs _ _ _ _ _ _ _ _ Hs1), nblk_of by lia.
    pose proof (ca_bits _ _ _ _ _ _ _ _ Hs1) as Hbits. apply wp_bind.
    eapply (wp_lookup_blocks k 0%nat); [exact Hs1|exact Hc|done|lia|lia|lia|].
    intros s2 miss2 buf2 Hs2 Hout2 _ Hmark. apply wp_bind.
    pose proof (proj1 Hout2) as L2.
    eapply (wp_fill_misses k 0%nat 0%nat); [exact Hs2|exact Hc|done|cbn; lia|done|done|lia|lia| | |].
    + intros j Hj. apply Hmark. lia.
    + intros s3 ctls3 data3 buf3 Hs3 Hc3 Hout3 Hf. apply wp_ret. cbn [Z.eqb].
      rewrite (ca_disks _ _ _ _ _ _ _ _ Hs3), (ca_buf _ _ _ _ _ _ _ _ Hs3).
      split_and!; [by eapply ready_intro|done| | |done].
      { eapply outside_trans; [exact Hout3|exact Hout2]. }
      intros _. split; [done|]. apply filled_all; [lia|done|exact Hf].
    + intros e s3 ctls3 data3 buf3 He Hbad Hs3 Hc3 Hout3. apply wp_ret.
      rewrite (ca_disks _ _ _ _ _ _ _ _ Hs3), (ca_buf _ _ _ _ _ _ _ _ Hs3).
      split_and!; [by eapply ready_intro|done| |done|].
      { eapply outside_trans; [exact Hout3|exact Hout2]. }
      intros Hrel Hfit. by destruct (Hbad Hrel).
Qed.

(** The disk after a write of [k] blocks from [o] on of the buffer. *)
Definition written (d buf : list Z) (blk : Z) (k o : nat) : list Z :=
  splice (Z.to_nat blk * n) (sub o (n * k) buf) d.

Lemma written_other d buf blk k o b :
  (o + n * k <= length buf)%nat -> (Z.to_nat blk * n + n * k <= length d)%nat -> 0 <= blk ->
  0 <= b -> ~ blk <= b < blk + Z.of_nat k ->
  length (written d buf blk k o) = length d /\ dblock n (written d buf blk k o) b = dblock n d b.
Proof.
  intros Ho Hd Hblk Hb Hr. unfold written, dblock.
  assert (L : length (sub o (n * k) buf) = (n * k)%nat) by (by apply length_sub).
  rewrite length_splice by lia. split; [done|]. apply sub_splice_other; [lia|]. rewrite L.
  destruct (Z.lt_ge_cases b blk); [left|right].
  - rewrite Nat.add_comm. change (n + Z.to_nat b * n)%nat with (S (Z.to_nat b) * n)%nat.
    apply Nat.mul_le_mono_r. lia.
  - replace (Z.to_nat blk * n + n * k)%nat with ((Z.to_nat blk + k) * n)%nat by lia.
    apply Nat.mul_le_mono_r. lia.
Qed.

Lemma written_filled d buf blk k o j :
  0 < secsz -> (o + n * k <= length buf)%nat -> (Z.to_nat blk * n + n * k <= length d)%nat ->
  0 <= blk -> (j < k)%nat -> filled (written d buf blk k o) buf o blk j.
Proof.
  intros Hs Ho Hd Hblk Hj. unfold filled, on_disk, dblock, written.
  assert (L : length (sub o (n * k) buf) = (n * k)%nat) by (by apply length_sub).
  rewrite Z2Nat.inj_add, Nat2Z.id, length_splice by lia.
  pose proof (Nat.mul_le_mono_l (S j) k n ltac:(lia)) as Hjk.
  split; [split; [lia|lia]|]. apply list_eq. intros i. rewrite !lookup_sub. case_decide; [|done].
  rewrite lookup_splice, L, decide_False, decide_True by lia.
  rewrite lookup_sub, decide_True by lia. f_equal. lia.
Qed.


(** [bcache_init] readies the cache for its first request.  If an allocation fails it
    answers ENOMEM, but keeps the number of blocks and leaves the control blocks dangling:
    the next request for another unit flushes the cache, through them. *)
Theorem bcache_init_outcomes s oks okc okm ctls data nblks :
  bcache_unit s = -1 -> 0 < secsz < 2 ^ 32 -> 0 < nblks < 2 ^ 31 ->
  length ctls = Z.to_nat nblks -> length data = (length ctls * n)%nat ->
  wp (bcache_init oks okc okm ctls data nblks secsz) s (fun r s' =>
    (oks = true /\ okc = true /\ okm = true -> r = 0 /\ ready s' /\ w_disks s' = w_disks s) /\
    (oks = false \/ okc = false \/ okm = false -> r = ENOMEM /\ bcache_data s' = None /\
      forall u rw blk size o, u <> -1 ->
        bcache_strategy time dv_err secsz u rw blk size o s' = None)).
Proof.
  intros Hu Hs Hn Hl Hd. apply wp_bind, wp_modify.
  destruct (oks && okc && okm) eqn:E.
  - apply andb_prop in E as [[-> ->]%andb_prop ->].
    do 3 apply wp_bind, wp_modify. apply wp_ret. split; [|by intros [|[]]]. intros _.
    split_and!; [done| |done]. exists ctls, data. eexists. split; [|by cbn].
    split; cbn; try done; rewrite ?Hl; try lia.
    rewrite length_replicate. rewrite u32_small by lia.
    assert (nblks <= 2 * ((nblks + 1) / 2)) by dlia. lia.
  - do 3 apply wp_bind, wp_modify. apply wp_ret.
    split; [by intros (-> & -> & ->)|]. intros _. split_and!; [done..|].
    intros u rw blk size o Hne. unfold bcache_strategy, count_stat, modify, mbind, St_bind, gets.
    cbn [set_misses set_ctls set_data set_size set_stats bcache_unit]. rewrite Hu.
    destruct (Z.eqb_spec (-1) u); [congruence|]. cbn [negb].
    unfold bcache_flush, count_stat, modify, mbind, St_bind, gets. cbn [bcache_nblks set_stats
      set_misses set_ctls set_data set_size].
    destruct (Z.to_nat nblks) eqn:En; [lia|]. done.
Qed.
End rules.

(** ** Examples: a cache of four one-byte blocks before a disk of six *)
Definition ex_time (k : nat) : Z := 0.
Definition ex_err (k : nat) : Z := 0.
Definition ex_cache : bcache :=
  Bcache (Some (replicate 4 (Ctl 0 0 0))) (Some [0; 0; 0; 0]) (Some [false; false]) 4 1 0 (-1)
    [0; 0; 0; 0; 0] 0 0 {[0 := [10; 20; 30; 40; 50; 60]]} [0; 7; 8; 9].

Lemma ex_ready : ready 1 ex_cache.
Proof. do 3 eexists. split; [by split; try done; cbn; lia|done]. Qed.

Definition state_of {A} (r : option (A * bcache)) : bcache :=
  match r with Some (_, s) => s | None => ex_cache end.
Definition ex_s1 : bcache := state_of (bcache_strategy ex_time ex_err 1 0 F_READ 0 1 0 ex_cache).
Definition ex_s2 : bcache := state_of (bcache_strategy ex_time ex_err 1 0 F_WRITE 0 3 1 ex_s1).
Definition ex_s3 : bcache := state_of (bcache_strategy ex_time ex_err 1 0 F_READ 0 1 0 ex_s2).


Lemma bcache_reads_witness :
  wp (bcache_strategy ex_time ex_err 1 0 F_READ 1 2 0) ex_cache (fun '(err, rsize) s' =>
    ready 1 s' /\ w_disks s' = w_disks ex_cache /\ outside 0 2 (w_buf s') (w_buf ex_cache) /\
    (err = 0 -> rsize = Some 2 /\ sub 0 2 (w_buf s') = [20; 30]) /\
    (reliable ex_err -> fits 1 (w_disks ex_cache) 0 1 2 -> err = 0)).
Proof.
  refine (bcache_reads ex_time ex_err 1 ex_cache 0 1 2 0 ex_ready _ _ _ _).
  - discriminate.
  - discriminate.
  - reflexivity.
  - exact (le_n_S _ _ (le_n_S _ _ (Nat.le_0_l _))).
Defined.


Lemma bcache_init_outcomes_witness :
  wp (bcache_init true true true (replicate 4 (Ctl 0 0 0)) [1; 2; 3; 4] 4 1) ex_cache
    (fun r s' =>
      (true = true /\ true = true /\ true = true ->
        r = 0 /\ ready 1 s' /\ w_disks s' = w_disks ex_cache) /\
      (true = false \/ true = false \/ true = false -> r = ENOMEM /\ bcache_data s' = None /\
        forall u rw blk size o, u <> -1 ->
          bcache_strategy ex_time ex_err 1 u rw blk size o s' = None)).
Proof.
  refine (bcache_init_outcomes ex_time ex_err 1 ex_cache true true true (replicate 4 (Ctl 0 0 0))
    [1; 2; 3; 4] 4 eq_refl _ _ eq_refl eq_refl); lia.
Defined.
