(* ===== verification/Interp.v ===== *)
(** * Interp: the command lines of the boot loader

    backslash() of sys/boot/common/interp_backslash.c and parse() of interp_parse.c.  The
    copy of the line and the element under construction are buffers whose bounds are
    checked; the variables come from the environment of lib/libstand ([Environment])
    through the interface [Vars].  The specifications are [unesc] and [words]. *)
From Stdlib Require Import ZArith Lia String.
From stdpp Require Import base list option gmap.
From S2P Require Import Prelude CMem CString.
From S2P Require Import Stand Dll Environment.
Open Scope Z_scope.

(** ** interp_backslash.c *)
Definition isxdigit (c : Z) : bool :=
  isdigit c || ((97 <=? c) && (c <=? 102)) || ((65 <=? c) && (c <=? 70)).
Definition DIGIT (x : Z) : Z :=
  if isdigit x then x - 48 else if islower x then x + 10 - 97 else x + 10 - 65.

(** [str[k]] of a string whose bytes from [str] on are [s], its NUL included. *)
Definition at_ (k : nat) (s : list Z) : Z := default 0 (s !! k).

(** [new_str[i++] = c] *)
Definition put_new (c : Z) (st : list Z * nat) : option (list Z * nat) :=
  let '(new_str, i) := st in
  if decide (i < length new_str)%nat then Some (<[i := u8 c]> new_str, S i) else None.

Definition is_octal3 (s : list Z) : bool :=
  (48 <=? at_ 0 s) && (at_ 0 s <=? 51) && (48 <=? at_ 1 s) && (at_ 1 s <=? 55) &&
  (48 <=? at_ 2 s) && (at_ 2 s <=? 55).
Definition is_hex (s : list Z) : bool :=
  (at_ 0 s =? 48) && ((at_ 1 s =? 120) || (at_ 1 s =? 88)) && isxdigit (at_ 2 s).

(** The [switch] on the character after a backslash, [s] starting with it: what is stored,
    and how far [str] moves. *)
Definition escape (s : list Z) : list Z * nat :=
  let c := at_ 0 s in
  if c =? 92 then ([92], 1%nat)
  else if (c =? 39) || (c =? 34) || (c =? 36) then ([92; c], 1%nat)
  else if c =? 98 then ([8], 1%nat)
  else if c =? 102 then ([12], 1%nat)
  else if c =? 114 then ([13], 1%nat)
  else if c =? 110 then ([10], 1%nat)
  else if c =? 115 then ([32], 1%nat)
  else if c =? 116 then ([9], 1%nat)
  else if c =? 118 then ([11], 1%nat)
  else if c =? 122 then ([], 1%nat)
  else if isdigit c then
    if is_octal3 s
    then ([Z.shiftl (DIGIT c) 6 + Z.shiftl (DIGIT (at_ 1 s)) 3 + DIGIT (at_ 2 s)], 3%nat)
    else if is_hex s then
      if isxdigit (at_ 3 s)
      then ([Z.shiftl (DIGIT (at_ 2 s)) 4 + DIGIT (at_ 3 s)], 4%nat)
      else ([DIGIT (at_ 2 s)], 3%nat)
    else ([], O)
  else ([c], 1%nat).

Fixpoint put_all (l : list Z) (st : list Z * nat) : option (list Z * nat) :=
  match l with
  | [] => Some st
  | c :: l => st ← put_new c st; put_all l st
  end.

Fixpoint backslash_loop (fuel : nat) (str : list Z) (seenbs : bool) (st : list Z * nat) :
    option (list Z) :=
  match str with
  | [] =>
    st ← if seenbs then put_new 92 st else Some st;
    st ← put_new 0 st;
    Some (fst st)
  | c :: rest =>
    match fuel with
    | O => None
    | S fuel =>
      if seenbs then
        let '(out, n) := escape str in
        st ← put_all out st; backslash_loop fuel (drop n str) false st
      else if c =? 92 then backslash_loop fuel rest true st
      else st ← put_new c st; backslash_loop fuel rest false st
    end
  end.

(** [backslash(str)], where [str] is a string; the copy has its size. *)
Definition backslash (str : list Z) : option (list Z) :=
  backslash_loop (2 * length str) str false (str ++ [0], O).

(** ** interp_parse.c *)
Definition PARSE_BUFSIZE : nat := 1024.
Definition MAXARGS : nat := 20.

Definition isdelim (ch : Z) : Z := if ch =? 123 then 125 else if ch =? 40 then 41 else 0.
Definition isquote (ch : Z) : bool := (ch =? 39) || (ch =? 34).

Inductive pstate := STR | VAR | WHITE.

(** The vector [args], whose strings are the parser's, the buffer of the element, and the
    number of allocations made. *)
Record parser := Parser {
  args : list (option (list Z));
  buf : list Z;
  allocs : nat;
}.

Definition set_args (v : list (option (list Z))) (s : parser) : parser :=
  Parser v (buf s) (allocs s).
Definition set_pbuf (v : list Z) (s : parser) : parser := Parser (args s) v (allocs s).
Definition set_allocs (v : nat) (s : parser) : parser := Parser (args s) (buf s) v.

(** What the parser asks of the environment: the value of a variable that is set. *)
Class Vars := { variable_lookup : list Z -> option (list Z) }.

Section parse.
Context {vars : Vars} (alloc : nat -> bool).

(** Whether the next allocation succeeds. *)
Definition try_alloc : St parser bool := fun s =>
  Some (alloc (allocs s), set_allocs (S (allocs s)) s).

(** [buf[i] = c] *)
Definition put_buf (i : nat) (c : Z) : St parser unit := fun s =>
  if decide (i < length (buf s))%nat then Some (tt, set_pbuf (<[i := c]> (buf s)) s) else None.

(** [strncpy(buf + i, val, PARSE_BUFSIZE - (i + 1))] *)
Definition copy_val (i : nat) (val : list Z) : St parser unit := fun s =>
  let n := u64 (Z.of_nat PARSE_BUFSIZE - (Z.of_nat i + 1)) in
  if Z.of_nat i + n <=? Z.of_nat (length (buf s))
  then Some (tt, set_pbuf (splice i (fit (Z.to_nat n) val) (buf s)) s) else None.

(** [args[i] = p] *)
Definition put_arg (i : nat) (p : option (list Z)) : St parser unit := fun s =>
  if decide (i < length (args s))%nat then Some (tt, set_args (<[i := p]> (args s)) s) else None.

Definition clean : St parser unit :=
  modify (fun s => set_args (replicate MAXARGS None) s).

(** [insert(&ac, buf)]: whether it fails, and [ac]. *)
Definition insert_arg (ac : nat) : St parser (bool * nat) :=
  if (MAXARGS <=? ac)%nat then mret (true, ac)
  else
    b ← gets buf;
    (if decide (0 ∈ b) then mret tt else ub);;
    ok ← try_alloc;
    put_arg ac (if ok : bool then Some (cbytes b) else None);;
    mret (false, S ac).

(** [PARSE_FAIL]: the loop ends with [None]. *)
Definition parse_fail {A} : St parser (option A) := clean;; mret None.

(** [while ( *q && !isspace( *q)) ++q;] *)
Fixpoint name_len (p : list Z) : nat :=
  match p with
  | [] => O
  | c :: p => if isspace c then O else S (name_len p)
  end.

(** The [while] loop; it ends with the state, [ac] and [i]. *)
Fixpoint parse_loop (fuel : nat) (state : pstate) (p : list Z) (token quote : Z) (ac i : nat) :
    St parser (option (pstate * nat * nat)) :=
  match p with
  | [] => mret (Some (state, ac, i))
  | c :: r =>
    match fuel with
    | O => ub
    | S fuel =>
      match state with
      | STR =>
        if (c =? 35) && (quote =? 0) then mret (Some (STR, ac, i))
        else if (c =? 92) && negb (at_ 0 r =? 0) then
          if (i =? PARSE_BUFSIZE - 1)%nat then parse_fail
          else put_buf i (at_ 0 r);; parse_loop fuel STR (drop 1 r) token quote ac (S i)
        else if isquote c then
          parse_loop fuel STR r token (if quote =? 0 then c else 0) ac i
        else if isspace c && (quote =? 0) then
          if (i =? 0)%nat then parse_loop fuel WHITE r token quote ac i
          else
            put_buf i 0;;
            '(failed, ac) ← insert_arg ac;
            if failed : bool then parse_fail
            else parse_loop fuel WHITE r token quote ac 0
        else if c =? 36 then
          let token := isdelim (at_ 0 r) in
          parse_loop fuel VAR (if token =? 0 then r else drop 1 r) token quote ac i
        else if (i =? PARSE_BUFSIZE - 1)%nat then parse_fail
        else put_buf i c;; parse_loop fuel STR r token quote ac (S i)
      | WHITE =>
        if isspace c then parse_loop fuel WHITE r token quote ac i
        else parse_loop fuel STR p token quote ac i
      | VAR =>
        match (if token =? 0 then Some (name_len p) else index_of token p) with
        | None => parse_fail
        | Some q =>
          i ← match variable_lookup (take q p) with
              | Some val =>
                copy_val i val;;
                mret (i + Z.to_nat (Z.min (u32 (Z.of_nat (length val)))
                                         (Z.of_nat (PARSE_BUFSIZE - 1))))%nat
              | None => mret i
              end;
          parse_loop fuel STR (drop (if token =? 0 then q else S q) p) token quote ac i
        end
      end
    end
  end.

(** What follows the loop: the last element, and the copy of the vector. *)
Definition parse_end (r : option (pstate * nat * nat)) : St parser (Z * list (option (list Z))) :=
  match r with
  | None => mret (1, [])
  | Some (state, ac, i) =>
    r ← match i, state with
        | S _, STR => put_buf i 0;; insert_arg ac
        | _, _ => mret (false, ac)
        end;
    let '(failed, ac) := r in
    if failed : bool then clean;; mret (1, [])
    else
      put_arg ac None;;
      ok ← try_alloc;
      if ok : bool then a ← gets args; mret (0, take ac a) else ub
  end.

(** [parse(&argc, &argv, str)]: the result, and [argv] where it is 0.  [junk] is what the
    allocated buffer holds. *)
Definition parse (junk : list Z) (str : list Z) : St parser (Z * list (option (list Z))) :=
  ok ← try_alloc;
  if negb ok then mret (1, [])
  else
    copy ← of_opt (backslash str);
    clean;;
    ok ← try_alloc;
    modify (set_pbuf (if ok : bool then junk else []));;
    let p := cbytes copy in
    r ← parse_loop (2 * length p) STR p 0 0 0 0;
    parse_end r.
End parse.

(** The environment as the parser sees it. *)
Definition env_value (e : env) (name : list Z) : option (list Z) :=
  match getenv (Some (CLit name)) e with
  | Some (Some p, _) => str_at (e_strs e) p
  | _ => None
  end.

#[export] Instance env_vars (e : env) : Vars := {| variable_lookup := env_value e |}.

(** ** The specification of [backslash] *)

(** What a backslash and a character that is not a digit stand for. *)
Definition simple_escape (d : Z) : list Z :=
  if d =? 92 then [92]
  else if (d =? 39) || (d =? 34) || (d =? 36) then [92; d]
  else if d =? 98 then [8] else if d =? 102 then [12] else if d =? 114 then [13]
  else if d =? 110 then [10] else if d =? 115 then [32] else if d =? 116 then [9]
  else if d =? 118 then [11] else if d =? 122 then [] else [d].

Definition octal (d : Z) : bool := (48 <=? d) && (d <=? 55).

(** A string without its backslashes: three octal digits up to [\377], [\x] escapes with
    a leading 0 and one or two hexadecimal digits, and single characters; the backslash of
    another digit is dropped, and one that ends the string stays. *)
Fixpoint unesc (s : list Z) : list Z :=
  match s with
  | [] => []
  | c :: r =>
    if negb (c =? 92) then c :: unesc r
    else
      match r with
      | [] => [92]
      | d :: r1 =>
        if negb (isdigit d) then simple_escape d ++ unesc r1
        else
          match r1 with
          | d1 :: d2 :: r3 =>
            if (d <=? 51) && octal d1 && octal d2
            then 64 * (d - 48) + 8 * (d1 - 48) + (d2 - 48) :: unesc r3
            else if (d =? 48) && ((d1 =? 120) || (d1 =? 88)) && isxdigit d2 then
              match r3 with
              | d3 :: r4 =>
                if isxdigit d3 then 16 * DIGIT d2 + DIGIT d3 :: unesc r4
                else DIGIT d2 :: unesc r3
              | [] => [DIGIT d2]
              end
            else d :: unesc r1
          | _ => d :: unesc r1
          end
      end
  end.

Lemma splice_app (i : nat) (a b l : list Z) :
  (i + length a + length b <= length l)%nat ->
  splice (i + length a) b (splice i a l) = splice i (a ++ b) l.
Proof.
  intros H. apply list_eq. intros j.
  rewrite !lookup_splice by (rewrite ?length_splice, ?length_app; lia). rewrite length_app.
  repeat case_decide; try lia; try done.
  - by rewrite lookup_app_l by lia.
  - rewrite lookup_app_r by lia. f_equal. lia.
Qed.

Lemma put_all_ok l i ns :
  bytes_ok l -> (i + length l <= length ns)%nat ->
  put_all l (ns, i) = Some (splice i l ns, (i + length l)%nat).
Proof.
  intros Hl. revert i ns. induction Hl as [|c l Hc Hl IH]; intros i ns Hi; cbn [put_all].
  - cbn [length]. rewrite Nat.add_0_r. unfold splice. cbn [length app].
    by rewrite Nat.add_0_r, take_drop.
  - cbn [length] in Hi. cbn [put_new]. rewrite decide_True by lia. cbn [mbind option_bind].
    rewrite u8_small by lia. rewrite IH by (rewrite ?length_insert; lia).
    f_equal. f_equal; [|cbn [length]; lia]. rewrite <- (splice_app i [c] l) by (cbn [length]; lia).
    cbn [length]. rewrite Nat.add_1_r. f_equal. unfold splice. cbn [length app].
    rewrite Nat.add_1_r. by rewrite insert_take_drop by lia.
Qed.

Lemma isdigit_range d : isdigit d = true <-> 48 <= d <= 57.
Proof. unfold isdigit. rewrite andb_true_iff, !Z.leb_le. done. Qed.

Lemma isxdigit_DIGIT d : isxdigit d = true -> 0 <= DIGIT d < 16.
Proof.
  unfold isxdigit, DIGIT, isdigit, islower.
  repeat zcase; cbn [andb orb]; intros; try lia; done.
Qed.

Lemma unesc_plain c r : c <> 92 -> unesc (c :: r) = c :: unesc r.
Proof. intros. cbn [unesc]. by destruct (Z.eqb_spec c 92). Qed.

(** An escape that is no digit: one character. *)
Lemma escape_simple d r : isdigit d = false -> escape (d :: r) = (simple_escape d, 1%nat).
Proof.
  intros Hd. unfold escape, simple_escape. change (at_ 0 (d :: r)) with d. rewrite Hd.
  by repeat match goal with |- context [if ?b then _ else _] => destruct b end.
Qed.

Lemma simple_escape_ok d :
  0 < d < 256 -> bytes_ok (simple_escape d) /\ (length (simple_escape d) <= 2)%nat.
Proof.
  intros. unfold simple_escape.
  repeat match goal with |- context [if ?b then _ else _] => destruct b end;
    (split; [repeat constructor; lia|cbn; lia]).
Qed.

(** The three kinds of a digit after a backslash. *)
Lemma escape_digit d r : isdigit d = true ->
  escape (d :: r) =
    if is_octal3 (d :: r)
    then ([Z.shiftl (d - 48) 6 + Z.shiftl (DIGIT (at_ 0 r)) 3 + DIGIT (at_ 1 r)], 3%nat)
    else if is_hex (d :: r) then
      if isxdigit (at_ 2 r) then ([Z.shiftl (DIGIT (at_ 1 r)) 4 + DIGIT (at_ 2 r)], 4%nat)
      else ([DIGIT (at_ 1 r)], 3%nat)
    else ([], O).
Proof.
  intros Hd. pose proof (proj1 (isdigit_range d) Hd) as Hr. unfold escape.
  change (at_ 0 (d :: r)) with d. rewrite Hd.
  repeat match goal with |- context [d =? ?k] => destruct (Z.eqb_spec d k); [lia|] end.
  cbn [orb]. unfold DIGIT at 1. rewrite Hd. done.
Qed.

Lemma octal_DIGIT d : octal d = true -> DIGIT d = d - 48 /\ 0 <= d - 48 < 8.
Proof.
  unfold octal. intros [?%Z.leb_le ?%Z.leb_le]%andb_prop. unfold DIGIT.
  rewrite (proj2 (isdigit_range d)) by lia. lia.
Qed.

Definition escape_spec (d : Z) (r : list Z) (p : list Z * nat) : Prop :=
  unesc (92 :: d :: r) = fst p ++ unesc (drop (snd p) (d :: r)) /\
  bytes_ok (fst p) /\ (length (fst p) <= S (snd p))%nat /\ (snd p <= length (d :: r))%nat.

Lemma escape_octal d d1 d2 r :
  isdigit d = true -> is_octal3 (d :: d1 :: d2 :: r) = (d <=? 51) && octal d1 && octal d2.
Proof.
  intros [H _]%isdigit_range. unfold is_octal3, octal, at_. cbn [lookup list_lookup default].
  change (id d) with d. change (id d1) with d1. change (id d2) with d2.
  rewrite (proj2 (Z.leb_le 48 d)) by lia. cbn [andb]. by rewrite <- !andb_assoc.
Qed.

Lemma escape_unesc d r : cstring_ok (d :: r) -> escape_spec d r (escape (d :: r)).
Proof.
  intros [Hd Hr]%Forall_cons. destruct (isdigit d) eqn:Ed.
  2: { rewrite escape_simple by done. destruct (simple_escape_ok d Hd) as [Hb Hl].
       split_and!; [|done|done|cbn; lia]. cbn [unesc fst snd drop]. by rewrite Ed. }
  rewrite escape_digit by done. pose proof (proj1 (isdigit_range d) Ed) as Hdr.
  assert (Plain : unesc (92 :: d :: r) = d :: unesc r -> escape_spec d r ([], O)).
  { intros E. split_and!; [|constructor|cbn; lia|cbn; lia]. cbn [fst snd app].
    rewrite E, drop_0, unesc_plain; [done|lia]. }
  assert (Short : forall s, at_ 1 s = 0 -> is_octal3 (d :: s) = false).
  { intros s E. unfold is_octal3. change (at_ 2 (d :: s)) with (at_ 1 s). rewrite E.
    cbn. by rewrite ?andb_false_r. }
  assert (Short' : forall s, at_ 1 s = 0 -> is_hex (d :: s) = false).
  { intros s E. unfold is_hex. change (at_ 2 (d :: s)) with (at_ 1 s). rewrite E.
    cbn. by rewrite ?andb_false_r. }
  destruct r as [|d1 [|d2 r3]].
  1-2: rewrite Short, Short' by done; apply Plain; cbn [unesc]; by rewrite Ed.
  rewrite escape_octal by done.
  assert (Eh : is_hex (d :: d1 :: d2 :: r3) =
    ((d =? 48) && ((d1 =? 120) || (d1 =? 88)) && isxdigit d2)) by done.
  rewrite Eh. change (at_ 0 (d1 :: d2 :: r3)) with d1. change (at_ 1 (d1 :: d2 :: r3)) with d2.
  change (at_ 2 (d1 :: d2 :: r3)) with (at_ 0 r3).
  set (tail := d1 :: d2 :: r3) in *.
  assert (Eu : unesc (92 :: d :: tail) =
    if (d <=? 51) && octal d1 && octal d2
    then 64 * (d - 48) + 8 * (d1 - 48) + (d2 - 48) :: unesc r3
    else if (d =? 48) && ((d1 =? 120) || (d1 =? 88)) && isxdigit d2 then
      match r3 with
      | d3 :: r4 => if isxdigit d3 then 16 * DIGIT d2 + DIGIT d3 :: unesc r4 else DIGIT d2 :: unesc r3
      | [] => [DIGIT d2]
      end
    else d :: unesc tail).
  { unfold tail. remember (unesc (d1 :: d2 :: r3)) as u. cbn [unesc]. rewrite Ed. cbn [negb].
    by rewrite Hequ. }
  destruct ((d <=? 51) && octal d1 && octal d2) eqn:Eo.
  - apply andb_prop in Eo as [[?%Z.leb_le O1]%andb_prop O2].
    destruct (octal_DIGIT _ O1) as [-> ?], (octal_DIGIT _ O2) as [-> ?].
    rewrite !Z.shiftl_mul_pow2 by lia.
    split_and!; [|repeat constructor; lia|cbn; lia|cbn; lia].
    cbn [fst snd app drop]. rewrite Eu. unfold tail. cbn [drop]. f_equal. lia.
  - destruct ((d =? 48) && ((d1 =? 120) || (d1 =? 88)) && isxdigit d2) eqn:Ex; [|by apply Plain].
    apply andb_prop in Ex as [_ Ex]. apply isxdigit_DIGIT in Ex.
    destruct r3 as [|d3 r4].
    + change (isxdigit (at_ 0 [])) with false. cbn iota.
      split_and!; [|repeat constructor; lia|cbn; lia|cbn; lia]. by rewrite Eu.
    + change (at_ 0 (d3 :: r4)) with d3. destruct (isxdigit d3) eqn:E3.
      * pose proof (isxdigit_DIGIT _ E3). rewrite Z.shiftl_mul_pow2 by lia.
        split_and!; [|repeat constructor; lia|cbn; lia|cbn; lia].
        cbn [fst snd app]. rewrite Eu. unfold tail. cbn [drop]. f_equal. lia.
      * split_and!; [|repeat constructor; lia|cbn; lia|cbn; lia]. by rewrite Eu.
Qed.


Lemma backslash_loop_ok k : forall str fuel i ns,
  (length str <= k)%nat -> cstring_ok str -> (2 * length str <= fuel)%nat ->
  (i + length str < length ns)%nat ->
  backslash_loop fuel str false (ns, i) = Some (splice i (unesc str ++ [0]) ns) /\
  (length (unesc str) <= length str)%nat.
Proof.
  assert (Put : forall l i (ns : list Z), bytes_ok l -> (i + length l <= length ns)%nat ->
    put_all l (ns, i) = Some (splice i l ns, (i + length l)%nat)) by (intros; by apply put_all_ok).
  induction k as [|k IH]; intros str fuel i ns Hk Hs Hf Hi; destruct str as [|c r];
    try (cbn [length] in Hk; lia).
  1-2: pose proof (Put [0] i ns ltac:(repeat constructor; lia) ltac:(cbn in *; lia)) as P;
    cbn [put_all mbind option_bind] in P; destruct fuel; cbn [backslash_loop mbind option_bind];
    (destruct (put_new 0 (ns, i)); [|done]); injection P as ->; done.
  cbn [length] in Hk, Hf, Hi. apply Forall_cons in Hs as [Hc Hs].
  destruct fuel as [|fuel]; [lia|]. cbn [backslash_loop].
  destruct (Z.eqb_spec c 92) as [->|Hne].
  - destruct r as [|d r1].
    + pose proof (Put [92; 0] i ns ltac:(repeat constructor; lia) ltac:(cbn in *; lia)) as P.
      cbn [put_all] in P. split; [|done].
      destruct fuel; cbn [backslash_loop]; destruct (put_new 92 (ns, i)) as [st|]; try done;
        cbn [mbind option_bind] in *; destruct (put_new 0 st); try done; by injection P as ->.
    + destruct (escape_unesc d r1 Hs) as (Eu & Hb & Hl & Hn).
      destruct fuel as [|fuel]; [lia|]. cbn [backslash_loop].
      destruct (escape (d :: r1)) as [out m]. cbn [fst snd length] in *.
      rewrite Put by (done || lia). cbn [mbind option_bind].
      pose proof (Forall_drop _ m _ Hs) as Hs'.
      assert (Lm : length (drop m (d :: r1)) = (S (length r1) - m)%nat) by (by rewrite length_drop).
      destruct (IH (drop m (d :: r1)) fuel (i + length out)%nat (splice i out ns)) as [-> Lu];
        [lia|done|lia|rewrite length_splice; lia|].
      rewrite Eu, length_app. split; [|lia]. f_equal.
      rewrite splice_app by (rewrite length_app; cbn [length]; lia). by rewrite app_assoc.
  - pose proof (Put [c] i ns ltac:(repeat constructor; lia) ltac:(cbn in *; lia)) as P.
    cbn [put_all] in P. destruct (put_new c (ns, i)) as [st|]; [|done].
    cbn [mbind option_bind] in *. injection P as ->. rewrite Nat.add_1_r.
    destruct (IH r fuel (S i) (splice i [c] ns)) as [-> Lu];
      [lia|done|lia|rewrite length_splice; cbn [length]; lia|].
    rewrite unesc_plain by done. cbn [length]. split; [|lia]. f_equal.
    rewrite <- (Nat.add_1_r i). change 1%nat with (length [c]) at 1.
    rewrite splice_app by (rewrite ?length_app; cbn [length]; lia). done.
Qed.

(** C34: [backslash] never writes outside its copy of the string, which then holds the string
    without its escapes and a NUL. *)
Theorem backslash_unescapes str :
  cstring_ok str ->
  backslash str = Some (unesc str ++ 0 :: drop (S (length (unesc str))) (str ++ [0])) /\
  (length (unesc str) <= length str)%nat.
Proof.
  intros Hs. destruct (backslash_loop_ok (length str) str (2 * length str) 0 (str ++ [0]))
    as [E L]; [done|done|done|rewrite length_app; cbn [length]; lia|].
  split; [|done]. unfold backslash. rewrite E. unfold splice. cbn [take app].
  rewrite length_app, <- app_assoc. cbn [length app]. by rewrite Nat.add_0_l, Nat.add_1_r.
Qed.

Lemma backslash_unescapes_witness :
  backslash (cstr "a\0x41\101\$b\") = Some (cstr "aAA\$b\" ++ 0 :: cstr "01\$b\" ++ [0]).
Proof.
  destruct (backslash_unescapes (cstr "a\0x41\101\$b\")) as [E _]; [repeat constructor; lia|].
  exact E.
Defined.

(** ** The specification of [parse] *)

(** The elements of a line; [Failed]: an element or the vector does not fit;
    [Overrun]: the value of a variable does not fit, which [parse] does not find. *)
Inductive outcome := Words (ws : list (list Z)) | Failed | Overrun.

Definition cons_word (w : list Z) (o : outcome) : outcome :=
  match o with Words ws => Words (w :: ws) | _ => o end.

(** Outside of a variable, or in its name: the closing delimiter (0: none), the name so
    far, and whether nothing of it has been seen. *)
Inductive mode := MStr | MVar (token : Z) (name : list Z) (fresh : bool).

Section words.
Context {vars : Vars}.
Implicit Types (p cur name : list Z) (ac : nat).

(** The element [cur] is complete; [ac] are. *)
Definition word cur ac (k : nat -> outcome) : outcome :=
  match cur with
  | [] => k ac
  | _ => if (MAXARGS <=? ac)%nat then Failed else cons_word cur (k (S ac))
  end.
Definition finish cur ac : outcome := word cur ac (fun _ => Words []).
Definition add c cur (k : list Z -> outcome) : outcome :=
  if (length cur =? PARSE_BUFSIZE - 1)%nat then Failed else k (cur ++ [c]).
Definition expand name cur (k : list Z -> outcome) : outcome :=
  match variable_lookup name with
  | None => k cur
  | Some v => if (length cur + length v <? PARSE_BUFSIZE)%nat then k (cur ++ v) else Overrun
  end.

(** The elements of the rest [p] of a line, in one pass: [quote] is the quote that is open,
    [cur] what there is of the element. *)
Fixpoint words p (m : mode) (quote : Z) cur ac : outcome :=
  match m, p with
  | MStr, [] => finish cur ac
  | MStr, c :: r =>
    if (c =? 35) && (quote =? 0) then finish cur ac
    else if c =? 92 then
      match r with
      | c' :: r' => add c' cur (fun cur => words r' MStr quote cur ac)
      | [] => add c cur (fun cur => finish cur ac)
      end
    else if isquote c then words r MStr (if quote =? 0 then c else 0) cur ac
    else if isspace c && (quote =? 0) then word cur ac (fun ac => words r MStr 0 [] ac)
    else if c =? 36 then
      match r with
      | d :: r' =>
        if isdelim d =? 0 then words r (MVar 0 [] true) quote cur ac
        else words r' (MVar (isdelim d) [] true) quote cur ac
      | [] => Words []
      end
    else add c cur (fun cur => words r MStr quote cur ac)
  | MVar token name fresh, [] =>
    if fresh then Words []
    else if token =? 0 then expand name cur (fun cur => finish cur ac) else Failed
  | MVar token name _, c :: r =>
    if token =? 0 then
      if isspace c then
        expand name cur (fun cur =>
          if quote =? 0 then word cur ac (fun ac => words r MStr 0 [] ac)
          else add c cur (fun cur => words r MStr quote cur ac))
      else words r (MVar 0 (name ++ [c]) false) quote cur ac
    else if c =? token then expand name cur (fun cur => words r MStr quote cur ac)
    else words r (MVar token (name ++ [c]) false) quote cur ac
  end.

Lemma isspace_range c : isspace c = true -> c = 32 \/ 9 <= c <= 13.
Proof. intros [?%Z.eqb_eq|[? ?]%andb_prop]%orb_prop; zbool; lia. Qed.

Lemma words_space c p quote cur ac :
  isspace c = true ->
  words (c :: p) MStr quote cur ac =
    if quote =? 0 then word cur ac (fun ac => words p MStr 0 [] ac)
    else add c cur (fun cur => words p MStr quote cur ac).
Proof.
  intros Hc. pose proof (isspace_range c Hc). cbn [words]. rewrite Hc. unfold isquote.
  repeat match goal with |- context [c =? ?k] => destruct (Z.eqb_spec c k); [lia|] end.
  cbn [andb orb]. by destruct (quote =? 0).
Qed.

(** In a name up to its delimiter. *)
Lemma words_delim p token name fresh quote cur ac :
  token <> 0 ->
  words p (MVar token name fresh) quote cur ac =
    match index_of token p with
    | Some q => expand (name ++ take q p) cur (fun cur => words (drop (S q) p) MStr quote cur ac)
    | None => if fresh then match p with [] => Words [] | _ => Failed end else Failed
    end.
Proof.
  intros Ht. revert name fresh. induction p as [|c p IH]; intros name fresh; cbn [words index_of].
  - rewrite (proj2 (Z.eqb_neq token 0) Ht). by destruct fresh.
  - rewrite (proj2 (Z.eqb_neq token 0) Ht). destruct (Z.eqb_spec c token) as [->|Hne].
    + cbn [take drop]. by rewrite app_nil_r, drop_0.
    + rewrite IH. destruct (index_of token p) as [q|]; cbn [fmap option_fmap option_map].
      * cbn [take drop]. by rewrite <- app_assoc.
      * by destruct fresh.
Qed.

(** In a name up to a space or the end. *)
Lemma words_bare p name quote cur ac :
  p <> [] ->
  words p (MVar 0 name true) quote cur ac =
    expand (name ++ take (name_len p) p) cur
      (fun cur => words (drop (name_len p) p) MStr quote cur ac).
Proof.
  assert (G : forall fresh, (fresh = true -> p <> []) ->
    words p (MVar 0 name fresh) quote cur ac =
      expand (name ++ take (name_len p) p) cur
        (fun cur => words (drop (name_len p) p) MStr quote cur ac)); [|intros; by apply G].
  revert name. induction p as [|c p IH]; intros name fresh Hf.
  - destruct fresh; [by destruct Hf|]. cbn. by rewrite app_nil_r.
  - cbn [words name_len]. destruct (isspace c) eqn:Es.
    + cbn [take drop]. rewrite app_nil_r. unfold expand.
      pose proof (fun cur => eq_sym (words_space c p quote cur ac Es)) as E.
      destruct (variable_lookup name); [destruct (_ <? _)%nat|]; done || apply E.
    + cbn [take drop]. rewrite IH by done. by rewrite <- app_assoc.
Qed.
End words.

(** ** The parser does what the specification says *)
Lemma bind_run {S A B} (m : St S A) (f : A -> St S B) s :
  (m ≫= f) s = match m s with Some (a, s') => f a s' | None => None end.
Proof. done. Qed.

Lemma cbytes_upto l r : cbytes (l ++ 0 :: r) = cbytes l.
Proof. induction l as [|c l IH]; [done|]. cbn [app cbytes]. by rewrite IH. Qed.

Lemma cbytes_zero l : 0 ∉ cbytes l.
Proof.
  induction l as [|c l IH]; cbn [cbytes]; [apply not_elem_of_nil|].
  destruct (Z.eqb_spec c 0); [apply not_elem_of_nil|]. by apply not_elem_of_cons.
Qed.

(** The elements [ws] are in the vector, and the buffer starts with [cur]. *)
Definition parsing (s : parser) (ws : list (list Z)) (cur : list Z) : Prop :=
  args s = (Some <$> ws) ++ replicate (MAXARGS - length ws) None /\
  (length ws <= MAXARGS)%nat /\ length (buf s) = PARSE_BUFSIZE /\
  take (length cur) (buf s) = cur /\ (length cur < PARSE_BUFSIZE)%nat /\ 0 ∉ cur.

(** What [parse] does where [o] is what becomes of the rest of the line. *)
Definition outcome_ok (o : outcome) (ws : list (list Z))
    (res : option ((Z * list (option (list Z))) * parser)) : Prop :=
  match o with
  | Words rest =>
    if decide (length (ws ++ rest) = MAXARGS) then res = None
    else exists s', res = Some ((0, Some <$> (ws ++ rest)), s')
  | Failed => exists s', res = Some ((1, []), s') /\ args s' = replicate MAXARGS None
  | Overrun => True
  end.

Lemma outcome_cons w o ws res : outcome_ok o (ws ++ [w]) res -> outcome_ok (cons_word w o) ws res.
Proof. destruct o; cbn [cons_word outcome_ok]; rewrite <- ?app_assoc; done. Qed.

Lemma cbytes_nul l r : 0 ∉ l -> cbytes (l ++ 0 :: r) = l.
Proof.
  induction l as [|c l IH]; cbn [app cbytes]; [done|]. rewrite not_elem_of_cons.
  intros [Hc Hl]. destruct (Z.eqb_spec c 0); [congruence|]. f_equal. by apply IH.
Qed.

Section parsing.
Context {vars : Vars} (alloc : nat -> bool).
Context (Halloc : forall k, alloc k = true).
Context (Hvals : forall name v, variable_lookup name = Some v -> 0 ∉ v).

Lemma parsing_allocs s ws cur k : parsing s ws cur -> parsing (set_allocs k s) ws cur.
Proof. done. Qed.

Lemma run_try_alloc s : try_alloc alloc s = Some (true, set_allocs (S (allocs s)) s).
Proof. unfold try_alloc. by rewrite Halloc. Qed.

Lemma run_fail {A B} (f : option A -> St parser B) s :
  (parse_fail ≫= f) s = f None (set_args (replicate MAXARGS None) s).
Proof. done. Qed.

Lemma fail_ok s ws :
  outcome_ok Failed ws (parse_end alloc None (set_args (replicate MAXARGS None) s)).
Proof. by eexists. Qed.

(** [buf[i++] = c] *)
Lemma run_put_buf s ws cur c :
  parsing s ws cur -> length cur <> (PARSE_BUFSIZE - 1)%nat -> c <> 0 ->
  exists s', put_buf (length cur) c s = Some (tt, s') /\ parsing s' ws (cur ++ [c]).
Proof.
  intros (Ha & Hl & Hb & Ht & Hc & Hz) Hne Hc0. unfold put_buf.
  rewrite decide_True by lia. eexists. split; [done|]. split_and!; try done; cbn [buf set_pbuf].
  - by rewrite length_insert.
  - rewrite length_app. cbn [length]. rewrite Nat.add_1_r.
    rewrite (take_S_r _ _ c) by (by apply list_lookup_insert_eq; lia).
    rewrite take_insert_ge by lia. by rewrite Ht.
  - rewrite length_app. cbn [length]. lia.
  - rewrite not_elem_of_app, not_elem_of_cons. split; [done|]. split; [done|]. apply not_elem_of_nil.
Qed.

Lemma replicate_insert {A} (x y : A) (n : nat) : (0 < n)%nat ->
  <[0%nat := y]> (replicate n x) = y :: replicate (n - 1) x.
Proof. destruct n as [|n]; [lia|]. intros _. cbn. by rewrite Nat.sub_0_r. Qed.

(** The element goes into the vector, if there is room for it. *)
Lemma run_word s ws cur :
  parsing s ws cur -> exists s1 s2,
    put_buf (length cur) 0 s = Some (tt, s1) /\
    if (MAXARGS <=? length ws)%nat
    then insert_arg alloc (length ws) s1 = Some ((true, length ws), s2)
    else insert_arg alloc (length ws) s1 = Some ((false, S (length ws)), s2) /\
         parsing s2 (ws ++ [cur]) [].
Proof.
  intros (Ha & Hl & Hb & Ht & Hc & Hz). unfold put_buf. rewrite decide_True by lia.
  set (s1 := set_pbuf (<[length cur := 0]> (buf s)) s).
  assert (Eb : buf s1 = cur ++ 0 :: drop (S (length cur)) (buf s)).
  { cbn. rewrite insert_take_drop by lia. by rewrite Ht. }
  unfold insert_arg. destruct (Nat.leb_spec MAXARGS (length ws)); [by exists s1, s1|].
  assert (Hin : 0 ∈ buf s1) by (rewrite Eb; apply elem_of_app; right; apply elem_of_cons; by left).
  exists s1. eexists. split; [done|]. rewrite bind_run. cbn [gets].
  rewrite decide_True by done. rewrite bind_run. cbn [mret St_ret].
  rewrite bind_run, run_try_alloc, bind_run. unfold put_arg. cbn [args set_allocs].
  change (args s1) with (args s). rewrite Ha, decide_True.
  2: { rewrite length_app, length_fmap, length_replicate. lia. }
  split; [done|]. rewrite Eb, cbytes_nul by done. split_and!; cbn [args set_args buf set_allocs].
  - rewrite insert_app_r_alt by (rewrite length_fmap; lia). rewrite length_fmap, Nat.sub_diag.
    rewrite replicate_insert by lia. rewrite fmap_app, <- app_assoc, length_app. cbn [fmap list_fmap app length].
    do 3 f_equal. lia.
  - rewrite length_app. cbn [length]. lia.
  - cbn. by rewrite length_insert.
  - done.
  - cbn. unfold PARSE_BUFSIZE. lia.
  - apply not_elem_of_nil.
Qed.

(** The value of a variable that fits is appended to the element. *)
Lemma run_copy_val s ws cur v :
  parsing s ws cur -> (length cur + length v < PARSE_BUFSIZE)%nat -> 0 ∉ v ->
  exists s', copy_val (length cur) v s = Some (tt, s') /\ parsing s' ws (cur ++ v).
Proof.
  intros (Ha & Hl & Hb & Ht & Hc & Hz) Hv Hvz. unfold copy_val. rewrite Hb.
  assert (En : u64 (Z.of_nat PARSE_BUFSIZE - (Z.of_nat (length cur) + 1)) =
    Z.of_nat (PARSE_BUFSIZE - 1 - length cur)) by (unfold PARSE_BUFSIZE in *; rewrite u64_small; lia).
  rewrite En, Nat2Z.id. destruct (Z.leb_spec (Z.of_nat (length cur) +
    Z.of_nat (PARSE_BUFSIZE - 1 - length cur)) (Z.of_nat PARSE_BUFSIZE)); [|unfold PARSE_BUFSIZE in *; lia].
  set (n := (PARSE_BUFSIZE - 1 - length cur)%nat). assert (Lf : length (fit n v) = n) by apply length_fit.
  assert (Hn : (length v <= n)%nat) by (unfold n; lia).
  eexists. split; [done|]. split_and!; try done; cbn [buf set_pbuf].
  - rewrite length_splice; [done|]. rewrite Lf, Hb. unfold n. lia.
  - unfold splice. rewrite Ht, length_app. rewrite take_app, take_ge by lia.
    replace (length cur + length v - length cur)%nat with (length v) by lia.
    f_equal. rewrite take_app_le by lia. unfold fit.
    rewrite take_take, Nat.min_l by lia. apply take_app_length.
  - rewrite length_app. lia.
  - rewrite not_elem_of_app. done.
Qed.

(** The end of [parse]. *)
Lemma arg_end_ok s ws cur :
  parsing s ws cur ->
  outcome_ok (Words []) ws ((put_arg (length ws) None;;
    ok ← try_alloc alloc; if ok : bool then a ← gets args; mret (0, take (length ws) a) else ub) s).
Proof.
  intros (Ha & Hl & Hb & Ht & Hc & Hz). cbn [outcome_ok]. rewrite app_nil_r, bind_run.
  assert (La : length (args s) = MAXARGS)
    by (rewrite Ha, length_app, length_fmap, length_replicate; lia).
  unfold put_arg. rewrite La. case_decide as Hd.
  - by rewrite decide_False by lia.
  - rewrite decide_True by lia. rewrite bind_run, run_try_alloc. eexists.
    rewrite bind_run. cbn [gets args set_args set_allocs]. unfold mret, St_ret.
    rewrite take_insert_ge by lia. rewrite Ha.
    replace (take (length ws) ((Some <$> ws) ++ replicate (MAXARGS - length ws) None)) with (Some <$> ws);
      [done|]. rewrite take_app_le by (by rewrite length_fmap). by rewrite take_ge by (by rewrite length_fmap).
Qed.

Lemma parse_end_ok s ws cur :
  parsing s ws cur ->
  outcome_ok (finish cur (length ws)) ws (parse_end alloc (Some (STR, length ws, length cur)) s).
Proof.
  intros Hp. unfold finish, word. destruct cur as [|c cur].
  - cbn [length parse_end]. rewrite bind_run. cbn [mret St_ret]. by eapply arg_end_ok.
  - destruct (run_word _ _ _ Hp) as (s1 & s2 & E1 & E2).
    cbn [length] in E1. cbn [length parse_end]. rewrite bind_run, bind_run, E1.
    destruct (MAXARGS <=? length ws)%nat.
    + rewrite E2. by eexists.
    + destruct E2 as [-> Hp2]. apply outcome_cons.
      pose proof (arg_end_ok _ _ _ Hp2) as He. rewrite length_app, Nat.add_1_r in He. exact He.
Qed.

Lemma parse_end_drop s ws cur state i :
  parsing s ws cur -> state <> STR ->
  outcome_ok (Words []) ws (parse_end alloc (Some (state, length ws, i)) s).
Proof.
  intros Hp Hst. cbn [parse_end]. rewrite bind_run.
  assert (E : match i, state with S _, STR => put_buf i 0;; insert_arg alloc (length ws)
    | _, _ => mret (false, length ws) end s = Some ((false, length ws), s))
    by (by destruct i, state).
  rewrite E. by eapply arg_end_ok.
Qed.

(** One character more; a blank after an element; the value of a variable. *)
Lemma step_add s ws cur c (k : list Z -> outcome) (m : St parser (option (pstate * nat * nat))) :
  parsing s ws cur -> c <> 0 ->
  (forall s', parsing s' ws (cur ++ [c]) -> outcome_ok (k (cur ++ [c])) ws ((m ≫= parse_end alloc) s')) ->
  outcome_ok (add c cur k) ws
    (((if (length cur =? PARSE_BUFSIZE - 1)%nat then parse_fail else put_buf (length cur) c;; m)
       ≫= parse_end alloc) s).
Proof.
  intros Hp Hc Hm. unfold add. destruct (Nat.eqb_spec (length cur) (PARSE_BUFSIZE - 1)).
  - rewrite run_fail. apply fail_ok.
  - destruct (run_put_buf s ws cur c Hp) as (s' & E & Hp'); [done..|].
    rewrite !bind_run, E. by apply Hm.
Qed.

Lemma step_word s ws cur (k : nat -> outcome) (m : nat -> nat -> St parser (option (pstate * nat * nat))) :
  parsing s ws cur ->
  (forall s' ws', parsing s' ws' [] ->
    outcome_ok (k (length ws')) ws' ((m (length ws') 0%nat ≫= parse_end alloc) s')) ->
  outcome_ok (word cur (length ws) k) ws
    (((if (length cur =? 0)%nat then m (length ws) (length cur)
       else put_buf (length cur) 0;;
         '(failed, ac) ← insert_arg alloc (length ws);
         if failed : bool then parse_fail else m ac 0%nat) ≫= parse_end alloc) s).
Proof.
  intros Hp Hm. unfold word. destruct cur as [|c cur]; [by apply Hm|].
  destruct (run_word _ _ _ Hp) as (s1 & s2 & E1 & E2). cbn [length Nat.eqb] in *.
  rewrite !bind_run, E1, bind_run. destruct (MAXARGS <=? length ws)%nat.
  - rewrite E2, <- bind_run, run_fail. apply fail_ok.
  - destruct E2 as [-> Hp2]. apply outcome_cons.
    pose proof (Hm _ _ Hp2) as H. rewrite length_app, Nat.add_1_r in H. exact H.
Qed.

Lemma step_expand s ws cur name (k : list Z -> outcome) (m : nat -> St parser (option (pstate * nat * nat))) :
  parsing s ws cur ->
  (forall s' cur', parsing s' ws cur' ->
    outcome_ok (k cur') ws ((m (length cur') ≫= parse_end alloc) s')) ->
  outcome_ok (expand name cur k) ws
    (((i ← match variable_lookup name with
           | Some val =>
             copy_val (length cur) val;;
             mret (length cur + Z.to_nat (Z.min (u32 (Z.of_nat (length val)))
                                               (Z.of_nat (PARSE_BUFSIZE - 1))))%nat
           | None => mret (length cur)
           end; m i) ≫= parse_end alloc) s).
Proof.
  intros Hp Hm. unfold expand. rewrite !bind_run. destruct (variable_lookup name) as [v|] eqn:Ev.
  - destruct (Nat.ltb_spec (length cur + length v) PARSE_BUFSIZE) as [Hv|]; [|done].
    destruct (run_copy_val s ws cur v Hp Hv (Hvals _ _ Ev)) as (s' & E & Hp').
    rewrite bind_run, E. cbn [mret St_ret]. pose proof (Hm _ _ Hp') as H.
    rewrite length_app in H.
    assert (El : Z.to_nat (Z.min (u32 (Z.of_nat (length v))) (Z.of_nat (PARSE_BUFSIZE - 1))) = length v)
      by (unfold PARSE_BUFSIZE in *; rewrite u32_small; lia).
    by rewrite El.
  - cbn [mret St_ret]. by apply Hm.
Qed.

(** What the states of the loop stand for in the specification. *)
Definition mode_of (state : pstate) (token : Z) : mode :=
  match state with VAR => MVar token [] true | _ => MStr end.
Definition steps_left (state : pstate) (p : list Z) : nat :=
  (2 * length p + match state with STR => 0 | _ => 1 end)%nat.

Lemma at_0 c r : at_ 0 (c :: r) = c.
Proof. done. Qed.

Lemma not_elem_drop (x : Z) k l : x ∉ l -> x ∉ drop k l.
Proof. intros H Hin. apply H. eapply elem_of_submseteq; [exact Hin|apply submseteq_drop]. Qed.

(** The expansion of a variable, and the rest by what [Next] says of it. *)
Lemma parse_var_ok fuel p token quote cur ws s :
  parsing s ws cur -> 0 ∉ p ->
  (forall p' s' cur', parsing s' ws cur' -> 0 ∉ p' -> (length p' <= length p)%nat ->
    outcome_ok (words p' MStr quote cur' (length ws)) ws
      ((parse_loop alloc fuel STR p' token quote (length ws) (length cur') ≫= parse_end alloc) s')) ->
  p <> [] ->
  outcome_ok (words p (MVar token [] true) quote cur (length ws)) ws
    ((match (if token =? 0 then Some (name_len p) else index_of token p) with
      | None => parse_fail
      | Some q =>
        i ← match variable_lookup (take q p) with
            | Some val =>
              copy_val (length cur) val;;
              mret (length cur + Z.to_nat (Z.min (u32 (Z.of_nat (length val)))
                                                (Z.of_nat (PARSE_BUFSIZE - 1))))%nat
            | None => mret (length cur)
            end;
        parse_loop alloc fuel STR (drop (if token =? 0 then q else S q) p) token quote (length ws) i
      end ≫= parse_end alloc) s).
Proof.
  intros Hp Hz Next Hne. destruct (Z.eqb_spec token 0) as [->|Ht].
  - rewrite words_bare by done. cbn [app].
    apply (step_expand s ws cur (take (name_len p) p) _
      (fun i => parse_loop alloc fuel STR (drop (name_len p) p) 0 quote (length ws) i) Hp).
    intros s' cur' Hp'. apply Next; [done|by apply not_elem_drop|rewrite length_drop; lia].
  - rewrite words_delim by done. destruct (index_of token p) as [q|].
    + cbn [app]. apply (step_expand s ws cur (take q p) _
        (fun i => parse_loop alloc fuel STR (drop (S q) p) token quote (length ws) i) Hp).
      intros s' cur' Hp'. apply Next; [done|by apply not_elem_drop|rewrite length_drop; lia].
    + destruct p; [done|]. rewrite run_fail. apply fail_ok.
Qed.

Lemma parse_loop_ok fuel : forall state p token quote cur ws s,
  parsing s ws cur -> 0 ∉ p -> (steps_left state p <= fuel)%nat ->
  (state = WHITE -> cur = [] /\ quote = 0) ->
  outcome_ok (words p (mode_of state token) quote cur (length ws)) ws
    ((parse_loop alloc fuel state p token quote (length ws) (length cur) ≫= parse_end alloc) s).
Proof.
  unfold steps_left. induction fuel as [|fuel IH]; intros state p token quote cur ws s Hp Hz Hf Hw;
    (destruct p as [|c r]; [|try (cbn in Hf; lia)]).
  1,2: cbn [parse_loop]; rewrite bind_run; cbn [mret St_ret];
    destruct state; cbn [mode_of words];
    [by apply parse_end_ok|by eapply parse_end_drop|
     destruct (Hw eq_refl) as [-> _]; by eapply parse_end_drop].
  apply not_elem_of_cons in Hz as [Hc Hz]. cbn [length] in Hf. cbn [parse_loop].
  assert (Space : isspace c = true -> quote = 0 -> forall s ws cur, parsing s ws cur ->
    outcome_ok (words (c :: r) MStr quote cur (length ws)) ws
      (((if (length cur =? 0)%nat then parse_loop alloc fuel WHITE r token quote (length ws) (length cur)
         else put_buf (length cur) 0;;
           '(failed, ac) ← insert_arg alloc (length ws);
           if failed : bool then parse_fail else parse_loop alloc fuel WHITE r token quote ac 0)
        ≫= parse_end alloc) s)).
  { intros Hs Hq s0 ws0 cur0 Hp0. rewrite words_space by done. subst quote. cbn [Z.eqb].
    apply (step_word s0 ws0 cur0 _ (fun ac i => parse_loop alloc fuel WHITE r token 0 ac i) Hp0).
    intros s' ws' Hp'. apply (IH WHITE r token 0 []); [done|done|cbn in *; lia|done]. }
  destruct state; cbn [mode_of].
  - (* STR *)
    destruct ((c =? 35) && (quote =? 0)) eqn:E35.
    { cbn [words]. rewrite E35, bind_run. cbn [mret St_ret]. by apply parse_end_ok. }
    destruct (Z.eqb_spec c 92) as [->|H92].
    { cbn [words]. rewrite E35. cbn [Z.eqb Pos.eqb]. destruct r as [|d r].
      - change (at_ 0 []) with 0. cbn [Z.eqb negb andb].
        change (isquote 92) with false. change (isspace 92) with false. cbn [andb Z.eqb Pos.eqb].
        apply step_add; [done..|]. intros s' Hp'. rewrite bind_run.
        replace (parse_loop alloc fuel STR [] token quote (length ws) (S (length cur)) s')
          with (Some (Some (STR, length ws, S (length cur)), s')) by (by destruct fuel).
        pose proof (parse_end_ok _ _ _ Hp') as H. rewrite length_app, Nat.add_1_r in H. exact H.
      - rewrite at_0. apply not_elem_of_cons in Hz as [Hd Hz].
        destruct (Z.eqb_spec d 0); [by destruct Hd|]. cbn [negb andb drop].
        apply step_add; [done|done|]. intros s' Hp'.
        pose proof (IH STR r token quote (cur ++ [d]) ws s' Hp' Hz) as H.
        rewrite length_app, Nat.add_1_r, drop_0 in *. apply H; [cbn in *; lia|done]. }
    cbn [andb]. destruct (isquote c) eqn:Eq.
    { cbn [words]. rewrite E35, Eq. destruct (Z.eqb_spec c 92); [done|].
      apply (IH STR); [done|done|cbn in *; lia|done]. }
    destruct (isspace c) eqn:Es.
    { destruct (Z.eqb_spec quote 0) as [Hq|Hq]; cbn [andb]; [by apply Space|].
      rewrite words_space by done. rewrite (proj2 (Z.eqb_neq quote 0) Hq).
      pose proof (isspace_range c Es) as Hsp. destruct (Z.eqb_spec c 36); [lia|].
      apply step_add; [done|done|]. intros s' Hp'.
      pose proof (IH STR r token quote (cur ++ [c]) ws s' Hp' Hz) as H.
      rewrite length_app, Nat.add_1_r in H. apply H; [cbn in *; lia|done]. }
    cbn [andb words]. rewrite E35, Eq, Es. destruct (Z.eqb_spec c 92); [done|]. cbn [andb].
    destruct (Z.eqb_spec c 36) as [->|H36].
    { destruct r as [|d r].
      - change (isdelim (at_ 0 [])) with 0. cbn [Z.eqb]. rewrite bind_run.
        replace (parse_loop alloc fuel VAR [] 0 quote (length ws) (length cur) s)
          with (Some (Some (VAR, length ws, length cur), s)) by (by destruct fuel).
        by eapply parse_end_drop.
      - rewrite at_0. apply not_elem_of_cons in Hz as [Hd Hz]. destruct (Z.eqb_spec (isdelim d) 0) as [Ed|Ed].
        + rewrite Ed. apply (IH VAR); [done|by apply not_elem_of_cons|cbn in *; lia|done].
        + cbn [drop]. rewrite drop_0. apply (IH VAR); [done|done|cbn in *; lia|done]. }
    apply step_add; [done|done|]. intros s' Hp'.
    pose proof (IH STR r token quote (cur ++ [c]) ws s' Hp' Hz) as H.
    rewrite length_app, Nat.add_1_r in H. apply H; [cbn in *; lia|done].
  - (* VAR *) apply (parse_var_ok fuel (c :: r) token quote cur ws s);
      [done|by apply not_elem_of_cons| |done].
    intros p' s' cur' Hp' Hz' Hl'. apply (IH STR); [done|done|cbn [length] in Hl'; lia|done].
  - (* WHITE *) destruct (Hw eq_refl) as [-> ->]. destruct (isspace c) eqn:Es.
    + rewrite words_space by done. apply (IH WHITE); [done|done|cbn in *; lia|done].
    + apply (IH STR (c :: r)); [done|by apply not_elem_of_cons|cbn in *; lia|done].
Qed.

Lemma parse_ok junk str s :
  cstring_ok str -> length junk = PARSE_BUFSIZE ->
  outcome_ok (words (cbytes (unesc str)) MStr 0 [] 0) [] (parse alloc junk str s).
Proof.
  intros Hs Hj. unfold parse. rewrite bind_run, run_try_alloc. cbn [negb].
  destruct (backslash_loop_ok (length str) str (2 * length str) 0 (str ++ [0])) as [E _];
    [done|done|done|rewrite length_app; cbn [length]; lia|].
  unfold backslash. rewrite E. rewrite bind_run. cbn [of_opt].
  assert (Ec : cbytes (splice 0 (unesc str ++ [0]) (str ++ [0])) = cbytes (unesc str)).
  { unfold splice. rewrite take_0, <- app_assoc. apply cbytes_upto. }
  rewrite Ec, bind_run. cbn [clean modify]. unfold modify at 1.
  rewrite bind_run, run_try_alloc, bind_run.
  apply (parse_loop_ok _ STR (cbytes (unesc str)) 0 0 [] []); [|apply cbytes_zero| |done].
  - split_and!; [done|apply Nat.le_0_l|done|done|apply Nat.lt_0_succ|apply not_elem_of_nil].
  - unfold steps_left. lia.
Qed.


(** ** Writing a line that is parsed into given elements *)
Definition esc_char (c : Z) : list Z := if c =? 92 then [92; 92; 92; 92] else [92; 92; c].

(** Every character quoted, elements apart by a space. *)
Definition quote_word (w : list Z) : list Z := mjoin (esc_char <$> w).
Fixpoint quote_line (ws : list (list Z)) : list Z :=
  match ws with
  | [] => []
  | [w] => quote_word w
  | w :: ws => quote_word w ++ 32 :: quote_line ws
  end.

Definition half_quoted (w : list Z) : list Z := mjoin ((fun c => [92; c]) <$> w).

Lemma unesc_quoted w r : unesc (quote_word w ++ r) = half_quoted w ++ unesc r.
Proof.
  induction w as [|c w IH]; [done|].
  change (quote_word (c :: w)) with (esc_char c ++ quote_word w).
  change (half_quoted (c :: w)) with (92 :: c :: half_quoted w).
  rewrite <- app_assoc. cbn [app]. rewrite <- IH. unfold esc_char.
  destruct (Z.eqb_spec c 92) as [->|Hc]; [done|]. by rewrite <- (unesc_plain c).
Qed.

Lemma words_quoted w r cur ac :
  (length cur + length w < PARSE_BUFSIZE)%nat ->
  words (half_quoted w ++ r) MStr 0 cur ac = words r MStr 0 (cur ++ w) ac.
Proof.
  revert cur. induction w as [|c w IH]; intros cur Hl; cbn [length] in Hl.
  - by rewrite app_nil_r.
  - change (half_quoted (c :: w) ++ r) with (92 :: c :: half_quoted w ++ r). cbn [words Z.eqb Pos.eqb andb].
    unfold add. destruct (Nat.eqb_spec (length cur) (PARSE_BUFSIZE - 1)); [lia|].
    rewrite IH by (rewrite length_app; cbn [length]; lia). by rewrite <- app_assoc.
Qed.

Definition plain_word (w : list Z) : Prop :=
  w <> [] /\ cstring_ok w /\ (length w < PARSE_BUFSIZE)%nat.

Lemma words_line ws ac :
  Forall plain_word ws -> (ac + length ws <= MAXARGS)%nat ->
  words (unesc (quote_line ws)) MStr 0 [] ac = Words ws.
Proof.
  intros Hws. revert ac. induction Hws as [|w ws [Hw1 [_ Hw2]] Hws IH]; intros ac Hac; [done|].
  assert (Hword : forall k, word w ac k = cons_word w (k (S ac))).
  { intros k. unfold word. destruct w; [done|]. cbn [length] in Hac.
    destruct (Nat.leb_spec MAXARGS ac); [lia|done]. }
  destruct ws as [|w2 ws].
  - cbn [quote_line]. rewrite <- (app_nil_r (quote_word w)), unesc_quoted.
    rewrite words_quoted by done. cbn [app unesc words]. unfold finish. by rewrite Hword.
  - change (quote_line (w :: w2 :: ws)) with (quote_word w ++ 32 :: quote_line (w2 :: ws)).
    rewrite unesc_quoted, words_quoted by done. rewrite unesc_plain by done.
    rewrite words_space by done. cbn [Z.eqb app]. rewrite Hword, IH; [done|].
    cbn [length] in *. lia.
Qed.

Lemma quote_line_ok ws : Forall plain_word ws -> cstring_ok (quote_line ws).
Proof.
  assert (Hq : forall w, cstring_ok w -> cstring_ok (quote_word w)).
  { induction 1 as [|c w Hc Hw IH]; [constructor|].
    change (quote_word (c :: w)) with (esc_char c ++ quote_word w). apply Forall_app. split; [|exact IH].
    unfold esc_char. destruct (c =? 92); repeat constructor; lia. }
  induction 1 as [|w ws [_ [Hw _]] Hws IH]; [constructor|]. destruct ws as [|w2 ws].
  - by apply Hq.
  - apply Forall_app. split; [by apply Hq|]. constructor; [lia|exact IH].
Qed.

Lemma half_quoted_ok w : cstring_ok w -> 0 ∉ half_quoted w.
Proof.
  induction 1 as [|c w Hc Hw IH]; [apply not_elem_of_nil|].
  change (half_quoted (c :: w)) with (92 :: c :: half_quoted w).
  rewrite !not_elem_of_cons. split_and!; [lia|lia|done].
Qed.

Lemma cbytes_id l : 0 ∉ l -> cbytes l = l.
Proof.
  induction l as [|c l IH]; cbn [cbytes]; [done|]. rewrite not_elem_of_cons. intros [Hc Hl].
  destruct (Z.eqb_spec c 0); [congruence|]. f_equal. by apply IH.
Qed.

Lemma unesc_line_ok ws : Forall plain_word ws -> 0 ∉ unesc (quote_line ws).
Proof.
  induction 1 as [|w ws [_ [Hw _]] Hws IH]; [apply not_elem_of_nil|]. destruct ws as [|w2 ws].
  - cbn [quote_line]. rewrite <- (app_nil_r (quote_word w)), unesc_quoted. cbn [unesc].
    rewrite app_nil_r. by apply half_quoted_ok.
  - change (quote_line (w :: w2 :: ws)) with (quote_word w ++ 32 :: quote_line (w2 :: ws)).
    rewrite unesc_quoted, unesc_plain by done. rewrite not_elem_of_app, not_elem_of_cons.
    split_and!; [by apply half_quoted_ok|lia|done].
Qed.

(** C36: Any vector of fewer than MAXARGS elements, each neither empty nor too long for the
    buffer, whatever characters they are made of, comes back from the line in which every
    character of theirs is quoted. *)
Theorem parse_quoted junk ws s :
  Forall plain_word ws -> (length ws < MAXARGS)%nat -> length junk = PARSE_BUFSIZE ->
  exists s', parse alloc junk (quote_line ws) s = Some ((0, Some <$> ws), s').
Proof.
  intros Hws Hl Hj. pose proof (parse_ok junk _ s (quote_line_ok _ Hws) Hj) as H.
  rewrite cbytes_id in H by (by apply unesc_line_ok). rewrite words_line in H by (done || lia).
  cbn [outcome_ok app] in H. rewrite decide_False in H by lia. exact H.
Qed.
End parsing.

(** ** The parser and the environment *)
Lemma env_value_zero e name v : env_value e name = Some v -> 0 ∉ v.
Proof.
  unfold env_value. destruct (getenv _ e) as [[[[l|b o]|] e']|]; cbn [str_at]; try done.
  - intros [= <-]. apply cbytes_zero.
  - destruct (e_strs e !! b) as [l|]; cbn; [|done]. case_decide; [|done].
    intros [= <-]. apply cbytes_zero.
Qed.

Lemma unesc_id s : 92 ∉ s -> unesc s = s.
Proof.
  induction s as [|c s IH]; [done|]. rewrite not_elem_of_cons. intros [Hc Hs].
  rewrite unesc_plain by done. by rewrite IH.
Qed.

Lemma index_of_app c l r : c ∉ l -> index_of c (l ++ c :: r) = Some (length l).
Proof.
  induction l as [|a l IH]; cbn [app index_of length]; intros H.
  - by rewrite Z.eqb_refl.
  - apply not_elem_of_cons in H as [Ha Hl]. destruct (Z.eqb_spec a c); [congruence|].
    by rewrite IH.
Qed.

(** A variable that is set in the environment is what its name in [${...}] stands for, as
    one element and whatever characters it is made of. *)
Theorem parse_variable alloc e M F nm v sh uh junk s :
  (forall k, alloc k = true) -> env_rep e M F ->
  M !! nm = Some (AVar (VOwn (v ++ [0])) sh uh) ->
  cstring_ok nm -> 92 ∉ nm -> 125 ∉ nm ->
  cstring_ok v -> v <> [] -> (length v < PARSE_BUFSIZE)%nat -> length junk = PARSE_BUFSIZE ->
  exists s', parse (vars := env_vars e) alloc junk (36 :: 123 :: nm ++ [125]) s =
    Some ((0, [Some v]), s').
Proof.
  intros Halloc Hrep HM Hnm Hn92 Hn125 Hv Hv0 Hvl Hj.
  assert (Hz : 0 ∉ nm) 
    by (intros H; pose proof (proj1 (Forall_forall _ _) Hnm 0 H) as Hb; cbn in Hb; lia).
  assert (Hval : env_value e nm = Some v).
  { destruct (getenv_value e M F (CLit nm) nm Hrep) as (r & E & Hr); [|done|].
    { cbn [str_at]. by rewrite cbytes_id. }
    rewrite HM in Hr. cbn [a_value] in Hr. destruct Hr as (b & -> & Hb).
    unfold env_value. rewrite E. by apply str_at_dup. }
  set (line := 36 :: 123 :: nm ++ [125]).
  assert (Hline : cstring_ok line).
  { repeat (constructor; [lia|]). apply Forall_app. split; [done|]. repeat constructor; lia. }
  pose proof (parse_ok (vars := env_vars e) alloc Halloc (env_value_zero e) junk line s Hline Hj) as H.
  rewrite unesc_id, cbytes_id in H.
  - unfold line in H. cbn [words Z.eqb Pos.eqb andb] in H. change (isdelim 123) with 125 in H.
    cbn [Z.eqb] in H. change (isquote 36) with false in H. change (isspace 36) with false in H.
    cbn [andb] in H. rewrite words_delim in H by done.
    rewrite index_of_app in H by done. unfold expand in H. cbn [app] in H.
    rewrite take_app_length in H. change (variable_lookup nm) with (env_value e nm) in H.
    rewrite Hval in H. destruct (Nat.ltb_spec (length (@nil Z) + length v) PARSE_BUFSIZE); [|cbn in *; lia].
    cbn [app] in H. rewrite drop_ge in H by (rewrite length_app; cbn; lia).
    cbn [words] in H. unfold finish, word in H. destruct v; [done|]. exact H.
  - unfold line. rewrite !not_elem_of_cons, not_elem_of_app, not_elem_of_cons.
    split_and!; try lia; try done. apply not_elem_of_nil.
  - unfold line. rewrite !not_elem_of_cons, not_elem_of_app, not_elem_of_cons.
    split_and!; try lia; try done. apply not_elem_of_nil.
Qed.

(** ** Examples *)
Definition ex_long : list Z := replicate (PARSE_BUFSIZE - 1) 97.
#[local] Instance ex_vars : Vars :=
  {| variable_lookup := fun name => if decide (name = cstr "v") then Some ex_long else None |}.
Definition ex_all (k : nat) : bool := true.
Definition ex_parser : parser := Parser (replicate MAXARGS None) [] 0.
Definition ex_junk : list Z := replicate PARSE_BUFSIZE 1.

Lemma ex_vals name v : variable_lookup name = Some v -> 0 ∉ v.
Proof.
  cbn [variable_lookup ex_vars]. case_decide; [|done]. intros [= <-]. unfold ex_long.
  intros [H0 _]%elem_of_replicate. lia.
Qed.

(** The two ways out of the buffers of [parse]: a line of exactly MAXARGS elements makes it
    store the terminating NULL past the end of the vector; and a value that does not fit
    behind the element so far is cut, but counted as if it had not been, so that the next
    character is stored past the end of the buffer. *)
Theorem parse_overruns alloc ws junk s :
  (forall k, alloc k = true) -> Forall plain_word ws -> length ws = MAXARGS ->
  length junk = PARSE_BUFSIZE ->
  parse alloc junk (quote_line ws) s = None /\
  parse ex_all ex_junk (cstr "a$v b") ex_parser = None.
Proof.
  intros Halloc Hws Hl Hj. split; [|vm_compute; reflexivity].
  pose proof (parse_ok alloc Halloc ex_vals junk _ s (quote_line_ok _ Hws) Hj) as H.
  rewrite cbytes_id in H by (by apply unesc_line_ok). rewrite words_line in H by (done || lia).
  cbn [outcome_ok app] in H. by rewrite decide_True in H.
Qed.

Lemma ex_plain : Forall plain_word (replicate MAXARGS (cstr "x")).
Proof. apply Forall_replicate. split_and!; [done|repeat constructor; lia|cbn; unfold PARSE_BUFSIZE; lia]. Qed.

Lemma parse_overruns_witness :
  parse ex_all ex_junk (quote_line (replicate MAXARGS (cstr "x"))) ex_parser = None /\
  parse ex_all ex_junk (cstr "a$v b") ex_parser = None.
Proof.
  exact (parse_overruns ex_all _ ex_junk ex_parser (fun _ => eq_refl) ex_plain eq_refl eq_refl).
Defined.


Lemma parse_quoted_witness :
  exists s', parse ex_all ex_junk (quote_line [cstr "a b"; cstr "$#\"]) ex_parser =
    Some ((0, [Some (cstr "a b"); Some (cstr "$#\")]), s').
Proof.
  refine (parse_quoted ex_all (fun _ => eq_refl) ex_vals ex_junk [cstr "a b"; cstr "$#\"] ex_parser
    _ _ eq_refl).
  - repeat (constructor; [split_and!; [discriminate|repeat constructor; lia|cbn; unfold PARSE_BUFSIZE; lia]|]).
    constructor.
  - cbn. unfold MAXARGS. lia.
Defined.

Lemma parse_variable_witness :
  exists s', parse (vars := env_vars (ex_env None None)) ex_all ex_junk (cstr "${a}") ex_parser =
    Some ((0, [Some (cstr "b")]), s').
Proof.
  refine (parse_variable ex_all (ex_env None None) (Environment.ex_vars None None) ∅ (cstr "a")
    (cstr "b") None None ex_junk ex_parser (fun _ => eq_refl) (ex_rep None None) eq_refl
    ex_var_ok _ _ _ _ _ eq_refl).
  - intros [E|E%elem_of_nil]%elem_of_cons; [discriminate E|done].
  - intros [E|E%elem_of_nil]%elem_of_cons; [discriminate E|done].
  - repeat constructor; lia.
  - discriminate.
  - cbn. unfold PARSE_BUFSIZE. lia.
Defined.
