(* ===== verification/GptIo.v ===== *)
(** * GptIo: what the fgdisk commands share (sbin/fgdisk/gpt.c, gpt.h)

    Transfers between the device and buffers ([gpt_read], [gpt_write]), the parsing of
    type names ([parse_uuid]), [gpt_gethdr] and [gpt_status], over the heap of [Gd].

    The on-disk structures are those of <sys/gpt.h>, which is not in the repository: the
    offsets of their fields and the header's constants are the parameter [SysGpt], and
    the UUID library is [Uuid].  What is printed is not modelled. *)
From Stdlib Require Import ZArith Lia Ascii String.
From stdpp Require Import base list option gmap strings.
From S2P Require Import Prelude Dll Gd MediaMap Crc32 CMem Stand.
Open Scope Z_scope.

(** ** <sys/gpt.h> *)

(** The fields of [struct gpt_hdr] and [struct gpt_ent] that fgdisk uses. *)
Inductive hdr_field : Type :=
| hdr_sig | hdr_revision | hdr_size | hdr_crc_self | hdr_lba_self | hdr_lba_alt
| hdr_lba_start | hdr_lba_end | hdr_uuid | hdr_lba_table | hdr_entries | hdr_entsz
| hdr_crc_table.

Inductive ent_field : Type :=
| ent_type | ent_uuid | ent_lba_start | ent_lba_end | ent_attr | ent_name.

#[export] Instance hdr_field_eq_dec : EqDecision hdr_field.
Proof. solve_decision. Defined.
#[export] Instance ent_field_eq_dec : EqDecision ent_field.
Proof. solve_decision. Defined.

(** The partition types that have a name in [parse_uuid]. *)
Inductive ent_kind : Type :=
| FREEBSD_BOOT | DRAGONFLY_LABEL32 | DRAGONFLY_LABEL64 | EFI | FREEBSD_UFS | FREEBSD_SWAP
| DRAGONFLY_HAMMER | DRAGONFLY_HAMMER2 | APPLE_HFS | LINUX_DATA | DRAGONFLY_SWAP
| DRAGONFLY_UFS1 | MS_BASIC_DATA.

Class SysGpt := {
  off_hdr : hdr_field -> nat;
  off_ent : ent_field -> nat;
  sizeof_gpt_ent : nat;
  nelem_ent_name : nat;
  GPT_HDR_SIG : list Z;
  GPT_HDR_REVISION : Z;
  GPT_MIN_HDR_SIZE : nat;
  GPT_ENT_TYPE : ent_kind -> list Z;
}.

(** The sizes of the fields, as [le32toh], [le64toh] and [uuid_dec_le] read them. *)
Definition width_hdr (f : hdr_field) : nat :=
  match f with
  | hdr_revision | hdr_size | hdr_crc_self | hdr_entries | hdr_entsz | hdr_crc_table => 4
  | hdr_uuid => 16
  | _ => 8
  end.

Section ent.
Context {gpt : SysGpt}.
Definition width_ent (f : ent_field) : nat :=
  match f with
  | ent_type | ent_uuid => 16
  | ent_name => 2 * nelem_ent_name
  | _ => 8
  end.
End ent.

(** What the documentation of the format says: the fields do not overlap, those of the
    header lie in its first [GPT_MIN_HDR_SIZE] bytes. *)
Class SysGptLaws {gpt : SysGpt} : Prop := {
  hdr_apart : forall f g, f <> g ->
    (off_hdr f + width_hdr f <= off_hdr g \/ off_hdr g + width_hdr g <= off_hdr f)%nat;
  hdr_inside : forall f, (off_hdr f + width_hdr f <= GPT_MIN_HDR_SIZE)%nat;
  ent_apart : forall f g, f <> g ->
    (off_ent f + width_ent f <= off_ent g \/ off_ent g + width_ent g <= off_ent f)%nat;
  ent_inside : forall f, (off_ent f + width_ent f <= sizeof_gpt_ent)%nat;
  ent_kind_ok : forall k, bytes_ok (GPT_ENT_TYPE k) /\ length (GPT_ENT_TYPE k) = 16%nat;
  nelem_pos : (0 < nelem_ent_name)%nat;
  hdr_sig_ok : bytes_ok GPT_HDR_SIG /\ length GPT_HDR_SIG = 8%nat;
}.

(** ** The UUID library: a [uuid_t] is its 16 bytes *)
Class Uuid := {
  uuid_dec_le : list Z -> list Z;
  uuid_enc_le : list Z -> list Z;
  uuid_from_string : list Z -> option (list Z);
  uuid_name_lookup : list Z -> option (list Z);
}.

Definition uuid_ok (u : list Z) : Prop := bytes_ok u /\ length u = 16%nat.
Definition uuid_nil : list Z := replicate 16 0.

(** [uuid_dec_le] and [uuid_enc_le] convert between the two representations, and the
    nil UUID is 16 zero bytes in both. *)
Class UuidLaws {uu : Uuid} : Prop := {
  uuid_dec_ok : forall d, uuid_ok d -> uuid_ok (uuid_dec_le d);
  uuid_enc_ok : forall u, uuid_ok u -> uuid_ok (uuid_enc_le u);
  uuid_dec_enc : forall u, uuid_ok u -> uuid_dec_le (uuid_enc_le u) = u;
  uuid_enc_dec : forall d, uuid_ok d -> uuid_enc_le (uuid_dec_le d) = d;
  uuid_enc_nil : uuid_enc_le uuid_nil = uuid_nil;
}.

(** [uuid_is_nil] and [uuid_equal] are those of lib/libc/uuid, called on copies. *)
Definition uuid_nilb (u : list Z) : bool :=
  match Stand.uuid_is_nil (Some 0) u with Some (r, _) => negb (r =? 0) | None => false end.
Definition uuid_eqb (a b : list Z) : bool :=
  match Stand.uuid_equal (Some 0) (Some 16) (a ++ b) with
  | Some (r, _) => negb (r =? 0)
  | None => false
  end.

(** ** Memory *)

(** [(char * )p + n]. *)
Definition ptr_add (p : ptr) (n : Z) : ptr :=
  match p with PBuf b k => PBuf b (k + n) | _ => p end.

(** The [n] bytes at [p + o]. *)
Definition mem_get (p : ptr) (o n : nat) : St store (list Z) := fun s =>
  match p with
  | PBuf b k =>
    d ← s_bufs s !! b;
    if (0 <=? k) && (k + Z.of_nat (o + n) <=? Z.of_nat (length d))
    then Some (sub (Z.to_nat k + o) n d, s) else None
  | _ => None
  end.

(** Storing [v] at [p + o]. *)
Definition mem_put (p : ptr) (o : nat) (v : list Z) : St store unit := fun s =>
  match p with
  | PBuf b k =>
    d ← s_bufs s !! b;
    if (0 <=? k) && (k + Z.of_nat (o + length v) <=? Z.of_nat (length d))
    then Some (tt, on_bufs <[b := splice (Z.to_nat k + o) v d]> s) else None
  | _ => None
  end.

(** The bytes from [p] to the end of its buffer. *)
Definition mem_rest (p : ptr) : St store (list Z) := fun s =>
  match p with
  | PBuf b k => d ← s_bufs s !! b; if 0 <=? k then Some (drop (Z.to_nat k) d, s) else None
  | _ => None
  end.

(** [crc32(p, size)]. *)
Definition crc32_at (p : ptr) (size : Z) : St store Z :=
  d ← mem_rest p; of_opt (Crc32.crc32 d size).

Section io.
Context {os : Os} {gpt : SysGpt} {uu : Uuid}.

(** [le32toh(hdr->f)] and the like, and [hdr->f = htole32(v)]. *)
Definition hdr_get (hdr : ptr) (f : hdr_field) : St store Z :=
  d ← mem_get hdr (off_hdr f) (width_hdr f); mret (le_dec d).
Definition hdr_put (hdr : ptr) (f : hdr_field) (v : Z) : St store unit :=
  mem_put hdr (off_hdr f) (le_enc (width_hdr f) v).
Definition ent_get (ent : ptr) (f : ent_field) : St store (list Z) :=
  mem_get ent (off_ent f) (width_ent f).
Definition ent_put (ent : ptr) (f : ent_field) (v : list Z) : St store unit :=
  mem_put ent (off_ent f) v.

(** ** Transfers *)
Definition gpt_read (lba count : Z) : St store ptr :=
  g ← gets s_gd;
  let count := u64 (count * gd_secsz g) in
  (* malloc: the contents do not matter *)
  ob ← alloc_buf (replicate (Z.to_nat count) 0);
  match ob with
  | None => mret PNull
  | Some b =>
    let ofs := s64 (lba * gd_secsz g) in
    od ← pread ofs count;
    match od with
    | Some d => modify (on_bufs <[b := d]>);; mret (PBuf b 0)
    | None => free_ptr (PBuf b 0);; mret PNull
    end
  end.

Definition gpt_write (map : loc) : St store Z :=
  nd ← load map;
  g ← gets s_gd;
  let count := u64 (s64 (map_size nd * gd_secsz g)) in
  let ofs := s64 (map_start nd * gd_secsz g) in
  match map_data nd with
  | PNull => mret (-1)
  | data =>
    d ← mem_rest data;
    ok ← pwrite ofs count d;
    if ok : bool then
      upd_gd (fun g => set_gd_flags (Z.lor (gd_flags g) GPT_MODIFIED) g);;
      mret 0
    else mret (-1)
  end.

(** ** The pointers of [struct gd] *)
Definition gd_map (f : gd -> option loc) : St store loc :=
  g ← gets s_gd; of_opt (f g).

(** [gd->gpt->map_data] and the like. *)
Definition gd_data (f : gd -> option loc) : St store ptr :=
  m ← gd_map f; nd ← load m; mret (map_data nd).

Definition gpt_gethdr : St store ptr :=
  m ← map_find MAP_TYPE_PRI_GPT_HDR; upd_gd (set_gd_gpt m);;
  match m with
  | None => mret PNull
  | Some _ =>
    m ← map_find MAP_TYPE_SEC_GPT_HDR; upd_gd (set_gd_tpg m);;
    match m with
    | None => mret PNull
    | Some _ =>
      m ← map_find MAP_TYPE_PRI_GPT_TBL; upd_gd (set_gd_tbl m);;
      m' ← map_find MAP_TYPE_SEC_GPT_TBL; upd_gd (set_gd_lbt m');;
      match m, m' with
      | Some _, Some _ => gd_data gd_gpt
      | _, _ => mret PNull
      end
    end
  end.

Definition gpt_status : St store unit :=
  flags ← gets (fun s => gd_flags (s_gd s));
  if negb (Z.land flags GPT_QUIET =? 0) then mret tt
  else if (Z.land flags GPT_MODIFIED =? 0) && (Z.land flags GPT_READONLY =? 0) then mret tt
  else if negb (Z.land flags GPT_MODIFIED =? 0) then
    upd_gd (fun g => set_gd_flags (Z.lxor (gd_flags g) GPT_MODIFIED) g)
  else mret tt.

(** ** Names of partition types *)
Definition EINVAL : Z := 22.

Definition strcmp_eq (s : list Z) (name : string) : bool := bool_decide (s = cstr name).

(** The [switch] of [parse_uuid] on the first character of [s]. *)
Definition parse_name (s : list Z) : option ent_kind :=
  let c := nth 0 (s ++ [0]) 0 in
  if c =? 98 (* b *) then
    if strcmp_eq s "boot" then Some FREEBSD_BOOT else None
  else if c =? 100 (* d *) then
    if strcmp_eq s "dl32" then Some DRAGONFLY_LABEL32
    else if strcmp_eq s "dl64" then Some DRAGONFLY_LABEL64 else None
  else if c =? 101 (* e *) then
    if strcmp_eq s "efi" then Some EFI else None
  else if c =? 102 (* f *) then
    if strcmp_eq s "fufs" then Some FREEBSD_UFS
    else if strcmp_eq s "fswap" then Some FREEBSD_SWAP else None
  else if c =? 104 (* h *) then
    if strcmp_eq s "hammer" then Some DRAGONFLY_HAMMER
    else if strcmp_eq s "hammer2" then Some DRAGONFLY_HAMMER2
    else if strcmp_eq s "hfs" then Some APPLE_HFS else None
  else if c =? 108 (* l *) then
    if strcmp_eq s "linux" then Some LINUX_DATA else None
  else if c =? 115 (* s *) then
    if strcmp_eq s "swap" then Some DRAGONFLY_SWAP else None
  else if c =? 117 (* u *) then
    if strcmp_eq s "ufs" then Some DRAGONFLY_UFS1 else None
  else if c =? 119 (* w *) then
    if strcmp_eq s "windows" then Some MS_BASIC_DATA else None
  else None.

(** The status, and [*uuid] when it is 0. *)
Definition parse_uuid (s : list Z) : Z * option (list Z) :=
  match uuid_from_string s with
  | Some u => (0, Some u)
  | None =>
    match parse_name s with
    | Some k => (0, Some (GPT_ENT_TYPE k))
    | None =>
      match uuid_name_lookup s with
      | Some u => (0, Some u)
      | None => (EINVAL, None)
      end
    end
  end.

(** ** The text that the commands repeat *)

(** [hdr->hdr_crc_table = ...; hdr->hdr_crc_self = 0; hdr->hdr_crc_self = ...;] *)
Definition hdr_crcs (hdr tbl : ptr) : St store unit :=
  n ← hdr_get hdr hdr_entries;
  sz ← hdr_get hdr hdr_entsz;
  crc ← crc32_at tbl (u32 (n * sz));
  hdr_put hdr hdr_crc_table crc;;
  hdr_put hdr hdr_crc_self 0;;
  sz ← hdr_get hdr hdr_size;
  crc ← crc32_at hdr sz;
  hdr_put hdr hdr_crc_self crc.

(** A header and the place of entry [i] of its table. *)
Definition ent_at (h t : gd -> option loc) (i : Z) : St store (ptr * ptr) :=
  hdr ← gd_data h;
  tbl ← gd_data t;
  sz ← hdr_get hdr hdr_entsz;
  mret (hdr, ptr_add tbl (u32 (i * sz))).

(** The checksums of the primary header, then [gpt_write(gd, gd->gpt);
    gpt_write(gd, gd->tbl);]. *)
Definition commit_pri (hdr : ptr) : St store unit :=
  tbl ← gd_data gd_tbl;
  hdr_crcs hdr tbl;;
  m ← gd_map gd_gpt; gpt_write m;;
  m ← gd_map gd_tbl; gpt_write m;;
  mret tt.

(** The checksums of the secondary header, then [gpt_write(gd, gd->lbt);
    gpt_write(gd, gd->tpg);]. *)
Definition commit_sec (hdr : ptr) : St store unit :=
  tbl ← gd_data gd_lbt;
  hdr_crcs hdr tbl;;
  m ← gd_map gd_lbt; gpt_write m;;
  m ← gd_map gd_tpg; gpt_write m;;
  mret tt.

(** What is done to an entry, [act], is done to the entry in the primary table, at [ent],
    and to entry [i] of the secondary one, each followed by the checksums and writes. *)
Definition edit_both (act : ptr -> St store unit) (hdr ent : ptr) (i : Z) : St store unit :=
  act ent;;
  commit_pri hdr;;
  '(hdr, ent) ← ent_at gd_tpg gd_lbt i;
  act ent;;
  commit_sec hdr.

(** [for (m = map_first(gd); m != NULL; m = m->map_next) body] *)
Fixpoint each_loop (fuel : nat) (body : loc -> St store unit) (m : option loc)
    : St store unit :=
  match fuel with
  | O => ub
  | S fuel =>
    match m with
    | None => mret tt
    | Some m => body m;; nd ← load m; each_loop fuel body (map_next nd)
    end
  end.

Definition each_map (body : loc -> St store unit) : St store unit :=
  fuel ← gets map_fuel; m ← map_first; each_loop fuel body m.
End io.
