(* ===== verification/GptRep.v ===== *)
(** * GptRep: a GPT in memory and on the device

    The two copies of a GPT as fgdisk holds them, a header and a table each, as byte
    strings; what a valid checksum is; and the rules for the operations of [GptIo]. *)
From Stdlib Require Import ZArith Lia.
From stdpp Require Import base list option gmap.
From S2P Require Import Prelude Dll Gd MediaMap Crc32 CMem Stand GptIo.
Open Scope Z_scope.

(** ** Headers and tables as byte strings *)
Section pure.
Context {gpt : SysGpt} {laws : SysGptLaws}.
Implicit Types h t : list Z.

Definition hget (f : hdr_field) h : Z := le_get (off_hdr f) (width_hdr f) h.
Definition hset (f : hdr_field) (v : Z) h : list Z := le_set (off_hdr f) (width_hdr f) v h.

(** The number of bytes of the table that its checksum covers. *)
Definition tbl_bytes h : Z := u32 (hget hdr_entries h * hget hdr_entsz h).

(** A header and a table in buffers of sufficient size. *)
Record half_ok h t : Prop := {
  ho_hbytes : bytes_ok h;
  ho_tbytes : bytes_ok t;
  ho_min : (GPT_MIN_HDR_SIZE <= length h)%nat;
  ho_size : hget hdr_size h <= Z.of_nat (length h);
  ho_tbl : tbl_bytes h <= Z.of_nat (length t);
}.

(** The checksums of a header and its table are right: what [gpt_gpt] verifies. *)
Definition sealed h t : Prop :=
  hget hdr_crc_table h = crc_of (take (Z.to_nat (tbl_bytes h)) t) /\
  hget hdr_crc_self h = crc_of (take (Z.to_nat (hget hdr_size h)) (hset hdr_crc_self 0 h)).

(** The header with its checksums computed. *)
Definition seal h t : list Z :=
  let h := hset hdr_crc_table (crc_of (take (Z.to_nat (tbl_bytes h)) t)) h in
  let h := hset hdr_crc_self 0 h in
  hset hdr_crc_self (crc_of (take (Z.to_nat (hget hdr_size h)) h)) h.

Lemma hdr_room f h : (GPT_MIN_HDR_SIZE <= length h)%nat ->
  (off_hdr f + width_hdr f <= length h)%nat.
Proof. pose proof (hdr_inside f). lia. Qed.

Lemma length_hset f v h : (GPT_MIN_HDR_SIZE <= length h)%nat -> length (hset f v h) = length h.
Proof. intros. apply length_le_set. by apply hdr_room. Qed.

Lemma bytes_ok_hset f v h : bytes_ok h -> bytes_ok (hset f v h).
Proof. apply bytes_ok_le_set. Qed.

Lemma hget_hset f v h : (GPT_MIN_HDR_SIZE <= length h)%nat ->
  hget f (hset f v h) = v mod 256 ^ Z.of_nat (width_hdr f).
Proof. intros. apply le_get_set. by apply hdr_room. Qed.

Lemma hget_hset_ne f g v h : f <> g -> (GPT_MIN_HDR_SIZE <= length h)%nat ->
  hget f (hset g v h) = hget f h.
Proof.
  intros Hf Hl. apply le_get_set_other; [by apply hdr_room|].
  destruct (hdr_apart f g Hf); auto.
Qed.

Lemma hset_hset f v w h : (GPT_MIN_HDR_SIZE <= length h)%nat ->
  hset f w (hset f v h) = hset f w h.
Proof.
  intros Hl. apply splice_splice; rewrite !length_le_enc; [done|]. by apply hdr_room.
Qed.

Lemma hget_bound f h : bytes_ok h -> 0 <= hget f h < 256 ^ Z.of_nat (width_hdr f).
Proof.
  intros Hb. unfold hget, le_get.
  pose proof (le_dec_bound _ (bytes_ok_sub (off_hdr f) (width_hdr f) h Hb)) as H.
  enough (256 ^ Z.of_nat (length (sub (off_hdr f) (width_hdr f) h)) <=
          256 ^ Z.of_nat (width_hdr f)) by lia.
  apply Z.pow_le_mono_r; [lia|]. unfold sub. rewrite length_take. lia.
Qed.

Lemma tbl_bytes_bound h : 0 <= tbl_bytes h < 2 ^ 32.
Proof. apply u32_bound. Qed.

Lemma min_hset f v h : (GPT_MIN_HDR_SIZE <= length h)%nat ->
  (GPT_MIN_HDR_SIZE <= length (hset f v h))%nat.
Proof. intros. by rewrite length_hset. Qed.

#[local] Hint Resolve min_hset : core.

Lemma seal_length h t : (GPT_MIN_HDR_SIZE <= length h)%nat -> length (seal h t) = length h.
Proof. intros. unfold seal. by rewrite !length_hset by auto. Qed.

Lemma seal_bytes h t : bytes_ok h -> bytes_ok (seal h t).
Proof. intros. by repeat apply bytes_ok_hset. Qed.

(** Sealing changes nothing but the checksums. *)
Lemma seal_get f h t : f <> hdr_crc_table -> f <> hdr_crc_self ->
  (GPT_MIN_HDR_SIZE <= length h)%nat -> hget f (seal h t) = hget f h.
Proof.
  intros H1 H2 Hl. unfold seal.
  by rewrite !hget_hset_ne by auto.
Qed.

Lemma seal_tbl_bytes h t : (GPT_MIN_HDR_SIZE <= length h)%nat ->
  tbl_bytes (seal h t) = tbl_bytes h.
Proof. intros. unfold tbl_bytes. by rewrite !seal_get. Qed.

Lemma seal_half_ok h t : half_ok h t -> half_ok (seal h t) t.
Proof.
  intros [? ? Hm ? ?]. split; rewrite ?seal_length, ?seal_tbl_bytes, ?seal_get by done; try done.
  by apply seal_bytes.
Qed.

Lemma crc_mod d : bytes_ok d -> crc_of d mod 256 ^ 4 = crc_of d.
Proof. intros. apply Z.mod_small. by apply crc_of_range. Qed.

Lemma seal_sealed h t : half_ok h t -> sealed (seal h t) t.
Proof.
  intros [Hh Ht Hm _ _].
  pose proof (seal_tbl_bytes h t Hm) as E1.
  pose proof (seal_get hdr_size h t ltac:(done) ltac:(done) Hm) as E2.
  unfold sealed. rewrite E1, E2. unfold seal. set (c := crc_of (take (Z.to_nat (tbl_bytes h)) t)).
  set (h1 := hset hdr_crc_table c h).
  assert (L1 : length h1 = length h) by (by apply length_hset).
  assert (L2 : length (hset hdr_crc_self 0 h1) = length h) by (rewrite length_hset; lia).
  assert (E3 : hget hdr_size (hset hdr_crc_self 0 h1) = hget hdr_size h).
  { unfold h1. by rewrite !hget_hset_ne by auto. }
  rewrite E3. split.
  - rewrite !hget_hset_ne by (done || lia). unfold h1. rewrite hget_hset by done.
    apply crc_mod. by apply Forall_take.
  - rewrite hget_hset by lia. rewrite !hset_hset by lia.
    apply crc_mod, Forall_take. by repeat apply bytes_ok_hset.
Qed.

(** ** Entries *)

(** Entry [i] of the table lies inside it. *)
Definition ent_in (i : Z) h t : Prop :=
  0 <= i /\ i * hget hdr_entsz h < 2 ^ 32 /\
  i * hget hdr_entsz h + Z.of_nat sizeof_gpt_ent <= Z.of_nat (length t).

Definition ent_ofs (i : Z) h : nat := Z.to_nat (i * hget hdr_entsz h).

Definition eget (i : Z) (f : ent_field) h t : list Z :=
  sub (ent_ofs i h + off_ent f) (width_ent f) t.
Definition eset (i : Z) (f : ent_field) (v : list Z) h t : list Z :=
  splice (ent_ofs i h + off_ent f) v t.

Lemma ent_room i f h t : bytes_ok h -> ent_in i h t ->
  (ent_ofs i h + off_ent f + width_ent f <= length t)%nat.
Proof.
  intros Hb (H1 & H2 & H3). unfold ent_ofs. pose proof (ent_inside f).
  pose proof (hget_bound hdr_entsz h Hb). assert (0 <= i * hget hdr_entsz h) by nia. lia.
Qed.

Lemma length_eset i f v h t : bytes_ok h -> ent_in i h t -> length v = width_ent f ->
  length (eset i f v h t) = length t.
Proof. intros Hb Hi Hv. apply length_splice. pose proof (ent_room i f h t Hb Hi). lia. Qed.

Lemma eget_eset i f v h t : bytes_ok h -> ent_in i h t -> length v = width_ent f ->
  eget i f h (eset i f v h t) = v.
Proof.
  intros Hb Hi Hv. unfold eget, eset. rewrite <- Hv. apply sub_splice_same.
  pose proof (ent_room i f h t Hb Hi). lia.
Qed.

(** Writing a field changes no other field of any entry. *)
Lemma eget_eset_ne i j f g v h t :
  bytes_ok h -> ent_in i h t -> ent_in j h t -> length v = width_ent f ->
  Z.of_nat sizeof_gpt_ent <= hget hdr_entsz h ->
  (j, g) <> (i, f) ->
  eget j g h (eset i f v h t) = eget j g h t.
Proof.
  intros Hb Hi Hj Hv Hsz Hne. unfold eget, eset. apply sub_splice_other.
  - pose proof (ent_room i f h t Hb Hi). lia.
  - rewrite Hv. pose proof (ent_inside f). pose proof (ent_inside g).
    destruct Hi as (? & _), Hj as (? & _). unfold ent_ofs.
    destruct (decide (i = j)) as [<-|Hij].
    + assert (g <> f) by (intros ->; done). pose proof (ent_apart g f ltac:(done)). lia.
    + destruct (Z.lt_ge_cases j i).
      * left. assert (j * hget hdr_entsz h + hget hdr_entsz h <= i * hget hdr_entsz h) by nia.
        assert (0 <= j * hget hdr_entsz h) by nia. lia.
      * right. assert (i * hget hdr_entsz h + hget hdr_entsz h <= j * hget hdr_entsz h) by nia.
        assert (0 <= i * hget hdr_entsz h) by nia. lia.
Qed.
End pure.

Create HintDb gpt.
#[export] Hint Resolve min_hset : gpt.

(** ** Rules for the accesses *)
Section access.
Context {os : Os} {gpt : SysGpt} {laws : SysGptLaws}.
Implicit Types (s : store) (h t d v : list Z).

Lemma wp_mem_get b k o n d s (Q : list Z -> store -> Prop) :
  s_bufs s !! b = Some d -> 0 <= k -> (Z.to_nat k + o + n <= length d)%nat ->
  Q (sub (Z.to_nat k + o) n d) s -> wp (mem_get (PBuf b k) o n) s Q.
Proof.
  intros Hb Hk Hl HQ. unfold wp, mem_get. rewrite Hb. simpl.
  destruct (Z.leb_spec 0 k); [|lia].
  by destruct (Z.leb_spec (k + Z.of_nat (o + n)) (Z.of_nat (length d))); [|lia].
Qed.

Lemma wp_mem_put b k o v d s (Q : unit -> store -> Prop) :
  s_bufs s !! b = Some d -> 0 <= k -> (Z.to_nat k + o + length v <= length d)%nat ->
  Q tt (on_bufs <[b := splice (Z.to_nat k + o) v d]> s) ->
  wp (mem_put (PBuf b k) o v) s Q.
Proof.
  intros Hb Hk Hl HQ. unfold wp, mem_put. rewrite Hb. simpl.
  destruct (Z.leb_spec 0 k); [|lia].
  by destruct (Z.leb_spec (k + Z.of_nat (o + length v)) (Z.of_nat (length d))); [|lia].
Qed.

Lemma wp_mem_rest b d s (Q : list Z -> store -> Prop) :
  s_bufs s !! b = Some d -> Q d s -> wp (mem_rest (PBuf b 0)) s Q.
Proof. intros Hb HQ. unfold wp, mem_rest. by rewrite Hb. Qed.

Lemma wp_crc32_at b d n s (Q : Z -> store -> Prop) :
  s_bufs s !! b = Some d -> bytes_ok d -> 0 <= n <= Z.of_nat (length d) ->
  Q (crc_of (take (Z.to_nat n) d)) s -> wp (crc32_at (PBuf b 0) n) s Q.
Proof.
  intros Hb Hd Hn HQ. unfold crc32_at. apply wp_bind, (wp_mem_rest _ d); [done|].
  eapply wp_of_opt; [by apply crc32_of|done].
Qed.

Lemma wp_hdr_get b h f s (Q : Z -> store -> Prop) :
  s_bufs s !! b = Some h -> (GPT_MIN_HDR_SIZE <= length h)%nat -> Q (hget f h) s ->
  wp (hdr_get (PBuf b 0) f) s Q.
Proof.
  intros Hb Hl HQ. unfold hdr_get. apply wp_bind. eapply wp_mem_get; [done|done| |].
  - pose proof (hdr_room f h Hl). lia.
  - by apply wp_ret.
Qed.

Lemma wp_hdr_put b h f x s (Q : unit -> store -> Prop) :
  s_bufs s !! b = Some h -> (GPT_MIN_HDR_SIZE <= length h)%nat ->
  Q tt (on_bufs <[b := hset f x h]> s) -> wp (hdr_put (PBuf b 0) f x) s Q.
Proof.
  intros Hb Hl HQ. unfold hdr_put. eapply wp_mem_put; [done|done| |exact HQ].
  rewrite length_le_enc. pose proof (hdr_room f h Hl). lia.
Qed.

Lemma wp_gd_map f m s (Q : loc -> store -> Prop) :
  f (s_gd s) = Some m -> Q m s -> wp (gd_map f) s Q.
Proof. intros Hf HQ. unfold gd_map. st_step. by apply wp_of_opt with m. Qed.

Lemma wp_gd_data f m nd s (Q : ptr -> store -> Prop) :
  f (s_gd s) = Some m -> s_maps s !! m = Some nd -> Q (map_data nd) s ->
  wp (gd_data f) s Q.
Proof.
  intros Hf Hm HQ. unfold gd_data. apply wp_bind, (wp_gd_map _ m); [done|].
  apply wp_bind, (wp_load m nd); [done|]. by apply wp_ret.
Qed.

Lemma on_bufs_insert_insert b d e s :
  on_bufs <[b := e]> (on_bufs <[b := d]> s) = on_bufs <[b := e]> s.
Proof. unfold on_bufs. simpl. by rewrite insert_insert_eq. Qed.

Lemma bufs_insert b d s : s_bufs (on_bufs <[b := d]> s) !! b = Some d.
Proof. apply lookup_insert_eq. Qed.

Lemma bufs_insert_ne b c d s : b <> c -> s_bufs (on_bufs <[b := d]> s) !! c = s_bufs s !! c.
Proof. intros. by apply lookup_insert_ne. Qed.

(** The checksums of a header and its table are computed as [seal] says. *)
Lemma wp_hdr_crcs hb tb h t s (Q : unit -> store -> Prop) :
  s_bufs s !! hb = Some h -> s_bufs s !! tb = Some t -> half_ok h t ->
  Q tt (on_bufs <[hb := seal h t]> s) ->
  wp (hdr_crcs (PBuf hb 0) (PBuf tb 0)) s Q.
Proof.
  intros Hh Ht [Hhb Htb Hm Hs Hn] HQ. unfold hdr_crcs.
  apply wp_bind, (wp_hdr_get _ h); [done..|]. apply wp_bind, (wp_hdr_get _ h); [done..|].
  pose proof (tbl_bytes_bound h). pose proof (hget_bound hdr_size h Hhb).
  apply wp_bind, (wp_crc32_at _ t); [done|done|unfold tbl_bytes in *; lia|].
  apply wp_bind, (wp_hdr_put _ h); [done..|].
  apply wp_bind. eapply wp_hdr_put; [apply bufs_insert|by apply min_hset|].
  rewrite on_bufs_insert_insert. apply wp_bind. eapply wp_hdr_get; [apply bufs_insert|auto with gpt|].
  set (h1 := hset hdr_crc_self 0 _).
  assert (hget hdr_size h1 = hget hdr_size h) as E.
  { unfold h1. by rewrite !hget_hset_ne by auto with gpt. }
  assert (length h1 = length h) as L by (unfold h1; by rewrite !length_hset by auto with gpt).
  apply wp_bind. eapply wp_crc32_at; [apply bufs_insert|by repeat apply bytes_ok_hset|lia|].
  eapply wp_hdr_put; [apply bufs_insert|lia|]. by rewrite on_bufs_insert_insert.
Qed.

(** ** Writing a region *)

(** Whether the device takes a write to the region [v]. *)
Definition write_ok s (v : seg) : bool :=
  let ofs := sg_start v * gd_secsz (s_gd s) in
  let count := sg_size v * gd_secsz (s_gd s) in
  negb (Z.testbit (gd_flags (s_gd s)) 0) && os_write ofs count.

(** The store after [gpt_write] of the region [v] with buffer [d]. *)
Definition wrote (v : seg) d s : store :=
  if write_ok s v then
    on_gd (fun g => set_gd_flags (Z.lor (gd_flags g) GPT_MODIFIED) g)
      (on_disk (splice (Z.to_nat (sg_start v * gd_secsz (s_gd s))) d) s)
  else s.

(** A region inside the device whose buffer [d] has the region's size. *)
Definition region_buf s (v : seg) d : Prop :=
  0 <= sg_start v /\ 0 <= gd_secsz (s_gd s) /\
  Z.of_nat (length d) = sg_size v * gd_secsz (s_gd s) /\
  (sg_start v + sg_size v) * gd_secsz (s_gd s) <= Z.of_nat (length (s_disk s)) < 2 ^ 62.

Lemma wp_gpt_write_region m nd b d s (Q : Z -> store -> Prop) :
  s_maps s !! m = Some nd -> map_data nd = PBuf b 0 -> s_bufs s !! b = Some d ->
  region_buf s (seg_of nd) d ->
  Q (if write_ok s (seg_of nd) then 0 else -1) (wrote (seg_of nd) d s) ->
  wp (gpt_write m) s Q.
Proof.
  intros Hm Hd Hb (R1 & R2 & R3 & R4) HQ. simpl in R1, R3, R4. unfold gpt_write.
  apply wp_bind, (wp_load m nd); [done|]. st_step. rewrite Hd.
  apply wp_bind, (wp_mem_rest _ d); [done|].
  assert (0 <= map_start nd * gd_secsz (s_gd s)) by nia.
  rewrite (s64_small (map_size nd * _)), (s64_small (map_start nd * _)), u64_small by lia.
  apply wp_bind. unfold wp, pwrite. rewrite R3, Z.ltb_irrefl.
  destruct (Z.leb_spec 0 (map_start nd * gd_secsz (s_gd s))); [|lia].
  destruct (Z.leb_spec (map_start nd * gd_secsz (s_gd s) + map_size nd * gd_secsz (s_gd s))
    (Z.of_nat (length (s_disk s)))); [|lia]. cbn [andb].
  unfold wrote, write_ok in *. cbn [sg_start sg_size seg_of] in HQ.
  destruct (negb _ && _); [|exact HQ].
  rewrite take_ge by lia. exact HQ.
Qed.

Lemma wrote_frame (v : seg) d s :
  s_maps (wrote v d s) = s_maps s /\ s_bufs (wrote v d s) = s_bufs s /\
  s_brk (wrote v d s) = s_brk s /\
  exists fl, s_gd (wrote v d s) = set_gd_flags fl (s_gd s).
Proof.
  unfold wrote. destruct (write_ok s v); simpl; split_and!; try done; [by eexists|].
  exists (gd_flags (s_gd s)). by destruct (s_gd s).
Qed.
End access.

(** ** A GPT on an open device *)

(** Where a copy of the GPT is: the regions of its header and its table, with their
    buffers. *)
Record half := Half {
  hf_hdr : loc * seg;
  hf_tbl : loc * seg;
  hf_hb : loc;
  hf_tb : loc;
}.

Section rep.
Context {os : Os} {gpt : SysGpt} {laws : SysGptLaws}.
Implicit Types (s : store) (l : segs) (h t d : list Z) (x y : half).

(** The copy [x] is in the map, and its buffers hold [h] and [t]. *)
Record half_at s l (th tt : Z) x h t : Prop := {
  ha_hdr : seg_find th l = Some (hf_hdr x);
  ha_tbl : seg_find tt l = Some (hf_tbl x);
  ha_hdata : sg_data (hf_hdr x).2 = PBuf (hf_hb x) 0;
  ha_tdata : sg_data (hf_tbl x).2 = PBuf (hf_tb x) 0;
  ha_hbuf : s_bufs s !! hf_hb x = Some h;
  ha_tbuf : s_bufs s !! hf_tb x = Some t;
  ha_hlen : Z.of_nat (length h) = sg_size (hf_hdr x).2 * gd_secsz (s_gd s);
  ha_tlen : Z.of_nat (length t) = sg_size (hf_tbl x).2 * gd_secsz (s_gd s);
  ha_ok : half_ok h t;
}.

(** An open device of [total] sectors whose map is [l], with the primary copy [x] and the
    secondary copy [y] of a GPT in four distinct buffers. *)
Record gpt_rep s l (total : Z) x y (c : list Z * list Z * (list Z * list Z)) : Prop := {
  gr_map : map_ok s l total;
  gr_pri : half_at s l MAP_TYPE_PRI_GPT_HDR MAP_TYPE_PRI_GPT_TBL x c.1.1 c.1.2;
  gr_sec : half_at s l MAP_TYPE_SEC_GPT_HDR MAP_TYPE_SEC_GPT_TBL y c.2.1 c.2.2;
  gr_apart : NoDup [hf_hb x; hf_tb x; hf_hb y; hf_tb y];
  gr_secsz : 0 < gd_secsz (s_gd s);
  gr_dev : total * gd_secsz (s_gd s) <= Z.of_nat (length (s_disk s)) < 2 ^ 62;
}.

(** [struct gd] points to the two copies, as [gpt_gethdr] leaves it. *)
Definition linked s x y : Prop :=
  gd_gpt (s_gd s) = Some (hf_hdr x).1 /\ gd_tbl (s_gd s) = Some (hf_tbl x).1 /\
  gd_tpg (s_gd s) = Some (hf_hdr y).1 /\ gd_lbt (s_gd s) = Some (hf_tbl y).1.

(** The device holds [d] at the region [v]. *)
Definition on_device s (v : seg) d : Prop :=
  sub (Z.to_nat (sg_start v * gd_secsz (s_gd s))) (length d) (s_disk s) = d.

(** The device holds both copies. *)
Definition synced s x y (c : list Z * list Z * (list Z * list Z)) : Prop :=
  on_device s (hf_hdr x).2 c.1.1 /\ on_device s (hf_tbl x).2 c.1.2 /\
  on_device s (hf_hdr y).2 c.2.1 /\ on_device s (hf_tbl y).2 c.2.2.

(** Nothing stops the program from writing. *)
Definition writable s : Prop :=
  Z.testbit (gd_flags (s_gd s)) 0 = false /\ forall o n, os_write o n = true.

Lemma seg_find_in k l nv : seg_find k l = Some nv -> nv ∈ l /\ sg_type nv.2 = k.
Proof.
  unfold seg_find. intros [H1 H2]%List.find_some. split; [by apply list_elem_of_In|].
  by apply Z.eqb_eq.
Qed.

Lemma rep_node s l n (v : seg) : map_rep s l -> (n, v) ∈ l ->
  exists nd, s_maps s !! n = Some nd /\ seg_of nd = v.
Proof.
  intros Hrep (l1 & l2 & ->)%list_elem_of_split.
  destruct (rep_member s _ _ _ _ _ Hrep eq_refl) as (nd & Hn & Hv & _). eauto.
Qed.

Lemma tiles_in a b l n v : tiles a l b -> (n, v) ∈ l ->
  a <= sg_start v /\ 0 < sg_size v /\ sg_end v <= b.
Proof.
  revert a. induction l as [|[m w] l IH]; intros a; simpl; [by intros _ ?%not_elem_of_nil|].
  intros (<- & Hw & Ht) [[= -> ->]|Hin]%elem_of_cons.
  - pose proof (tiles_mono _ _ _ Ht). lia.
  - destruct (IH _ Ht Hin) as (? & ? & ?). unfold sg_end in *. lia.
Qed.

(** Two regions of a tiling of different types are disjoint. *)
Lemma tiles_disjoint a b l n v m w : tiles a l b -> (n, v) ∈ l -> (m, w) ∈ l ->
  sg_type v <> sg_type w -> sg_end v <= sg_start w \/ sg_end w <= sg_start v.
Proof.
  revert a. induction l as [|[k u] l IH]; intros a; simpl; [by intros _ ?%not_elem_of_nil|].
  intros (<- & Hu & Ht) [[= -> ->]|Hv]%elem_of_cons [[= -> ->]|Hw]%elem_of_cons Hne; [done|..].
  - left. by destruct (tiles_in _ _ _ _ _ Ht Hw).
  - right. by destruct (tiles_in _ _ _ _ _ Ht Hv).
  - by eapply IH.
Qed.

(** A region of the map with a buffer of its size is inside the device. *)
Lemma gpt_region s l total x y c n v d : gpt_rep s l total x y c -> (n, v) ∈ l ->
  Z.of_nat (length d) = sg_size v * gd_secsz (s_gd s) -> region_buf s v d.
Proof.
  intros [(_ & Ht & _) _ _ _ Hz [Hd ?]] Hin Hl.
  destruct (tiles_in _ _ _ _ _ Ht Hin) as (? & ? & He). unfold region_buf.
  split_and!; try done; try lia. change (sg_end v * gd_secsz (s_gd s) <= Z.of_nat (length (s_disk s))).
  nia.
Qed.

(** *** What does not matter to the representation *)
Lemma map_ok_ext s s' l total : map_ok s l total -> s_maps s' = s_maps s ->
  s_brk s' = s_brk s -> gd_mediamap (s_gd s') = gd_mediamap (s_gd s) -> map_ok s' l total.
Proof.
  intros ([H1 H2 H3 H4] & H) Em Eb Eg. split; [|done].
  by split; rewrite ?Em, ?Eb, ?Eg.
Qed.

Lemma gpt_rep_frame s s' l total x y c : gpt_rep s l total x y c ->
  s_maps s' = s_maps s -> s_brk s' = s_brk s -> s_bufs s' = s_bufs s ->
  length (s_disk s') = length (s_disk s) -> (exists fl, s_gd s' = set_gd_flags fl (s_gd s)) ->
  gpt_rep s' l total x y c.
Proof.
  intros [Hm [] [] Ha Hz Hd] Em Eb Ef El [fl Eg].
  assert (gd_secsz (s_gd s') = gd_secsz (s_gd s)) as Ez by (by rewrite Eg).
  split; [|split..| | |]; rewrite ?Ef, ?Ez, ?El; try done.
  eapply map_ok_ext; [done..|]. by rewrite Eg.
Qed.

(** The store with the buffers of a copy replaced by others of the same size. *)
Definition set_half x h t s : store := on_bufs <[hf_hb x := h]> (on_bufs <[hf_tb x := t]> s).

Lemma nodup_four (a b c d : loc) : NoDup [a; b; c; d] ->
  a <> b /\ a <> c /\ a <> d /\ b <> c /\ b <> d /\ c <> d.
Proof.
  rewrite !NoDup_cons, !not_elem_of_cons. intros ((?&?&?&_)&(?&?&_)&(?&_)&_). done.
Qed.

Lemma half_at_put s l th tt x h0 t0 h t : half_at s l th tt x h0 t0 ->
  hf_hb x <> hf_tb x -> half_ok h t -> length h = length h0 -> length t = length t0 ->
  half_at (set_half x h t s) l th tt x h t.
Proof.
  intros [] Hne Hok Lh Lt. split; simpl; rewrite ?Lh, ?Lt; try done.
  - apply lookup_insert_eq.
  - rewrite lookup_insert_ne by done. apply lookup_insert_eq.
Qed.

Lemma half_at_other s l th tt x y h t h' t' : half_at s l th tt y h' t' ->
  NoDup [hf_hb x; hf_tb x; hf_hb y; hf_tb y] ->
  half_at (set_half x h t s) l th tt y h' t'.
Proof.
  intros [] Ha%nodup_four. destruct Ha as (?&?&?&?&?&?).
  by split; simpl; rewrite ?lookup_insert_ne by done.
Qed.

Lemma gpt_rep_pri s l total x y h0 t0 c2 h t : gpt_rep s l total x y (h0, t0, c2) ->
  half_ok h t -> length h = length h0 -> length t = length t0 ->
  gpt_rep (set_half x h t s) l total x y (h, t, c2).
Proof.
  intros [Hm H1 H2 Ha Hz Hd] Hok Lh Lt. split; try done.
  - by apply (map_ok_ext s).
  - apply nodup_four in Ha as (?&_). by eapply half_at_put.
  - by apply half_at_other.
Qed.

Lemma gpt_rep_sec s l total x y c1 h0 t0 h t : gpt_rep s l total x y (c1, (h0, t0)) ->
  half_ok h t -> length h = length h0 -> length t = length t0 ->
  gpt_rep (set_half y h t s) l total x y (c1, (h, t)).
Proof.
  intros [Hm H1 H2 Ha Hz Hd] Hok Lh Lt. split; try done.
  - by apply (map_ok_ext s).
  - apply half_at_other; [done|].
    by rewrite (Permutation_app_comm [hf_hb y; hf_tb y] [hf_hb x; hf_tb x]).
  - apply nodup_four in Ha as (_&_&_&_&_&?). by eapply half_at_put.
Qed.
End rep.

(** ** Committing a change *)
Section commit.
Context {os : Os} {gpt : SysGpt} {laws : SysGptLaws} {uu : Uuid}.
Implicit Types (s : store) (l : segs) (h t d : list Z) (x y : half).

(** The bytes of the region [v] on the device. *)
Definition in_region s (v : seg) (i : nat) : Prop :=
  sg_start v * gd_secsz (s_gd s) <= Z.of_nat i < (sg_start v + sg_size v) * gd_secsz (s_gd s).

(** From [s] to [s'] only buffers, the flags (but not whether the device is read-only)
    and the four regions of the GPT on the device changed. *)
Record edits x y s s' : Prop := {
  ed_maps : s_maps s' = s_maps s;
  ed_brk : s_brk s' = s_brk s;
  ed_gd : exists fl, s_gd s' = set_gd_flags fl (s_gd s) /\
    Z.testbit fl 0 = Z.testbit (gd_flags (s_gd s)) 0;
  ed_len : length (s_disk s') = length (s_disk s);
  ed_disk : forall i,
    ~ (in_region s (hf_hdr x).2 i \/ in_region s (hf_tbl x).2 i \/
       in_region s (hf_hdr y).2 i \/ in_region s (hf_tbl y).2 i) ->
    s_disk s' !! i = s_disk s !! i;
}.

Lemma edits_refl x y s : edits x y s s.
Proof. split; try done. exists (gd_flags (s_gd s)). by destruct (s_gd s). Qed.

Lemma edits_trans x y s1 s2 s3 : edits x y s1 s2 -> edits x y s2 s3 -> edits x y s1 s3.
Proof.
  intros [A1 A2 (f1 & A3 & A3') A4 A5] [B1 B2 (f2 & B3 & B3') B4 B5].
  split; [congruence..| |congruence|].
  - exists f2. rewrite B3, A3 in *. simpl in *. split; [done|]. congruence.
  - intros i Hi. rewrite B5, A5; [done..|]. unfold in_region in *. by rewrite A3.
Qed.

Lemma edits_bufs x y s f : edits x y s (on_bufs f s).
Proof. split; try done. exists (gd_flags (s_gd s)). simpl. by destruct (s_gd s). Qed.

Lemma edits_linked x y s s' : edits x y s s' -> linked s x y -> linked s' x y.
Proof. intros [_ _ (fl & E & _) _ _]. unfold linked. by rewrite E. Qed.

Lemma edits_writable x y s s' : edits x y s s' -> writable s -> writable s'.
Proof. intros [_ _ (fl & E & E') _ _] [H ?]. split; [|done]. rewrite E. cbn [set_gd_flags gd_flags]. by rewrite E'. Qed.

Lemma edits_wrote x y s v d : region_buf s v d ->
  v ∈ [(hf_hdr x).2; (hf_tbl x).2; (hf_hdr y).2; (hf_tbl y).2] ->
  edits x y s (wrote v d s).
Proof.
  intros (R1 & R2 & R3 & R4) Hv. unfold wrote. destruct (write_ok s v); [|apply edits_refl].
  assert (0 <= sg_start v * gd_secsz (s_gd s)) by nia.
  assert ((Z.to_nat (sg_start v * gd_secsz (s_gd s)) + length d <= length (s_disk s))%nat) by lia.
  split; try done.
  - eexists. split; [done|]. by rewrite Z.lor_spec, orb_false_r.
  - by apply length_splice.
  - intros i Hi. simpl. rewrite lookup_splice by done.
    assert (~ in_region s v i) as Hn.
    { intros Hr. apply Hi. rewrite !elem_of_cons in Hv.
      destruct Hv as [->|[->|[->|[->|[]%not_elem_of_nil]]]]; tauto. }
    unfold in_region in Hn. by repeat case_decide; [|lia|].
Qed.

Lemma on_device_wrote s v d : region_buf s v d -> write_ok s v = true ->
  on_device (wrote v d s) v d.
Proof.
  intros (R1 & R2 & R3 & R4) Hok. unfold on_device, wrote. rewrite Hok. simpl.
  apply sub_splice_same. assert (0 <= sg_start v * gd_secsz (s_gd s)) by nia. lia.
Qed.

(** A write leaves the other regions of the device alone. *)
Lemma on_device_other s v d w e : region_buf s v d -> region_buf s w e ->
  sg_end v <= sg_start w \/ sg_end w <= sg_start v ->
  on_device s w e -> on_device (wrote v d s) w e.
Proof.
  intros (R1 & R2 & R3 & R4) (S1 & S2 & S3 & S4) Hd H. unfold on_device, wrote.
  destruct (write_ok s v); [|done]. simpl. unfold sg_end in Hd.
  assert (0 <= sg_start v * gd_secsz (s_gd s)) by nia.
  assert (0 <= sg_start w * gd_secsz (s_gd s)) by nia.
  rewrite sub_splice_other; [done|lia|].
  destruct Hd as [Hd|Hd]; apply (Z.mul_le_mono_nonneg_r _ _ (gd_secsz (s_gd s))) in Hd; lia.
Qed.

(** The four regions of a GPT, by type. *)
Lemma half_in s l th tt x h t : half_at s l th tt x h t ->
  (hf_hdr x ∈ l /\ sg_type (hf_hdr x).2 = th) /\ (hf_tbl x ∈ l /\ sg_type (hf_tbl x).2 = tt).
Proof. intros []. split; by apply seg_find_in. Qed.

Lemma half_node s l total th tt x h t : map_ok s l total -> half_at s l th tt x h t ->
  (exists nd, s_maps s !! (hf_hdr x).1 = Some nd /\ seg_of nd = (hf_hdr x).2) /\
  (exists nd, s_maps s !! (hf_tbl x).1 = Some nd /\ seg_of nd = (hf_tbl x).2).
Proof.
  intros (Hrep & _) Hx. destruct (half_in _ _ _ _ _ _ _ Hx) as [[H1 _] [H2 _]].
  split; (apply (rep_node s l); [done|]); by rewrite <- surjective_pairing.
Qed.

(** [gpt_write] of one of the four regions. *)
Lemma wp_write s l total x y c nv b d (Q : Z -> store -> Prop) :
  gpt_rep s l total x y c -> nv ∈ l ->
  nv ∈ [hf_hdr x; hf_tbl x; hf_hdr y; hf_tbl y] ->
  sg_data nv.2 = PBuf b 0 -> s_bufs s !! b = Some d ->
  Z.of_nat (length d) = sg_size nv.2 * gd_secsz (s_gd s) ->
  (forall r s', s' = wrote nv.2 d s -> gpt_rep s' l total x y c -> edits x y s s' ->
    (writable s -> on_device s' nv.2 d) ->
    (forall w e, w ∈ l -> sg_type w.2 <> sg_type nv.2 ->
      Z.of_nat (length e) = sg_size w.2 * gd_secsz (s_gd s) ->
      on_device s w.2 e -> on_device s' w.2 e) -> Q r s') ->
  wp (gpt_write nv.1) s Q.
Proof.
  intros Hrep Hin Hfour Hb Hd Hl HQ. destruct nv as [n v]. cbn [fst snd] in *.
  destruct (rep_node s l n v) as (nd & Hn & <-); [apply Hrep|done|].
  pose proof (gpt_region _ _ _ _ _ _ _ _ _ Hrep Hin Hl) as Hreg.
  eapply wp_gpt_write_region; [done..|].
  assert (edits x y s (wrote (seg_of nd) d s)) as He.
  { apply edits_wrote; [done|]. apply (list_elem_of_fmap_2 snd) in Hfour. exact Hfour. }
  apply HQ; [done| |done|..].
  - destruct (wrote_frame (seg_of nd) d s) as (E1 & E2 & E3 & E4).
    eapply gpt_rep_frame; [done..|apply He|done].
  - intros [Hro Hw]. apply on_device_wrote; [done|]. unfold write_ok. by rewrite Hro, Hw.
  - intros [m w] e Hw Ht Le. apply on_device_other; [done|by eapply gpt_region|].
    destruct (gr_map _ _ _ _ _ _ Hrep) as (_ & Ht0 & _).
    cbn [snd] in *. by eapply tiles_disjoint; [| | |apply not_eq_sym].
Qed.

(** What a commit of the regions [v1] and [v2], holding [d1] and [d2], does. *)
Record committed l x y (v1 v2 : seg) d1 d2 s s' : Prop := {
  cm_edits : edits x y s s';
  cm_bufs : s_bufs s' = s_bufs s;
  cm_dev : writable s -> on_device s' v1 d1 /\ on_device s' v2 d2;
  cm_other : forall w e, w ∈ l -> sg_type w.2 <> sg_type v1 -> sg_type w.2 <> sg_type v2 ->
    Z.of_nat (length e) = sg_size w.2 * gd_secsz (s_gd s) ->
    on_device s w.2 e -> on_device s' w.2 e;
}.

(** Two writes, the results of which are not looked at. *)
Lemma wp_write_two s l total x y c f1 f2 nv1 nv2 b1 b2 d1 d2 (Q : unit -> store -> Prop) :
  gpt_rep s l total x y c ->
  f1 (s_gd s) = Some nv1.1 -> f2 (s_gd s) = Some nv2.1 ->
  (forall fl g, f2 (set_gd_flags fl g) = f2 g) ->
  nv1 ∈ l -> nv2 ∈ l ->
  nv1 ∈ [hf_hdr x; hf_tbl x; hf_hdr y; hf_tbl y] ->
  nv2 ∈ [hf_hdr x; hf_tbl x; hf_hdr y; hf_tbl y] ->
  sg_type nv1.2 <> sg_type nv2.2 ->
  sg_data nv1.2 = PBuf b1 0 -> sg_data nv2.2 = PBuf b2 0 ->
  s_bufs s !! b1 = Some d1 -> s_bufs s !! b2 = Some d2 ->
  Z.of_nat (length d1) = sg_size nv1.2 * gd_secsz (s_gd s) ->
  Z.of_nat (length d2) = sg_size nv2.2 * gd_secsz (s_gd s) ->
  (forall s', gpt_rep s' l total x y c -> committed l x y nv1.2 nv2.2 d1 d2 s s' -> Q tt s') ->
  wp (m ← gd_map f1; gpt_write m;; m ← gd_map f2; gpt_write m;; mret tt) s Q.
Proof.
  intros Hrep F1 F2 Ff I1 I2 O1 O2 Hty D1 D2 B1 B2 L1 L2 HQ.
  apply wp_bind, (wp_gd_map _ nv1.1); [done|].
  apply wp_bind. eapply (wp_write s); [done..|]. intros _ s1 E1 Hrep1 Ed1 Od1 Ot1.
  destruct (wrote_frame nv1.2 d1 s) as (_ & Eb & _ & fl & Eg). rewrite <- E1 in Eb, Eg.
  apply wp_bind, (wp_gd_map _ nv2.1); [by rewrite Eg, Ff|].
  apply wp_bind. eapply (wp_write s1); [done..|by rewrite Eb|by rewrite Eg|].
  intros _ s2 E2 Hrep2 Ed2 Od2 Ot2. apply wp_ret, HQ; [done|].
  destruct (wrote_frame nv2.2 d2 s1) as (_ & Eb2 & _ & _). rewrite <- E2 in Eb2.
  split.
  - by eapply edits_trans.
  - by rewrite Eb2.
  - intros Hw. split.
    + apply Ot2; [done|done|by rewrite Eg|by apply Od1].
    + apply Od2. by eapply edits_writable.
  - intros w e Hw T1 T2 Le Ho. apply Ot2; [done..|by rewrite Eg|]. by apply Ot1.
Qed.

Lemma hdr_crcs_rep (s : store) hb tb h t : s_bufs s !! hb = Some h -> s_bufs s !! tb = Some t ->
  hb <> tb -> on_bufs <[hb := seal h t]> s = on_bufs <[hb := seal h t]> (on_bufs <[tb := t]> s).
Proof.
  intros Hh Ht Hne. unfold on_bufs. simpl. f_equal. by rewrite (insert_id (s_bufs s) tb).
Qed.

Lemma wp_commit_pri s l total x y h t c2 (Q : unit -> store -> Prop) :
  gpt_rep s l total x y (h, t, c2) -> linked s x y ->
  (forall s', gpt_rep s' l total x y (seal h t, t, c2) ->
    committed l x y (hf_hdr x).2 (hf_tbl x).2 (seal h t) t
      (on_bufs <[hf_hb x := seal h t]> s) s' -> Q tt s') ->
  wp (commit_pri (PBuf (hf_hb x) 0)) s Q.
Proof.
  intros Hrep (K1 & K2 & _) HQ. unfold commit_pri.
  pose proof (gr_pri _ _ _ _ _ _ Hrep) as Hx. cbn [fst snd] in Hx.
  destruct (half_node _ _ _ _ _ _ _ _ (gr_map _ _ _ _ _ _ Hrep) Hx) as (_ & nt & Nt & Vt).
  destruct (half_in _ _ _ _ _ _ _ Hx) as [[I1 T1] [I2 T2]].
  pose proof (nodup_four _ _ _ _ (gr_apart _ _ _ _ _ _ Hrep)) as (Hne & _).
  pose proof Hx as [].
  apply wp_bind, (wp_gd_data _ (hf_tbl x).1 nt); [done..|].
  replace (map_data nt) with (PBuf (hf_tb x) 0) by (rewrite <- ha_tdata0, <- Vt; done).
  apply wp_bind. eapply wp_hdr_crcs; [done..|].
  assert (gpt_rep (on_bufs <[hf_hb x := seal h t]> s) l total x y (seal h t, t, c2)) as Hrep1.
  { erewrite hdr_crcs_rep by done. apply (gpt_rep_pri _ _ _ _ _ h t); try done.
    - by apply seal_half_ok.
    - apply seal_length, ha_ok0. }
  pose proof (gr_pri _ _ _ _ _ _ Hrep1) as [].
  eapply wp_write_two; try done; try (by rewrite ?elem_of_cons; auto).
  by rewrite T1, T2.
Qed.

Lemma wp_commit_sec s l total x y h t c1 (Q : unit -> store -> Prop) :
  gpt_rep s l total x y (c1, (h, t)) -> linked s x y ->
  (forall s', gpt_rep s' l total x y (c1, (seal h t, t)) ->
    committed l x y (hf_tbl y).2 (hf_hdr y).2 t (seal h t)
      (on_bufs <[hf_hb y := seal h t]> s) s' -> Q tt s') ->
  wp (commit_sec (PBuf (hf_hb y) 0)) s Q.
Proof.
  intros Hrep (_ & _ & K1 & K2) HQ. unfold commit_sec.
  pose proof (gr_sec _ _ _ _ _ _ Hrep) as Hx. cbn [fst snd] in Hx.
  destruct (half_node _ _ _ _ _ _ _ _ (gr_map _ _ _ _ _ _ Hrep) Hx) as (_ & nt & Nt & Vt).
  destruct (half_in _ _ _ _ _ _ _ Hx) as [[I1 T1] [I2 T2]].
  pose proof (nodup_four _ _ _ _ (gr_apart _ _ _ _ _ _ Hrep)) as (_ & _ & _ & _ & _ & Hne).
  pose proof Hx as [].
  apply wp_bind, (wp_gd_data _ (hf_tbl y).1 nt); [done..|].
  replace (map_data nt) with (PBuf (hf_tb y) 0) by (rewrite <- ha_tdata0, <- Vt; done).
  apply wp_bind. eapply wp_hdr_crcs; [done..|].
  assert (gpt_rep (on_bufs <[hf_hb y := seal h t]> s) l total x y (c1, (seal h t, t))) as Hrep1.
  { erewrite hdr_crcs_rep by done. apply (gpt_rep_sec _ _ _ _ _ _ h t); try done.
    - by apply seal_half_ok.
    - apply seal_length, ha_ok0. }
  pose proof (gr_sec _ _ _ _ _ _ Hrep1) as [].
  eapply wp_write_two; try done; try (by rewrite ?elem_of_cons; auto).
  by rewrite T1, T2.
Qed.
End commit.

(** ** Entries, the loop over the map, and the shared calls *)
Section entries.
Context {os : Os} {gpt : SysGpt} {laws : SysGptLaws} {uu : Uuid}.
Implicit Types (s : store) (l : segs) (h t d v : list Z) (x y : half).

Lemma wp_gd_half s l total th tt f x h t (Q : ptr -> store -> Prop) :
  map_ok s l total -> half_at s l th tt x h t -> f (s_gd s) = Some (hf_hdr x).1 ->
  Q (PBuf (hf_hb x) 0) s -> wp (gd_data f) s Q.
Proof.
  intros Hm Hx Hf HQ. destruct (half_node _ _ _ _ _ _ _ _ Hm Hx) as ((nd & Hn & Hv) & _).
  eapply wp_gd_data; [done..|]. by rewrite <- (ha_hdata _ _ _ _ _ _ _ Hx), <- Hv in HQ.
Qed.

Lemma wp_gd_tbl s l total th tt f x h t (Q : ptr -> store -> Prop) :
  map_ok s l total -> half_at s l th tt x h t -> f (s_gd s) = Some (hf_tbl x).1 ->
  Q (PBuf (hf_tb x) 0) s -> wp (gd_data f) s Q.
Proof.
  intros Hm Hx Hf HQ. destruct (half_node _ _ _ _ _ _ _ _ Hm Hx) as (_ & (nd & Hn & Hv)).
  eapply wp_gd_data; [done..|]. by rewrite <- (ha_tdata _ _ _ _ _ _ _ Hx), <- Hv in HQ.
Qed.

Lemma wp_ent_at s l total th tt fh ft x h t i (Q : ptr * ptr -> store -> Prop) :
  map_ok s l total -> half_at s l th tt x h t ->
  fh (s_gd s) = Some (hf_hdr x).1 -> ft (s_gd s) = Some (hf_tbl x).1 -> ent_in i h t ->
  Q (PBuf (hf_hb x) 0, PBuf (hf_tb x) (i * hget hdr_entsz h)) s ->
  wp (ent_at fh ft i) s Q.
Proof.
  intros Hm Hx Fh Ft (Hi & Hi2 & _) HQ. unfold ent_at.
  apply wp_bind. eapply wp_gd_half; [done..|]. apply wp_bind. eapply wp_gd_tbl; [done..|].
  destruct Hx. destruct ha_ok0.
  apply wp_bind, (wp_hdr_get _ h); [done..|]. apply wp_ret.
  pose proof (hget_bound hdr_entsz h ltac:(done)).
  rewrite u32_small by nia. exact HQ.
Qed.

Lemma wp_ent_get s b f i h t (Q : list Z -> store -> Prop) :
  bytes_ok h -> ent_in i h t -> s_bufs s !! b = Some t -> Q (eget i f h t) s ->
  wp (ent_get (PBuf b (i * hget hdr_entsz h)) f) s Q.
Proof.
  intros Hh Hi Hb HQ. pose proof (hget_bound hdr_entsz h Hh).
  pose proof (ent_room i f h t Hh Hi). destruct Hi as (? & _).
  unfold ent_get. eapply wp_mem_get; [done|nia|exact H0|done].
Qed.

Lemma wp_ent_put s b f i h t v (Q : unit -> store -> Prop) :
  bytes_ok h -> ent_in i h t -> s_bufs s !! b = Some t -> length v = width_ent f ->
  Q tt (on_bufs <[b := eset i f v h t]> s) ->
  wp (ent_put (PBuf b (i * hget hdr_entsz h)) f v) s Q.
Proof.
  intros Hh Hi Hb Hv HQ. pose proof (hget_bound hdr_entsz h Hh).
  pose proof (ent_room i f h t Hh Hi). destruct Hi as (? & _).
  unfold ent_put. eapply wp_mem_put; [done|nia| |exact HQ]. unfold ent_ofs in *. lia.
Qed.

(** Sizes and well-formedness are kept by writing a field of an entry. *)
Lemma eset_half_ok i f v h t : half_ok h t -> ent_in i h t -> length v = width_ent f ->
  bytes_ok v -> half_ok h (eset i f v h t) /\ length (eset i f v h t) = length t.
Proof.
  intros [] Hi Hv Hb. pose proof (length_eset i f v h t ltac:(done) Hi Hv) as E.
  split; [|done]. split; rewrite ?E; try done. by apply bytes_ok_splice.
Qed.

Lemma ent_in_eset j i f v h t : bytes_ok h -> ent_in i h t -> length v = width_ent f ->
  ent_in j h (eset i f v h t) <-> ent_in j h t.
Proof. intros Hb Hi Hv. unfold ent_in. by rewrite (length_eset i f v h t). Qed.

Lemma ent_in_seal j h t t' u : (GPT_MIN_HDR_SIZE <= length h)%nat -> length u = length t' ->
  ent_in j (seal h t) u <-> ent_in j h t'.
Proof. intros Hm E. unfold ent_in. by rewrite seal_get, E. Qed.

Lemma eget_seal j f h t u : (GPT_MIN_HDR_SIZE <= length h)%nat ->
  eget j f (seal h t) u = eget j f h u.
Proof. intros Hm. unfold eget, ent_ofs. by rewrite seal_get. Qed.

(** Writing a table in place. *)
Lemma gpt_rep_pri_tbl s l total x y h t c2 t' : gpt_rep s l total x y (h, t, c2) ->
  half_ok h t' -> length t' = length t ->
  gpt_rep (on_bufs <[hf_tb x := t']> s) l total x y (h, t', c2).
Proof.
  intros Hrep Ht Hl. pose proof (gr_pri _ _ _ _ _ _ Hrep) as [].
  pose proof (nodup_four _ _ _ _ (gr_apart _ _ _ _ _ _ Hrep)) as (Hne & _).
  replace (on_bufs <[hf_tb x := t']> s) with (set_half x h t' s).
  - by eapply gpt_rep_pri.
  - unfold set_half, on_bufs. simpl. f_equal. apply insert_id.
    by rewrite lookup_insert_ne.
Qed.

Lemma gpt_rep_sec_tbl s l total x y h t c1 t' : gpt_rep s l total x y (c1, (h, t)) ->
  half_ok h t' -> length t' = length t ->
  gpt_rep (on_bufs <[hf_tb y := t']> s) l total x y (c1, (h, t')).
Proof.
  intros Hrep Ht Hl. pose proof (gr_sec _ _ _ _ _ _ Hrep) as [].
  pose proof (nodup_four _ _ _ _ (gr_apart _ _ _ _ _ _ Hrep)) as (_&_&_&_&_&Hne).
  replace (on_bufs <[hf_tb y := t']> s) with (set_half y h t' s).
  - by eapply gpt_rep_sec.
  - unfold set_half, on_bufs. simpl. f_equal. apply insert_id.
    by rewrite lookup_insert_ne.
Qed.

(** [gpt_status] only clears the mark that the device was modified. *)
Lemma wp_gpt_status s l total x y c (Q : unit -> store -> Prop) :
  gpt_rep s l total x y c ->
  (forall s', gpt_rep s' l total x y c -> edits x y s s' -> s_disk s' = s_disk s ->
    s_bufs s' = s_bufs s -> Q tt s') ->
  wp gpt_status s Q.
Proof.
  intros Hrep HQ. unfold gpt_status. st_step.
  assert (Q tt s) as Hs by (apply HQ; try done; apply edits_refl).
  repeat case_match; try (by apply wp_ret).
  st_step. set (s' := on_gd _ s).
  assert (edits x y s s') as He.
  { split; try done. eexists. split; [done|]. by rewrite Z.lxor_spec, xorb_false_r. }
  apply HQ; try done. by apply (gpt_rep_frame s); try done; apply He || eexists.
Qed.

Lemma map_ok_gd s l total f : map_ok s l total ->
  gd_mediamap (f (s_gd s)) = gd_mediamap (s_gd s) -> map_ok (on_gd f s) l total.
Proof. intros. by apply (map_ok_ext s). Qed.

(** [gpt_gethdr] on a device that has the GPT links [struct gd] to it. *)
Lemma wp_gpt_gethdr s l total x y c (Q : ptr -> store -> Prop) :
  gpt_rep s l total x y c ->
  (forall s', gpt_rep s' l total x y c -> linked s' x y ->
    s' = on_gd (fun g => set_gd_lbt (Some (hf_tbl y).1) (set_gd_tbl (Some (hf_tbl x).1)
           (set_gd_tpg (Some (hf_hdr y).1) (set_gd_gpt (Some (hf_hdr x).1) g)))) s ->
    Q (PBuf (hf_hb x) 0) s') ->
  wp gpt_gethdr s Q.
Proof.
  intros [Hm Hx Hy Ha Hz Hd] HQ. unfold gpt_gethdr.
  pose proof (Hm) as (Hrep & _).
  assert (forall (k : Z) f, gd_mediamap (f (s_gd s)) = gd_mediamap (s_gd s) ->
    forall Q' : option loc -> store -> Prop, Q' (fst <$> seg_find k l) (on_gd f s) -> wp (map_find k) (on_gd f s) Q') as Hf.
  { intros k f Hg Q' HQ'. by apply wp_map_find with l; [apply (map_ok_gd _ _ _ f Hm Hg)|]. }
  apply wp_bind, wp_map_find with l; [done|].
  rewrite (ha_hdr _ _ _ _ _ _ _ Hx). st_step. simpl.
  apply wp_bind, Hf; [done|]. rewrite (ha_hdr _ _ _ _ _ _ _ Hy). st_step. simpl.
  change (on_gd ?f (on_gd ?g s)) with (on_gd (fun a => f (g a)) s).
  apply wp_bind, Hf; [done|]. rewrite (ha_tbl _ _ _ _ _ _ _ Hx). st_step. simpl.
  change (on_gd ?f (on_gd ?g s)) with (on_gd (fun a => f (g a)) s).
  apply wp_bind, Hf; [done|]. rewrite (ha_tbl _ _ _ _ _ _ _ Hy). st_step. simpl.
  change (on_gd ?f (on_gd ?g s)) with (on_gd (fun a => f (g a)) s).
  set (s' := on_gd _ s).
  assert (gpt_rep s' l total x y c) as Hrep'.
  { split; try done; [by apply map_ok_gd|by destruct Hx; split|by destruct Hy; split]. }
  eapply wp_gd_half; [apply Hrep'|apply Hrep'|done|]. by apply HQ.
Qed.

(** A loop over the map whose body keeps an invariant that pins the map down. *)
Lemma wp_each_map {C} (Inv : C -> store -> Prop) (step : seg -> C -> C)
    (body : loc -> St store unit) l (c : C) s
    (Q : unit -> store -> Prop) :
  (forall c s, Inv c s -> map_rep s l) ->
  (forall n (v : seg) c s, (n, v) ∈ l -> Inv c s ->
    wp (body n) s (fun _ s' => Inv (step v c) s')) ->
  Inv c s ->
  (forall s', Inv (fold_left (fun c nv => step nv.2 c) l c) s' -> Q tt s') ->
  wp (each_map body) s Q.
Proof.
  intros Hrep Hbody Hs HQ. unfold each_map, map_first. st_step. st_step.
  pose proof (Hrep _ _ Hs) as Hr. rewrite (rep_head _ _ Hr).
  pose proof (rep_fuel _ _ Hr) as Hfuel. clear Hr. revert Hfuel. generalize (map_fuel s).
  assert (exists l1, l = l1 ++ l) as Hl by (by exists []).
  revert Hl Hs HQ. revert c s.
  enough (forall (l2 : segs) c s, (exists l1, l = l1 ++ l2) -> Inv c s ->
    (forall s', Inv (fold_left (fun c nv => step nv.2 c) l2 c) s' -> Q tt s') ->
    forall n, (length l2 < n)%nat -> wp (each_loop n body (first_of l2 None)) s Q) by eauto.
  induction l2 as [|[m v] l2 IH]; intros c s [l1 E] Hs HQ [|n] Hn; cbn [length] in Hn; try lia.
  { apply wp_ret. by apply HQ. }
  simpl. apply wp_bind. eapply wp_mono; [apply (Hbody m v c s); [|done]|].
  { rewrite E, elem_of_app, elem_of_cons. by right; left. }
  intros [] s' Hs'. pose proof (Hrep _ _ Hs') as Hr. rewrite E in Hr.
  destruct (rep_member s' _ _ _ _ _ Hr eq_refl) as (nd & Hnd & _ & _ & Hx).
  apply wp_bind, (wp_load m nd); [done|]. rewrite Hx.
  apply (IH (step v c)); [|done|done|lia]. exists (l1 ++ [(m, v)]). by rewrite <- app_assoc.
Qed.
End entries.
