(* ===== verification/GptSpec.v ===== *)
(** * GptSpec: changing a field of the entries selected

    The abstract account of the commands of [GptEdit]: one field of some entries is
    changed in both copies of the table, and both headers are sealed again. *)
From Stdlib Require Import ZArith Lia.
From stdpp Require Import base list option gmap.
From S2P Require Import Prelude Dll Gd MediaMap Crc32 CMem Stand GptIo GptRep.
Open Scope Z_scope.

(** The two copies: header and table of the primary, header and table of the secondary. *)
Abbreviation contents := (list Z * list Z * (list Z * list Z))%type.

Section spec.
Context {gpt : SysGpt}.
Implicit Types (c : contents) (l : segs) (h t d : list Z).

(** Field [f] of entry [i] replaced by [val] of what it was. *)
Definition fset (i : Z) (f : ent_field) (val : list Z -> list Z) h t : list Z :=
  eset i f (val (eget i f h t)) h t.

(** Both tables changed by [F], and both headers sealed again. *)
Definition edit_with (F : list Z -> list Z -> list Z) c : contents :=
  let t := F c.1.1 c.1.2 in
  let t' := F c.2.1 c.2.2 in
  (seal c.1.1 t, t, (seal c.2.1 t', t')).

Definition edit (i : Z) (f : ent_field) (val : list Z -> list Z) c : contents :=
  edit_with (fset i f val) c.

Definition val_ok (f : ent_field) (val : list Z -> list Z) : Prop := forall d,
  bytes_ok d -> length d = width_ent f -> bytes_ok (val d) /\ length (val d) = width_ent f.

Definition both_in (i : Z) c : Prop := ent_in i c.1.1 c.1.2 /\ ent_in i c.2.1 c.2.2.

(** A region that stands for an entry of the table. *)
Definition is_part (v : seg) : bool := (sg_type v =? MAP_TYPE_GPT_PART) && (1 <=? sg_index v).

(** The regions of the map stand for distinct entries inside both tables. *)
Record parts_ok l c : Prop := {
  po_in : forall n v, (n, v) ∈ l -> is_part v = true ->
    sg_index v < 2 ^ 32 /\ both_in (sg_index v - 1) c;
  po_nodup : NoDup (sg_index <$> filter (fun v => is_part v = true) l.*2);
  po_pri : Z.of_nat sizeof_gpt_ent <= hget hdr_entsz c.1.1;
  po_sec : Z.of_nat sizeof_gpt_ent <= hget hdr_entsz c.2.1;
}.

(** [pick v d]: the region [v], whose entry has the type [d], is selected. *)
Definition picker : Type := seg -> list Z -> bool.

(** Entry [i] is selected by some region of [l]. *)
Definition picked l (pick : picker) c (i : Z) : bool :=
  existsb (fun nv => (sg_index nv.2 =? i + 1) && pick nv.2 (eget i ent_type c.1.1 c.1.2)) l.

(** Some entry is selected. *)
Definition some_picked l (pick : picker) c : bool :=
  existsb (fun nv => pick nv.2 (eget (sg_index nv.2 - 1) ent_type c.1.1 c.1.2)) l.

(** What the commands leave: in both copies field [f] of the selected entries changed by
    [val], all else as it was. *)
Definition field_of l (pick : picker) (f : ent_field) val c (i : Z) (g : ent_field) h t : list Z :=
  if bool_decide (g = f) && picked l pick c i then val (eget i g h t) else eget i g h t.

Record edited l (pick : picker) (f : ent_field) val c c' : Prop := {
  ed_pri : forall i g, ent_in i c.1.1 c.1.2 -> ent_in i c.2.1 c.2.2 ->
    eget i g c'.1.1 c'.1.2 = field_of l pick f val c i g c.1.1 c.1.2;
  ed_sec : forall i g, ent_in i c.1.1 c.1.2 -> ent_in i c.2.1 c.2.2 ->
    eget i g c'.2.1 c'.2.2 = field_of l pick f val c i g c.2.1 c.2.2;
  ed_hdr : forall g, g <> hdr_crc_table -> g <> hdr_crc_self ->
    hget g c'.1.1 = hget g c.1.1 /\ hget g c'.2.1 = hget g c.2.1;
}.

Definition step (pick : picker) f val (v : seg) (bc : bool * contents) : bool * contents :=
  if pick v (eget (sg_index v - 1) ent_type bc.2.1.1 bc.2.1.2)
  then (true, edit (sg_index v - 1) f val bc.2) else bc.
End spec.

(** ** The fold over the map *)
Section fold.
Context {gpt : SysGpt} {laws : SysGptLaws}.
Implicit Types (c : contents) (l : segs) (h t d : list Z).

(** Two halves in buffers of sufficient size. *)
Definition halves_ok c : Prop := half_ok c.1.1 c.1.2 /\ half_ok c.2.1 c.2.2.

Lemma fset_ok i f val h t : half_ok h t -> ent_in i h t -> val_ok f val ->
  half_ok h (fset i f val h t) /\ length (fset i f val h t) = length t.
Proof.
  intros Hok Hi Hv. pose proof Hok as [].
  destruct (Hv (eget i f h t)) as [V1 V2].
  - by apply bytes_ok_sub.
  - apply length_sub. by apply ent_room.
  - by apply eset_half_ok.
Qed.

Lemma length_eget i f h t : half_ok h t -> ent_in i h t -> length (eget i f h t) = width_ent f.
Proof. intros [] Hi. apply length_sub. by apply ent_room. Qed.

Lemma edit_half_ok i f val h t : half_ok h t -> ent_in i h t -> val_ok f val ->
  half_ok (seal h (fset i f val h t)) (fset i f val h t).
Proof. intros H Hi Hv. by apply seal_half_ok, fset_ok. Qed.

Lemma edit_ent_in i j f val h t : half_ok h t -> ent_in i h t -> val_ok f val ->
  ent_in j (seal h (fset i f val h t)) (fset i f val h t) <-> ent_in j h t.
Proof.
  intros H Hi Hv. apply ent_in_seal; [by destruct H|]. by apply fset_ok.
Qed.

Lemma edit_eget i j f g val h t : half_ok h t -> ent_in i h t -> ent_in j h t -> val_ok f val ->
  Z.of_nat sizeof_gpt_ent <= hget hdr_entsz h ->
  eget j g (seal h (fset i f val h t)) (fset i f val h t) =
  if bool_decide (g = f) && (j =? i) then val (eget i f h t) else eget j g h t.
Proof.
  intros Hok Hi Hj Hv Hsz. pose proof Hok as []. rewrite eget_seal by done. unfold fset.
  destruct (Hv (eget i f h t)) as [V1 V2]; [by apply bytes_ok_sub|by apply length_eget|].
  case_bool_decide as Hg; simpl; [subst g; destruct (Z.eqb_spec j i) as [->|Hne]|].
  - by apply eget_eset.
  - apply eget_eset_ne; try done. congruence.
  - apply eget_eset_ne; try done. congruence.
Qed.

Lemma edit_halves i f val c : halves_ok c -> both_in i c -> val_ok f val ->
  halves_ok (edit i f val c) /\ (forall j, both_in j (edit i f val c) <-> both_in j c).
Proof.
  intros [H1 H2] [I1 I2] Hv. unfold edit, edit_with, halves_ok, both_in. cbn [fst snd]. split.
  - by split; apply edit_half_ok.
  - intros j. by rewrite !edit_ent_in.
Qed.

Lemma edit_hget i f val c g : halves_ok c -> g <> hdr_crc_table -> g <> hdr_crc_self ->
  hget g (edit i f val c).1.1 = hget g c.1.1 /\ hget g (edit i f val c).2.1 = hget g c.2.1.
Proof. intros [[] []] H1 H2. unfold edit, edit_with. cbn [fst snd]. by rewrite !seal_get. Qed.

Lemma parts_ok_edit i f val l c : halves_ok c -> both_in i c -> val_ok f val ->
  parts_ok l c -> parts_ok l (edit i f val c).
Proof.
  intros Hc Hi Hv [P1 P2 P3 P4].
  destruct (edit_hget i f val c hdr_entsz Hc ltac:(done) ltac:(done)) as [E1 E2].
  destruct (edit_halves i f val c Hc Hi Hv) as [_ Hj].
  split; [|done|by rewrite E1|by rewrite E2].
  intros n v Hin Hp. rewrite Hj. by apply (P1 n v).
Qed.

(** [pick] only selects regions that stand for entries. *)
Definition picks_parts (pick : picker) : Prop := forall v d, pick v d = true -> is_part v = true.

Lemma picked_cons n v l pick c i : picked ((n, v) :: l) pick c i =
  ((sg_index v =? i + 1) && pick v (eget i ent_type c.1.1 c.1.2)) || picked l pick c i.
Proof. done. Qed.

(** No other region stands for the entry of the first. *)
Lemma picked_tail n v l pick c : picks_parts pick -> is_part v = true ->
  NoDup (sg_index <$> filter (fun v => is_part v = true) ((n, v) :: l).*2) ->
  picked l pick c (sg_index v - 1) = false.
Proof.
  intros Hp Hv Hn. rewrite fmap_cons, filter_cons_True in Hn by done. cbn [fmap list_fmap] in Hn.
  apply NoDup_cons in Hn as [Hn _]. apply not_true_is_false. intros H. apply Hn.
  apply existsb_exists in H as ([m w] & Hin & [Hi Hw]%andb_prop). zbool. cbn [snd] in *.
  apply list_elem_of_fmap. exists w. split; [lia|].
  apply list_elem_of_filter. split; [by eapply Hp|].
  apply list_elem_of_fmap. exists (m, w). split; [done|]. by apply list_elem_of_In.
Qed.

Lemma parts_ok_cons nv l c : parts_ok (nv :: l) c -> parts_ok l c.
Proof.
  intros [P1 P2 P3 P4]. split; [|..|done|done].
  - intros n v Hin. apply (P1 n). by right.
  - rewrite fmap_cons, filter_cons in P2. case_decide; [|done].
    rewrite fmap_cons, NoDup_cons in P2. by destruct P2.
Qed.

(** The first region selected: the rest of the map from what its edit leaves. *)
Lemma edited_cons n v pick f val l c c' : picks_parts pick -> val_ok f val ->
  halves_ok c -> parts_ok ((n, v) :: l) c ->
  pick v (eget (sg_index v - 1) ent_type c.1.1 c.1.2) = true ->
  edited l pick f val (edit (sg_index v - 1) f val c) c' ->
  edited ((n, v) :: l) pick f val c c'.
Proof.
  intros Hpp Hv Hc Hparts Hpick [E1 E2 E3]. pose proof (Hpp _ _ Hpick) as Hpart.
  destruct (po_in _ _ Hparts n v ltac:(by left) Hpart) as [_ Hi].
  set (i := sg_index v - 1) in *.
  destruct (edit_halves i f val c Hc Hi Hv) as [Hc' Hj].
  assert (forall j g, both_in j c -> eget j g (edit i f val c).1.1 (edit i f val c).1.2 =
    if bool_decide (g = f) && (j =? i) then val (eget i f c.1.1 c.1.2)
    else eget j g c.1.1 c.1.2) as G1.
  { intros j g [J1 J2]. apply edit_eget; try done; [apply Hc|apply Hi|apply Hparts]. }
  assert (forall j g, both_in j c -> eget j g (edit i f val c).2.1 (edit i f val c).2.2 =
    if bool_decide (g = f) && (j =? i) then val (eget i f c.2.1 c.2.2)
    else eget j g c.2.1 c.2.2) as G2.
  { intros j g [J1 J2]. apply edit_eget; try done; [apply Hc|apply Hi|apply Hparts]. }
  assert (forall j, both_in j c -> picked l pick (edit i f val c) j =
    negb (j =? i) && picked l pick c j) as Gp.
  { intros j J. unfold picked at 1. rewrite (G1 j ent_type J).
    destruct (Z.eqb_spec j i) as [->|Hne]; cbn [negb andb].
    - pose proof (picked_tail n v l pick (edit i f val c) Hpp Hpart (po_nodup _ _ Hparts)) as F.
      unfold picked in F. fold i in F. rewrite (G1 i ent_type J), Z.eqb_refl in F. exact F.
    - by rewrite andb_false_r. }
  assert (forall j, picked ((n, v) :: l) pick c j =
    (j =? i) || picked l pick c j) as Gq.
  { intros j. rewrite picked_cons. unfold i. destruct (Z.eqb_spec j (sg_index v - 1)) as [->|Hne].
    - replace (sg_index v =? sg_index v - 1 + 1) with true by (symmetry; apply Z.eqb_eq; lia).
      unfold i in Hpick. by rewrite Hpick.
    - by replace (sg_index v =? j + 1) with false by (symmetry; apply Z.eqb_neq; lia). }
  split.
  - intros j g J1 J2. rewrite E1 by (by apply Hj). unfold field_of.
    rewrite Gp, Gq, G1 by done. case_bool_decide as Hg; cbn [andb]; [subst g|done].
    destruct (Z.eqb_spec j i) as [->|]; [done|]. by cbn [negb andb orb].
  - intros j g J1 J2. rewrite E2 by (by apply Hj). unfold field_of.
    rewrite Gp, Gq, G2 by done. case_bool_decide as Hg; cbn [andb]; [subst g|done].
    destruct (Z.eqb_spec j i) as [->|]; [done|]. by cbn [negb andb orb].
  - intros g Hg1 Hg2. destruct (E3 g Hg1 Hg2) as [-> ->]. by apply edit_hget.
Qed.

(** The entries after the fold over the map. *)
Lemma fold_edited pick f val l : picks_parts pick -> val_ok f val -> forall b c,
  halves_ok c -> parts_ok l c ->
  let bc := fold_left (fun bc nv => step pick f val nv.2 bc) l (b, c) in
  edited l pick f val c bc.2 /\ (bc.1 = false -> bc.2 = c) /\ bc.1 = b || some_picked l pick c.
Proof.
  intros Hpp Hv. induction l as [|[n v] l IH]; intros b c Hc Hparts; cbn [fold_left].
  { split_and!; [|done|by rewrite orb_false_r]. split; try done; intros i g _ _;
      unfold field_of; by rewrite andb_false_r. }
  unfold step at 2 4 6 8. cbn [fst snd].
  destruct (pick v (eget (sg_index v - 1) ent_type c.1.1 c.1.2)) eqn:Hpick.
  - destruct (po_in _ _ Hparts n v ltac:(by left) (Hpp _ _ Hpick)) as [_ Hi].
    destruct (IH true (edit (sg_index v - 1) f val c)) as (I1 & I2 & I3).
    { by apply edit_halves. }
    { apply parts_ok_edit; try done. by eapply parts_ok_cons. }
    cbn [orb] in I3. split_and!.
    + by apply edited_cons.
    + rewrite I3. done.
    + rewrite I3. unfold some_picked. simpl. by rewrite Hpick, orb_true_r.
  - destruct (IH b c Hc ltac:(by eapply parts_ok_cons)) as ([I1 I1' I1''] & I2 & I3).
    assert (forall j, picked ((n, v) :: l) pick c j = picked l pick c j) as Hq.
    { intros j. rewrite picked_cons. destruct (Z.eqb_spec (sg_index v) (j + 1)) as [E|]; [|done].
      replace j with (sg_index v - 1) by lia. by rewrite Hpick. }
    split_and!.
    + split; [..|done]; intros j g J1 J2; unfold field_of; rewrite Hq; [by apply I1|by apply I1'].
    + done.
    + rewrite I3. unfold some_picked. simpl. by rewrite Hpick.
Qed.
End fold.

(** ** From the code to the fold *)
Section refine.
Context {os : Os} {gpt : SysGpt} {laws : SysGptLaws} {uu : Uuid}.
Implicit Types (s : store) (c : contents) (l : segs) (h t d : list Z) (x y : half).

(** [act], at entry [i] of a table, changes the table by [F] when the map objects are [M]. *)
Definition acts_with (M : gmap loc map_node) (i : Z) (F : list Z -> list Z -> list Z) (act : ptr -> St store unit) : Prop :=
  forall b h t s (Q : unit -> store -> Prop),
    s_maps s = M -> half_ok h t -> ent_in i h t -> s_bufs s !! b = Some t ->
    Q tt (on_bufs <[b := F h t]> s) ->
    wp (act (PBuf b (i * hget hdr_entsz h))) s Q.

(** [F] keeps tables whose entry [i] exists well formed. *)
Definition table_op (i : Z) (F : list Z -> list Z -> list Z) : Prop := forall h t,
  half_ok h t -> ent_in i h t -> half_ok h (F h t) /\ length (F h t) = length t.

(** [act] changes field [f] of an entry by [val]. *)
Definition acts (f : ent_field) (val : list Z -> list Z) (act : ptr -> St store unit) : Prop :=
  forall M i, acts_with M i (fset i f val) act.

Lemma rep_halves s l total x y c : gpt_rep s l total x y c -> halves_ok c.
Proof. intros [_ [] [] _ _ _]. by split. Qed.

Lemma edits_pre_bufs x y f s s' : edits x y (on_bufs f s) s' -> edits x y s s'.
Proof. intros H. eapply edits_trans; [|exact H]. apply edits_bufs. Qed.

Lemma wp_edit_with s l total x y c i F act (Q : unit -> store -> Prop) :
  acts_with (s_maps s) i F act -> table_op i F -> gpt_rep s l total x y c -> linked s x y -> both_in i c ->
  (forall s', gpt_rep s' l total x y (edit_with F c) -> linked s' x y -> edits x y s s' ->
    (writable s -> synced s' x y (edit_with F c)) -> Q tt s') ->
  wp (edit_both act (PBuf (hf_hb x) 0) (PBuf (hf_tb x) (i * hget hdr_entsz c.1.1)) i) s Q.
Proof.
  destruct c as [[h t] [h' t']]. intros Hact Hval Hrep Hlink [I1 I2] HQ. cbn [fst snd] in *.
  unfold edit_both. pose proof (gr_pri _ _ _ _ _ _ Hrep) as Hx. pose proof Hx as [].
  cbn [fst snd] in *. destruct (Hval h t) as [O1 O2]; [done..|].
  apply wp_bind. apply (Hact _ h t); [done..|].
  pose proof (gpt_rep_pri_tbl _ _ _ _ _ _ _ _ _ Hrep O1 O2) as Hrep1.
  apply wp_bind. eapply wp_commit_pri; [exact Hrep1|exact Hlink|].
  intros s2 Hrep2 [C1 C2 C3 C4].
  assert (edits x y s s2) as Ed2 by (by do 2 eapply edits_pre_bufs).
  pose proof (edits_linked _ _ _ _ Ed2 Hlink) as Hlink2. pose proof Hlink2 as (_ & _ & K3 & K4).
  pose proof (gr_sec _ _ _ _ _ _ Hrep2) as Hy. cbn [fst snd] in Hy.
  apply wp_bind. eapply wp_ent_at; [apply Hrep2|exact Hy|done..|].
  pose proof Hy as []. destruct (Hval h' t') as [P1 P2]; [done..|].
  apply wp_bind. apply (Hact _ h' t'); [apply Ed2|done..|].
  pose proof (gpt_rep_sec_tbl _ _ _ _ _ _ _ _ _ Hrep2 P1 P2) as Hrep3.
  eapply wp_commit_sec; [exact Hrep3|exact Hlink2|].
  intros s4 Hrep4 [D1 D2 D3 D4].
  assert (edits x y s2 s4) as Ed4 by (by do 2 eapply edits_pre_bufs).
  apply HQ; [exact Hrep4|by eapply edits_linked|by eapply edits_trans|].
  intros Hw. destruct (half_in _ _ _ _ _ _ _ Hx) as [[N1 T1] [N2 T2]].
  destruct (half_in _ _ _ _ _ _ _ Hy) as [[N3 T3] [N4 T4]].
  pose proof (gr_pri _ _ _ _ _ _ Hrep2) as [].
  destruct (C3 Hw) as [E1 E2]. destruct (D3 ltac:(exact (edits_writable _ _ _ _ Ed2 Hw))) as [E3 E4].
  split_and!; [| |done|done]; cbn [fst snd].
  - apply D4; [done|by rewrite T1, T4|by rewrite T1, T3|done|done].
  - apply D4; [done|by rewrite T2, T4|by rewrite T2, T3|done|done].
Qed.

Lemma wp_edit_both s l total x y c i f val act (Q : unit -> store -> Prop) :
  acts f val act -> val_ok f val -> gpt_rep s l total x y c -> linked s x y -> both_in i c ->
  (forall s', gpt_rep s' l total x y (edit i f val c) -> linked s' x y -> edits x y s s' ->
    (writable s -> synced s' x y (edit i f val c)) -> Q tt s') ->
  wp (edit_both act (PBuf (hf_hb x) 0) (PBuf (hf_tb x) (i * hget hdr_entsz c.1.1)) i) s Q.
Proof.
  intros Hact Hval. apply wp_edit_with; [apply Hact|]. intros h t Hok Hi. by apply fset_ok.
Qed.

(** *** A command: the loop over the map *)

(** [struct gd] after [gpt_gethdr]. *)
Definition link x y s : store :=
  on_gd (fun g => set_gd_lbt (Some (hf_tbl y).1) (set_gd_tbl (Some (hf_tbl x).1)
    (set_gd_tpg (Some (hf_hdr y).1) (set_gd_gpt (Some (hf_hdr x).1) g)))) s.

(** What a command leaves of the state: the map is as it was, the buffers hold [c'], only
    the GPT's regions of the device and the flags may have changed; if an entry was
    selected, both copies are sealed and, unless a write failed, on the device; if none
    was, nothing was written. *)
Record outcome s l total x y (any : bool) c c' s' : Prop := {
  oc_rep : gpt_rep s' l total x y c';
  oc_edits : edits x y (link x y s) s';
  oc_some : any = true -> sealed c'.1.1 c'.1.2 /\ sealed c'.2.1 c'.2.2 /\
    (writable s -> synced s' x y c');
  oc_none : any = false -> c' = c /\ s_disk s' = s_disk s /\ s_bufs s' = s_bufs s;
}.

(** The state between two regions of the map. *)
Record looping s0 l total x y c0 (bc : bool * contents) s : Prop := {
  lp_out : outcome s0 l total x y bc.1 c0 bc.2 s;
  lp_link : linked s x y;
  lp_parts : parts_ok l bc.2;
}.

(** The body of a command's loop, on a region that is selected or not. *)
Definition body_spec (pick : picker) f val (body : loc -> St store unit) : Prop :=
  forall s l total x y c n v (Q : unit -> store -> Prop),
    gpt_rep s l total x y c -> linked s x y -> parts_ok l c -> (n, v) ∈ l ->
    (pick v (eget (sg_index v - 1) ent_type c.1.1 c.1.2) = true ->
     forall s', gpt_rep s' l total x y (edit (sg_index v - 1) f val c) -> linked s' x y ->
       edits x y s s' -> (writable s -> synced s' x y (edit (sg_index v - 1) f val c)) ->
       Q tt s') ->
    (pick v (eget (sg_index v - 1) ent_type c.1.1 c.1.2) = false -> Q tt s) ->
    wp (body n) s Q.

Lemma edit_sealed i f val c : halves_ok c -> both_in i c -> val_ok f val ->
  sealed (edit i f val c).1.1 (edit i f val c).1.2 /\
  sealed (edit i f val c).2.1 (edit i f val c).2.2.
Proof. intros [] [] Hv. split; apply seal_sealed; by apply fset_ok. Qed.

Lemma wp_command pick f val body s l total x y c (Q : unit -> store -> Prop) :
  picks_parts pick -> val_ok f val -> body_spec pick f val body ->
  gpt_rep s l total x y c -> parts_ok l c ->
  (forall s' c', edited l pick f val c c' ->
    outcome s l total x y (some_picked l pick c) c c' s' -> Q tt s') ->
  wp (hdr ← gpt_gethdr; if decide (hdr = PNull) then mret tt else each_map body) s Q.
Proof.
  intros Hpp Hval Hbody Hrep Hparts HQ. apply wp_bind.
  eapply wp_gpt_gethdr; [done|]. intros s1 Hrep1 Hlink E1. rewrite decide_False by done.
  eapply (wp_each_map (looping s l total x y c) (step pick f val) body l (false, c)).
  - intros bc s2 H. apply (lp_out _ _ _ _ _ _ _ _ H).
  - intros n v [b c2] s2 Hin [[O1 O2 O3 O4] Hl Hp]. cbn [fst snd] in *.
    eapply (Hbody s2 l total x y c2 n v); [done..| |].
    + intros Hpick s3 Hrep3 Hlink3 Hed Hsync.
      pose proof (rep_halves _ _ _ _ _ _ O1) as Hh.
      destruct (po_in _ _ Hp n v Hin (Hpp _ _ Hpick)) as [_ Hi].
      unfold step. cbn [fst snd]. rewrite Hpick. split; cbn [fst snd].
      * split; [done|by eapply edits_trans| |done]. intros _.
        destruct (edit_sealed _ f val c2 Hh Hi Hval). split_and!; [done..|].
        intros Hw. apply Hsync. eapply edits_writable; [exact O2|]. exact Hw.
      * done.
      * by apply parts_ok_edit.
    + intros Hpick. unfold step. cbn [fst snd]. rewrite Hpick. by split.
  - split; cbn [fst snd]; [|done|done]. split; try done.
    + subst s1. apply edits_refl.
    + by subst s1.
  - intros s2 Hlp.
    destruct (fold_edited pick f val l Hpp Hval false c (rep_halves _ _ _ _ _ _ Hrep) Hparts)
      as (F1 & F2 & F3).
    destruct (fold_left _ l (false, c)) as [b c']. cbn [fst snd orb] in *. subst b.
    apply (HQ s2 c'); [done|]. apply (lp_out _ _ _ _ _ _ _ _ Hlp).
Qed.
End refine.
