(* ===== verification/GptExample.v ===== *)
(** * GptExample: a small device with a GPT

    The layout of the structures and a UUID library made concrete, and an open device of
    nine sectors of 128 bytes: the instance on which the theorems about fgdisk are shown
    to apply. *)
From Stdlib Require Import ZArith Lia String.
From stdpp Require Import base list option gmap strings.
From S2P Require Import Prelude Dll Gd MediaMap GptIo GptRep GptSpec.
Open Scope Z_scope.

(** The layout that the UEFI specification gives to the structures. *)
Definition ex_off_hdr (f : hdr_field) : nat :=
  match f with
  | hdr_sig => 0 | hdr_revision => 8 | hdr_size => 12 | hdr_crc_self => 16
  | hdr_lba_self => 24 | hdr_lba_alt => 32 | hdr_lba_start => 40 | hdr_lba_end => 48
  | hdr_uuid => 56 | hdr_lba_table => 72 | hdr_entries => 80 | hdr_entsz => 84
  | hdr_crc_table => 88
  end.

Definition ex_off_ent (f : ent_field) : nat :=
  match f with
  | ent_type => 0 | ent_uuid => 16 | ent_lba_start => 32 | ent_lba_end => 40
  | ent_attr => 48 | ent_name => 56
  end.

Definition ex_kind (k : ent_kind) : list Z :=
  match k with
  | FREEBSD_BOOT => replicate 16 1 | DRAGONFLY_LABEL32 => replicate 16 2
  | DRAGONFLY_LABEL64 => replicate 16 3 | EFI => replicate 16 4
  | FREEBSD_UFS => replicate 16 5 | FREEBSD_SWAP => replicate 16 6
  | DRAGONFLY_HAMMER => replicate 16 7 | DRAGONFLY_HAMMER2 => replicate 16 8
  | APPLE_HFS => replicate 16 9 | LINUX_DATA => replicate 16 10
  | DRAGONFLY_SWAP => replicate 16 11 | DRAGONFLY_UFS1 => replicate 16 12
  | MS_BASIC_DATA => replicate 16 13
  end.

#[export] Instance ex_gpt : SysGpt := {|
  off_hdr := ex_off_hdr;
  off_ent := ex_off_ent;
  sizeof_gpt_ent := 128;
  nelem_ent_name := 36;
  GPT_HDR_SIG := cstr "EFI PART";
  GPT_HDR_REVISION := 0x10000;
  GPT_MIN_HDR_SIZE := 92;
  GPT_ENT_TYPE := ex_kind;
|}.

#[export] Instance ex_laws : SysGptLaws.
Proof.
  split.
  - intros [] [] H; simpl; lia || done.
  - intros []; simpl; lia.
  - intros [] [] H; simpl; lia || done.
  - intros []; simpl; lia.
  - intros []; (split; [by repeat constructor|done]).
  - simpl. lia.
  - split; [|done]. repeat constructor; simpl; lia.
Qed.

#[export] Instance ex_uuid : Uuid := {|
  uuid_dec_le := fun d => d;
  uuid_enc_le := fun u => u;
  uuid_from_string := fun _ => None;
  uuid_name_lookup := fun _ => None;
|}.

#[export] Instance ex_uuid_laws : UuidLaws.
Proof. by split. Qed.

#[export] Instance ex_dev : Os := {|
  os_alloc := fun _ => true;
  os_read := fun _ _ => true;
  os_write := fun _ _ => true;
|}.

(** A header of 92 bytes for two entries of 128 bytes, and a table with one entry. *)
Definition ex_hdr : list Z :=
  hset hdr_size 92 (hset hdr_entries 2 (hset hdr_entsz 128 (replicate 128 0))).
Definition ex_tbl : list Z := ex_kind DRAGONFLY_UFS1 ++ replicate 240 0.

Definition ex_hdr_seg (start type : Z) (b : loc) : seg := Seg start 1 type 0 (PBuf b 0) 1.
Definition ex_tbl_seg (start type : Z) (b : loc) : seg := Seg start 2 type 0 (PBuf b 0) 1.

(** Sector 0, the primary header and table, a partition of one sector, an unused one, the
    secondary table and header. *)
Definition ex_gpt_list : segs :=
  [(0%nat, Seg 0 1 MAP_TYPE_UNUSED 0 PNull 0);
   (1%nat, ex_hdr_seg 1 MAP_TYPE_PRI_GPT_HDR 10);
   (2%nat, ex_tbl_seg 2 MAP_TYPE_PRI_GPT_TBL 11);
   (3%nat, Seg 4 1 MAP_TYPE_GPT_PART 1 (PBuf 11 0) 0);
   (6%nat, Seg 5 1 MAP_TYPE_UNUSED 0 PNull 0);
   (4%nat, ex_tbl_seg 6 MAP_TYPE_SEC_GPT_TBL 13);
   (5%nat, ex_hdr_seg 8 MAP_TYPE_SEC_GPT_HDR 12)].

Definition ex_node (v : seg) (prev next : option loc) : map_node :=
  MapNode (sg_start v) (sg_size v) next prev (sg_type v) (sg_index v) (sg_data v) (sg_alloc v).

Definition ex_gpt_store : store :=
  Store
    (<[0%nat := ex_node (Seg 0 1 MAP_TYPE_UNUSED 0 PNull 0) None (Some 1%nat)]>
    (<[1%nat := ex_node (ex_hdr_seg 1 MAP_TYPE_PRI_GPT_HDR 10) (Some 0%nat) (Some 2%nat)]>
    (<[2%nat := ex_node (ex_tbl_seg 2 MAP_TYPE_PRI_GPT_TBL 11) (Some 1%nat) (Some 3%nat)]>
    (<[3%nat := ex_node (Seg 4 1 MAP_TYPE_GPT_PART 1 (PBuf 11 0) 0) (Some 2%nat) (Some 6%nat)]>
    (<[6%nat := ex_node (Seg 5 1 MAP_TYPE_UNUSED 0 PNull 0) (Some 3%nat) (Some 4%nat)]>
    (<[4%nat := ex_node (ex_tbl_seg 6 MAP_TYPE_SEC_GPT_TBL 13) (Some 6%nat) (Some 5%nat)]>
    (<[5%nat := ex_node (ex_hdr_seg 8 MAP_TYPE_SEC_GPT_HDR 12) (Some 4%nat) None]> ∅)))))))
    (<[10%nat := ex_hdr]> (<[11%nat := ex_tbl]> (<[12%nat := ex_hdr]> (<[13%nat := ex_tbl]> ∅))))
    14 (Gd 0 0 5 (Some 0%nat) None None None None 128 1152) (replicate (Z.to_nat 1152) 0).

Definition ex_pri : half :=
  Half (1%nat, ex_hdr_seg 1 MAP_TYPE_PRI_GPT_HDR 10) (2%nat, ex_tbl_seg 2 MAP_TYPE_PRI_GPT_TBL 11) 10 11.
Definition ex_sec : half :=
  Half (5%nat, ex_hdr_seg 8 MAP_TYPE_SEC_GPT_HDR 12) (4%nat, ex_tbl_seg 6 MAP_TYPE_SEC_GPT_TBL 13) 12 13.
Definition ex_contents : contents := (ex_hdr, ex_tbl, (ex_hdr, ex_tbl)).

Lemma ex_half_ok : half_ok ex_hdr ex_tbl.
Proof.
  split.
  - repeat apply bytes_ok_hset. by apply Forall_replicate.
  - apply Forall_app. split; by apply Forall_replicate.
  - vm_compute. lia.
  - vm_compute. discriminate.
  - vm_compute. discriminate.
Qed.

Lemma ex_gpt_map : map_ok ex_gpt_store ex_gpt_list 9.
Proof.
  split; [split|split; [vm_compute; intuition congruence|lia]].
  - repeat (split; [eexists; (split; [reflexivity|done])|]). done.
  - done.
  - apply (bool_decide_unpack _). by vm_compute.
  - simpl. intros x Hx. rewrite !lookup_insert_ne by lia. apply lookup_empty.
Qed.

Lemma ex_gpt_rep : gpt_rep ex_gpt_store ex_gpt_list 9 ex_pri ex_sec ex_contents.
Proof.
  split.
  - exact ex_gpt_map.
  - split; try done; apply ex_half_ok.
  - split; try done; apply ex_half_ok.
  - apply (bool_decide_unpack _). by vm_compute.
  - done.
  - change (length (s_disk ex_gpt_store)) with (length (replicate (Z.to_nat 1152) 0)).
    rewrite length_replicate. simpl. lia.
Qed.

Lemma ex_parts_ok : parts_ok ex_gpt_list ex_contents.
Proof.
  split; [|apply (bool_decide_unpack _); by vm_compute|vm_compute; discriminate..].
  intros n v Hin Hp. unfold ex_gpt_list in Hin. rewrite !elem_of_cons in Hin.
  destruct Hin as [E|[E|[E|[E|[E|[E|[E|[]%not_elem_of_nil]]]]]]]; injection E as -> ->; try done.
Qed.
