(* ===== verification/GptOpen.v ===== *)
(** * GptOpen: opening a device (sbin/fgdisk/gpt.c)

    [gpt_mbr] and [gpt_gpt] read the MBR and the two copies of the GPT of a device and
    enter what they describe into the media map; [gpt_open] puts them together.  The
    types of MBR partitions come from <sys/diskmbr.h>, which is not in the repository,
    and are the parameter [DiskMbr]; opening the file and asking for its geometry is the
    argument [dev] of [gpt_open]. *)
From Stdlib Require Import ZArith Lia.
From stdpp Require Import base list option gmap.
From S2P Require Import Prelude Dll Gd MediaMap MapProps Crc32 CMem Stand GptIo GptRep GptSpec.
Open Scope Z_scope.

Class DiskMbr := {
  DOSPTYP_PMBR : Z;
  DOSPTYP_EXTLBA : Z;
}.

Definition DOSPTYP_UNUSED : Z := 0.
Definition MBR_SIG : Z := 0xAA55.

(** [struct mbr] of gpt.h: 223 words of code, four [struct mbr_part] of 16 bytes, the
    signature. *)
Definition off_part (i : nat) : nat := 446 + 16 * i.
Definition off_sig : nat := 510.
Definition off_part_typ : nat := 4.
Definition off_part_start_lo : nat := 8.
Definition off_part_start_hi : nat := 10.
Definition off_part_size_lo : nat := 12.
Definition off_part_size_hi : nat := 14.

(** What the system says of the file opened: whether it is a regular file, its size, and
    for a device the sector size and the size of the medium. *)
Record dev_info := DevInfo {
  di_reg : bool;
  di_st_size : Z;
  di_media_blksize : Z;
  di_media_size : Z;
}.

Section code.
Context {os : Os} {gpt : SysGpt} {uu : Uuid} {dm : DiskMbr}.

(** [le16toh(mbr->mbr_part[i].f)] for the field at [o], and [part_typ]. *)
Definition part_u16 (mbr : ptr) (i o : nat) : St store Z :=
  d ← mem_get mbr (off_part i + o) 2; mret (le_dec d).
Definition part_typ (mbr : ptr) (i : nat) : St store Z :=
  d ← mem_get mbr (off_part i + off_part_typ) 1; mret (le_dec d).

(** The loop that counts the PMBR partitions: [pmbr] and [i] where it stops. *)
Fixpoint pmbr_loop (n : nat) (mbr : ptr) (i : nat) (pmbr : Z) : St store (Z * nat) :=
  match n with
  | O => mret (pmbr, i)
  | S n =>
    typ ← part_typ mbr i;
    if typ =? DOSPTYP_UNUSED then pmbr_loop n mbr (S i) pmbr
    else if typ =? DOSPTYP_PMBR then pmbr_loop n mbr (S i) (pmbr + 1)
    else mret (pmbr, i)
  end.

(** The loop over the partitions, with [n] left; [rec] reads a nested MBR. *)
Fixpoint mbr_parts (rec : Z -> St store Z) (n : nat) (mbr : ptr) (p : loc) (lba : Z)
    (i : nat) : St store Z :=
  match n with
  | O => mret 0
  | S n =>
    typ ← part_typ mbr i;
    flags ← gets (fun s => gd_flags (s_gd s));
    if (typ =? DOSPTYP_UNUSED) || (typ =? DOSPTYP_PMBR) ||
       negb (Z.land flags GPT_NOMBR =? 0)
    then mbr_parts rec n mbr p lba (S i)
    else
      hi ← part_u16 mbr i off_part_start_hi;
      lo ← part_u16 mbr i off_part_start_lo;
      let start := Z.shiftl hi 16 + lo in
      hi ← part_u16 mbr i off_part_size_hi;
      lo ← part_u16 mbr i off_part_size_lo;
      let size := Z.shiftl hi 16 + lo in
      if (start =? 0) && (size =? 0) then mbr_parts rec n mbr p lba (S i)
      else
        let start := s64 (start + lba) in
        if negb (typ =? DOSPTYP_EXTLBA) then
          m ← map_add start size MAP_TYPE_MBR_PART (PMap p) 0;
          match m with
          | None => mret (-1)
          | Some m =>
            update m (set_map_index (Z.of_nat i + 1));;
            mbr_parts rec n mbr p lba (S i)
          end
        else
          r ← rec start;
          if r =? -1 then mret (-1) else mbr_parts rec n mbr p lba (S i)
  end.

(** [fuel] bounds the nesting of MBRs. *)
Fixpoint gpt_mbr (fuel : nat) (lba : Z) : St store Z :=
  match fuel with
  | O => ub
  | S fuel =>
    mbr ← gpt_read lba 1;
    if decide (mbr = PNull) then mret (-1)
    else
      sig ← mem_get mbr off_sig 2;
      if negb (le_dec sig =? MBR_SIG) then free_ptr mbr;; mret 0
      else
        '(pmbr, i) ← pmbr_loop 4 mbr 0 0;
        if negb (pmbr =? 0) && (i =? 4)%nat && (lba =? 0) then
          p ← map_add lba 1 MAP_TYPE_PMBR mbr 1;
          match p with
          | None => free_ptr mbr;; mret (-1)
          | Some _ => mret 0
          end
        else
          p ← map_add lba 1 MAP_TYPE_MBR mbr 1;
          match p with
          | None => free_ptr mbr;; mret (-1)
          | Some p => mbr_parts (gpt_mbr fuel) 4 mbr p lba 0
          end
  end.

(** The loop over the entries of the table at [p], from [i], with [n] left. *)
Fixpoint gpt_ents (n : nat) (p : ptr) (entsz i : Z) : St store Z :=
  match n with
  | O => mret 1
  | S n =>
    let ent := ptr_add p (u32 (i * entsz)) in
    type ← ent_get ent ent_type;
    if uuid_nilb type then gpt_ents n p entsz (i + 1)
    else
      hi ← ent_get ent ent_lba_end;
      lo ← ent_get ent ent_lba_start;
      let size := s64 (u64 (le_dec hi - le_dec lo + 1)) in
      m ← map_add (s64 (le_dec lo)) size MAP_TYPE_GPT_PART ent 0;
      match m with
      | None => mret (-1)
      | Some m =>
        update m (set_map_index (i + 1));;
        gpt_ents n p entsz (i + 1)
      end
  end.

(** [fail_hdr] *)
Definition fail_hdr (hdr : ptr) : St store Z := free_ptr hdr;; mret 0.

Definition gpt_gpt (lba found : Z) : St store Z :=
  hdr ← gpt_read lba 1;
  if decide (hdr = PNull) then mret (-1)
  else
    sig ← mem_get hdr (off_hdr hdr_sig) (width_hdr hdr_sig);
    if negb (bool_decide (sig = GPT_HDR_SIG)) then fail_hdr hdr
    else
      crc ← hdr_get hdr hdr_crc_self;
      hdr_put hdr hdr_crc_self 0;;
      hsz ← hdr_get hdr hdr_size;
      c ← crc32_at hdr hsz;
      if negb (c =? crc) then fail_hdr hdr
      else
        n ← hdr_get hdr hdr_entries;
        esz ← hdr_get hdr hdr_entsz;
        g ← gets s_gd;
        let tblsz := u32 (n * esz) in
        let blocks := tblsz / gd_secsz g + (if negb (tblsz mod gd_secsz g =? 0) then 1 else 0) in
        lt ← hdr_get hdr hdr_lba_table;
        p ← gpt_read (s64 lt) blocks;
        if decide (p = PNull) then
          if negb (found =? 0) then mret (-1) else fail_hdr hdr
        else
          c ← crc32_at p tblsz;
          ct ← hdr_get hdr hdr_crc_table;
          if negb (c =? ct) then free_ptr p;; fail_hdr hdr
          else
            m ← map_add lba 1
                  (if lba =? 1 then MAP_TYPE_PRI_GPT_HDR else MAP_TYPE_SEC_GPT_HDR) hdr 1;
            match m with
            | None => mret (-1)
            | Some _ =>
              m ← map_add (s64 lt) blocks
                    (if lba =? 1 then MAP_TYPE_PRI_GPT_TBL else MAP_TYPE_SEC_GPT_TBL) p 1;
              match m with
              | None => mret (-1)
              | Some _ =>
                if negb (lba =? 1) then mret 1
                else gpt_ents (Z.to_nat n) p esz 0
              end
            end.

(** The geometry: [gd->secsz] and [gd->mediasz], or the failures before [devsz]. *)
Definition gpt_geometry (dev : dev_info) : St store bool :=
  if negb (di_reg dev) then
    upd_gd (fun g => Gd (gd_flags g) (gd_verbose g) (gd_lbawidth g) (gd_mediamap g) (gd_tbl g)
      (gd_lbt g) (gd_gpt g) (gd_tpg g) (di_media_blksize dev) (di_media_size dev));;
    mret true
  else
    upd_gd (fun g => Gd (Z.lor (gd_flags g) GPT_FILE) (gd_verbose g) (gd_lbawidth g)
      (gd_mediamap g) (gd_tbl g) (gd_lbt g) (gd_gpt g) (gd_tpg g) 512 (gd_mediasz g));;
    if negb (Z.rem (di_st_size dev) 512 =? 0) then mret false
    else
      upd_gd (fun g => Gd (gd_flags g) (gd_verbose g) (gd_lbawidth g) (gd_mediamap g)
        (gd_tbl g) (gd_lbt g) (gd_gpt g) (gd_tpg g) (gd_secsz g) (di_st_size dev));;
      mret true.

(** Whether [gpt_open] succeeds; [dev] is [None] if the memory for [struct gd], or the
    system's [open], [fstat] or [ioctl], failed.  The [g...] are the global options. *)
Definition gpt_open (flags : Z) (greadonly gquiet gnombr : bool) (gverbose : Z)
    (dev : option dev_info) : St store bool :=
  let flags := if greadonly then Z.lor flags GPT_READONLY else flags in
  let flags := if gquiet then Z.lor flags GPT_QUIET else flags in
  let flags := if gnombr then Z.lor flags GPT_NOMBR else flags in
  upd_gd (fun _ => Gd flags gverbose 0 None None None None None 0 0);;
  match dev with
  | None => mret false
  | Some dev =>
    ok ← gpt_geometry dev;
    if negb ok then mret false
    else
      g ← gets s_gd;
      if gd_secsz g =? 0 then ub (* a division by zero *)
      else
      let devsz := Z.quot (gd_mediasz g) (gd_secsz g) in
      if devsz <? 6 then mret false
      else
        r ← map_init devsz;
        if r =? -1 then mret false
        else
          r ← gpt_mbr (Z.to_nat devsz + 1) 0;
          if r =? -1 then mret false
          else
            found ← gpt_gpt 1 1;
            if found =? -1 then mret false
            else
              r ← gpt_gpt (devsz - 1) found;
              mret (negb (r =? -1))
  end.
End code.

(** ** Reading sectors *)
Section reading.
Context {os : Os}.
Implicit Types (s : store) (l : segs) (d : list Z).

(** The sectors [lba, lba + n) of the device, and whether they can be read. *)
Definition sectors s (lba n : Z) : list Z :=
  sub (Z.to_nat (lba * gd_secsz (s_gd s))) (Z.to_nat (n * gd_secsz (s_gd s))) (s_disk s).
Definition can_read s (lba n : Z) : bool :=
  (lba * gd_secsz (s_gd s) + n * gd_secsz (s_gd s) <=? Z.of_nat (length (s_disk s))) &&
  os_read (lba * gd_secsz (s_gd s)) (n * gd_secsz (s_gd s)).

Lemma length_sectors s lba n : 0 <= lba -> 0 <= n -> 0 <= gd_secsz (s_gd s) ->
  can_read s lba n = true -> length (sectors s lba n) = Z.to_nat (n * gd_secsz (s_gd s)).
Proof.
  intros H1 H2 H3 [H4 _]%andb_prop. zbool. apply length_sub.
  assert (0 <= lba * gd_secsz (s_gd s)) by nia. assert (0 <= n * gd_secsz (s_gd s)) by nia. lia.
Qed.

(** Memory only grows: what was allocated before stays as it was, and so do the device and
    [struct gd] but for the head of the map. *)
Record grows s s' : Prop := {
  gr_brk : (s_brk s <= s_brk s')%nat;
  gr_bufs : forall b, (b < s_brk s)%nat -> s_bufs s' !! b = s_bufs s !! b;
  gr_disk : s_disk s' = s_disk s;
  gr_gd : s_gd s' = set_gd_mediamap (gd_mediamap (s_gd s')) (s_gd s);
}.

Lemma grows_refl s : grows s s.
Proof. split; try done. apply set_gd_mediamap_id. Qed.

Lemma grows_trans s1 s2 s3 : grows s1 s2 -> grows s2 s3 -> grows s1 s3.
Proof.
  intros [A1 A2 A3 A4] [B1 B2 B3 B4]. split; [lia| |congruence|].
  - intros b Hb. rewrite B2 by lia. by apply A2.
  - rewrite B4, A4. done.
Qed.

Lemma grows_gd s s' : grows s s' ->
  gd_flags (s_gd s') = gd_flags (s_gd s) /\ gd_secsz (s_gd s') = gd_secsz (s_gd s).
Proof. intros [_ _ _ ->]. done. Qed.

Lemma grows_sectors s s' lba n : grows s s' ->
  sectors s' lba n = sectors s lba n /\ can_read s' lba n = can_read s lba n.
Proof.
  intros H. destruct (grows_gd _ _ H) as [_ E]. destruct H as [_ _ D _].
  unfold sectors, can_read. by rewrite E, D.
Qed.

Lemma map_ok_frame s s' l total : map_ok s l total -> s_maps s' = s_maps s ->
  gd_mediamap (s_gd s') = gd_mediamap (s_gd s) -> (s_brk s <= s_brk s')%nat ->
  map_ok s' l total.
Proof.
  intros [H Ht] E1 E2 E3. split; [|done]. eapply rep_ext; [done|done|by rewrite E1|].
  intros x Hx. rewrite E1. apply (rep_fresh _ _ H). lia.
Qed.

Lemma wp_gpt_read s lba n (Q : ptr -> store -> Prop) :
  0 <= lba -> 0 <= n -> 0 <= gd_secsz (s_gd s) ->
  lba * gd_secsz (s_gd s) + n * gd_secsz (s_gd s) < 2 ^ 62 ->
  (can_read s lba n = true -> os_alloc (s_brk s) = true ->
   Q (PBuf (s_brk s) 0) (on_bufs <[s_brk s := sectors s lba n]> (on_brk S s))) ->
  (forall s', can_read s lba n && os_alloc (s_brk s) = false ->
     s_maps s' = s_maps s -> s_gd s' = s_gd s -> grows s s' -> Q PNull s') ->
  wp (gpt_read lba n) s Q.
Proof.
  intros H1 H2 H3 H4 HQ1 HQ2. unfold gpt_read. st_step.
  assert (0 <= lba * gd_secsz (s_gd s)) by nia. assert (0 <= n * gd_secsz (s_gd s)) by nia.
  rewrite u64_small, s64_small by lia.
  assert (grows s (on_brk S s)) as G by (split; simpl; try done; [lia|apply set_gd_mediamap_id]).
  apply wp_bind, wp_alloc_buf; intros Ha;
    [|st_step; apply HQ2; rewrite ?Ha, ?andb_false_r; done].
  apply wp_bind. unfold wp at 1, pread. cbn [s_disk on_bufs on_brk].
  unfold can_read in HQ1, HQ2. destruct (Z.leb_spec 0 (lba * gd_secsz (s_gd s))); [|lia]. cbn [andb].
  destruct ((_ <=? _) && _) eqn:E.
  - apply wp_bind, wp_modify. apply wp_ret.
    unfold sectors in HQ1. unfold on_bufs in *. cbn [s_bufs s_maps s_brk s_gd s_disk on_brk] in *.
    rewrite insert_insert_eq. by apply HQ1.
  - apply wp_bind, wp_free_ptr; [split; [done|]; simpl; by rewrite lookup_insert_eq|].
    apply wp_ret. apply HQ2; [done..|]. split; simpl; [lia| |done|apply set_gd_mediamap_id].
    intros b Hb. by rewrite lookup_delete_ne, lookup_insert_ne by lia.
Qed.

Hypothesis Hos : forall k, os_alloc k = true.

Lemma seg_cut_freed k start size type data alloc l1 n v l2 :
  ao_freed (seg_cut k start size type data alloc l1 n v l2) = false.
Proof. unfold seg_cut. rewrite !Hos. by repeat case_match. Qed.

Lemma seg_add_freed k start size type data alloc l :
  ao_freed (seg_add k start size type data alloc l) = false.
Proof. unfold seg_add. repeat case_match; try done. apply seg_cut_freed. Qed.

Lemma seg_add_brk k start size type data alloc l :
  (k <= ao_brk (seg_add k start size type data alloc l))%nat.
Proof. unfold seg_add, seg_cut. rewrite !Hos. repeat case_match; simpl; lia. Qed.

(** [map_add] when memory is not short. *)
Lemma wp_map_add_grows s l total start size type data alloc (Q : option loc -> store -> Prop) :
  map_ok s l total -> 0 <= start -> 0 < size -> start + size < 2 ^ 62 ->
  (alloc <> 0 -> owned s data) ->
  (forall s', let o := seg_add (s_brk s) start size type data alloc l in
     map_ok s' (ao_map o) total -> grows s s' -> s_bufs s' = s_bufs s -> Q (ao_ret o) s') ->
  wp (map_add start size type data alloc) s Q.
Proof.
  intros Hok H1 H2 H3 H4 HQ. eapply wp_mono; [by apply (wp_map_add s l total)|].
  intros r s' (-> & Hrep & Hb & Hbufs & Hd & Hg). rewrite seg_add_freed in Hbufs.
  apply HQ; [| |done].
  - split; [done|]. destruct Hok as (_ & Ht & ?). split; [by apply seg_add_tiles|done].
  - split; [rewrite Hb; apply seg_add_brk|by rewrite Hbufs|done|done].
Qed.

(** [m->map_index = i] *)
Lemma wp_set_index s l total x v i (Q : unit -> store -> Prop) :
  map_ok s l total -> (x, v) ∈ l ->
  (forall s' l1 l2, l = l1 ++ (x, v) :: l2 ->
     map_ok s' (l1 ++ (x, Seg (sg_start v) (sg_size v) (sg_type v) i (sg_data v) (sg_alloc v)) :: l2) total ->
     grows s s' -> s_bufs s' = s_bufs s -> Q tt s') ->
  wp (update x (set_map_index i)) s Q.
Proof.
  intros [Hrep [Ht Htot]] (l1 & l2 & ->)%list_elem_of_split HQ.
  destruct (rep_member s _ _ _ _ _ Hrep eq_refl) as (nd & Hnd & Hv & _ & _).
  apply wp_update; [by eexists|]. apply (HQ _ l1 l2); [done| | |done].
  - split; [|split; [|done]].
    + eapply rep_update; [done|]. intros nd' <-. by destruct nd'.
    + apply tiles_app in Ht as (c & T1 & T2). apply tiles_app. by exists c.
  - split; try done. apply set_gd_mediamap_id.
Qed.
End reading.

(** ** The MBR *)

(** The fields of partition [i] of the sector [d]. *)
Definition mbr_get (d : list Z) (i o n : nat) : Z := le_dec (sub (off_part i + o) n d).
Definition mbr_typ d i : Z := mbr_get d i off_part_typ 1.
Definition mbr_start d i : Z :=
  Z.shiftl (mbr_get d i off_part_start_hi 2) 16 + mbr_get d i off_part_start_lo 2.
Definition mbr_size d i : Z :=
  Z.shiftl (mbr_get d i off_part_size_hi 2) 16 + mbr_get d i off_part_size_lo 2.
Definition mbr_signed (d : list Z) : bool := le_dec (sub off_sig 2 d) =? MBR_SIG.

Section mbr.
Context {os : Os} {dm : DiskMbr}.
Implicit Types (s : store) (l : segs) (d : list Z).

(** Partition [i] is unused, or an extended one that starts after its own MBR, or a
    partition of at least one sector. *)
Definition part_fine (d : list Z) (i : nat) : Prop :=
  mbr_typ d i = DOSPTYP_UNUSED \/ mbr_typ d i = DOSPTYP_PMBR \/
  (mbr_start d i = 0 /\ mbr_size d i = 0) \/
  if mbr_typ d i =? DOSPTYP_EXTLBA then 0 < mbr_start d i else 0 < mbr_size d i.

Definition mbrs_fine s : Prop := forall lba i, 0 <= lba -> (i < 4)%nat ->
  mbr_signed (sectors s lba 1) = true -> part_fine (sectors s lba 1) i.

Lemma mbr_get_bound d i o n : bytes_ok d -> 0 <= mbr_get d i o n < 256 ^ Z.of_nat n.
Proof.
  intros Hd. unfold mbr_get. pose proof (le_dec_bound _ (bytes_ok_sub (off_part i + o) n d Hd)).
  enough (256 ^ Z.of_nat (length (sub (off_part i + o) n d)) <= 256 ^ Z.of_nat n) by lia.
  apply Z.pow_le_mono_r; [lia|]. unfold sub. rewrite length_take. lia.
Qed.

Lemma mbr_word_bound d i o o' : bytes_ok d ->
  0 <= Z.shiftl (mbr_get d i o 2) 16 + mbr_get d i o' 2 < 2 ^ 32.
Proof.
  intros Hd. rewrite Z.shiftl_mul_pow2 by lia.
  pose proof (mbr_get_bound d i o 2 Hd). pose proof (mbr_get_bound d i o' 2 Hd).
  change (256 ^ Z.of_nat 2) with (2 ^ 16) in *. lia.
Qed.

Lemma wp_part_get b d i o n s (Q : list Z -> store -> Prop) :
  s_bufs s !! b = Some d -> (512 <= length d)%nat -> (i < 4)%nat -> (o + n <= 16)%nat ->
  Q (sub (off_part i + o) n d) s -> wp (mem_get (PBuf b 0) (off_part i + o) n) s Q.
Proof.
  intros Hb Hd Hi Ho HQ. eapply wp_mem_get; [done|done| |exact HQ]. unfold off_part. lia.
Qed.

Lemma wp_part_u16 b d i o s (Q : Z -> store -> Prop) :
  s_bufs s !! b = Some d -> (512 <= length d)%nat -> (i < 4)%nat -> (o + 2 <= 16)%nat ->
  Q (mbr_get d i o 2) s -> wp (part_u16 (PBuf b 0) i o) s Q.
Proof. intros. unfold part_u16. apply wp_bind. by eapply wp_part_get. Qed.

Lemma wp_part_typ b d i s (Q : Z -> store -> Prop) :
  s_bufs s !! b = Some d -> (512 <= length d)%nat -> (i < 4)%nat ->
  Q (mbr_typ d i) s -> wp (part_typ (PBuf b 0) i) s Q.
Proof.
  intros. unfold part_typ. apply wp_bind. eapply wp_part_get; try done. unfold off_part_typ. lia.
Qed.

Lemma wp_pmbr_loop b d n i pmbr s (Q : Z * nat -> store -> Prop) :
  s_bufs s !! b = Some d -> (512 <= length d)%nat -> (i + n = 4)%nat -> 0 <= pmbr ->
  (forall pmbr' i', Q (pmbr', i') s) ->
  wp (pmbr_loop n (PBuf b 0) i pmbr) s Q.
Proof.
  intros Hb Hd. revert i pmbr. induction n as [|n IH]; intros i pmbr Hi Hp HQ; simpl.
  { apply HQ. }
  apply wp_bind, (wp_part_typ _ d); [done|done|lia|].
  case_match; [apply IH; done || lia|]. case_match; [apply IH; done || lia|]. apply HQ.
Qed.

(** *** Every MBR is read, and the walk ends *)
Hypothesis Hos : forall k, os_alloc k = true.
Context (total : Z).

(** A device whose sector numbers can be given to the system. *)
Definition dev_ok s : Prop :=
  bytes_ok (s_disk s) /\ 512 <= gd_secsz (s_gd s) /\
  Z.of_nat (length (s_disk s)) = total * gd_secsz (s_gd s) /\
  (total + 2 ^ 33) * gd_secsz (s_gd s) < 2 ^ 62.

Lemma dev_ok_grows s s' : grows s s' -> dev_ok s -> dev_ok s'.
Proof.
  intros H. destruct (grows_gd _ _ H) as [_ E]. destruct H as [_ _ D _].
  unfold dev_ok. by rewrite E, D.
Qed.

Lemma mbrs_fine_grows s s' : grows s s' -> mbrs_fine s -> mbrs_fine s'.
Proof. intros H F lba i. destruct (grows_sectors s s' lba 1 H) as [-> _]. apply F. Qed.

(** What the walk leaves. *)
Definition walked s (r : Z) s' : Prop :=
  (r = 0 \/ r = -1) /\ (exists l, map_ok s' l total) /\ grows s s'.

Lemma walked_trans s1 s2 r s3 : grows s1 s2 -> walked s2 r s3 -> walked s1 r s3.
Proof. intros H (?&?&?). split_and!; [done..|]. by eapply grows_trans. Qed.

(** What is asked of the reading of a nested MBR. *)
Definition walks (rec : Z -> St store Z) (lba : Z) : Prop := forall s l start,
  map_ok s l total -> dev_ok s -> mbrs_fine s -> lba < start < total + 2 ^ 32 ->
  wp (rec start) s (walked s).

Lemma wp_mbr_parts rec lba b m d n : walks rec lba -> 0 <= lba < total -> bytes_ok d ->
  (512 <= length d)%nat -> (forall i, (i < 4)%nat -> part_fine d i) -> (n <= 4)%nat ->
  forall s l, map_ok s l total -> dev_ok s -> mbrs_fine s ->
  s_bufs s !! b = Some d -> (b < s_brk s)%nat ->
  wp (mbr_parts rec n (PBuf b 0) m lba (4 - n)) s (walked s).
Proof.
  intros Hrec Hlba Hbytes Hlen Hfine. induction n as [|n IH]; intros Hn s l Hok Hdev Hf Hb Hlt.
  { apply wp_ret. split_and!; [by left|by exists l|apply grows_refl]. }
  cbn [mbr_parts]. set (i := (4 - S n)%nat).
  assert (i < 4)%nat as Hi by (unfold i; lia).
  replace (S i) with (4 - n)%nat by (unfold i; lia).
  specialize (IH ltac:(lia)).
  apply wp_bind, (wp_part_typ _ d); [done|done|done|]. st_step.
  case_match eqn:E1; [by eapply IH|].
  apply wp_bind, (wp_part_u16 _ d); [done|done|done|unfold off_part_start_hi; lia|].
  apply wp_bind, (wp_part_u16 _ d); [done|done|done|unfold off_part_start_lo; lia|].
  apply wp_bind, (wp_part_u16 _ d); [done|done|done|unfold off_part_size_hi; lia|].
  apply wp_bind, (wp_part_u16 _ d); [done|done|done|unfold off_part_size_lo; lia|].
  cbv zeta. fold (mbr_start d i). fold (mbr_size d i).
  pose proof (mbr_word_bound d i off_part_start_hi off_part_start_lo Hbytes) as B1.
  pose proof (mbr_word_bound d i off_part_size_hi off_part_size_lo Hbytes) as B2.
  fold (mbr_start d i) in B1. fold (mbr_size d i) in B2.
  case_match eqn:E2; [by eapply IH|].
  assert (total < 2 ^ 62) as Ht by apply Hok. destruct Hdev as (D1 & D2 & D3 & D4).
  pose proof (Z.mul_le_mono_nonneg_l 512 (gd_secsz (s_gd s)) (total + 2 ^ 33) ltac:(lia) D2).
  rewrite s64_small by lia.
  assert (if mbr_typ d i =? DOSPTYP_EXTLBA then 0 < mbr_start d i else 0 < mbr_size d i) as F.
  { apply orb_false_iff in E1 as [E1 _]. apply orb_false_iff in E1 as [U P]. zbool.
    destruct (Hfine i Hi) as [?|[?|[[E3 E4]|?]]]; try done. by rewrite E3, E4 in E2. }
  destruct (mbr_typ d i =? DOSPTYP_EXTLBA) eqn:E3; cbn [negb].
  - apply wp_bind. eapply wp_mono; [eapply Hrec; [done|by split_and!|done|lia]|].
    intros r s' (Hr & [l' Hok'] & G). case_match.
    + apply wp_ret. split_and!; [by right|by exists l'|done].
    + eapply wp_mono; [eapply (IH s' l')|].
      * done.
      * by eapply dev_ok_grows.
      * by eapply mbrs_fine_grows.
      * by rewrite (gr_bufs _ _ G).
      * pose proof (gr_brk _ _ G). lia.
      * intros r' s2 W. by eapply walked_trans.
  - apply wp_bind. eapply wp_map_add_grows; [exact Hos|done|lia|done|lia|done|].
    intros s' o Hok' G Hbs. destruct (ao_ret o) as [x|] eqn:Eo.
    2: { apply wp_ret. split_and!; [by right|by eexists|done]. }
    destruct Hok as (_ & Htile & _).
    eapply seg_add_types in Eo as (v & _ & _ & [j Hin] & _); [|exact Htile|lia|exact F].
    apply wp_bind. eapply wp_set_index; [exact Hok'|exact Hin|].
    intros s2 l1 l2 _ Hok2 G2 Hb2.
    assert (grows s s2) as G3 by (by eapply grows_trans).
    eapply wp_mono; [eapply (IH s2)|].
    + exact Hok2.
    + by eapply dev_ok_grows.
    + by eapply mbrs_fine_grows.
    + by rewrite (gr_bufs _ _ G3).
    + pose proof (gr_brk _ _ G3). lia.
    + intros r' s3 W. by eapply walked_trans.
Qed.

Lemma grows_free s b s' : grows s s' -> (s_brk s <= b)%nat -> grows s (on_bufs (delete b) s').
Proof.
  intros [A1 A2 A3 A4] Hb. split; [done| |done|done]. intros x Hx. simpl.
  rewrite lookup_delete_ne by lia. by apply A2.
Qed.

Lemma grows_alloc s d : grows s (on_bufs <[s_brk s := d]> (on_brk S s)).
Proof.
  split; simpl; [lia| |done|apply set_gd_mediamap_id].
  intros b Hb. by rewrite lookup_insert_ne by lia.
Qed.

(** [free(mbr)] on the way out. *)
Lemma wp_leave s s' b d l r : grows s s' -> (s_brk s <= b)%nat -> s_bufs s' !! b = Some d ->
  map_ok s' l total -> r = 0 \/ r = -1 ->
  wp (free_ptr (PBuf b 0);; mret r) s' (walked s).
Proof.
  intros G Hb Hs Hok Hr. apply wp_bind, wp_free_ptr; [split; [done|by eexists]|]. apply wp_ret.
  split_and!; [done|exists l; by eapply map_ok_frame|by apply grows_free].
Qed.

Lemma wp_gpt_mbr fuel : forall s l lba,
  map_ok s l total -> dev_ok s -> mbrs_fine s -> 0 <= lba < total + 2 ^ 32 ->
  (Z.to_nat (total - lba) < fuel)%nat ->
  wp (gpt_mbr fuel lba) s (walked s).
Proof.
  induction fuel as [|fuel IH]; intros s l lba Hok Hdev Hf Hlba Hfuel; [lia|].
  pose proof Hdev as (D1 & D2 & D3 & D4).
  cbn [gpt_mbr]. apply wp_bind. eapply wp_gpt_read; [lia|lia|lia|nia| |].
  2: { intros s' _ E1 E2 G. rewrite decide_True by done. apply wp_ret. split_and!; [by right| |done].
    exists l. eapply map_ok_frame; [exact Hok|done|by rewrite E2|apply G]. }
  intros Hr _. rewrite decide_False by done.
  set (d := sectors s lba 1). set (b := s_brk s).
  set (s1 := on_bufs _ _). assert (grows s s1) as G1 by apply grows_alloc.
  assert (s_bufs s1 !! b = Some d) as Hb1 by (simpl; by rewrite lookup_insert_eq).
  assert (map_ok s1 l total) as Hok1 by (eapply map_ok_frame; done || (simpl; lia)).
  assert (length d = Z.to_nat (gd_secsz (s_gd s))) as Ld.
  { unfold d. rewrite length_sectors; [f_equal; lia|lia..|done]. }
  assert (0 <= lba < total) as Hlba'.
  { unfold can_read in Hr. apply andb_prop in Hr as [Hr _]. zbool. rewrite D3 in Hr. nia. }
  apply wp_bind. eapply wp_mem_get; [exact Hb1|done|unfold off_sig; lia|].
  change (le_dec (sub (Z.to_nat 0 + off_sig) 2 d) =? MBR_SIG) with (mbr_signed d).
  destruct (mbr_signed d) eqn:Esig; cbn [negb].
  2: { eapply wp_leave; try done. by left. }
  assert (512 <= length d)%nat as Hlen by lia.
  apply wp_bind. eapply wp_pmbr_loop; [exact Hb1|done|done|done|]. intros pmbr i.
  assert (forall typ (k : option loc -> St store Z),
    (forall m, k (Some m) = mret 0 \/ k (Some m) = mbr_parts (gpt_mbr fuel) 4 (PBuf b 0) m lba 0) ->
    k None = (free_ptr (PBuf b 0);; mret (-1)) ->
    wp (p ← map_add lba 1 typ (PBuf b 0) 1; k p) s1 (walked s)) as K.
  { intros typ k K1 K2. apply wp_bind. eapply wp_map_add_grows; [exact Hos|exact Hok1|lia|lia|nia| |].
    { intros _. split; [done|by eexists]. }
    intros s2 o Hok2 G2 Hb2. assert (grows s s2) as G by (by eapply grows_trans).
    destruct (ao_ret o) as [m|].
    - destruct (K1 m) as [->| ->].
      + apply wp_ret. split_and!; [by left|by eexists|done].
      + eapply wp_mono.
        * eapply (wp_mbr_parts (gpt_mbr fuel) lba b m d 4); [|done|by apply Forall_take, Forall_drop|
            done| |done|exact Hok2| | | |].
          -- intros s3 l3 start Hok3 Hdev3 Hf3 Hst. eapply IH; [done|done|done|lia|lia].
          -- intros j Hj. apply Hf; [lia|done|exact Esig].
          -- by eapply dev_ok_grows.
          -- by eapply mbrs_fine_grows.
          -- by rewrite Hb2.
          -- pose proof (gr_brk _ _ G2). simpl in *. lia.
        * intros r s3 W. by eapply walked_trans.
    - rewrite K2. eapply wp_leave; [exact G|done|by rewrite Hb2|exact Hok2|by right]. }
  case_match; (eapply K; [|done]); intros m; auto.
Qed.

(** C13: Reading the MBRs of a device ends, without touching freed or foreign memory,
    whatever the chain of nested MBRs on the device is, provided that every extended
    partition starts after the sector that describes it, every other one is not empty
    and memory is not short: [gpt_mbr] returns 0 or -1, and the map that it extends still
    tiles the device. *)
Theorem gpt_mbr_returns s l :
  map_ok s l total -> dev_ok s -> mbrs_fine s -> 0 < total ->
  exists r s', gpt_mbr (Z.to_nat total + 1) 0 s = Some (r, s') /\ (r = 0 \/ r = -1) /\
    (exists l', map_ok s' l' total) /\ s_disk s' = s_disk s /\
    gd_flags (s_gd s') = gd_flags (s_gd s).
Proof.
  intros Hok Hdev Hf Ht.
  destruct (proj1 (wp_elim _ _ _) (wp_gpt_mbr (Z.to_nat total + 1) s l 0 Hok Hdev Hf
    ltac:(lia) ltac:(lia))) as (r & s' & E & Hr & Hl & G).
  exists r, s'. split_and!; try done; [apply G|by apply grows_gd].
Qed.

(** *** An extended partition at its own MBR *)
Lemma bind_none {A B} (m : St store A) (f : A -> St store B) s (Q : A -> store -> Prop) :
  wp m s Q -> (forall a s', Q a s' -> f a s' = None) -> (m ≫= f) s = None.
Proof.
  unfold wp, mbind, St_bind. destruct (m s) as [[a s']|]; [|done]. intros H1 H2. by apply H2.
Qed.

(** The first used partition of the sector is an extended one that starts at sector 0 of
    its MBR and is not empty. *)
Definition self_nested d (k : nat) : Prop :=
  mbr_signed d = true /\ (k < 4)%nat /\ (forall j, (j < k)%nat -> mbr_typ d j = DOSPTYP_UNUSED) /\
  mbr_typ d k = DOSPTYP_EXTLBA /\ mbr_start d k = 0 /\ mbr_size d k <> 0.

Hypothesis Hext : DOSPTYP_EXTLBA <> DOSPTYP_UNUSED /\ DOSPTYP_EXTLBA <> DOSPTYP_PMBR.

Lemma wp_pmbr_nested b d k n i s (Q : Z * nat -> store -> Prop) :
  s_bufs s !! b = Some d -> (512 <= length d)%nat -> self_nested d k -> (i + n = 4)%nat ->
  (i <= k)%nat -> Q (0, k) s -> wp (pmbr_loop n (PBuf b 0) i 0) s Q.
Proof.
  intros Hb Hd (_ & Hk & Hj & Hx & _). revert i. induction n as [|n IH]; intros i Hi Hik HQ; [lia|].
  cbn [pmbr_loop]. apply wp_bind, (wp_part_typ _ d); [done|done|lia|].
  destruct (decide (i = k)) as [->|].
  - rewrite Hx. destruct Hext. by repeat (case_match; zbool; try done).
  - rewrite Hj, Z.eqb_refl by lia. apply IH; lia || done.
Qed.

Lemma mbr_parts_nested rec lba b m d k s : self_nested d k -> (512 <= length d)%nat ->
  s_bufs s !! b = Some d -> 0 <= lba < 2 ^ 62 -> Z.land (gd_flags (s_gd s)) GPT_NOMBR = 0 ->
  rec lba s = None -> forall n, (n <= 4)%nat -> (4 - n <= k)%nat ->
  mbr_parts rec n (PBuf b 0) m lba (4 - n) s = None.
Proof.
  intros (_ & Hk & Hj & Hx & H0 & Hs) Hd Hb Hlba Hfl Hrec. destruct Hext as [X1%Z.eqb_neq X2%Z.eqb_neq].
  induction n as [|n IH]; intros Hn Hle; [lia|]. cbn [mbr_parts]. set (i := (4 - S n)%nat) in *.
  eapply (bind_none _ _ _ (fun a s' => a = mbr_typ d i /\ s' = s));
    [by apply (wp_part_typ _ d); [|done|lia|]|]. intros ? ? [-> ->].
  eapply (bind_none _ _ _ (fun a s' => a = gd_flags (s_gd s) /\ s' = s)); [done|].
  intros ? ? [-> ->]. rewrite Hfl. cbn [negb orb Z.eqb]. replace (S i) with (4 - n)%nat by (unfold i; lia).
  destruct (decide (i = k)) as [E|].
  - rewrite E, Hx, X1, X2. cbn [orb].
    assert (forall o, (o + 2 <= 16)%nat ->
      wp (part_u16 (PBuf b 0) k o) s (fun a s' => a = mbr_get d k o 2 /\ s' = s)) as P.
    { intros o Ho. by apply (wp_part_u16 _ d); [|done|lia|lia|]. }
    do 4 (eapply bind_none; [apply P; unfold off_part_start_hi, off_part_start_lo, off_part_size_hi,
      off_part_size_lo; lia|]; intros ? ? [-> ->]).
    cbv zeta. fold (mbr_start d k) (mbr_size d k). rewrite H0. apply Z.eqb_neq in Hs. rewrite Hs.
    rewrite Z.eqb_refl. cbn [negb andb]. rewrite Z.add_0_l, s64_small by lia.
    rewrite Z.eqb_refl. cbn [negb]. unfold mbind, St_bind. by rewrite Hrec.
  - rewrite Hj, Z.eqb_refl by lia. apply IH; unfold i in *; lia.
Qed.

End mbr.
