(* ===== verification/GptEdit.v ===== *)
(** * GptEdit: the commands that change partition entries

    fgdisk remove, rename, label and flag (sbin/fgdisk/remove.c, rename.c, label.c,
    flag.c): each walks the media map and changes one field of the entries selected, in
    both copies of the table.  The options, static variables of each file, are arguments;
    the parsing of the command line is not modelled. *)
From Stdlib Require Import ZArith Lia.
From stdpp Require Import base list option gmap.
From S2P Require Import Prelude Dll Gd MediaMap Crc32 CMem Stand Utf GptIo GptRep GptSpec GptExample.
Open Scope Z_scope.

(** [type], [block], [size] and [entry] of remove.c and label.c; [ren_type], [ren_block],
    [ren_size] and [ren_entry] of rename.c. *)
Record sel := Sel {
  sel_type : list Z;
  sel_block : Z;
  sel_size : Z;
  sel_entry : Z;
}.

(** The [continue]s before the entry is looked at. *)
Definition skips (o : sel) (nd : map_node) : bool :=
  negb (map_type nd =? MAP_TYPE_GPT_PART) || (map_index nd <? 1) ||
  ((0 <? sel_entry o) && negb (sel_entry o =? map_index nd)) ||
  ((0 <? sel_block o) && negb (sel_block o =? map_start nd)) ||
  ((0 <? sel_size o) && negb (sel_size o =? map_size nd)).

(** The units of an [ent_name], and their bytes. *)
Fixpoint units (d : list Z) : list Z :=
  match d with
  | a :: b :: d => le_dec [a; b] :: units d
  | _ => []
  end.
Definition unit_bytes (a : list Z) : list Z := flat_map (le_enc 2) a.

Section code.
Context {os : Os} {gpt : SysGpt} {uu : Uuid}.

(** ** remove.c *)
Definition rem_map (o : sel) (m : loc) : St store unit :=
  nd ← load m;
  if skips o nd then mret tt
  else
    let i := u32 (map_index nd - 1) in
    '(hdr, ent) ← ent_at gd_gpt gd_tbl i;
    uuid ← ent_get ent ent_type;
    let uuid := uuid_dec_le uuid in
    if negb (uuid_nilb (sel_type o)) && negb (uuid_eqb (sel_type o) uuid) then mret tt
    else
      let uuid := uuid_nil in
      edit_both (fun ent => ent_put ent ent_type (uuid_enc_le uuid)) hdr ent i;;
      gpt_status.

Definition rem (o : sel) : St store unit :=
  hdr ← gpt_gethdr;
  if decide (hdr = PNull) then mret tt else each_map (rem_map o).

(** ** rename.c *)
Definition change_name_map (o : sel) (new_type : list Z) (m : loc) : St store unit :=
  nd ← load m;
  if skips o nd then mret tt
  else
    let i := u32 (map_index nd - 1) in
    '(hdr, ent) ← ent_at gd_gpt gd_tbl i;
    uuid ← ent_get ent ent_type;
    let uuid := uuid_dec_le uuid in
    if negb (uuid_nilb (sel_type o)) && negb (uuid_eqb (sel_type o) uuid) then mret tt
    else
      edit_both (fun ent => ent_put ent ent_type (uuid_enc_le new_type)) hdr ent i;;
      gpt_status.

Definition change_name (o : sel) (new_type : list Z) : St store unit :=
  hdr ← gpt_gethdr;
  if decide (hdr = PNull) then mret tt else each_map (change_name_map o new_type).

(** ** label.c; [name] is a NUL-terminated string *)

(** [utf8_to_utf16(name, ent->ent_name, NELEM(ent->ent_name))]. *)
Definition put_name (name : list Z) (ent : ptr) : St store unit :=
  d ← ent_get ent ent_name;
  a ← of_opt (utf8_to_utf16 name (units d) nelem_ent_name);
  ent_put ent ent_name (unit_bytes a).

Definition label_map (o : sel) (name : list Z) (m : loc) : St store unit :=
  nd ← load m;
  if skips o nd then mret tt
  else
    let i := u32 (map_index nd - 1) in
    '(hdr, ent) ← ent_at gd_gpt gd_tbl i;
    uuid ← ent_get ent ent_type;
    let uuid := uuid_dec_le uuid in
    if negb (uuid_nilb (sel_type o)) && negb (uuid_eqb (sel_type o) uuid) then mret tt
    else
      edit_both (put_name name) hdr ent i;;
      gpt_status.

Definition label (o : sel) (name : list Z) : St store unit :=
  hdr ← gpt_gethdr;
  if decide (hdr = PNull) then mret tt else each_map (label_map o name).

(** ** flag.c *)
Definition set_flags (set_attr toggle_attr unset_attr : Z) (ent : ptr) : St store unit :=
  a ← ent_get ent ent_attr;
  ent_put ent ent_attr (le_enc 8 (Z.lor (le_dec a) set_attr));;
  a ← ent_get ent ent_attr;
  ent_put ent ent_attr (le_enc 8 (Z.lxor (le_dec a) toggle_attr));;
  a ← ent_get ent ent_attr;
  ent_put ent ent_attr (le_enc 8 (Z.land (le_dec a) (u64 (Z.lnot unset_attr)))).

Definition change_flags_map (flag_entry set_attr toggle_attr unset_attr : Z) (m : loc)
    : St store unit :=
  nd ← load m;
  if negb (map_type nd =? MAP_TYPE_GPT_PART) || (map_index nd <? 1) then mret tt
  else if (0 <? flag_entry) && negb (flag_entry =? map_index nd) then mret tt
  else
    let i := u32 (map_index nd - 1) in
    '(hdr, ent) ← ent_at gd_gpt gd_tbl i;
    edit_both (set_flags set_attr toggle_attr unset_attr) hdr ent i;;
    gpt_status.

Definition change_flags (flag_entry set_attr toggle_attr unset_attr : Z) : St store unit :=
  hdr ← gpt_gethdr;
  if decide (hdr = PNull) then mret tt
  else each_map (change_flags_map flag_entry set_attr toggle_attr unset_attr).
End code.

(** ** The fields changed, and the entries selected *)
Section spec.
Context {os : Os} {gpt : SysGpt} {laws : SysGptLaws} {uu : Uuid} {uul : UuidLaws}.
Implicit Types (s : store) (c : contents) (l : segs) (h t d : list Z) (x y : half).

Lemma uuid_nilb_eq u : uuid_ok u -> uuid_nilb u = bool_decide (u = uuid_nil).
Proof.
  intros [Hb Hl]. unfold uuid_nilb.
  assert (uuid_value u (Some 0) = u) as E by (change (take 16 u = u); apply take_ge; lia).
  enough (Stand.uuid_is_nil (Some 0) u = Some (if decide (u = uuid_nil) then 1 else 0, u)) as ->.
  { case_bool_decide; by case_decide. }
  enough (wp (Stand.uuid_is_nil (Some 0)) u (fun r m => r = (if decide (u = uuid_nil) then 1 else 0)
    /\ m = u)) as (r & m & -> & -> & ->)%wp_elim by done.
  apply wp_uuid_is_nil; [done|simpl; unfold in_mem; lia|]. by rewrite E.
Qed.

Lemma uuid_eqb_eq u v : uuid_ok u -> uuid_ok v -> uuid_eqb u v = bool_decide (u = v).
Proof.
  intros [Hu Lu] [Hv Lv]. unfold uuid_eqb.
  assert (length (u ++ v) = 32)%nat as L by (rewrite length_app; lia).
  assert (uuid_value (u ++ v) (Some 0) = u) as E1.
  { change (take 16 (u ++ v) = u). by rewrite <- Lu, take_app_length. }
  assert (uuid_value (u ++ v) (Some 16) = v) as E2.
  { change (take 16 (drop 16 (u ++ v)) = v). rewrite <- Lu at 2.
    rewrite drop_app_length. apply take_ge. lia. }
  rewrite uuid_equal_ok, E1, E2.
  - case_bool_decide; by case_decide.
  - by apply Forall_app.
  - simpl. unfold in_mem. lia.
  - simpl. unfold in_mem. lia.
Qed.

(** The selection of a region that stands for an entry, by index, start and size; 0
    selects everything. *)
Definition sel_region (o : sel) (v : seg) : bool :=
  is_part v &&
  ((sel_entry o <=? 0) || (sel_entry o =? sg_index v)) &&
  ((sel_block o <=? 0) || (sel_block o =? sg_start v)) &&
  ((sel_size o <=? 0) || (sel_size o =? sg_size v)).

(** With the entry's type [d], as it is on the disk; the nil UUID selects everything. *)
Definition sel_pick (o : sel) : picker := fun v d =>
  sel_region o v &&
  (bool_decide (sel_type o = uuid_nil) || bool_decide (sel_type o = uuid_dec_le d)).

Definition flag_pick (entry : Z) : picker := fun v _ =>
  is_part v && ((entry <=? 0) || (entry =? sg_index v)).

Lemma skips_pick o nd : skips o nd = negb (sel_region o (seg_of nd)).
Proof.
  unfold skips, sel_region, is_part. cbn [sg_type sg_index sg_start sg_size seg_of].
  by rewrite !Z.ltb_antisym, !negb_andb, !negb_orb.
Qed.

(** [gpt_status] at the end of the body of a loop. *)
Lemma status_after s s1 l total x y c (Q : unit -> store -> Prop) :
  gpt_rep s1 l total x y c -> linked s1 x y -> edits x y s s1 ->
  (writable s -> synced s1 x y c) ->
  (forall s', gpt_rep s' l total x y c -> linked s' x y -> edits x y s s' ->
    (writable s -> synced s' x y c) -> Q tt s') ->
  wp gpt_status s1 Q.
Proof.
  intros Hrep1 Hlink1 Hed1 Hsync HQ. eapply wp_gpt_status; [done|].
  intros s2 Hrep2 Hed2 Hdisk Hbufs. apply HQ; [done| | |].
  - by eapply edits_linked.
  - by eapply edits_trans.
  - intros Hw. destruct (Hsync Hw) as (S1 & S2 & S3 & S4).
    destruct Hed2 as [_ _ (fl & Eg & _) _ _].
    unfold synced, on_device in *. by rewrite Hdisk, Eg.
Qed.

Lemma sel_parts o : picks_parts (sel_pick o).
Proof.
  intros v d [H _]%andb_prop. unfold sel_region in H.
  by do 3 (apply andb_prop in H as [H _]).
Qed.

(** The common text of the loops of remove.c, rename.c and label.c, once an entry's
    change [act] is known. *)
Lemma select_body f val act o : acts f val act -> val_ok f val -> uuid_ok (sel_type o) ->
  body_spec (sel_pick o) f val (fun m =>
    nd ← load m;
    if skips o nd then mret tt
    else
      let i := u32 (map_index nd - 1) in
      '(hdr, ent) ← ent_at gd_gpt gd_tbl i;
      uuid ← ent_get ent ent_type;
      let uuid := uuid_dec_le uuid in
      if negb (uuid_nilb (sel_type o)) && negb (uuid_eqb (sel_type o) uuid) then mret tt
      else edit_both act hdr ent i;; gpt_status).
Proof.
  intros Hact Hval Ho s l total x y c n v Q Hrep Hlink Hparts Hin Hyes Hno.
  destruct (rep_node s l n v) as (nd & Hn & <-); [apply Hrep|done|].
  apply wp_bind, (wp_load n nd); [done|]. rewrite skips_pick.
  unfold sel_pick in Hyes, Hno.
  destruct (sel_region o (seg_of nd)) eqn:Eguard; cbn [negb andb] in *; [|by apply wp_ret, Hno].
  assert (is_part (seg_of nd) = true) as Hp.
  { unfold sel_region in Eguard. by do 3 (apply andb_prop in Eguard as [Eguard ?]). }
  destruct (po_in _ _ Hparts _ _ Hin Hp) as [Hidx [I1 I2]]. cbn [sg_index seg_of] in *.
  pose proof I1 as (Hi0 & _). rewrite u32_small by lia.
  pose proof (gr_pri _ _ _ _ _ _ Hrep) as Hx. pose proof Hx as []. pose proof ha_ok as [].
  apply wp_bind. eapply wp_ent_at; [apply Hrep|exact Hx|apply Hlink..|done|].
  apply wp_bind. eapply (wp_ent_get _ _ _ _ _ c.1.2); [done..|].
  set (d := eget _ _ _ _) in *.
  assert (uuid_ok d) as Hd by (split; [by apply bytes_ok_sub|by apply length_eget]).
  rewrite uuid_nilb_eq, uuid_eqb_eq by (try apply uuid_dec_ok; done).
  rewrite <- negb_orb. destruct (_ || _); cbn [negb]; [|by apply wp_ret, Hno].
  apply wp_bind. eapply wp_edit_both; [done..|].
  intros s1 Hrep1 Hlink1 Hed1 Hsync. eapply status_after; [done..|by apply Hyes].
Qed.

(** *** The changes *)
Lemma put_acts f v : length v = width_ent f ->
  acts f (fun _ => v) (fun ent => ent_put ent f v).
Proof. intros Hv M i b h t s Q _ [] Hi Hb HQ. by apply (wp_ent_put s b f i h t v). Qed.

Lemma enc_ok f u : width_ent f = 16%nat -> uuid_ok u -> val_ok f (fun _ => uuid_enc_le u).
Proof. intros Hw Hu d _ _. rewrite Hw. by destruct (uuid_enc_ok u Hu). Qed.

Lemma length_units n d : length d = (2 * n)%nat -> length (units d) = n.
Proof.
  revert d. induction n as [|n IH]; intros d Hd.
  - by apply nil_length_inv in Hd as ->.
  - destruct d as [|a [|b d]]; simpl in Hd; [lia..|]. simpl. f_equal. apply IH. lia.
Qed.

Lemma unit_bytes_ok a : bytes_ok (unit_bytes a) /\ length (unit_bytes a) = (2 * length a)%nat.
Proof.
  induction a as [|u a [IH1 IH2]]; [by split; [constructor|]|]. unfold unit_bytes in *.
  cbn [flat_map length]. rewrite length_app, length_le_enc, IH2. split; [|lia].
  apply Forall_app. split; [apply le_enc_bytes|done].
Qed.

(** The name written over the units of [d]. *)
Definition name_val (name : list Z) d : list Z :=
  match utf8_to_utf16 name (units d) nelem_ent_name with
  | Some a => unit_bytes a
  | None => d
  end.

Lemma name_written name r d : Forall (fun z : Z => z <> 0) name -> length d = width_ent ent_name ->
  exists a, utf8_to_utf16 (name ++ 0 :: r) (units d) nelem_ent_name = Some a /\
    length a = nelem_ent_name.
Proof.
  intros Hn Hd. pose proof (length_units nelem_ent_name d Hd) as L. pose proof nelem_pos.
  destruct (utf8_to_utf16_total nelem_ent_name (units d) ltac:(lia) name r Hn)
    as (a & E & La & _). exists a. split; [done|lia].
Qed.

Lemma name_acts name r : Forall (fun z : Z => z <> 0) name ->
  acts ent_name (name_val (name ++ 0 :: r)) (put_name (name ++ 0 :: r)).
Proof.
  intros Hn M i b h t s Q _ Hok Hi Hb HQ. pose proof Hok as []. unfold put_name.
  apply wp_bind, (wp_ent_get s b ent_name i h t); [done..|].
  pose proof (length_eget i ent_name h t Hok Hi) as L.
  destruct (name_written name r _ Hn L) as (a & Ea & La).
  apply wp_bind, (wp_of_opt _ a); [done|].
  apply (wp_ent_put s b ent_name i h t); [done..| |].
  - destruct (unit_bytes_ok a) as [_ ->]. by rewrite La.
  - revert HQ. unfold fset, name_val. by rewrite Ea.
Qed.

Lemma name_ok name r : Forall (fun z : Z => z <> 0) name -> val_ok ent_name (name_val (name ++ 0 :: r)).
Proof.
  intros Hn d Hb Hd. destruct (name_written name r d Hn Hd) as (a & Ea & La).
  unfold name_val. rewrite Ea. destruct (unit_bytes_ok a) as [H1 ->]. split; [done|].
  by rewrite La.
Qed.

(** The attributes after the three changes. *)
Definition flags_val (set toggle unset : Z) d : list Z :=
  le_enc 8 (Z.land (Z.lxor (Z.lor (le_dec d) set) toggle) (u64 (Z.lnot unset))).

Lemma u64_bits z : u64 z = z <-> forall i, 64 <= i -> Z.testbit z i = false.
Proof.
  unfold u64. rewrite <- Z.land_ones by lia. split.
  - intros <- i Hi. rewrite Z.land_spec, Z.ones_spec_high, andb_false_r by lia. done.
  - intros H. apply Z.bits_inj'. intros i Hi. rewrite Z.land_spec.
    destruct (Z.lt_ge_cases i 64).
    + by rewrite Z.ones_spec_low, andb_true_r by lia.
    + by rewrite H by lia.
Qed.

Lemma dec_enc_64 v : u64 v = v -> le_dec (le_enc 8 v) = v.
Proof. intros E. rewrite le_dec_enc. exact E. Qed.

Lemma flags_acts set toggle unset :
  u64 set = set -> u64 toggle = toggle ->
  acts ent_attr (flags_val set toggle unset) (set_flags set toggle unset).
Proof.
  intros Hs Ht M i b h t s Q _ Hok Hi Hb HQ. pose proof Hok as []. unfold set_flags.
  set (d := eget i ent_attr h t).
  pose proof (length_eget i ent_attr h t Hok Hi) as L.
  assert (bytes_ok d) as Hd by by apply bytes_ok_sub.
  assert (forall v, ent_in i h (eset i ent_attr (le_enc 8 v) h t) /\
    eget i ent_attr h (eset i ent_attr (le_enc 8 v) h t) = le_enc 8 v /\
    forall w, eset i ent_attr (le_enc 8 w) h (eset i ent_attr (le_enc 8 v) h t) =
      eset i ent_attr (le_enc 8 w) h t) as K.
  { intros v. assert (length (le_enc 8 v) = width_ent ent_attr) as Lv by apply length_le_enc.
    split_and!; [by apply ent_in_eset|by apply eget_eset|].
    intros w. apply splice_splice; [by rewrite !length_le_enc|].
    rewrite Lv. by apply ent_room. }
  assert (0 <= le_dec d < 2 ^ 64) as Hdec.
  { pose proof (le_dec_bound d Hd) as H. unfold d in H at 3. rewrite L in H. exact H. }
  assert (u64 (Z.lor (le_dec d) set) = Z.lor (le_dec d) set) as E1.
  { apply u64_bits. intros j Hj. rewrite Z.lor_spec.
    rewrite (proj1 (u64_bits set) Hs j Hj), (proj1 (u64_bits (le_dec d)) (u64_small _ Hdec) j Hj).
    done. }
  assert (u64 (Z.lxor (Z.lor (le_dec d) set) toggle) = Z.lxor (Z.lor (le_dec d) set) toggle) as E2.
  { apply u64_bits. intros j Hj. rewrite Z.lxor_spec.
    by rewrite (proj1 (u64_bits toggle) Ht j Hj), (proj1 (u64_bits _) E1 j Hj). }
  apply wp_bind, (wp_ent_get s b ent_attr i h t); [done..|]. fold d.
  apply wp_bind, (wp_ent_put s b ent_attr i h t); [done..|apply length_le_enc|].
  destruct (K (Z.lor (le_dec d) set)) as (K2 & K3 & K4).
  apply wp_bind. eapply (wp_ent_get _ b ent_attr i h); [done|exact K2|apply bufs_insert|].
  rewrite K3, dec_enc_64 by done.
  apply wp_bind. eapply (wp_ent_put _ b ent_attr i h); [done|exact K2|apply bufs_insert|apply length_le_enc|].
  rewrite K4, on_bufs_insert_insert.
  destruct (K (Z.lxor (Z.lor (le_dec d) set) toggle)) as (J2 & J3 & J4).
  apply wp_bind. eapply (wp_ent_get _ b ent_attr i h); [done|exact J2|apply bufs_insert|].
  rewrite J3, dec_enc_64 by done.
  eapply (wp_ent_put _ b ent_attr i h); [done|exact J2|apply bufs_insert|apply length_le_enc|].
  by rewrite J4, on_bufs_insert_insert.
Qed.

Lemma flags_ok set toggle unset : val_ok ent_attr (flags_val set toggle unset).
Proof. intros d _ _. split; [apply le_enc_bytes|apply length_le_enc]. Qed.

Lemma change_flags_body entry set toggle unset : u64 set = set -> u64 toggle = toggle ->
  body_spec (flag_pick entry) ent_attr (flags_val set toggle unset)
    (change_flags_map entry set toggle unset).
Proof.
  intros Hs Ht s l total x y c n v Q Hrep Hlink Hparts Hin Hyes Hno.
  destruct (rep_node s l n v) as (nd & Hn & <-); [apply Hrep|done|].
  unfold change_flags_map. apply wp_bind, (wp_load n nd); [done|].
  unfold flag_pick in Hyes, Hno. destruct (is_part (seg_of nd)) eqn:Hp.
  - destruct (po_in _ _ Hparts _ _ Hin Hp) as [Hidx Hi].
    unfold is_part in Hp. cbn [sg_type sg_index seg_of andb] in *. zbool.
    destruct (Z.eqb_spec (map_type nd) MAP_TYPE_GPT_PART); [|done]. cbn [negb orb].
    destruct (Z.ltb_spec (map_index nd) 1); [lia|].
    rewrite Z.ltb_antisym. rewrite <- negb_orb.
    destruct (_ || _) eqn:Hsel; cbn [negb]; [|by apply wp_ret, Hno].
    rewrite u32_small by lia. pose proof (gr_pri _ _ _ _ _ _ Hrep) as Hx.
    apply wp_bind. eapply wp_ent_at; [apply Hrep|exact Hx|apply Hlink..|apply Hi|].
    apply wp_bind. eapply wp_edit_both; [by apply flags_acts|apply flags_ok|done..|].
    intros s1 Hrep1 Hlink1 Hed1 Hsync. eapply status_after; [done..|by apply Hyes].
  - cbn [andb] in Hno. unfold is_part in Hp. cbn [sg_type sg_index seg_of] in Hp.
    rewrite Z.ltb_antisym, <- negb_andb, Hp. by apply wp_ret, Hno.
Qed.
End spec.

(** ** The commands *)
Section theorems.
Context {os : Os} {gpt : SysGpt} {laws : SysGptLaws} {uu : Uuid} {uul : UuidLaws}.
Implicit Types (s : store) (c : contents) (l : segs) (x y : half).

(** C8: fgdisk remove, on a device with a GPT: it returns, the type of exactly the entries
    selected by index, start, size and type becomes nil, in both copies of the table, and
    every other field of every entry and of the headers keeps its value; if there was such
    an entry, the checksums of both copies are right and, unless a write failed, the
    device holds both; nothing of the device outside the four regions of the GPT changes,
    and if nothing was selected, nothing at all. *)
Theorem rem_edits s l total x y c o :
  gpt_rep s l total x y c -> parts_ok l c -> uuid_ok (sel_type o) ->
  exists s' c', rem o s = Some (tt, s') /\
    edited l (sel_pick o) ent_type (fun _ => uuid_nil) c c' /\
    outcome s l total x y (some_picked l (sel_pick o) c) c c' s'.
Proof.
  intros Hrep Hparts Ho. rewrite <- uuid_enc_nil.
  assert (uuid_ok uuid_nil) as Hnil by by (split; [repeat constructor|]).
  enough (wp (rem o) s (fun _ s' => exists c', edited l (sel_pick o) ent_type
    (fun _ => uuid_enc_le uuid_nil) c c' /\
    outcome s l total x y (some_picked l (sel_pick o) c) c c' s'))
    as ([] & s' & E & c' & H)%wp_elim by eauto.
  eapply (wp_command (sel_pick o) ent_type (fun _ => uuid_enc_le uuid_nil));
    [apply sel_parts|by apply enc_ok| |done|done|eauto].
  apply select_body; [|by apply enc_ok|done]. by apply put_acts, uuid_enc_ok.
Qed.

(** Fgdisk rename sets the type of exactly the entries selected, in both copies, and
    changes nothing else but the checksums, which are right again. *)
Theorem change_name_edits s l total x y c o new_type :
  gpt_rep s l total x y c -> parts_ok l c -> uuid_ok (sel_type o) -> uuid_ok new_type ->
  exists s' c', change_name o new_type s = Some (tt, s') /\
    edited l (sel_pick o) ent_type (fun _ => uuid_enc_le new_type) c c' /\
    outcome s l total x y (some_picked l (sel_pick o) c) c c' s'.
Proof.
  intros Hrep Hparts Ho Hnew.
  enough (wp (change_name o new_type) s (fun _ s' => exists c', edited l (sel_pick o) ent_type
    (fun _ => uuid_enc_le new_type) c c' /\
    outcome s l total x y (some_picked l (sel_pick o) c) c c' s'))
    as ([] & s' & E & c' & H)%wp_elim by eauto.
  eapply (wp_command (sel_pick o) ent_type (fun _ => uuid_enc_le new_type));
    [apply sel_parts|by apply enc_ok| |done|done|eauto].
  apply select_body; [|by apply enc_ok|done]. by apply put_acts, uuid_enc_ok.
Qed.

(** Fgdisk label writes the name, converted by [utf8_to_utf16], into exactly the
    entries selected, in both copies; a well-formed name that fits is stored as its
    UTF-16 encoding and a NUL, over the units that were there. *)
Theorem label_edits s l total x y c o name r :
  gpt_rep s l total x y c -> parts_ok l c -> uuid_ok (sel_type o) ->
  Forall (fun z => z <> 0) name ->
  (exists s' c', label o (name ++ 0 :: r) s = Some (tt, s') /\
    edited l (sel_pick o) ent_name (name_val (name ++ 0 :: r)) c c' /\
    outcome s l total x y (some_picked l (sel_pick o) c) c c' s') /\
  (forall cs d, name = concat (map utf8 cs) -> Forall scalar cs ->
    length d = width_ent ent_name ->
    (length (concat (map utf16 cs)) < nelem_ent_name)%nat ->
    name_val (name ++ 0 :: r) d = unit_bytes (concat (map utf16 cs) ++
      0 :: drop (length (concat (map utf16 cs)) + 1) (units d))).
Proof.
  intros Hrep Hparts Ho Hname. split.
  - enough (wp (label o (name ++ 0 :: r)) s (fun _ s' => exists c', edited l (sel_pick o) ent_name
      (name_val (name ++ 0 :: r)) c c' /\
      outcome s l total x y (some_picked l (sel_pick o) c) c c' s'))
      as ([] & s' & E & c' & H)%wp_elim by eauto.
    eapply (wp_command (sel_pick o) ent_name (name_val (name ++ 0 :: r)));
      [apply sel_parts|by apply name_ok| |done|done|eauto].
    apply select_body; [by apply name_acts|by apply name_ok|done].
  - intros cs d -> Hcs Hd Hlen. unfold name_val.
    pose proof (length_units nelem_ent_name d Hd) as L.
    rewrite utf8_to_utf16_eq by (done || lia). unfold filled.
    by rewrite length_app, <- app_assoc.
Qed.

(** Fgdisk flag sets, then toggles, then clears the attribute bits given, in both
    copies of exactly the entry selected. *)
Theorem change_flags_edits s l total x y c entry set toggle unset :
  gpt_rep s l total x y c -> parts_ok l c -> u64 set = set -> u64 toggle = toggle ->
  (exists s' c', change_flags entry set toggle unset s = Some (tt, s') /\
    edited l (flag_pick entry) ent_attr (flags_val set toggle unset) c c' /\
    outcome s l total x y (some_picked l (flag_pick entry) c) c c' s') /\
  forall d i, 0 <= i < 64 ->
    Z.testbit (le_dec (flags_val set toggle unset d)) i =
    xorb (Z.testbit (le_dec d) i || Z.testbit set i) (Z.testbit toggle i) &&
    negb (Z.testbit unset i).
Proof.
  intros Hrep Hparts Hs Ht. split.
  - enough (wp (change_flags entry set toggle unset) s (fun _ s' => exists c',
      edited l (flag_pick entry) ent_attr (flags_val set toggle unset) c c' /\
      outcome s l total x y (some_picked l (flag_pick entry) c) c c' s'))
      as ([] & s' & E & c' & H)%wp_elim by eauto.
    eapply (wp_command (flag_pick entry) ent_attr (flags_val set toggle unset)); [|apply flags_ok|by apply change_flags_body|done|done|eauto].
    intros v d [H _]%andb_prop. exact H.
  - intros d i Hi. unfold flags_val. rewrite le_dec_enc. change (256 ^ Z.of_nat 8) with (2 ^ 64).
    rewrite Z.mod_pow2_bits_low by lia. rewrite Z.land_spec, Z.lxor_spec, Z.lor_spec.
    f_equal. unfold u64. rewrite Z.mod_pow2_bits_low by lia. apply Z.lnot_spec. lia.
Qed.
End theorems.

(** ** On the example device: its one entry has the type of a UFS partition *)
Definition ex_all : sel := Sel uuid_nil 0 0 0.

Lemma ex_nil_ok : uuid_ok (sel_type ex_all).
Proof. split; [by repeat constructor|done]. Qed.

Lemma rem_edits_witness : exists s' c', rem ex_all ex_gpt_store = Some (tt, s') /\
  edited ex_gpt_list (sel_pick ex_all) ent_type (fun _ => uuid_nil) ex_contents c' /\
  outcome ex_gpt_store ex_gpt_list 9 ex_pri ex_sec true ex_contents c' s'.
Proof.
  exact (rem_edits ex_gpt_store ex_gpt_list 9 ex_pri ex_sec ex_contents ex_all
    ex_gpt_rep ex_parts_ok ex_nil_ok).
Defined.

Lemma ex_kind_uuid k : uuid_ok (ex_kind k).
Proof. exact (@ent_kind_ok ex_gpt ex_laws k). Qed.

Lemma change_name_edits_witness : exists s' c',
  change_name (Sel uuid_nil 4 0 0) (ex_kind LINUX_DATA) ex_gpt_store = Some (tt, s') /\
  edited ex_gpt_list (sel_pick (Sel uuid_nil 4 0 0)) ent_type
    (fun _ => uuid_enc_le (ex_kind LINUX_DATA)) ex_contents c' /\
  outcome ex_gpt_store ex_gpt_list 9 ex_pri ex_sec true ex_contents c' s'.
Proof.
  exact (change_name_edits ex_gpt_store ex_gpt_list 9 ex_pri ex_sec ex_contents
    (Sel uuid_nil 4 0 0) (ex_kind LINUX_DATA) ex_gpt_rep ex_parts_ok ex_nil_ok
    (ex_kind_uuid LINUX_DATA)).
Defined.

Lemma ex_name_ok : Forall (fun z => z <> 0) [97; 98].
Proof. by repeat constructor. Qed.

Lemma label_edits_witness : exists s' c',
  label (Sel uuid_nil 0 0 1) ([97; 98] ++ 0 :: []) ex_gpt_store = Some (tt, s') /\
  edited ex_gpt_list (sel_pick (Sel uuid_nil 0 0 1)) ent_name
    (name_val ([97; 98] ++ 0 :: [])) ex_contents c' /\
  outcome ex_gpt_store ex_gpt_list 9 ex_pri ex_sec true ex_contents c' s'.
Proof.
  exact (proj1 (label_edits ex_gpt_store ex_gpt_list 9 ex_pri ex_sec ex_contents
    (Sel uuid_nil 0 0 1) [97; 98] [] ex_gpt_rep ex_parts_ok ex_nil_ok ex_name_ok)).
Defined.

Lemma change_flags_edits_witness : exists s' c',
  change_flags 1 4 8 1 ex_gpt_store = Some (tt, s') /\
  edited ex_gpt_list (flag_pick 1) ent_attr (flags_val 4 8 1) ex_contents c' /\
  outcome ex_gpt_store ex_gpt_list 9 ex_pri ex_sec true ex_contents c' s'.
Proof.
  exact (proj1 (change_flags_edits ex_gpt_store ex_gpt_list 9 ex_pri ex_sec ex_contents
    1 4 8 1 ex_gpt_rep ex_parts_ok eq_refl eq_refl)).
Defined.
