(* ===== verification/GptAdd.v ===== *)
(** * GptAdd: adding a partition (sbin/fgdisk/add.c)

    [gpt_add_part] finds a free entry, takes sectors from the media map with [map_alloc],
    and fills the entry in in both copies of the table.  The options, static variables of
    the file, are arguments. *)
From Stdlib Require Import ZArith Lia.
From stdpp Require Import base list option gmap.
From S2P Require Import Prelude Dll Gd MediaMap Crc32 CMem Stand Utf GptIo GptRep GptSpec.
From S2P Require Import GptExample GptEdit.
Open Scope Z_scope.

Section code.
Context {os : Os} {gpt : SysGpt} {uu : Uuid}.

(** [for (; i < le32toh(hdr->hdr_entries); i++)]: the first free slot, with [n] of them
    left to look at. *)
Fixpoint find_free (n : nat) (tbl : ptr) (sz i : Z) : St store Z :=
  match n with
  | O => mret i
  | S n =>
    uuid ← ent_get (ptr_add tbl (u32 (i * sz))) ent_type;
    if uuid_nilb (uuid_dec_le uuid) then mret i else find_free n tbl sz (i + 1)
  end.

(** What is stored into the entry at [ent]. *)
Definition put_part (map : loc) (type : list Z) (name : option (list Z)) (ent : ptr)
    : St store unit :=
  ent_put ent ent_type (uuid_enc_le type);;
  nd ← load map;
  ent_put ent ent_lba_start (le_enc 8 (map_start nd));;
  ent_put ent ent_lba_end (le_enc 8 (s64 (s64 (map_start nd + map_size nd) - 1)));;
  match name with
  | Some name => put_name name ent
  | None => mret tt
  end.

(** The region, or NULL, and [*entry]. *)
Definition gpt_add_part (type : list Z) (align start : Z) (name : option (list Z))
    (size entry : Z) : St store (option loc * Z) :=
  hdr ← gpt_gethdr;
  if decide (hdr = PNull) then mret (None, entry)
  else
    n ← hdr_get hdr hdr_entries;
    if n <? entry then mret (None, entry)
    else
      tbl ← gd_data gd_tbl;
      sz ← hdr_get hdr hdr_entsz;
      slot ←
        (if 0 <? entry then
           let i := u32 (entry - 1) in
           uuid ← ent_get (ptr_add tbl (u32 (i * sz))) ent_type;
           mret (if uuid_nilb (uuid_dec_le uuid) then Some i else None)
         else
           i ← find_free (Z.to_nat n) tbl sz 0;
           mret (if i =? n then None else Some i));
      match slot with
      | None => mret (None, entry)
      | Some i =>
        g ← gets s_gd;
        map ←
          (if 0 <? align then map_alloc start size (Z.quot align (gd_secsz g))
           else map_alloc start size 0);
        match map with
        | None => mret (None, entry)
        | Some map =>
          edit_both (put_part map type name) hdr (ptr_add tbl (u32 (i * sz))) i;;
          mret (Some map, u32 (i + 1))
        end
      end.

Definition add (add_type : list Z) (add_align add_block : Z) (add_name : option (list Z))
    (add_size add_entry : Z) : St store unit :=
  '(map, index) ←
    gpt_add_part add_type add_align add_block add_name add_size add_entry;
  match map with
  | None => mret tt
  | Some _ => gpt_status
  end.
End code.

(** ** The entry chosen, and the entry filled in *)
Section spec.
Context {os : Os} {gpt : SysGpt} {laws : SysGptLaws} {uu : Uuid} {uul : UuidLaws}.
Implicit Types (s : store) (c : contents) (l : segs) (h t d : list Z) (x y : half).

Lemma dec_nil d : uuid_ok d -> uuid_dec_le d = uuid_nil <-> d = uuid_nil.
Proof.
  intros Hd. assert (uuid_ok uuid_nil) as Hn by (split; [by repeat constructor|done]). split.
  - intros E. by rewrite <- (uuid_enc_dec d Hd), E, uuid_enc_nil.
  - intros ->. by rewrite <- uuid_enc_nil at 1; rewrite uuid_dec_enc.
Qed.

(** The entry [i] of a table is unused. *)
Definition unused_ent h t (i : Z) : bool := bool_decide (eget i ent_type h t = uuid_nil).

(** The entry [gpt_add_part] takes, of the primary table: the one asked for, or the
    first unused one. *)
Definition free_slot h t (entry : Z) : option Z :=
  if hget hdr_entries h <? entry then None
  else if 0 <? entry then (if unused_ent h t (entry - 1) then Some (entry - 1) else None)
  else List.find (unused_ent h t) (Z.of_nat <$> seq 0 (Z.to_nat (hget hdr_entries h))).

(** Both tables have room for the entries their headers announce, and announce as many. *)
Record tables_ok c : Prop := {
  tk_pri : Z.of_nat sizeof_gpt_ent <= hget hdr_entsz c.1.1;
  tk_sec : Z.of_nat sizeof_gpt_ent <= hget hdr_entsz c.2.1;
  tk_pri_size : hget hdr_entries c.1.1 * hget hdr_entsz c.1.1 < 2 ^ 32;
  tk_sec_size : hget hdr_entries c.2.1 * hget hdr_entsz c.2.1 < 2 ^ 32;
  tk_same : hget hdr_entries c.2.1 = hget hdr_entries c.1.1;
}.

Lemma ent_in_half h t i : half_ok h t -> Z.of_nat sizeof_gpt_ent <= hget hdr_entsz h ->
  hget hdr_entries h * hget hdr_entsz h < 2 ^ 32 -> 0 <= i < hget hdr_entries h ->
  ent_in i h t.
Proof.
  intros [Hb _ _ _ Ht] Hsz Hlt Hi. pose proof (hget_bound hdr_entsz h Hb).
  unfold tbl_bytes in Ht. rewrite u32_small in Ht by nia.
  split; [lia|]. split; nia.
Qed.

Lemma tables_in c i : halves_ok c -> tables_ok c -> 0 <= i < hget hdr_entries c.1.1 ->
  both_in i c.
Proof.
  intros [H1 H2] [T1 T2 T3 T4 T5] Hi. split; apply ent_in_half; try done. by rewrite T5.
Qed.

(** Entry [i] after it was filled in for the region [v]. *)
Definition part_put (i : Z) (v : seg) (type : list Z) (name : option (list Z)) h t : list Z :=
  let t := eset i ent_type (uuid_enc_le type) h t in
  let t := eset i ent_lba_start (le_enc 8 (sg_start v)) h t in
  let t := eset i ent_lba_end (le_enc 8 (sg_end v - 1)) h t in
  match name with
  | Some name => fset i ent_name (name_val name) h t
  | None => t
  end.

(** A name is a NUL-terminated string. *)
Definition name_str (name : option (list Z)) : Prop :=
  match name with
  | Some n => exists a r : list Z, n = a ++ 0 :: r /\ Forall (fun z : Z => z <> 0) a
  | None => True
  end.

Lemma eset_op i f v : length v = width_ent f -> bytes_ok v -> table_op i (eset i f v).
Proof. intros Hl Hb h t Hok Hi. by apply eset_half_ok. Qed.

Lemma table_op_seq i F G : table_op i F -> table_op i G -> table_op i (fun h t => G h (F h t)).
Proof.
  intros HF HG h t Hok Hi. destruct (HF h t Hok Hi) as [F1 F2].
  destruct (HG h (F h t) F1) as [G1 G2]; [by unfold ent_in in *; rewrite F2|].
  split; [done|congruence].
Qed.

Lemma part_put_op i v type name : uuid_ok type -> name_str name ->
  table_op i (part_put i v type name).
Proof.
  intros Ht Hn. unfold part_put.
  apply (table_op_seq i (fun h t => eset i ent_type (uuid_enc_le type) h t)
    (fun h t => let t := eset i ent_lba_start (le_enc 8 (sg_start v)) h t in
      let t := eset i ent_lba_end (le_enc 8 (sg_end v - 1)) h t in
      match name with Some name => fset i ent_name (name_val name) h t | None => t end)).
  { destruct (uuid_enc_ok type Ht). by apply eset_op. }
  apply (table_op_seq i (fun h t => eset i ent_lba_start (le_enc 8 (sg_start v)) h t)
    (fun h t => let t := eset i ent_lba_end (le_enc 8 (sg_end v - 1)) h t in
      match name with Some name => fset i ent_name (name_val name) h t | None => t end)).
  { apply eset_op; [apply length_le_enc|apply le_enc_bytes]. }
  apply (table_op_seq i (fun h t => eset i ent_lba_end (le_enc 8 (sg_end v - 1)) h t)
    (fun h t =>
      match name with Some name => fset i ent_name (name_val name) h t | None => t end)).
  { apply eset_op; [apply length_le_enc|apply le_enc_bytes]. }
  destruct name as [n|]; [|by intros h t].
  destruct Hn as (a & r & -> & Hl). intros h t Hok Hi. apply fset_ok; try done.
  by apply name_ok.
Qed.

(** Field [g], that was [d], of the entry filled in. *)
Definition part_field (v : seg) (type : list Z) (name : option (list Z)) (g : ent_field)
    (d : list Z) : list Z :=
  match g with
  | ent_type => uuid_enc_le type
  | ent_lba_start => le_enc 8 (sg_start v)
  | ent_lba_end => le_enc 8 (sg_end v - 1)
  | ent_name => match name with Some n => name_val n d | None => d end
  | ent_uuid | ent_attr => d
  end.

(** Writing fields one after another. *)
Lemma eget_eset_if i j f g v h t : half_ok h t -> ent_in i h t -> ent_in j h t ->
  length v = width_ent f -> Z.of_nat sizeof_gpt_ent <= hget hdr_entsz h ->
  eget j g h (eset i f v h t) =
  if bool_decide (j = i /\ g = f) then v else eget j g h t.
Proof.
  intros [] Hi Hj Hv Hsz. case_bool_decide as E.
  - destruct E as [-> ->]. by apply eget_eset.
  - apply eget_eset_ne; try done. intros [= -> ->]. by apply E.
Qed.

Lemma part_put_get i v type name h t j g : half_ok h t -> ent_in i h t -> ent_in j h t ->
  uuid_ok type -> name_str name -> Z.of_nat sizeof_gpt_ent <= hget hdr_entsz h ->
  eget j g h (part_put i v type name h t) =
  if j =? i then part_field v type name g (eget j g h t) else eget j g h t.
Proof.
  intros Hok Hi Hj Ht Hn Hsz. unfold part_put. destruct (uuid_enc_ok type Ht) as [U1 U2].
  set (t1 := eset i ent_type _ h t).
  destruct (eset_half_ok i ent_type (uuid_enc_le type) h t Hok Hi U2 U1) as [K1 L1]. fold t1 in K1, L1.
  assert (forall k, ent_in k h t -> ent_in k h t1) as I1 by (intros k; unfold ent_in; by rewrite L1).
  set (t2 := eset i ent_lba_start _ h t1).
  destruct (eset_half_ok i ent_lba_start (le_enc 8 (sg_start v)) h t1 K1 (I1 _ Hi)
    ltac:(apply length_le_enc) ltac:(apply le_enc_bytes)) as [K2 L2]. fold t2 in K2, L2.
  assert (forall k, ent_in k h t -> ent_in k h t2) as I2
    by (intros k; unfold ent_in; by rewrite L2, L1).
  set (t3 := eset i ent_lba_end _ h t2).
  destruct (eset_half_ok i ent_lba_end (le_enc 8 (sg_end v - 1)) h t2 K2 (I2 _ Hi)
    ltac:(apply length_le_enc) ltac:(apply le_enc_bytes)) as [K3 L3]. fold t3 in K3, L3.
  assert (forall k, ent_in k h t -> ent_in k h t3) as I3
    by (intros k; unfold ent_in; by rewrite L3, L2, L1).
  assert (forall g, eget j g h t3 = if j =? i then part_field v type None g (eget j g h t)
    else eget j g h t) as E3.
  { intros g'. unfold t3. rewrite eget_eset_if by (auto || apply length_le_enc).
    unfold t2. rewrite eget_eset_if by (auto || apply length_le_enc).
    unfold t1. rewrite eget_eset_if by auto.
    destruct (Z.eqb_spec j i) as [->|Hne]; [|by repeat (case_bool_decide; [tauto|])].
    by destruct g'; repeat (case_bool_decide; [by destruct_and?|]); repeat case_bool_decide;
      try done; naive_solver. }
  destruct name as [n|]; [|by rewrite E3; destruct g].
  destruct Hn as (a & r & -> & Ha). unfold fset.
  destruct (name_ok a r Ha (eget i ent_name h t3)) as [N1 N2].
  { apply bytes_ok_sub, K3. }
  { apply length_eget; auto. }
  rewrite eget_eset_if by auto. rewrite !E3.
  case_bool_decide as E.
  - destruct E as [-> ->]. rewrite Z.eqb_refl.
    assert (eget i ent_name h t3 = eget i ent_name h t) as ->; [|done].
    revert E3. destruct (Z.eqb_spec i i); [|done]. intros E3. apply (E3 ent_name).
  - destruct (Z.eqb_spec j i) as [->|]; [|done]. destruct g; try done. tauto.
Qed.

Lemma part_put_acts M i m nd type name : M !! m = Some nd ->
  0 <= map_start nd -> 0 < map_size nd -> map_start nd + map_size nd < 2 ^ 62 ->
  uuid_ok type -> name_str name ->
  acts_with M i (part_put i (seg_of nd) type name) (put_part m type name).
Proof.
  intros Hm B1 B2 B3 Ht Hn b h t s Q HM Hok Hi Hb HQ. subst M. unfold put_part, part_put in *.
  destruct (uuid_enc_ok type Ht) as [U1 U2]. pose proof Hok as [].
  apply wp_bind, (wp_ent_put s b ent_type i h t); [done..|].
  set (t1 := eset i ent_type _ h t) in *.
  destruct (eset_half_ok i ent_type (uuid_enc_le type) h t Hok Hi U2 U1) as [K1 L1]. fold t1 in K1, L1.
  assert (ent_in i h t1) as I1 by (unfold ent_in; by rewrite L1).
  apply wp_bind, (wp_load m nd); [done|].
  apply wp_bind. eapply (wp_ent_put _ b ent_lba_start i h t1);
    [done|done|apply bufs_insert|apply length_le_enc|]. rewrite on_bufs_insert_insert.
  cbn [sg_start seg_of] in HQ. set (t2 := eset i ent_lba_start _ h t1) in *.
  destruct (eset_half_ok i ent_lba_start (le_enc 8 (map_start nd)) h t1 K1 I1
    ltac:(apply length_le_enc) ltac:(apply le_enc_bytes)) as [K2 L2]. fold t2 in K2, L2.
  assert (ent_in i h t2) as I2 by (unfold ent_in; by rewrite L2, L1).
  unfold sg_end in HQ. cbn [sg_start sg_size seg_of] in HQ.
  rewrite (s64_small (map_start nd + map_size nd)), s64_small by lia.
  apply wp_bind. eapply (wp_ent_put _ b ent_lba_end i h t2);
    [done|done|apply bufs_insert|apply length_le_enc|]. rewrite on_bufs_insert_insert.
  set (t3 := eset i ent_lba_end _ h t2) in *.
  destruct (eset_half_ok i ent_lba_end (le_enc 8 (map_start nd + map_size nd - 1)) h t2 K2 I2
    ltac:(apply length_le_enc) ltac:(apply le_enc_bytes)) as [K3 L3]. fold t3 in K3, L3.
  assert (ent_in i h t3) as I3 by (unfold ent_in; by rewrite L3, L2, L1).
  destruct name as [n|]; [|by apply wp_ret]. destruct Hn as (a & r & -> & Ha).
  eapply (name_acts a r Ha _ i b h t3); [reflexivity|done|done|apply bufs_insert|].
  by rewrite on_bufs_insert_insert.
Qed.

Lemma wp_find_free n : forall k s tb h t N (Q : Z -> store -> Prop),
  half_ok h t -> s_bufs s !! tb = Some t -> N = Z.of_nat (k + n) ->
  (forall i, 0 <= i < N -> ent_in i h t) ->
  Q (default N (List.find (unused_ent h t) (Z.of_nat <$> seq k n))) s ->
  wp (find_free n (PBuf tb 0) (hget hdr_entsz h) (Z.of_nat k)) s Q.
Proof.
  induction n as [|n IH]; intros k s tb h t N Q Hok Hb HN Hin HQ; cbn [find_free].
  { apply wp_ret. simpl in HQ. by rewrite HN, Nat.add_0_r in HQ. }
  pose proof (Hin (Z.of_nat k) ltac:(lia)) as Hi. pose proof Hok as [].
  pose proof (hget_bound hdr_entsz h ltac:(done)). cbn [ptr_add]. rewrite Z.add_0_l.
  destruct (Hi) as (_ & Hlt & _).
  rewrite u32_small by (split; [apply Z.mul_nonneg_nonneg; lia|exact Hlt]).
  apply wp_bind, (wp_ent_get s tb ent_type (Z.of_nat k) h t); [done..|].
  set (d := eget (Z.of_nat k) ent_type h t).
  assert (uuid_ok d) as Hd by (split; [by apply bytes_ok_sub|by apply length_eget]).
  assert (uuid_nilb (uuid_dec_le d) = unused_ent h t (Z.of_nat k)) as ->.
  { rewrite uuid_nilb_eq by by apply uuid_dec_ok. unfold unused_ent. fold d.
    apply bool_decide_ext. apply dec_nil, Hd. }
  cbn [seq fmap list_fmap List.find] in HQ. destruct (unused_ent h t (Z.of_nat k)).
  - by apply wp_ret.
  - replace (Z.of_nat k + 1) with (Z.of_nat (S k)) by lia.
    apply (IH (S k) s tb h t N); try done. lia.
Qed.
End spec.

(** ** The command *)
Section theorems.
Context {os : Os} {gpt : SysGpt} {laws : SysGptLaws} {uu : Uuid} {uul : UuidLaws}.
Implicit Types (s : store) (c : contents) (l : segs) (x y : half).

(** A change of the map that keeps the regions of the GPT keeps the representation. *)
Lemma gpt_rep_map s s' l l' total x y c : gpt_rep s l total x y c ->
  map_ok s' l' total -> others_kept l l' -> s_bufs s' = s_bufs s -> s_disk s' = s_disk s ->
  s_gd s' = set_gd_mediamap (gd_mediamap (s_gd s')) (s_gd s) ->
  gpt_rep s' l' total x y c /\ (linked s x y -> linked s' x y).
Proof.
  intros [Hm [] [] Ha Hz Hd] Hm' Ho Eb Ed Eg.
  assert (gd_secsz (s_gd s') = gd_secsz (s_gd s)) as Ez by (by rewrite Eg).
  split; [|unfold linked; by rewrite Eg].
  split; [done|split..| | |]; rewrite ?Eb, ?Ez, ?Ed, ?Ho; done.
Qed.

(** What the selection of an entry, by number or as the first free one, gives. *)
Lemma wp_slot s l total x y c entry (Q : option Z -> store -> Prop) :
  gpt_rep s l total x y c -> tables_ok c -> 0 <= entry <= hget hdr_entries c.1.1 ->
  (forall i, free_slot c.1.1 c.1.2 entry = Some i -> both_in i c) ->
  Q (free_slot c.1.1 c.1.2 entry) s ->
  wp (if 0 <? entry then
        let i := u32 (entry - 1) in
        uuid ← ent_get (ptr_add (PBuf (hf_tb x) 0) (u32 (i * hget hdr_entsz c.1.1))) ent_type;
        mret (if uuid_nilb (uuid_dec_le uuid) then Some i else None)
      else
        i ← find_free (Z.to_nat (hget hdr_entries c.1.1)) (PBuf (hf_tb x) 0)
              (hget hdr_entsz c.1.1) 0;
        mret (if i =? hget hdr_entries c.1.1 then None else Some i)) s Q.
Proof.
  intros Hrep Htk He Hin HQ. pose proof (rep_halves _ _ _ _ _ _ Hrep) as Hh.
  pose proof (gr_pri _ _ _ _ _ _ Hrep) as []. pose proof ha_ok as [].
  pose proof (hget_bound hdr_entries c.1.1 ltac:(done)) as Hn.
  change (256 ^ Z.of_nat (width_hdr hdr_entries)) with (2 ^ 32) in Hn.
  unfold free_slot in *. destruct (Z.ltb_spec (hget hdr_entries c.1.1) entry); [lia|].
  destruct (Z.ltb_spec 0 entry) as [He0|He0].
  - destruct (tables_in c (entry - 1) Hh Htk ltac:(lia)) as [I1 I2].
    pose proof I1 as (_ & Hlt & _). pose proof (hget_bound hdr_entsz c.1.1 ltac:(done)).
    cbv zeta. rewrite (u32_small (entry - 1)) by lia.
    rewrite (u32_small (_ * _)) by (split; [apply Z.mul_nonneg_nonneg; lia|exact Hlt]).
    cbn [ptr_add]. rewrite Z.add_0_l.
    apply wp_bind, (wp_ent_get s _ ent_type (entry - 1) c.1.1 c.1.2); [done..|].
    apply wp_ret. set (d := eget _ _ _ _).
    assert (uuid_ok d) as Hd by (split; [by apply bytes_ok_sub|by apply length_eget]).
    assert (uuid_nilb (uuid_dec_le d) = unused_ent c.1.1 c.1.2 (entry - 1)) as ->; [|exact HQ].
    rewrite uuid_nilb_eq by by apply uuid_dec_ok. apply bool_decide_ext. apply dec_nil, Hd.
  - apply wp_bind. apply (wp_find_free _ 0%nat s _ _ c.1.2 (hget hdr_entries c.1.1)); try done.
    + simpl. by rewrite Z2Nat.id by lia.
    + intros i Hi. by apply tables_in.
    + apply wp_ret. destruct (List.find _ _) as [i|] eqn:Ef; simpl default.
      * apply List.find_some in Ef as [Ef _]. apply list_elem_of_In, list_elem_of_fmap in Ef.
        destruct Ef as (k & -> & [_ Hk]%elem_of_seq).
        destruct (Z.eqb_spec (Z.of_nat k) (hget hdr_entries c.1.1)); [lia|exact HQ].
      * by rewrite Z.eqb_refl.
Qed.

(** The entry chosen lies in both tables. *)
Lemma free_slot_in c entry i : halves_ok c -> tables_ok c -> 0 <= entry ->
  free_slot c.1.1 c.1.2 entry = Some i ->
  both_in i c /\ 0 <= i < 2 ^ 32 - 1.
Proof.
  intros Hh Htk He. unfold free_slot. pose proof Hh as [[] _].
  pose proof (hget_bound hdr_entries c.1.1 ltac:(done)) as Hn.
  change (256 ^ Z.of_nat (width_hdr hdr_entries)) with (2 ^ 32) in Hn.
  destruct (Z.ltb_spec (hget hdr_entries c.1.1) entry); [done|].
  destruct (Z.ltb_spec 0 entry).
  - case_match; [|done]. intros [= <-]. split; [apply tables_in; try done; lia|lia].
  - intros [Ef _]%List.find_some. apply list_elem_of_In, list_elem_of_fmap in Ef.
    destruct Ef as (k & -> & [_ Hk]%elem_of_seq). split; [apply tables_in; try done; lia|lia].
Qed.

(** The alignment in sectors. *)
Definition align_secs (align secsz : Z) : Z := if 0 <? align then Z.quot align secsz else 0.

(** The outcome of [gpt_add_part] once the entry [i] was chosen: [r] and [e] returned,
    the map [l'] left. *)
Definition part_added s l total x y c (i : Z) (type : list Z) (name : option (list Z))
    (entry : Z) (r : option loc) (e : Z) l' s' : Prop :=
  match r with
  | None => e = entry /\ gpt_rep s' l' total x y c /\ s_disk s' = s_disk s
  | Some m => e = i + 1 /\ exists v c',
      (m, v) ∈ l' /\ sg_type v = MAP_TYPE_GPT_PART /\ gpt_rep s' l' total x y c' /\
      (forall j g, both_in j c ->
        eget j g c'.1.1 c'.1.2 = (if j =? i then part_field v type name g (eget j g c.1.1 c.1.2)
          else eget j g c.1.1 c.1.2) /\
        eget j g c'.2.1 c'.2.2 = (if j =? i then part_field v type name g (eget j g c.2.1 c.2.2)
          else eget j g c.2.1 c.2.2)) /\
      sealed c'.1.1 c'.1.2 /\ sealed c'.2.1 c'.2.2 /\ (writable s -> synced s' x y c')
  end.

Lemma wp_add_part_put s s1 l l' total x y c i type name m entry
    (Q : option loc * Z -> store -> Prop) start size al :
  gpt_rep s1 l' total x y c -> linked s1 x y -> tables_ok c -> both_in i c ->
  0 <= i < 2 ^ 32 - 1 -> uuid_ok type -> name_str name ->
  (writable s -> writable s1) ->
  alloc_post l total start size al (Some m) l' ->
  (forall e s', part_added s l total x y c i type name entry (Some m) e l' s' ->
    map_ok s' l' total -> Q (Some m, e) s') ->
  wp (edit_both (put_part m type name) (PBuf (hf_hb x) 0)
        (PBuf (hf_tb x) (i * hget hdr_entsz c.1.1)) i;; mret (Some m, u32 (i + 1))) s1 Q.
Proof.
  intros Hrep Hlink Htk Hi Hib Htype Hname Hw [_ (p & sz & idx & w & Hin & _)] HQ.
  pose proof (rep_halves _ _ _ _ _ _ Hrep) as [H1 H2].
  destruct (gr_map _ _ _ _ _ _ Hrep) as (Hmap & Ht & Htot).
  destruct (rep_node s1 l' m _ Hmap Hin) as (nd & Hnd & Hv).
  destruct (tiles_in _ _ _ _ _ Ht Hin) as (B1 & B2 & B3).
  set (v := Seg p sz MAP_TYPE_GPT_PART idx PNull 0) in *.
  assert (map_start nd = sg_start v /\ map_size nd = sg_size v) as [Es Ez] by (by rewrite <- Hv).
  unfold sg_end in B3. apply wp_bind.
  eapply (wp_edit_with s1 l' total x y c i (part_put i v type name)); try done.
  - rewrite <- Hv. eapply part_put_acts; try done; lia.
  - by apply part_put_op.
  - intros s2 Hrep2 Hlink2 Hed2 Hsync. apply wp_ret, HQ; [|apply Hrep2].
    split; [by rewrite u32_small by lia|].
    exists v, (edit_with (part_put i v type name) c). unfold edit_with. cbn [fst snd].
    pose proof Hi as [I1 I2].
    destruct (part_put_op i v type name Htype Hname _ _ H1 I1) as [O1 _].
    destruct (part_put_op i v type name Htype Hname _ _ H2 I2) as [O2 _].
    split_and!; try done.
    + intros j g [J1 J2]. rewrite !eget_seal by (apply H1 || apply H2).
      rewrite !part_put_get by (done || apply Htk). done.
    + by apply seal_sealed.
    + by apply seal_sealed.
    + intros Hws. by apply Hsync, Hw.
Qed.

End theorems.

(** ** On the example device, whose table has one free entry and one free sector *)
Lemma ex_tables_ok : tables_ok ex_contents.
Proof. by split; vm_compute. Qed.

