(* ===== verification/GptResize.v ===== *)
(** * GptResize: resizing a partition (sbin/fgdisk/resize.c)

    [resize] looks up the entry of the number given, the region of the media map that has
    this number, resizes the region with [map_resize], and stores the new end into both
    copies of the entry.  The options are arguments. *)
From Stdlib Require Import ZArith Lia.
From stdpp Require Import base list option gmap.
From S2P Require Import Prelude Dll Gd MediaMap MapResize Crc32 CMem Stand GptIo GptRep.
From S2P Require Import GptSpec GptExample GptEdit GptAdd.
Open Scope Z_scope.

Section code.
Context {os : Os} {gpt : SysGpt} {uu : Uuid}.

(** [for (map = map_first(gd); map != NULL; map = map->map_next) if (entry ==
    map->map_index) break;] *)
Fixpoint index_loop (fuel : nat) (map : option loc) (entry : Z) : St store (option loc) :=
  match fuel with
  | O => ub
  | S fuel =>
    match map with
    | None => mret None
    | Some m =>
      nd ← load m;
      if entry =? map_index nd then mret (Some m) else index_loop fuel (map_next nd) entry
    end
  end.

(** [ent->ent_lba_end = htole64(map->map_start + newsize - 1LL);] *)
Definition put_end (map : loc) (newsize : Z) (ent : ptr) : St store unit :=
  nd ← load map;
  ent_put ent ent_lba_end (le_enc 8 (s64 (s64 (map_start nd + newsize) - 1))).

Definition resize (res_align size entry : Z) : St store unit :=
  hdr ← gpt_gethdr;
  if decide (hdr = PNull) then mret tt
  else
    let i := u32 (entry - 1) in
    tbl ← gd_data gd_tbl;
    sz ← hdr_get hdr hdr_entsz;
    let ent := ptr_add tbl (u32 (i * sz)) in
    uuid ← ent_get ent ent_type;
    if uuid_nilb (uuid_dec_le uuid) then mret tt
    else
      g ← gets s_gd;
      let alignsecs := Z.quot res_align (gd_secsz g) in
      fuel ← gets map_fuel; m ← map_first;
      map ← index_loop fuel m entry;
      match map with
      | None => mret tt
      | Some map =>
        nd ← load map;
        fits ←
          (if (0 <? size) && (size =? map_size nd) then
             if res_align =? 0 then mret true
             else if 0 <? res_align then
               if alignsecs =? 0 then ub else mret (Z.rem size alignsecs =? 0)
             else mret false
           else mret false);
        if fits : bool then mret tt
        else
          newsize ← map_resize map size alignsecs;
          if newsize =? -1 then mret tt
          else
            edit_both (put_end map newsize) hdr ent i;;
            gpt_status
      end.
End code.

(** ** [map_resize] leaves the buffers alone when unused regions own none *)
Section bufs.
Context {os : Os}.
Implicit Types s : store.

(** Partial correctness: whatever [m] returns from a state that satisfies [P]. *)
Definition returns {A} (P : store -> Prop) (m : St store A) (Q : A -> store -> Prop) : Prop :=
  forall s a s', P s -> m s = Some (a, s') -> Q a s'.

(** The buffers are [B], and neither an unused region nor [n] owns one. *)
Definition no_owner (B : gmap loc (list Z)) (n : option loc) s : Prop :=
  s_bufs s = B /\
  forall x nd, s_maps s !! x = Some nd -> map_type nd = MAP_TYPE_UNUSED \/ n = Some x ->
    map_alloc_flag nd = 0.

Lemma returns_bind {A B} P (m : St store A) (f : A -> St store B) Q R :
  returns P m Q -> (forall a, returns (Q a) (f a) R) -> returns P (m ≫= f) R.
Proof.
  intros Hm Hf s b s' HP E. unfold mbind, St_bind in E.
  destruct (m s) as [[a s1]|] eqn:Em; [|done]. eapply Hf; [|exact E]. by eapply Hm.
Qed.

Lemma returns_ret {A} P (a : A) : returns P (mret a) (fun _ => P).
Proof. by intros s b s' HP [= -> ->]. Qed.

Lemma returns_weaken {A} (P P' : store -> Prop) (m : St store A) Q :
  returns P m Q -> (forall s, P' s -> P s) -> returns P' m Q.
Proof. intros H HP s a s' Hs E. by eapply H; [apply HP|]. Qed.

Lemma returns_load P x : returns P (load x) (fun nd s => P s /\ s_maps s !! x = Some nd).
Proof.
  intros s a s' HP E. unfold load, of_opt in E.
  destruct (s_maps s !! x) eqn:Ex; [|done]. by simplify_eq/=.
Qed.

Lemma returns_update B n x f :
  (forall nd, map_type (f nd) = map_type nd /\ map_alloc_flag (f nd) = map_alloc_flag nd) ->
  returns (no_owner B n) (update x f) (fun _ => no_owner B n).
Proof.
  intros Hf s a s' [HB HN] E. unfold update in E.
  destruct (s_maps s !! x) as [nx|] eqn:Ex; simpl in E; [|done]. simplify_eq/=.
  split; [done|]. simpl. intros y nd Hy Ht. destruct (decide (x = y)) as [<-|Hne].
  - rewrite lookup_alter_eq, Ex in Hy. injection Hy as <-. destruct (Hf nx) as [F1 F2].
    rewrite F1 in Ht. rewrite F2. eauto.
  - rewrite lookup_alter_ne in Hy by done. eauto.
Qed.

Lemma returns_unlink B m n : returns (no_owner B (Some n)) (map_unlink m n) (fun _ => no_owner B None).
Proof.
  unfold map_unlink. eapply returns_bind; [apply returns_load|]. intros nn.
  eapply returns_weaken; [|by intros s [H _]; exact H].
  eapply returns_bind; [by apply returns_update|]. intros [].
  eapply returns_bind.
  { unfold link_prev. destruct (map_next nn); [by apply returns_update|apply returns_ret]. }
  intros []. unfold map_destroy. eapply returns_bind; [apply returns_load|].
  intros nd s a s' [[HB HN] Hn] E. pose proof (HN n nd Hn (or_intror eq_refl)) as Ha.
  rewrite Ha in E. unfold mbind, St_bind in E. simpl in E.
  unfold free_map in E. rewrite Hn in E. simpl in E. simplify_eq/=.
  split; [done|]. simpl. intros y nd' [_ Hy]%lookup_delete_Some [Ht|]; [|done]. eauto.
Qed.

Lemma no_owner_unused B s n nn : no_owner B None s -> s_maps s !! n = Some nn ->
  map_type nn = MAP_TYPE_UNUSED -> no_owner B (Some n) s.
Proof.
  intros [HB HN] Hn Ht. split; [done|]. intros x nd Hx [?|[= ->]]; eauto.
  assert (nd = nn) as -> by congruence. eauto.
Qed.

Lemma no_owner_forget B n s : no_owner B (Some n) s -> no_owner B None s.
Proof. intros [HB HN]. split; [done|]. intros x nd Hx [?|?]; eauto. done. Qed.

(** The steps of the branches of [map_resize]. *)
Lemma returns_take B n m (k : St store Z) :
  returns (no_owner B None) k (fun _ => no_owner B None) ->
  returns (no_owner B (Some n))
    (nn ← load n; (if map_size nn =? 0 then map_unlink m n else mret tt);; k)
    (fun _ => no_owner B None).
Proof.
  intros Hk. eapply returns_bind; [apply returns_load|]. intros nn.
  eapply returns_weaken; [|by intros s [H _]; exact H].
  eapply (returns_bind _ _ _ (fun _ => no_owner B None)); [|intros []; exact Hk].
  case_match; [apply returns_unlink|].
  intros s a s' Hs [= <- <-]. by eapply no_owner_forget.
Qed.

Lemma returns_if {A} P (b : bool) (m1 m2 : St store A) Q :
  (b = true -> returns P m1 Q) -> (b = false -> returns P m2 Q) ->
  returns P (if b then m1 else m2) Q.
Proof. intros H1 H2. destruct b; auto. Qed.

(** Reading the region after [m], which is unused past the test. *)
Lemma returns_next B n (k : map_node -> St store Z) r :
  (forall nn, map_type nn = MAP_TYPE_UNUSED ->
    returns (no_owner B (Some n)) (k nn) (fun _ => no_owner B None)) ->
  returns (no_owner B None)
    (nn ← load n; if negb (map_type nn =? MAP_TYPE_UNUSED) then mret r else k nn)
    (fun _ => no_owner B None).
Proof.
  intros Hk. eapply returns_bind; [apply returns_load|]. intros nn. cbn beta.
  destruct (Z.eqb_spec (map_type nn) MAP_TYPE_UNUSED) as [Ht|]; cbn [negb].
  - eapply returns_weaken; [by apply Hk|]. intros s [H Hn]. by eapply no_owner_unused.
  - eapply returns_weaken; [apply returns_ret|]. by intros s [H _].
Qed.

(** A [load] whose value is only used for tests. *)
Lemma returns_peek {A} P x (k : map_node -> St store A) Q :
  (forall nd, returns P (k nd) Q) -> returns P (nd ← load x; k nd) Q.
Proof.
  intros Hk. eapply returns_bind; [apply returns_load|]. intros nd.
  eapply returns_weaken; [apply Hk|]. by intros s [H _].
Qed.

Lemma returns_then {A} B n x f (k : St store A) Q :
  (forall nd, map_type (f nd) = map_type nd /\ map_alloc_flag (f nd) = map_alloc_flag nd) ->
  returns (no_owner B n) k Q -> returns (no_owner B n) (update x f;; k) Q.
Proof.
  intros Hf Hk. eapply returns_bind; [by apply returns_update|]. intros []. exact Hk.
Qed.

Lemma returns_coalesce B m al : returns (no_owner B None) (map_coalesce m al) (fun _ => no_owner B None).
Proof.
  unfold map_coalesce. apply returns_peek. intros md.
  destruct (map_next md) as [n|]; [|apply returns_ret].
  apply returns_next. intros nn _. apply returns_if; intros _.
  - apply returns_then; [done|]. eapply returns_bind; [apply returns_unlink|]. intros [].
    apply returns_ret.
  - apply returns_if; intros _.
    { intros s a s' Hs [= <- <-]. by eapply no_owner_forget. }
    do 3 (apply returns_then; [done|]). apply returns_take, returns_ret.
Qed.

Lemma returns_expand B m new : returns (no_owner B None) (map_expand m new) (fun _ => no_owner B None).
Proof.
  unfold map_expand. apply returns_peek. intros md.
  destruct (map_next md) as [n|]; [|apply returns_ret].
  apply returns_next. intros nn _. apply returns_if; intros _.
  { intros s a s' Hs [= <- <-]. by eapply no_owner_forget. }
  do 2 (apply returns_then; [done|]). apply returns_take.
  apply returns_then; [done|]. apply returns_ret.
Qed.

Lemma returns_create B start size :
  returns (no_owner B None) (map_create start size MAP_TYPE_UNUSED) (fun _ => no_owner B None).
Proof.
  intros s a s' [HB HN] E. unfold map_create, calloc_map in E.
  destruct (os_alloc (s_brk s)); simplify_eq/=; (split; [done|]); simpl; [|exact HN].
  intros x nd [[<- <-]|[_ Hx]]%lookup_insert_Some Ht; [done|]. by eapply HN.
Qed.

Lemma returns_shrink B m new : returns (no_owner B None) (map_shrink m new) (fun _ => no_owner B None).
Proof.
  unfold map_shrink. apply returns_peek. intros md. apply returns_then; [done|].
  eapply (returns_bind _ _ _ (fun _ => no_owner B None)).
  { destruct (map_next md) as [n|]; [|apply returns_ret].
    apply returns_peek. intros nn. apply returns_ret. }
  intros [[n nn]|].
  { do 2 (apply returns_then; [done|]). apply returns_ret. }
  eapply returns_bind; [apply returns_create|]. intros [o|]; [|apply returns_ret].
  do 3 (apply returns_then; [done|]). eapply (returns_bind _ _ _ (fun _ => no_owner B None)).
  { unfold link_prev. destruct (map_next md); [by apply returns_update|apply returns_ret]. }
  intros []. apply returns_ret.
Qed.

Lemma returns_resize B m size al :
  returns (no_owner B None) (map_resize m size al) (fun _ => no_owner B None).
Proof.
  unfold map_resize. apply returns_peek. intros md. apply returns_if; intros _; [apply returns_ret|].
  apply returns_if; intros _; [apply returns_coalesce|]. cbv zeta.
  apply returns_if; intros _; [apply returns_shrink|].
  apply returns_if; intros _; [apply returns_expand|apply returns_ret].
Qed.
End bufs.

(** ** The command *)
Section theorems.
Context {os : Os} {gpt : SysGpt} {laws : SysGptLaws} {uu : Uuid} {uul : UuidLaws}.
Implicit Types (s : store) (c : contents) (l : segs) (x y : half).

Lemma wp_index_loop fuel s p l entry (Q : option loc -> store -> Prop) :
  dll (s_maps s) p l None -> (length l < fuel)%nat ->
  Q (fst <$> List.find (fun nv => entry =? sg_index nv.2) l) s ->
  wp (index_loop fuel (first_of l None) entry) s Q.
Proof.
  revert fuel p. induction l as [|[n v] l IH]; intros [|fuel] p Hd Hf HQ;
    cbn [length] in Hf; try lia; [by apply wp_ret|].
  destruct Hd as [(nd & Hn & Hv & Hp & Hx) Hd]. simpl.
  apply wp_bind, (wp_load n nd); [done|]. simpl in HQ, Hx.
  assert (map_index nd = sg_index v) as -> by (by rewrite <- Hv).
  destruct (entry =? sg_index v); [by apply wp_ret|].
  rewrite Hx. eapply IH; [done|lia|done].
Qed.

Lemma find_at l1 m v l2 entry : Forall (fun nv => sg_index nv.2 <> entry) l1 ->
  sg_index v = entry ->
  List.find (fun nv : loc * seg => entry =? sg_index nv.2) (l1 ++ (m, v) :: l2) = Some (m, v).
Proof.
  intros H <-. induction H as [|[n w] l1 Hw _ IH]; simpl; [by rewrite Z.eqb_refl|].
  simpl in Hw. destruct (Z.eqb_spec (sg_index v) (sg_index w)); [by destruct Hw|done].
Qed.

(** Resizing a partition keeps the regions of the other types. *)
Lemma seg_resize_find k l1 m v l2 size al : sg_type v = MAP_TYPE_GPT_PART ->
  others_kept (l1 ++ (m, v) :: l2) (seg_resize_op k l1 m v l2 size al).2.
Proof.
  intros Hv t Hu Hg. unfold seg_resize_op.
  assert (forall a b r, seg_find t r = seg_find t l2 ->
    seg_find t (l1 ++ (m, seg_resize a b v) :: r) = seg_find t (l1 ++ (m, v) :: l2)) as K.
  { intros a b r Hr. rewrite !seg_find_app, !seg_find_cons. cbn [sg_type seg_resize].
    rewrite Hr, Hv. by destruct (Z.eqb_spec MAP_TYPE_GPT_PART t). }
  destruct (seg_unused l2) as [[[n w] l3]|] eqn:Eu.
  - apply seg_unused_some in Eu as [-> Hw].
    assert (seg_find t l3 = seg_find t ((n, w) :: l3)) as E3.
    { rewrite seg_find_cons. destruct (Z.eqb_spec (sg_type w) t); [congruence|done]. }
    assert (forall a b, seg_find t ((n, seg_resize a b w) :: l3) = seg_find t ((n, w) :: l3)) as E4
      by (intros a b; rewrite !seg_find_cons; cbn [sg_type seg_resize]; by rewrite Hw;
          destruct (Z.eqb_spec MAP_TYPE_UNUSED t); [congruence|]).
    unfold seg_grow. cbv zeta. repeat case_match; try done; cbn [snd]; apply K; done.
  - cbv zeta. repeat case_match; try done; cbn [snd]; apply K; [|done].
    rewrite seg_find_cons. cbn [sg_type]. by destruct (Z.eqb_spec MAP_TYPE_UNUSED t).
Qed.

Lemma put_end_acts M i m nd e : M !! m = Some nd ->
  0 <= map_start nd -> 0 <= e -> map_start nd + e < 2 ^ 62 ->
  acts_with M i (fset i ent_lba_end (fun _ => le_enc 8 (map_start nd + e - 1))) (put_end m e).
Proof.
  intros Hm B1 B2 B3 b h t s Q HM [] Hi Hb HQ. subst M. unfold put_end.
  apply wp_bind, (wp_load m nd); [done|].
  rewrite (s64_small (map_start nd + e)), s64_small by lia.
  apply (wp_ent_put s b ent_lba_end i h t); [done..|apply length_le_enc|exact HQ].
Qed.

Lemma end_ok e : val_ok ent_lba_end (fun _ => le_enc 8 e).
Proof. intros d _ _. split; [apply le_enc_bytes|apply length_le_enc]. Qed.

(** The region already has the size and the alignment asked for. *)
Definition fits_already (v : seg) (res_align size al : Z) : bool :=
  (0 <? size) && (size =? sg_size v) &&
  ((res_align =? 0) || ((0 <? res_align) && (Z.rem size al =? 0))).

Lemma no_owner_gd s f B : no_owner B None s -> no_owner B None (on_gd f s).
Proof. done. Qed.

Lemma wp_and {A} (m : St store A) s (P Q : A -> store -> Prop) :
  wp m s P -> wp m s Q -> wp m s (fun a s' => P a s' /\ Q a s').
Proof. unfold wp. destruct (m s) as [[a s']|]; auto. Qed.

(** [map_resize] with everything the rest of [resize] needs. *)
Lemma wp_resize_map s l1 m v l2 total x y c size al :
  gpt_rep s (l1 ++ (m, v) :: l2) total x y c -> linked s x y ->
  sg_type v = MAP_TYPE_GPT_PART -> no_owner (s_bufs s) None s ->
  match l2 with (n, w) :: _ => droppable s w | [] => True end ->
  size < 2 ^ 61 -> al < 2 ^ 61 -> resize_breaks (s_brk s) v l2 size al = false ->
  let out := seg_resize_op (s_brk s) l1 m v l2 size al in
  wp (map_resize m size al) s (fun r s' => r = out.1 /\
    gpt_rep s' out.2 total x y c /\ linked s' x y /\ s_disk s' = s_disk s /\
    s_bufs s' = s_bufs s /\ gd_flags (s_gd s') = gd_flags (s_gd s) /\
    (r <> -1 -> exists l3, out.2 = l1 ++ (m, seg_resize (sg_start v) out.1 v) :: l3)).
Proof.
  intros Hrep Hlink Hv Hno Hdrop Hsz Hal Hbr out.
  pose proof (gr_map _ _ _ _ _ _ Hrep) as Hm. pose proof Hm as (_ & Ht & Htot).
  destruct (seg_resize_op_tiles (s_brk s) l1 m v l2 size al total Ht Htot Hsz Hal) as [T _].
  destruct (T Hbr) as [T1 T2]. fold out in T1, T2.
  assert (wp (map_resize m size al) s (resize_post s out)) as W
    by (by apply (wp_map_resize s l1 m v l2 total Hm)).
  rewrite wp_elim in W. destruct W as (r & s' & E & Hr & Hrep' & Hd & Hg).
  destruct (returns_resize (s_bufs s) m size al s r s' Hno E) as [Hb _].
  apply wp_elim. exists r, s'. split; [done|]. split; [done|].
  destruct (gpt_rep_map s s' _ out.2 total x y c Hrep ltac:(by split)
    (seg_resize_find _ _ _ _ _ _ _ Hv) Hb Hd Hg) as [R L].
  split_and!; try done; [by apply L|by rewrite Hg|by rewrite Hr].
Qed.

Lemma wp_fits_already s v res_align size al (Q : bool -> store -> Prop) :
  (res_align <> 0 -> al <> 0) -> Q (fits_already v res_align size al) s ->
  wp (if (0 <? size) && (size =? sg_size v) then
        if res_align =? 0 then mret true
        else if 0 <? res_align then
          if al =? 0 then ub else mret (Z.rem size al =? 0)
        else mret false
      else mret false) s Q.
Proof.
  unfold fits_already. intros Hal HQ.
  destruct ((0 <? size) && (size =? sg_size v)); [|by apply wp_ret].
  destruct (Z.eqb_spec res_align 0) as [|Hne]; [by apply wp_ret|].
  destruct (0 <? res_align); [|by apply wp_ret].
  destruct (Z.eqb_spec al 0); [by destruct (Hal Hne)|by apply wp_ret].
Qed.

(** The new end goes into both copies. *)
Lemma wp_put_end s l total x y c i m v e (Q : unit -> store -> Prop) :
  gpt_rep s l total x y c -> linked s x y -> both_in i c ->
  (m, seg_resize (sg_start v) e v) ∈ l ->
  (forall s', gpt_rep s' l total x y (edit i ent_lba_end (fun _ => le_enc 8 (sg_start v + e - 1)) c) ->
    linked s' x y -> edits x y s s' ->
    (writable s -> synced s' x y (edit i ent_lba_end (fun _ => le_enc 8 (sg_start v + e - 1)) c)) ->
    Q tt s') ->
  wp (edit_both (put_end m e) (PBuf (hf_hb x) 0) (PBuf (hf_tb x) (i * hget hdr_entsz c.1.1)) i) s Q.
Proof.
  intros Hrep Hlink Hi Hin HQ. destruct (gr_map _ _ _ _ _ _ Hrep) as (Hmap & Ht & Htot).
  destruct (rep_node s l m _ Hmap Hin) as (nd & Hnd & Hv).
  destruct (tiles_in _ _ _ _ _ Ht Hin) as (B1 & B2 & B3).
  assert (map_start nd = sg_start v) as Es by (apply (f_equal sg_start) in Hv; exact Hv).
  unfold sg_end in B3. cbn [sg_start sg_size seg_resize] in *.
  eapply (wp_edit_with s l total x y c i
    (fset i ent_lba_end (fun _ => le_enc 8 (sg_start v + e - 1)))); try done.
  - rewrite <- Es. apply put_end_acts; [done|lia..].
  - intros h t Hok Hit. apply fset_ok; try done. apply end_ok.
Qed.

(** C10: fgdisk resize, for an entry inside both tables whose region is the first of its
    number: it returns, and changes nothing if the entry is unused or already has the
    size; otherwise, where [map_resize] keeps the map a tiling, it leaves the regions
    [map_resize] gives, and, unless that is -1, stores the new last sector into both
    copies of the entry and nothing else, with the checksums right and, unless a write
    failed, both copies on the device. *)
Theorem resize_resizes s l1 m v l2 total x y c res_align size entry :
  gpt_rep s (l1 ++ (m, v) :: l2) total x y c ->
  1 <= entry < 2 ^ 32 -> both_in (entry - 1) c ->
  Forall (fun nv => sg_index nv.2 <> entry) l1 -> sg_index v = entry ->
  sg_type v = MAP_TYPE_GPT_PART -> no_owner (s_bufs s) None s ->
  match l2 with (n, w) :: _ => droppable s w | [] => True end ->
  size < 2 ^ 61 ->
  let al := Z.quot res_align (gd_secsz (s_gd s)) in
  al < 2 ^ 61 -> (res_align <> 0 -> al <> 0) ->
  resize_breaks (s_brk s) v l2 size al = false ->
  exists s', resize res_align size entry s = Some (tt, s') /\
    let out := seg_resize_op (s_brk s) l1 m v l2 size al in
    let c' := edit (entry - 1) ent_lba_end (fun _ => le_enc 8 (sg_start v + out.1 - 1)) c in
    if unused_ent c.1.1 c.1.2 (entry - 1) || fits_already v res_align size al then
      gpt_rep s' (l1 ++ (m, v) :: l2) total x y c /\ s_disk s' = s_disk s
    else if out.1 =? -1 then gpt_rep s' out.2 total x y c /\ s_disk s' = s_disk s
    else gpt_rep s' out.2 total x y c' /\ sealed c'.1.1 c'.1.2 /\ sealed c'.2.1 c'.2.2 /\
      (writable s -> synced s' x y c').
Proof.
  intros Hrep Hentry Hin Hl1 Hidx Htype Hno Hdrop Hsz al Hal Hal0 Hbr.
  cbv zeta. set (out := seg_resize_op _ _ _ _ _ _ _).
  match goal with |- exists s', _ /\ @?P s' =>
    enough (wp (resize res_align size entry) s (fun _ s' => P s'))
      as ([] & s' & E & H)%wp_elim by eauto end.
  cbv beta. set (l := l1 ++ (m, v) :: l2) in *.
  pose proof (rep_halves _ _ _ _ _ _ Hrep) as Hh. pose proof Hh as [Hok _]. pose proof Hok as [].
  pose proof Hin as [Hi _]. pose proof Hi as (_ & Hlt & _).
  pose proof (hget_bound hdr_entsz c.1.1 ltac:(done)).
  unfold resize. apply wp_bind. eapply wp_gpt_gethdr; [done|].
  intros s1 Hrep1 Hlink E1. rewrite decide_False by done. cbv zeta.
  pose proof (gr_pri _ _ _ _ _ _ Hrep1) as Hx. pose proof Hx as [].
  apply wp_bind. eapply wp_gd_tbl; [apply Hrep1|exact Hx|apply Hlink|].
  apply wp_bind, (wp_hdr_get _ c.1.1); [done..|].
  rewrite (u32_small (entry - 1)) by lia.
  rewrite (u32_small (_ * _)) by (split; [apply Z.mul_nonneg_nonneg; lia|exact Hlt]).
  cbn [ptr_add]. rewrite Z.add_0_l.
  apply wp_bind, (wp_ent_get s1 _ ent_type (entry - 1) c.1.1 c.1.2); [done..|].
  set (d := eget _ _ _ _).
  assert (uuid_ok d) as Hd by (split; [by apply bytes_ok_sub|by apply length_eget]).
  assert (uuid_nilb (uuid_dec_le d) = unused_ent c.1.1 c.1.2 (entry - 1)) as ->.
  { rewrite uuid_nilb_eq by by apply uuid_dec_ok. apply bool_decide_ext. apply dec_nil, Hd. }
  assert (gpt_rep s1 l total x y c /\ s_disk s1 = s_disk s) as Hsame by (split; [done|by subst s1]).
  destruct (unused_ent _ _ _); cbn [orb]; [by apply wp_ret|].
  unfold map_first. do 3 st_step. apply wp_bind.
  destruct (gr_map _ _ _ _ _ _ Hrep1) as (Hmap & _). rewrite (rep_head _ _ Hmap).
  eapply wp_index_loop; [apply Hmap|by apply rep_fuel|]. unfold l at 1. rewrite find_at by done.
  cbn [fmap option_fmap option_map fst].
  destruct (rep_node s1 l m v Hmap) as (nd & Hnd & Hv).
  { unfold l. rewrite elem_of_app, elem_of_cons. auto. }
  assert (map_size nd = sg_size v /\ map_start nd = sg_start v) as [Ez Es] by (by rewrite <- Hv).
  assert (Z.quot res_align (gd_secsz (s_gd s1)) = al) as -> by (by subst s1).
  apply wp_bind, (wp_load m nd); [done|]. rewrite Ez. apply wp_bind, wp_fits_already; [done|].
  destruct (fits_already v res_align size al); [by apply wp_ret|].
  apply wp_bind. eapply wp_mono.
  { apply (wp_resize_map s1 l1 m v l2 total x y c size al); try done; by subst s1. }
  assert (s_brk s1 = s_brk s) as Ebrk by (by subst s1). rewrite Ebrk. fold out. cbn beta.
  intros r s2 (-> & Hrep2 & Hlink2 & Hdisk & _ & Hfl & Hmid).
  destruct (Z.eqb_spec out.1 (-1)) as [Hm1|Hm1].
  { apply wp_ret. split; [done|]. by rewrite Hdisk; subst s1. }
  destruct (Hmid Hm1) as (l3 & El3). apply wp_bind.
  eapply (wp_put_end s2 out.2 total x y c (entry - 1) m v out.1); try done.
  { rewrite El3, elem_of_app, elem_of_cons. auto. }
  intros s3 Hrep3 Hlink3 Hed3 Hsync. eapply (status_after s2); [done..|].
  intros s4 Hrep4 _ _ Hsync4. destruct (edit_sealed (entry - 1) ent_lba_end _ c Hh Hin
    (end_ok (sg_start v + out.1 - 1))). split_and!; try done.
  intros [W1 W2]. apply Hsync4. split; [|done]. rewrite Hfl. by subst s1.
Qed.

Lemma mem_get_outside b k o n d s : s_bufs s !! b = Some d ->
  Z.of_nat (length d) < k + Z.of_nat (o + n) -> mem_get (PBuf b k) o n s = None.
Proof.
  intros Hb Hl. unfold mem_get. rewrite Hb. cbn [mbind option_bind].
  destruct (Z.leb_spec (k + Z.of_nat (o + n)) (Z.of_nat (length d))); [lia|].
  by rewrite andb_false_r.
Qed.

(** Fgdisk resize does not compare the number given with the size of the table: with
    a number whose entry would lie past the end of the table, it reads outside the buffer
    of the table. *)
Theorem resize_unchecked s l total x y c res_align size entry :
  gpt_rep s l total x y c ->
  Z.of_nat (length c.1.2) <
    u32 (u32 (entry - 1) * hget hdr_entsz c.1.1) + Z.of_nat (off_ent ent_type + width_ent ent_type) ->
  resize res_align size entry s = None.
Proof.
  intros Hrep Hout.
  enough (exists s1, gpt_gethdr s = Some (PBuf (hf_hb x) 0, s1) /\
    gpt_rep s1 l total x y c /\ linked s1 x y) as (s1 & E & Hrep1 & Hlink).
  { pose proof (gr_pri _ _ _ _ _ _ Hrep1) as Hx. pose proof Hx as []. pose proof ha_ok as [].
    assert (gd_data gd_tbl s1 = Some (PBuf (hf_tb x) 0, s1)) as E2.
    { enough (wp (gd_data gd_tbl) s1 (fun r s' => r = PBuf (hf_tb x) 0 /\ s' = s1))
        as (r & s' & -> & -> & ->)%wp_elim by done.
      eapply wp_gd_tbl; [apply Hrep1|exact Hx|apply Hlink|done]. }
    assert (hdr_get (PBuf (hf_hb x) 0) hdr_entsz s1 = Some (hget hdr_entsz c.1.1, s1)) as E3.
    { enough (wp (hdr_get (PBuf (hf_hb x) 0) hdr_entsz) s1
        (fun r s' => r = hget hdr_entsz c.1.1 /\ s' = s1)) as (r & s' & -> & -> & ->)%wp_elim by done.
      by apply (wp_hdr_get _ c.1.1). }
    unfold resize, mbind, St_bind. rewrite E. cbv beta iota zeta. rewrite decide_False by done.
    cbv beta iota zeta. rewrite E2, E3. cbn [ptr_add]. rewrite Z.add_0_l.
    unfold ent_get. rewrite (mem_get_outside _ _ _ _ c.1.2); [done|done|exact Hout]. }
  enough (wp gpt_gethdr s (fun r s1 => r = PBuf (hf_hb x) 0 /\ gpt_rep s1 l total x y c /\
    linked s1 x y)) as (r & s1 & E & -> & H)%wp_elim by eauto.
  eapply wp_gpt_gethdr; [done|]. by intros s1 H1 H2 _.
Qed.
End theorems.

(** ** On the example device *)
Lemma ex_no_owner : no_owner (s_bufs ex_gpt_store) None ex_gpt_store.
Proof.
  split; [done|]. intros x nd Hx [Ht|]; [|done]. simpl in Hx.
  rewrite !lookup_insert_Some, lookup_empty in Hx.
  repeat (destruct Hx as [[<- <-]|[_ Hx]]; [done|]). done.
Qed.

Lemma resize_resizes_witness : exists s', resize 0 2 1 ex_gpt_store = Some (tt, s') /\
  let out := seg_resize_op 14 (take 3 ex_gpt_list) 3 (Seg 4 1 MAP_TYPE_GPT_PART 1 (PBuf 11 0) 0)
    (drop 4 ex_gpt_list) 2 0 in
  let c' := edit 0 ent_lba_end (fun _ => le_enc 8 (4 + out.1 - 1)) ex_contents in
  gpt_rep s' out.2 9 ex_pri ex_sec c' /\ sealed c'.1.1 c'.1.2 /\ sealed c'.2.1 c'.2.2 /\
    (writable ex_gpt_store -> synced s' ex_pri ex_sec c').
Proof.
  assert (Forall (fun nv : loc * seg => sg_index nv.2 <> 1) (take 3 ex_gpt_list)) as H1
    by by repeat constructor.
  assert (both_in 0 ex_contents) as H2 by (split; vm_compute; intuition congruence).
  exact (resize_resizes ex_gpt_store (take 3 ex_gpt_list) 3
    (Seg 4 1 MAP_TYPE_GPT_PART 1 (PBuf 11 0) 0) (drop 4 ex_gpt_list) 9 ex_pri ex_sec ex_contents
    0 2 1 ex_gpt_rep ltac:(lia) H2 H1 eq_refl eq_refl ex_no_owner ltac:(done) ltac:(lia)
    ltac:(vm_compute; reflexivity) ltac:(done) ltac:(vm_compute; reflexivity)).
Defined.

Lemma resize_unchecked_witness : resize 0 2 3 ex_gpt_store = None.
Proof.
  apply (resize_unchecked ex_gpt_store ex_gpt_list 9 ex_pri ex_sec ex_contents 0 2 3 ex_gpt_rep).
  vm_compute. reflexivity.
Defined.
