(* ===== verification/GptLoad.v ===== *)
(** * GptLoad: what [gpt_gpt] accepts and enters into the map (sbin/fgdisk/gpt.c)

    The theorems about [gpt_gpt] of [GptOpen]: a header or table whose signature or
    checksum is wrong leaves the map alone, and a copy that is accepted is in the map,
    with a region for each entry in use. *)
From Stdlib Require Import ZArith Lia String.
From stdpp Require Import base list option gmap strings.
From S2P Require Import Prelude Dll Gd MediaMap MapProps Crc32 CMem Stand GptIo GptRep GptSpec.
From S2P Require Import GptExample GptOpen GptEdit.
Open Scope Z_scope.

(** ** Regions that stay *)
Definition apart (v w : seg) : Prop := sg_end v <= sg_start w \/ sg_end w <= sg_start v.

Section keeps.
Context {os : Os}.
Implicit Types (s : store) (l : segs).

(** [map_add] leaves every region that its sectors do not touch. *)
Lemma seg_add_keeps k start size type data alloc l total y w :
  tiles 0 l total -> 0 <= start -> 0 < size -> (y, w) ∈ l ->
  sg_end w <= start \/ start + size <= sg_start w ->
  (y, w) ∈ ao_map (seg_add k start size type data alloc l).
Proof.
  intros Ht Hst Hsz Hin Hap. unfold seg_add.
  destruct (seg_split start l) as [[[l1 [n v]] l2]|] eqn:Es; [|done].
  destruct (seg_split_bounds _ _ _ _ _ _ _ _ Ht Hst Es) as (Hb & _).
  apply seg_split_app in Es as ->.
  assert (forall mid, (y, w) ∈ l1 ++ mid ++ l2) as K.
  { intros mid. rewrite !elem_of_app. apply elem_of_app in Hin as [Hin|[Hin|Hin]%elem_of_cons];
      [by left| |by right; right].
    injection Hin as -> ->. unfold sg_end in *. lia. }
  unfold seg_cut. repeat case_match; simpl ao_map; try done;
    match goal with
    | |- _ ∈ _ ++ ?b :: ?c :: ?d :: l2 => apply (K [b; c; d])
    | |- _ ∈ _ ++ ?b :: ?c :: l2 => apply (K [b; c])
    | |- _ ∈ _ ++ ?b :: l2 => apply (K [b])
    end.
Qed.

(** Two regions of a tiling at the same address are the same. *)
Lemma rep_same s l x v w : map_rep s l -> (x, v) ∈ l -> (x, w) ∈ l -> v = w.
Proof.
  intros H Hv Hw. destruct (rep_node s l x v H Hv) as (n1 & E1 & <-).
  destruct (rep_node s l x w H Hw) as (n2 & E2 & <-). congruence.
Qed.

Hypothesis Hos : forall k, os_alloc k = true.
Context (total : Z).

(** [map_add] of a partition, and the number it is given. *)
Lemma wp_add_part s l first size b o i (Q : loc -> store -> Prop) (R : store -> Prop) :
  map_ok s l total -> 0 <= first -> 0 < size -> first + size < 2 ^ 62 ->
  (forall s' x l', map_ok s' l' total -> grows s s' -> s_bufs s' = s_bufs s ->
     (x, Seg first size MAP_TYPE_GPT_PART i (PBuf b o) 0) ∈ l' ->
     (forall y w, (y, w) ∈ l -> sg_end w <= first \/ first + size <= sg_start w -> 0 < sg_size w ->
        (y, w) ∈ l') -> Q x s') ->
  (forall s' l', map_ok s' l' total -> grows s s' -> R s') ->
  wp (map_add first size MAP_TYPE_GPT_PART (PBuf b o) 0) s (fun m s' =>
    match m with
    | Some x => wp (update x (set_map_index i)) s' (fun _ => Q x)
    | None => R s'
    end).
Proof.
  intros Hok H1 H2 H3 HQ HR. eapply wp_map_add_grows; [exact Hos|exact Hok|done|done|done|done|].
  intros s1 a Hok1 G1 Hb1. destruct (ao_ret a) as [x|] eqn:Ex; [|by eapply HR].
  destruct Hok as (_ & Ht & _). pose proof Ex as Ex'.
  eapply seg_add_types in Ex' as (_ & _ & _ & [j Hin] & _); [|exact Ht|done|done].
  fold a in Hin.
  eapply wp_set_index; [exact Hok1|exact Hin|]. intros s2 l1 l2 El Hok2 G2 Hb2.
  eapply HQ; [exact Hok2|by eapply grows_trans|congruence|set_solver|].
  intros y w Hy Hap Hw.
  assert ((y, w) ∈ ao_map a) as Hy' by (by eapply seg_add_keeps).
  pose proof Hy' as Hy2. rewrite El, elem_of_app, elem_of_cons in Hy2.
  rewrite elem_of_app, elem_of_cons. destruct Hy2 as [?|[E|?]]; [by left| |by right; right].
  injection E as -> ->. simpl in *. unfold sg_end in *. simpl in *. lia.
Qed.
End keeps.

(** ** The entries *)
Section entries.
Context {gpt : SysGpt} {laws : SysGptLaws}.
Implicit Types (h t : list Z).

Definition ent_first (i : Z) h t : Z := le_dec (eget i ent_lba_start h t).
Definition ent_last (i : Z) h t : Z := le_dec (eget i ent_lba_end h t).
Definition ent_used (i : Z) h t : Prop := eget i ent_type h t <> uuid_nil.

(** The region that stands for entry [i], with the table in buffer [b]. *)
Definition ent_seg (b : loc) (i : Z) h t : seg :=
  Seg (ent_first i h t) (ent_last i h t - ent_first i h t + 1) MAP_TYPE_GPT_PART (i + 1)
    (PBuf b (i * hget hdr_entsz h)) 0.

(** The entries in use are partitions of at least one sector, apart from each other. *)
Record ents_fine (n : Z) h t : Prop := {
  ef_in : forall i, 0 <= i < n -> ent_in i h t;
  ef_sect : forall i, 0 <= i < n -> ent_used i h t ->
    ent_first i h t <= ent_last i h t < 2 ^ 61;
  ef_apart : forall i j, 0 <= i < n -> 0 <= j < n -> i <> j -> ent_used i h t ->
    ent_used j h t -> apart (ent_seg 0 i h t) (ent_seg 0 j h t);
}.

(** A region that no entry in use touches. *)
Definition untouched (n : Z) h t (w : seg) : Prop := 0 < sg_size w /\
  forall i, 0 <= i < n -> ent_used i h t -> apart w (ent_seg 0 i h t).

Lemma ent_first_pos i h t : bytes_ok t -> 0 <= ent_first i h t.
Proof. intros. apply (le_dec_bound _ (bytes_ok_sub _ _ _ H)). Qed.
End entries.

Section loading.
Context {os : Os} {gpt : SysGpt} {laws : SysGptLaws}.
Implicit Types (s : store) (l : segs) (h t : list Z).
Hypothesis Hos : forall k, os_alloc k = true.
Context (total : Z).

(** Entries [0, n) are in the map. *)
Definition entered (b : loc) (n : Z) h t l : Prop := forall i, 0 <= i < n -> ent_used i h t ->
  exists x, (x, ent_seg b i h t) ∈ l.

Lemma uuid_nilb_ent i h t : bytes_ok h -> bytes_ok t -> ent_in i h t ->
  uuid_nilb (eget i ent_type h t) = bool_decide (eget i ent_type h t = uuid_nil).
Proof.
  intros Hh Ht Hi. apply uuid_nilb_eq. split; [by apply bytes_ok_sub|].
  apply length_sub. by apply (ent_room i ent_type).
Qed.

Lemma wp_gpt_ents b h t N n : half_ok h t -> ents_fine N h t -> N < 2 ^ 32 ->
  forall s l i (Q : Z -> store -> Prop), i + Z.of_nat n = N -> 0 <= i ->
  map_ok s l total -> s_bufs s !! b = Some t -> (b < s_brk s)%nat -> entered b i h t l ->
  (forall s' l', map_ok s' l' total -> grows s s' -> entered b N h t l' ->
     (forall y w, (y, w) ∈ l -> untouched N h t w -> (y, w) ∈ l') -> Q 1 s') ->
  (forall s' l', map_ok s' l' total -> grows s s' -> Q (-1) s') ->
  wp (gpt_ents n (PBuf b 0) (hget hdr_entsz h) i) s Q.
Proof.
  intros Hok Hf HN. induction n as [|n IH]; intros s l i Q Hi Hi0 Hmap Hb Hlt Hin HQ HR; cbn [gpt_ents].
  { apply wp_ret. apply (HQ s l); try done; [apply grows_refl|]. by replace N with i by lia. }
  pose proof (ho_hbytes _ _ Hok) as Hh. pose proof (ho_tbytes _ _ Hok) as Htb.
  assert (ent_in i h t) as Hi1 by (apply (ef_in _ _ _ Hf); lia).
  pose proof (hget_bound hdr_entsz h Hh). destruct Hi1 as (I1 & I2 & I3) eqn:E. clear E.
  cbn [ptr_add]. rewrite Z.add_0_l, u32_small by nia.
  apply wp_bind. eapply wp_ent_get; [done|split_and!; done|done|].
  rewrite uuid_nilb_ent by done. case_bool_decide as Hu.
  { eapply IH; [lia|lia|exact Hmap|done|done| |exact HQ|exact HR].
    intros j Hj Hju. destruct (decide (j = i)) as [->|]; [done|]. apply Hin; [lia|done]. }
  apply wp_bind. eapply wp_ent_get; [done|split_and!; done|done|].
  apply wp_bind. eapply wp_ent_get; [done|split_and!; done|done|].
  change (le_dec (eget i ent_lba_end h t)) with (ent_last i h t).
  change (le_dec (eget i ent_lba_start h t)) with (ent_first i h t).
  pose proof (ent_first_pos i h t Htb) as F0. destruct (ef_sect _ _ _ Hf i ltac:(lia) Hu) as [F1 F2].
  cbv zeta. rewrite u64_small, !s64_small by lia.
  apply wp_bind. eapply wp_mono.
  { eapply (wp_add_part Hos total s l _ _ b _ (i + 1)) with
      (Q := fun _ s' => wp (gpt_ents n (PBuf b 0) (hget hdr_entsz h) (i + 1)) s' Q)
      (R := fun s' => Q (-1) s'); [exact Hmap|done|lia|lia| |exact HR].
    intros s' x l' Hmap' G Hbs Hx Hkeep.
    eapply IH; [lia|lia|exact Hmap'|by rewrite Hbs| | | |].
    - pose proof (gr_brk _ _ G). lia.
    - intros j Hj Hju. destruct (decide (j = i)) as [->|]; [by exists x|].
      destruct (Hin j ltac:(lia) Hju) as [y Hy]. exists y.
      destruct (ef_sect _ _ _ Hf j ltac:(lia) Hju) as [? ?].
      pose proof (ef_apart _ _ _ Hf i j ltac:(lia) ltac:(lia) ltac:(lia) Hu Hju) as Hap.
      unfold apart, sg_end in Hap. simpl in Hap.
      apply Hkeep; [done|unfold sg_end; simpl; lia|simpl; lia].
    - intros s2 l2 Hmap2 G2 Hin2 Hk2. apply (HQ s2 l2); [done|by eapply grows_trans|done|].
      intros y w Hy [Hw Hun]. apply Hk2; [|done]. apply Hkeep; [done| |done].
      destruct (Hun i ltac:(lia) Hu) as [U|U]; unfold sg_end in U; simpl in U; [by left|right; lia].
    - intros s2 l2 Hmap2 G2. eapply HR; [done|by eapply grows_trans]. }
  intros [x|] s' W; [by apply wp_bind|by apply wp_ret].
Qed.

(** ** A copy of the GPT *)

(** The signature of a header. *)
Definition hdr_signed h : Prop := sub (off_hdr hdr_sig) (width_hdr hdr_sig) h = GPT_HDR_SIG.

(** The sectors of the table. *)
Definition tbl_blocks (secsz : Z) h : Z :=
  tbl_bytes h / secsz + (if negb (tbl_bytes h mod secsz =? 0) then 1 else 0).
Definition tbl_of s h : list Z :=
  sectors s (hget hdr_lba_table h) (tbl_blocks (gd_secsz (s_gd s)) h).

(** What the code takes for granted of a header that has the signature. *)
Record hdr_fine (lba : Z) s h : Prop := {
  hf_size : hget hdr_size h <= Z.of_nat (length h);
  hf_some : 0 < hget hdr_entries h;
  hf_entsz : Z.of_nat sizeof_gpt_ent <= hget hdr_entsz h;
  hf_fit : hget hdr_entries h * hget hdr_entsz h < 2 ^ 32;
  hf_lba : hget hdr_lba_table h < total + 2 ^ 32;
  hf_apart : lba + 1 <= hget hdr_lba_table h \/
    hget hdr_lba_table h + tbl_blocks (gd_secsz (s_gd s)) h <= lba;
}.

Definition hdr_type (lba : Z) : Z :=
  if lba =? 1 then MAP_TYPE_PRI_GPT_HDR else MAP_TYPE_SEC_GPT_HDR.
Definition tbl_type (lba : Z) : Z :=
  if lba =? 1 then MAP_TYPE_PRI_GPT_TBL else MAP_TYPE_SEC_GPT_TBL.

(** The regions of a header and its table. *)
Definition hdr_seg (lba : Z) (b : loc) (j : Z) : seg := Seg lba 1 (hdr_type lba) j (PBuf b 0) 1.
Definition tbl_seg (lba : Z) s h (b : loc) (j : Z) : seg :=
  Seg (hget hdr_lba_table h) (tbl_blocks (gd_secsz (s_gd s)) h) (tbl_type lba) j (PBuf b 0) 1.

(** The copy at [lba] is in the map [l']: its header, but for the checksum that was
    cleared to verify it, and its table, in two new buffers; and, for the primary copy, a
    region for each entry in use. *)
Definition loaded (lba : Z) s h t s' l' : Prop := exists hb tb i j x y,
  (x, hdr_seg lba hb i) ∈ l' /\ (y, tbl_seg lba s h tb j) ∈ l' /\ hb <> tb /\
  (s_brk s <= hb)%nat /\ (s_brk s <= tb)%nat /\
  s_bufs s' !! hb = Some (hset hdr_crc_self 0 h) /\ s_bufs s' !! tb = Some t /\
  (lba = 1 -> entered tb (hget hdr_entries h) h t l').

(** The outcome of [gpt_gpt]. *)
Record gpt_out (lba found : Z) s l (h t : list Z) (r : Z) s' : Prop := {
  go_grows : grows s s';
  go_map : exists l', map_ok s' l' total /\ (r = 0 -> l' = l) /\
    (r = 1 -> loaded lba s h t s' l');
  go_ret : r = 0 \/ r = 1 \/ r = -1;
  go_valid : r = 1 -> hdr_signed h /\ sealed h t;
  go_zero : r = 0 -> ~ (hdr_signed h /\ sealed h t) \/
    (found = 0 /\ can_read s (hget hdr_lba_table h) (tbl_blocks (gd_secsz (s_gd s)) h) = false);
}.

(** What the theorem assumes of the device: the sectors of a header hold one, and what a
    signed header says can be used. *)
Record gpt_dev (lba : Z) s : Prop := {
  gd_bytes : bytes_ok (s_disk s);
  gd_min : Z.of_nat GPT_MIN_HDR_SIZE <= gd_secsz (s_gd s);
  gd_pos : 0 < gd_secsz (s_gd s);
  gd_len : Z.of_nat (length (s_disk s)) = total * gd_secsz (s_gd s);
  gd_max : (total + 2 ^ 33) * gd_secsz (s_gd s) < 2 ^ 62;
  gd_hdr : let h := sectors s lba 1 in hdr_signed h -> hdr_fine lba s h;
  gd_ents : lba = 1 -> let h := sectors s lba 1 in let t := tbl_of s h in
    hdr_signed h -> sealed h t ->
    ents_fine (hget hdr_entries h) h t /\
    untouched (hget hdr_entries h) h t (hdr_seg lba 0 0) /\
    untouched (hget hdr_entries h) h t (tbl_seg lba s h 0 0);
}.

Lemma tbl_blocks_bound z h : 0 < z -> 0 < hget hdr_entries h ->
  0 < hget hdr_entsz h -> hget hdr_entries h * hget hdr_entsz h < 2 ^ 32 ->
  0 < tbl_blocks z h < 2 ^ 32 /\ tbl_bytes h <= tbl_blocks z h * z.
Proof.
  intros Hz Hn He Hf. unfold tbl_blocks, tbl_bytes. rewrite u32_small by nia.
  set (x := hget hdr_entries h * hget hdr_entsz h) in *. assert (0 < x) by nia. clearbody x.
  pose proof (Z.mod_pos_bound x z Hz). pose proof (Z.div_mod x z ltac:(lia)).
  pose proof (Z.div_pos x z ltac:(lia) Hz). pose proof (Z.div_le_upper_bound x z x Hz ltac:(nia)).
  destruct (Z.eqb_spec (x mod z) 0); simpl; split; nia.
Qed.

(** *** The header and the table are entered *)
Lemma wp_gpt_enter lba found s l h t s1 hb tb (hd := hset hdr_crc_self 0 h) :
  gpt_dev lba s -> 0 <= lba < total -> map_ok s1 l total -> grows s s1 ->
  half_ok h t -> h = sectors s lba 1 -> t = tbl_of s h -> hdr_signed h -> sealed h t ->
  hb <> tb -> (s_brk s <= hb)%nat -> (s_brk s <= tb)%nat ->
  (hb < s_brk s1)%nat -> (tb < s_brk s1)%nat ->
  s_bufs s1 !! hb = Some hd -> s_bufs s1 !! tb = Some t ->
  wp (m ← map_add lba 1
            (if lba =? 1 then MAP_TYPE_PRI_GPT_HDR else MAP_TYPE_SEC_GPT_HDR) (PBuf hb 0) 1;
      match m with
      | None => mret (-1)
      | Some _ =>
        m ← map_add (hget hdr_lba_table h) (tbl_blocks (gd_secsz (s_gd s)) h)
              (if lba =? 1 then MAP_TYPE_PRI_GPT_TBL else MAP_TYPE_SEC_GPT_TBL) (PBuf tb 0) 1;
        match m with
        | None => mret (-1)
        | Some _ =>
          if negb (lba =? 1) then mret 1
          else gpt_ents (Z.to_nat (hget hdr_entries h)) (PBuf tb 0) (hget hdr_entsz h) 0
        end
      end) s1 (gpt_out lba found s l h t).
Proof.
  intros Hdev Hlba Hok1 G1 Hhalf Eh Et Hsig Hseal Hne B1 B2 B3 B4 Hb1 Ht1.
  pose proof Hdev as [D1 D2 D3 D4 D5 D6 D7]. cbv zeta in D6, D7. rewrite <- Eh in D6, D7.
  rewrite <- Et in D7. destruct (D6 Hsig) as [F1 F2 F3 F4 F5 F6].
  pose proof (hget_bound hdr_lba_table h (ho_hbytes _ _ Hhalf)) as Blt.
  pose proof (hget_bound hdr_entries h (ho_hbytes _ _ Hhalf)) as Bn.
  change (256 ^ Z.of_nat (width_hdr hdr_entries)) with (2 ^ 32) in Bn.
  assert (0 < hget hdr_entsz h) as Hz.
  { pose proof (ent_inside ent_lba_end) as Hi. simpl in Hi. lia. }
  destruct (tbl_blocks_bound (gd_secsz (s_gd s)) h D3 F2 Hz F4) as [Tb _].
  assert ((total + 2 ^ 33) * 1 <= (total + 2 ^ 33) * gd_secsz (s_gd s)) by nia.
  assert (forall s' l', map_ok s' l' total -> grows s s' -> gpt_out lba found s l h t (-1) s') as Kfail.
  { intros s' l' Hm G. split; [done| |by auto|done|done]. by exists l'. }
  fold (hdr_type lba) (tbl_type lba).
  apply wp_bind. eapply wp_map_add_grows; [exact Hos|exact Hok1|lia|lia|lia|split; [done|by eexists]|].
  intros s2 a Hok2 G2 Hbs2. destruct (ao_ret a) as [xh|] eqn:Ea.
  2: { apply wp_ret. eapply Kfail; [exact Hok2|by eapply grows_trans]. }
  destruct Hok1 as (_ & Ht1' & _).
  eapply seg_add_types in Ea as (_ & _ & _ & [jh Hinh] & _); [|exact Ht1'|lia|lia]. fold a in Hinh.
  assert (s_bufs s2 !! tb = Some t) as Ht2 by congruence.
  apply wp_bind. eapply wp_map_add_grows; [exact Hos|exact Hok2|lia|lia|lia|split; [done|by eexists]|].
  intros s3 a2 Hok3 G3 Hbs3. destruct (ao_ret a2) as [xt|] eqn:Ea2.
  2: { apply wp_ret. eapply Kfail; [exact Hok3|eapply grows_trans; [exact G1|by eapply grows_trans]]. }
  destruct Hok2 as (_ & Ht2' & _).
  eapply seg_add_types in Ea2 as (_ & _ & _ & [jt Hint] & _); [|exact Ht2'|lia|lia]. fold a2 in Hint.
  assert ((xh, hdr_seg lba hb jh) ∈ ao_map a2) as Hinh3.
  { eapply seg_add_keeps; [exact Ht2'|lia|lia|exact Hinh|]. unfold sg_end. simpl. lia. }
  assert (grows s s3) as G by (eapply grows_trans; [exact G1|by eapply grows_trans]).
  assert (s_bufs s3 !! hb = Some hd /\ s_bufs s3 !! tb = Some t) as [Hb3 Ht3] by (split; congruence).
  destruct (Z.eqb_spec lba 1) as [E1|E1]; cbn [negb].
  - destruct (D7 E1 Hsig Hseal) as (Hents & [_ U1] & [_ U2]).
    pose proof (gr_brk _ _ G2). pose proof (gr_brk _ _ G3).
    eapply (wp_gpt_ents tb h t (hget hdr_entries h));
      [done|done|lia|lia|lia|exact Hok3|exact Ht3|lia|intros i Hi; lia| |].
    + intros s4 l4 Hok4 G4 Hent Hkeep. split; [by eapply grows_trans| |by auto|done|done].
      exists l4. split; [done|]. split; [done|]. intros _.
      exists hb, tb, jh, jt, xh, xt. split; [apply Hkeep; [done|split; [simpl; lia|done]]|].
      split; [apply Hkeep; [done|split; [simpl; lia|done]]|].
      split_and!; try done; [by rewrite (gr_bufs _ _ G4) by lia..].
    + intros s4 l4 Hok4 G4. eapply Kfail; [exact Hok4|by eapply grows_trans].
  - apply wp_ret. split; [done| |by auto|done|done].
    exists (ao_map a2). split; [done|]. split; [done|]. intros _.
    exists hb, tb, jh, jt, xh, xt. by split_and!.
Qed.

(** *** The refusals *)
Lemma gpt_out_same lba found s l h t r s' : map_ok s l total -> r = 0 \/ r = -1 ->
  s_maps s' = s_maps s -> gd_mediamap (s_gd s') = gd_mediamap (s_gd s) -> grows s s' ->
  (r = 0 -> ~ (hdr_signed h /\ sealed h t) \/
    (found = 0 /\ can_read s (hget hdr_lba_table h) (tbl_blocks (gd_secsz (s_gd s)) h) = false)) ->
  gpt_out lba found s l h t r s'.
Proof.
  intros Hok Hr Em Eg G Hz. assert (r <> 1) as Hne by (destruct Hr; lia).
  split; [done| |destruct Hr; auto|done|done].
  exists l. split; [eapply map_ok_frame; [done..|apply G]|]. by split.
Qed.

Lemma wp_fail_hdr lba found s l h t s' b : map_ok s l total ->
  s_maps s' = s_maps s -> gd_mediamap (s_gd s') = gd_mediamap (s_gd s) -> grows s s' ->
  (s_brk s <= b)%nat -> is_Some (s_bufs s' !! b) ->
  ~ (hdr_signed h /\ sealed h t) \/
    (found = 0 /\ can_read s (hget hdr_lba_table h) (tbl_blocks (gd_secsz (s_gd s)) h) = false) ->
  wp (fail_hdr (PBuf b 0)) s' (gpt_out lba found s l h t).
Proof.
  intros Hok Em Eg G Hb Hs Hz. unfold fail_hdr. apply wp_bind, wp_free_ptr; [done|]. apply wp_ret.
  apply gpt_out_same; try done; [by left|]. by apply grows_free.
Qed.

Lemma wp_gpt_gpt s l lba found : gpt_dev lba s -> 0 <= lba < total -> map_ok s l total ->
  wp (gpt_gpt lba found) s
    (gpt_out lba found s l (sectors s lba 1) (tbl_of s (sectors s lba 1))).
Proof.
  intros Hdev Hlba Hok. pose proof Hdev as [D1 D2 D3 D4 D5 D6 D7]. cbv zeta in D6.
  set (h := sectors s lba 1) in *. set (t := tbl_of s h).
  assert ((total + 2 ^ 33) * 1 <= (total + 2 ^ 33) * gd_secsz (s_gd s)) by nia.
  unfold gpt_gpt. apply wp_bind. eapply wp_gpt_read; [lia|lia|lia|nia| |].
  2: { intros s1 _ E1 E2 G. rewrite decide_True by done. apply wp_ret.
    apply gpt_out_same; try done; [by right|by rewrite E2]. }
  intros Hr _. rewrite decide_False by done. fold h. set (b := s_brk s).
  set (s1 := on_bufs _ _). assert (grows s s1) as G1 by apply grows_alloc.
  assert (s_bufs s1 !! b = Some h) as Hb1 by (simpl; by rewrite lookup_insert_eq).
  assert (length h = Z.to_nat (gd_secsz (s_gd s))) as Lh.
  { unfold h. rewrite length_sectors; [f_equal; lia|lia..|done]. }
  assert (bytes_ok h) as Hh by by apply bytes_ok_sub.
  assert (GPT_MIN_HDR_SIZE <= length h)%nat as Hmin by lia.
  apply wp_bind. eapply wp_mem_get; [exact Hb1|done|pose proof (hdr_room hdr_sig h Hmin); lia|].
  cbn [Z.to_nat Nat.add]. case_bool_decide as Hsig; cbn [negb].
  2: { eapply wp_fail_hdr; [done..| |]; [by eexists|]. left. by intros []. }
  destruct (D6 Hsig) as [F1 F2 F3 F4 F5 F6].
  apply wp_bind, (wp_hdr_get _ h); [done..|]. apply wp_bind, (wp_hdr_put _ h); [done..|].
  set (hd := hset hdr_crc_self 0 h). set (s2 := on_bufs _ s1).
  assert (s_bufs s2 !! b = Some hd) as Hb2 by apply bufs_insert.
  assert (forall f, f <> hdr_crc_self -> hget f hd = hget f h) as Hget.
  { intros f Hf. by apply hget_hset_ne. }
  assert (length hd = length h) as Lhd by by apply length_hset.
  assert (grows s s2) as G2.
  { destruct G1 as [A1 A2 A3 A4]. split; [done| |done|done]. intros x Hx. unfold s2.
    rewrite bufs_insert_ne by lia. by apply A2. }
  assert (s_maps s2 = s_maps s /\ s_gd s2 = s_gd s) as [Em2 Eg2] by done.
  apply wp_bind, (wp_hdr_get _ hd); [done|lia|]. rewrite Hget by done.
  pose proof (hget_bound hdr_size h Hh).
  apply wp_bind, (wp_crc32_at _ hd); [done|by apply bytes_ok_hset|lia|].
  destruct (Z.eqb_spec (crc_of (take (Z.to_nat (hget hdr_size h)) hd)) (hget hdr_crc_self h))
    as [Hcrc|Hcrc]; cbn [negb].
  2: { eapply wp_fail_hdr; [done..| |]; [by eexists|]. left. intros [_ [_ E]]. unfold hd in Hcrc. congruence. }
  apply wp_bind, (wp_hdr_get _ hd); [done|lia|]. rewrite Hget by done.
  apply wp_bind, (wp_hdr_get _ hd); [done|lia|]. rewrite Hget by done.
  st_step. rewrite Eg2. fold (tbl_bytes h). cbv zeta. fold (tbl_blocks (gd_secsz (s_gd s)) h).
  apply wp_bind, (wp_hdr_get _ hd); [done|lia|]. rewrite Hget by done.
  pose proof (hget_bound hdr_lba_table h Hh) as Blt.
  assert (0 < hget hdr_entsz h) as Hz.
  { pose proof (ent_inside ent_lba_end) as Hi. simpl in Hi. lia. }
  destruct (tbl_blocks_bound (gd_secsz (s_gd s)) h D3 F2 Hz F4) as [Tb Tb'].
  rewrite s64_small by lia.
  apply wp_bind. eapply wp_gpt_read; rewrite ?Eg2; [lia|lia|lia|nia| |].
  2: { intros s3 E3 Em3 Eg3 G3. rewrite decide_True by done.
    assert (grows s s3) as G by (by eapply grows_trans).
    destruct (grows_sectors _ _ (hget hdr_lba_table h) (tbl_blocks (gd_secsz (s_gd s)) h) G2)
      as [_ Er]. rewrite Er, Hos, andb_true_r in E3.
    destruct (Z.eqb_spec found 0); cbn [negb].
    - eapply wp_fail_hdr; try done; [by rewrite Eg3| |by right].
      rewrite (gr_bufs _ _ G3) by (simpl; lia). by eexists.
    - apply wp_ret. apply gpt_out_same; try done; [by right|by rewrite Eg3]. }
  intros Hr2 _. rewrite decide_False by done.
  destruct (grows_sectors _ _ (hget hdr_lba_table h) (tbl_blocks (gd_secsz (s_gd s)) h) G2)
    as [Es Er]. rewrite Er in Hr2.
  change (sectors s (hget hdr_lba_table h) (tbl_blocks (gd_secsz (s_gd s)) h)) with t in Es.
  rewrite Es. set (tb := s_brk s2).
  set (s3 := on_bufs <[tb := t]> (on_brk S s2)).
  assert (grows s s3) as G3 by (eapply grows_trans; [exact G2|apply grows_alloc]).
  assert (s_bufs s3 !! tb = Some t) as Ht3 by apply lookup_insert_eq.
  assert (s_bufs s3 !! b = Some hd) as Hb3.
  { unfold s3. rewrite bufs_insert_ne by (unfold tb; simpl; lia). exact Hb2. }
  assert (Z.of_nat (length t) = tbl_blocks (gd_secsz (s_gd s)) h * gd_secsz (s_gd s)) as Lt.
  { unfold t, tbl_of. rewrite length_sectors by (done || lia). nia. }
  assert (tb = S b) as Htb by done.
  assert (bytes_ok t) as Hbt by by apply bytes_ok_sub.
  pose proof (tbl_bytes_bound h).
  assert (half_ok h t) as Hhalf by (split; done || lia).
  apply wp_bind, (wp_crc32_at _ t); [done|done|lia|].
  apply wp_bind, (wp_hdr_get _ hd); [done|lia|]. rewrite Hget by done.
  destruct (Z.eqb_spec (crc_of (take (Z.to_nat (tbl_bytes h)) t)) (hget hdr_crc_table h))
    as [Hcrt|Hcrt]; cbn [negb].
  2: { apply wp_bind, wp_free_ptr; [split; [done|by eexists]|].
    eapply wp_fail_hdr; try done.
    - apply grows_free; [done|simpl; lia].
    - cbn [bufs_free s_bufs on_bufs]. rewrite lookup_delete_ne by lia. rewrite Hb3. by eexists.
    - left. intros [_ [E _]]. congruence. }
  assert (s_brk s3 = S (S b)) as Hbrk by done.
  eapply wp_gpt_enter; [exact Hdev|done| |exact G3|exact Hhalf|done|done|exact Hsig|done|lia|
    done|unfold b in *; lia|lia|lia|exact Hb3|exact Ht3].
  eapply map_ok_frame; [exact Hok|done|done|apply G3].
Qed.

End loading.

(** ** Opening a device *)
Section opening.
Context {os : Os} {gpt : SysGpt} {laws : SysGptLaws} {dm : DiskMbr}.
Implicit Types (s : store) (l : segs).
Hypothesis Hos : forall k, os_alloc k = true.

Definition dev_secsz (dev : dev_info) : Z := if di_reg dev then 512 else di_media_blksize dev.
Definition dev_size (dev : dev_info) : Z :=
  if di_reg dev then di_st_size dev else di_media_size dev.
Definition dev_total (dev : dev_info) : Z := Z.quot (dev_size dev) (dev_secsz dev).

(** The flags that the options give. *)
Definition open_flags (flags : Z) (ro q nm : bool) : Z :=
  let flags := if ro then Z.lor flags GPT_READONLY else flags in
  let flags := if q then Z.lor flags GPT_QUIET else flags in
  if nm then Z.lor flags GPT_NOMBR else flags.

(** The state once the geometry is known. *)
Definition st_geometry (flags v : Z) (dev : dev_info) s : store :=
  on_gd (fun _ => Gd (if di_reg dev then Z.lor flags GPT_FILE else flags) v 0 None None None
    None None (dev_secsz dev) (dev_size dev)) s.

(** A device with sound MBRs and copies of a GPT, or none. *)
Record dev_fine (total : Z) s : Prop := {
  df_dev : dev_ok total s;
  df_mbr : mbrs_fine s;
  df_pri : gpt_dev total 1 s;
  df_sec : gpt_dev total (total - 1) s;
}.

Lemma dev_fine_same total s s' : s_disk s' = s_disk s ->
  gd_secsz (s_gd s') = gd_secsz (s_gd s) -> dev_fine total s -> dev_fine total s'.
Proof.
  intros Ed Ez.
  assert (forall lba n, sectors s' lba n = sectors s lba n) as Es.
  { intros lba n. unfold sectors. by rewrite Ed, Ez. }
  assert (forall h, tbl_of s' h = tbl_of s h) as Et.
  { intros h. unfold tbl_of. by rewrite Ez. }
  assert (forall lba h b j, tbl_seg lba s' h b j = tbl_seg lba s h b j) as Eg.
  { intros lba h b j. unfold tbl_seg. by rewrite Ez. }
  assert (forall lba, gpt_dev total lba s -> gpt_dev total lba s') as Hdev.
  { intros lba [D1 D2 D3 D4 D5 D6 D7].
    split; cbv zeta; rewrite ?Ez, ?Ed, ?Es, ?Et, ?Eg; try done.
    intros Hs. destruct (D6 Hs). split; rewrite ?Ez; done. }
  intros [F1 F2 F3 F4]. split; [|intros lba i; rewrite Es; apply F2|by apply Hdev..].
  unfold dev_ok. by rewrite Ed, Ez.
Qed.

Lemma dev_fine_grows total s s' : grows s s' -> dev_fine total s -> dev_fine total s'.
Proof. intros G. apply dev_fine_same; [apply G|by apply grows_gd]. Qed.

Lemma wp_gpt_geometry flags v dev s (Q : bool -> store -> Prop) :
  Q true (st_geometry flags v dev s) ->
  (di_reg dev = true -> Z.rem (di_st_size dev) 512 <> 0 -> forall s', s_disk s' = s_disk s -> Q false s') ->
  wp (gpt_geometry dev) (on_gd (fun _ => Gd flags v 0 None None None None None 0 0) s) Q.
Proof.
  intros HQ HF. unfold gpt_geometry, st_geometry, dev_secsz, dev_size in *.
  destruct (di_reg dev); cbn [negb].
  - st_step. destruct (Z.eqb_spec (Z.rem (di_st_size dev) 512) 0); cbn [negb]; st_step.
    + exact HQ.
    + by apply HF.
  - st_step. exact HQ.
Qed.

(** C12: [gpt_open], when memory is not short and what the device holds is an MBR and GPT
    that can be used or nothing of the kind: it returns, without changing the device, and
    if it succeeds the device has at least six sectors and the media map tiles them. *)
Theorem gpt_open_opens s flags ro q nm v dev :
  fresh_store s -> dev_secsz dev <> 0 ->
  (6 <= dev_total dev ->
   dev_fine (dev_total dev) (st_geometry (open_flags flags ro q nm) v dev s)) ->
  exists r s', gpt_open flags ro q nm v (Some dev) s = Some (r, s') /\ s_disk s' = s_disk s /\
    (r = true -> 6 <= dev_total dev /\ exists l, map_ok s' l (dev_total dev)).
Proof.
  intros Hfresh Hz Hfine. apply wp_elim. unfold gpt_open. fold (open_flags flags ro q nm).
  st_step. apply wp_bind. eapply wp_gpt_geometry; [|intros; by apply wp_ret]. cbn [negb].
  set (s0 := st_geometry _ _ _ _) in *. st_step.
  change (gd_secsz (s_gd s0)) with (dev_secsz dev).
  change (gd_mediasz (s_gd s0)) with (dev_size dev). cbv zeta. fold (dev_total dev).
  destruct (Z.eqb_spec (dev_secsz dev) 0); [done|].
  destruct (Z.ltb_spec (dev_total dev) 6) as [|Hsz]; [apply wp_ret; split; [done|discriminate]|].
  pose proof (Hfine Hsz) as F. set (total := dev_total dev) in *.
  assert (total < 2 ^ 62) as Hmax.
  { destruct F as [(_ & ? & _ & ?) _ _ _]. nia. }
  apply wp_bind, wp_map_init; [done|lia| |].
  2: { intros s1 E. by rewrite Hos in E. }
  intros w s1 _ Hok1 Ed1 _ Ez1 _ _ _ _. cbn [Z.eqb].
  apply (dev_fine_same total s0 s1 Ed1 Ez1) in F.
  apply wp_bind. eapply wp_mono.
  { eapply (wp_gpt_mbr Hos total _ s1); [exact Hok1|apply F|apply F|lia|lia]. }
  intros r2 s2 (Hr2 & [l2 Hok2] & G2). pose proof (dev_fine_grows _ _ _ G2 F) as F2.
  assert (s_disk s2 = s_disk s) as Ed2 by (rewrite (gr_disk _ _ G2); exact Ed1).
  destruct (r2 =? -1); [apply wp_ret; split; [done|discriminate]|].
  apply wp_bind. eapply wp_mono.
  { eapply (wp_gpt_gpt Hos total s2); [apply F2|lia|exact Hok2]. }
  intros r3 s3 [G3 (l3 & Hok3 & _) _ _ _]. pose proof (dev_fine_grows _ _ _ G3 F2) as F3.
  assert (s_disk s3 = s_disk s) as Ed3 by (rewrite (gr_disk _ _ G3); exact Ed2).
  destruct (r3 =? -1); [apply wp_ret; split; [done|discriminate]|].
  apply wp_bind. eapply wp_mono.
  { eapply (wp_gpt_gpt Hos total s3); [apply F3|lia|exact Hok3]. }
  intros r4 s4 [G4 (l4 & Hok4 & _) _ _ _]. apply wp_ret.
  split; [rewrite (gr_disk _ _ G4); exact Ed3|]. intros _. split; [done|by exists l4].
Qed.
End opening.

(** ** A device with one copy of a GPT *)

(** A header for a table of two entries at sector 2, the first a partition of sector 4. *)
Definition ex_load_tbl : list Z :=
  ex_kind DRAGONFLY_UFS1 ++ replicate 16 0 ++ le_enc 8 4 ++ le_enc 8 4 ++ replicate 208 0.
Definition ex_load_hdr0 : list Z :=
  splice 0 (cstr "EFI PART") (hset hdr_size 92 (hset hdr_entries 2 (hset hdr_entsz 128
    (hset hdr_lba_table 2 (replicate 128 0))))).
Definition ex_load_hdr : list Z := seal ex_load_hdr0 ex_load_tbl.

Definition ex_load_store : store :=
  Store (<[0%nat := ex_node (Seg 0 9 MAP_TYPE_UNUSED 0 PNull 0) None None]> ∅) ∅ 1
    (Gd 0 0 5 (Some 0%nat) None None None None 128 1152)
    (replicate 128 0 ++ ex_load_hdr ++ ex_load_tbl ++ replicate 640 0).
Definition ex_load_list : segs := [(0%nat, Seg 0 9 MAP_TYPE_UNUSED 0 PNull 0)].

Lemma ex_load_half : half_ok ex_load_hdr0 ex_load_tbl.
Proof.
  split; [..|vm_compute; lia|vm_compute; discriminate|vm_compute; discriminate].
  - apply (bool_decide_unpack _). by vm_compute.
  - apply (bool_decide_unpack _). by vm_compute.
Qed.

Lemma length_ex_load_hdr : length ex_load_hdr = 128%nat.
Proof. unfold ex_load_hdr. by rewrite seal_length by apply ex_load_half. Qed.

Lemma ex_load_get f : f <> hdr_crc_table -> f <> hdr_crc_self ->
  hget f ex_load_hdr = hget f ex_load_hdr0.
Proof. intros. apply seal_get; [done..|apply ex_load_half]. Qed.

Lemma ex_load_fields :
  hget hdr_size ex_load_hdr = 92 /\ hget hdr_entries ex_load_hdr = 2 /\
  hget hdr_entsz ex_load_hdr = 128 /\ hget hdr_lba_table ex_load_hdr = 2 /\
  tbl_blocks 128 ex_load_hdr = 2.
Proof.
  unfold tbl_blocks, tbl_bytes. rewrite !ex_load_get by done. by vm_compute.
Qed.

Lemma sub_middle {A} (l1 l2 l3 : list A) : sub (length l1) (length l2) (l1 ++ l2 ++ l3) = l2.
Proof. unfold sub. by rewrite drop_app_length, take_app_length. Qed.

Lemma ex_load_sector : sectors ex_load_store 1 1 = ex_load_hdr.
Proof.
  pose proof (sub_middle (replicate 128 0) ex_load_hdr (ex_load_tbl ++ replicate 640 0)) as E.
  rewrite length_replicate, length_ex_load_hdr in E. exact E.
Qed.

Lemma ex_load_tbl_of : tbl_of ex_load_store ex_load_hdr = ex_load_tbl.
Proof.
  destruct ex_load_fields as (_ & _ & _ & E1 & E2). unfold tbl_of, sectors. rewrite E1.
  change (gd_secsz (s_gd ex_load_store)) with 128. rewrite E2.
  pose proof (sub_middle (replicate 128 0 ++ ex_load_hdr) ex_load_tbl (replicate 640 0)) as E.
  rewrite length_app, length_replicate, length_ex_load_hdr, <- app_assoc in E. exact E.
Qed.

Lemma ex_load_ent i : 0 <= i < 2 ->
  ent_in i ex_load_hdr ex_load_tbl /\
  (ent_used i ex_load_hdr ex_load_tbl -> i = 0 /\
    ent_first i ex_load_hdr ex_load_tbl = 4 /\ ent_last i ex_load_hdr ex_load_tbl = 4).
Proof.
  intros Hi. destruct ex_load_fields as (_ & _ & E & _).
  unfold ent_in, ent_used, ent_first, ent_last, eget, ent_ofs. rewrite E.
  assert (i = 0 \/ i = 1) as [-> | ->] by lia.
  - split; [vm_compute; split; [done|]; split; [done|discriminate]|]. intros _. by vm_compute.
  - split; [vm_compute; split; [done|]; split; [done|discriminate]|]. intros H.
    exfalso. apply H. by vm_compute.
Qed.

(** Sealing keeps the signature. *)
Lemma hset_signed f v h : (GPT_MIN_HDR_SIZE <= length h)%nat -> f <> hdr_sig ->
  hdr_signed h -> hdr_signed (hset f v h).
Proof.
  unfold hdr_signed. intros Hl Hf Hs. etrans; [|exact Hs]. apply sub_splice_other; rewrite length_le_enc; [by apply hdr_room|].
  destruct (hdr_apart hdr_sig f); auto.
Qed.

Lemma ex_load_signed : hdr_signed ex_load_hdr.
Proof.
  pose proof (ho_min _ _ ex_load_half). unfold ex_load_hdr, seal.
  repeat (apply hset_signed; [by repeat apply min_hset|done|]). by vm_compute.
Qed.

Lemma ex_load_map : map_ok ex_load_store ex_load_list 9.
Proof.
  split; [split|split; [vm_compute; intuition congruence|lia]].
  - split; [|done]. by eexists.
  - done.
  - apply NoDup_singleton.
  - simpl. intros x Hx. by rewrite lookup_insert_ne by lia.
Qed.

Lemma ex_load_dev : gpt_dev 9 1 ex_load_store.
Proof.
  destruct ex_load_fields as (E1 & E2 & E3 & E4 & E5).
  assert (forall i j, 0 <= i < 2 -> 0 <= j < 2 -> ent_used i ex_load_hdr ex_load_tbl ->
    ent_used j ex_load_hdr ex_load_tbl -> i = j) as U.
  { intros i j Hi Hj [-> _]%ex_load_ent [-> _]%ex_load_ent; done. }
  split; cbv zeta; rewrite ?ex_load_sector, ?ex_load_tbl_of, ?E2.
  - apply Forall_app; split; [by apply Forall_replicate|].
    apply Forall_app; split; [apply seal_bytes, ex_load_half|].
    apply Forall_app; split; [apply ex_load_half|by apply Forall_replicate].
  - done.
  - done.
  - change (s_disk ex_load_store) with
      (replicate 128 0 ++ ex_load_hdr ++ ex_load_tbl ++ replicate 640 0).
    by rewrite length_app, length_app, length_ex_load_hdr.
  - done.
  - intros _. change (gd_secsz (s_gd ex_load_store)) with 128.
    split; rewrite ?E1, ?E2, ?E3, ?E4, ?E5, ?length_ex_load_hdr; simpl; lia.
  - intros _ _ _. split; [split|].
    + intros i Hi. by apply ex_load_ent.
    + intros i Hi Hu. apply ex_load_ent in Hu as (_ & -> & ->); [lia|done].
    + intros i j Hi Hj Hne Hu Hv. by destruct Hne; apply U.
    + split; (split; [simpl; change (gd_secsz (s_gd ex_load_store)) with 128; rewrite ?E5; lia|]);
        intros i Hi Hu; apply ex_load_ent in Hu as (-> & F1 & F2); try done;
        unfold apart, sg_end, ent_seg, tbl_seg, hdr_seg; simpl; rewrite ?F1, ?F2, ?E4;
        change (gd_secsz (s_gd ex_load_store)) with 128; rewrite ?E5; lia.
Qed.


(** ** Devices with an MBR *)
#[local] Instance ex_mbr : DiskMbr := {| DOSPTYP_PMBR := 0xee; DOSPTYP_EXTLBA := 0x0f |}.

(** An MBR whose first partition has the type [typ], starts at [start] and has [size]
    sectors, and a device of six sectors that starts with it. *)
Definition ex_mbr_sector (typ start size : Z) : list Z :=
  splice off_sig (le_enc 2 MBR_SIG) (splice (off_part 0 + off_part_size_lo) (le_enc 2 size)
    (splice (off_part 0 + off_part_start_lo) (le_enc 2 start)
    (splice (off_part 0 + off_part_typ) [typ] (replicate 512 0)))).
Definition ex_mbr_store (typ start size : Z) : store :=
  Store (<[0%nat := ex_node (Seg 0 6 MAP_TYPE_UNUSED 0 PNull 0) None None]> ∅) ∅ 1
    (Gd 0 0 5 (Some 0%nat) None None None None 512 3072)
    (ex_mbr_sector typ start size ++ replicate 2560 0).
Definition ex_mbr_list : segs := [(0%nat, Seg 0 6 MAP_TYPE_UNUSED 0 PNull 0)].

Lemma ex_mbr_map typ start size : map_ok (ex_mbr_store typ start size) ex_mbr_list 6.
Proof.
  split; [split|split; [vm_compute; intuition congruence|lia]].
  - split; [|done]. by eexists.
  - done.
  - apply NoDup_singleton.
  - simpl. intros x Hx. by rewrite lookup_insert_ne by lia.
Qed.

Lemma length_ex_mbr typ start size : length (ex_mbr_sector typ start size) = 512%nat.
Proof. done. Qed.

Lemma ex_mbr_dev typ start size : 0 <= typ < 256 -> dev_ok 6 (ex_mbr_store typ start size).
Proof.
  intros Ht. unfold dev_ok. split; [|split; [done|split; [|done]]].
  - apply Forall_app. split; [|by apply Forall_replicate].
    repeat apply bytes_ok_splice; try apply le_enc_bytes; [|by apply Forall_replicate].
    apply Forall_cons; split; [done|apply Forall_nil_2].
  - change (s_disk (ex_mbr_store typ start size)) with
      (ex_mbr_sector typ start size ++ replicate 2560 0).
    by rewrite length_app, length_ex_mbr, length_replicate.
Qed.

Lemma ex_mbr_sector0 typ start size :
  sectors (ex_mbr_store typ start size) 0 1 = ex_mbr_sector typ start size.
Proof. exact (sub_middle [] (ex_mbr_sector typ start size) (replicate 2560 0)). Qed.

(** The other sectors are not MBRs. *)
Lemma ex_mbr_unsigned typ start size lba : 1 <= lba ->
  mbr_signed (sectors (ex_mbr_store typ start size) lba 1) = false.
Proof.
  intros Hl. unfold mbr_signed, sectors.
  change (s_disk (ex_mbr_store typ start size)) with
    (ex_mbr_sector typ start size ++ replicate 2560 0).
  change (gd_secsz (s_gd (ex_mbr_store typ start size))) with 512.
  unfold sub. rewrite drop_app_ge by (rewrite length_ex_mbr; lia).
  rewrite drop_replicate, take_replicate, drop_replicate, take_replicate.
  apply Z.eqb_neq. enough (forall n, le_dec (replicate n 0) = 0) as -> by done.
  induction n as [|n IH]; [done|]. cbn [replicate le_dec]. by rewrite IH.
Qed.

Lemma ex_mbr_fine : mbrs_fine (ex_mbr_store 0xa5 2 3).
Proof.
  intros lba i Hl Hi. destruct (decide (lba = 0)) as [->|].
  - intros _. rewrite ex_mbr_sector0. unfold part_fine.
    do 4 (destruct i as [|i]; [vm_compute; auto|]). lia.
  - by rewrite ex_mbr_unsigned by lia.
Qed.

(** No header anywhere but in the first sector. *)
Lemma ex_mbr_no_hdr typ start size lba : 1 <= lba ->
  ~ hdr_signed (sectors (ex_mbr_store typ start size) lba 1).
Proof.
  intros Hl. unfold hdr_signed, sectors.
  change (s_disk (ex_mbr_store typ start size)) with
    (ex_mbr_sector typ start size ++ replicate 2560 0).
  change (gd_secsz (s_gd (ex_mbr_store typ start size))) with 512.
  unfold sub. rewrite drop_app_ge by (rewrite length_ex_mbr; lia).
  rewrite drop_replicate, take_replicate, drop_replicate, take_replicate. intros E.
  assert (hd 0 (cstr "EFI PART") = 0) as H; [|by vm_compute in H].
  change GPT_HDR_SIG with (cstr "EFI PART") in E. rewrite <- E.
  by destruct (_ `min` _)%nat.
Qed.

Lemma ex_dev_fine : dev_fine 6 (ex_mbr_store 0xa5 2 3).
Proof.
  pose proof (ex_mbr_dev 0xa5 2 3 ltac:(lia)) as (D1 & D2 & D3 & D4).
  split; [by apply ex_mbr_dev|exact ex_mbr_fine|..]; split; try done; cbv zeta;
    intros; by destruct (ex_mbr_no_hdr 0xa5 2 3 ltac:(eassumption || lia)).
Qed.

Definition ex_file : dev_info := DevInfo true 3072 0 0.
Definition ex_open_store : store :=
  Store ∅ ∅ 0 (Gd 0 0 0 None None None None None 0 0) (ex_mbr_sector 0xa5 2 3 ++ replicate 2560 0).

Lemma gpt_open_opens_witness :
  exists r s', gpt_open 0 false false false 0 (Some ex_file) ex_open_store = Some (r, s') /\
    s_disk s' = s_disk ex_open_store /\
    (r = true -> 6 <= dev_total ex_file /\ exists l, map_ok s' l (dev_total ex_file)).
Proof.
  apply (gpt_open_opens (os := ex_dev) (fun _ => eq_refl) ex_open_store 0 false false false 0 ex_file).
  - intros x _. apply lookup_empty.
  - done.
  - intros _. eapply (dev_fine_same 6 (ex_mbr_store 0xa5 2 3)); [done|done|exact ex_dev_fine].
Defined.

Lemma gpt_mbr_returns_witness :
  exists r s', gpt_mbr (Z.to_nat 6 + 1) 0 (ex_mbr_store 0xa5 2 3) = Some (r, s') /\
    (r = 0 \/ r = -1) /\ (exists l', map_ok s' l' 6) /\
    s_disk s' = s_disk (ex_mbr_store 0xa5 2 3) /\
    gd_flags (s_gd s') = gd_flags (s_gd (ex_mbr_store 0xa5 2 3)).
Proof.
  apply (gpt_mbr_returns (os := ex_dev) (fun _ => eq_refl) 6 (ex_mbr_store 0xa5 2 3) ex_mbr_list).
  - apply ex_mbr_map.
  - by apply ex_mbr_dev.
  - exact ex_mbr_fine.
  - lia.
Defined.

