(* ===== verification/GptVerify.v ===== *)
(** * GptVerify: comparing the two copies of a GPT (sbin/fgdisk/verify.c)

    [compare_headers], [compare_entries] and [compare_tables] over the buffers of the two
    copies, and [verify], whose value is the list of the verdicts that it prints.  The
    text of the messages is not modelled. *)
From Stdlib Require Import ZArith Lia.
From stdpp Require Import base list option gmap.
From S2P Require Import Prelude Dll Gd MediaMap Crc32 CMem Stand GptIo GptRep GptSpec GptExample.
From S2P Require Import GptEdit.
Open Scope Z_scope.

(** The value of [verify_print] and [verify_print2]. *)
Definition verify_print (cond : bool) : Z := if cond then 0 else -1.

Section code.
Context {os : Os} {gpt : SysGpt}.

(** [hdr->hdr_crc_self = htole32(crc32(hdr, le32toh(hdr->hdr_size)))] *)
Definition put_crc_self (hdr : ptr) : St store unit :=
  sz ← hdr_get hdr hdr_size;
  c ← crc32_at hdr sz;
  hdr_put hdr hdr_crc_self c.

(** [hp->f == hs->g] *)
Definition hdr_same (hp hs : ptr) (f g : hdr_field) : St store bool :=
  a ← hdr_get hp f; b ← hdr_get hs g; mret (a =? b).

Definition print_header (hdr : ptr) : St store Z :=
  if decide (hdr = PNull) then mret (-1)
  else hdr_put hdr hdr_crc_self 0;; put_crc_self hdr;; mret 0.

Definition compare_headers (hp hs : ptr) : St store Z :=
  if decide (hp = PNull \/ hs = PNull) then mret (-1)
  else
    s1 ← mem_get hp (off_hdr hdr_sig) (width_hdr hdr_sig);
    s2 ← mem_get hs (off_hdr hdr_sig) (width_hdr hdr_sig);
    let ret := verify_print (bool_decide (s1 = s2)) in
    c ← hdr_same hp hs hdr_revision hdr_revision;
    let ret := ret + verify_print c in
    c ← hdr_same hp hs hdr_size hdr_size;
    let ret := ret + verify_print c in
    hdr_put hp hdr_crc_self 0;;
    hdr_put hs hdr_crc_self 0;;
    put_crc_self hp;;
    put_crc_self hs;;
    c ← hdr_same hp hs hdr_crc_self hdr_crc_self;
    let ret := ret + verify_print (negb c) in
    c ← hdr_same hp hs hdr_lba_self hdr_lba_alt;
    let ret := ret + verify_print c in
    c ← hdr_same hp hs hdr_lba_alt hdr_lba_self;
    let ret := ret + verify_print c in
    c ← hdr_same hp hs hdr_lba_start hdr_lba_start;
    let ret := ret + verify_print c in
    c ← hdr_same hp hs hdr_lba_end hdr_lba_end;
    let ret := ret + verify_print c in
    c ← hdr_same hp hs hdr_lba_table hdr_lba_table;
    let ret := ret + verify_print (negb c) in
    u1 ← mem_get hp (off_hdr hdr_uuid) (width_hdr hdr_uuid);
    u2 ← mem_get hs (off_hdr hdr_uuid) (width_hdr hdr_uuid);
    let ret := ret + verify_print (uuid_eqb u1 u2) in
    c ← hdr_same hp hs hdr_entries hdr_entries;
    let ret := ret + verify_print c in
    c ← hdr_same hp hs hdr_entsz hdr_entsz;
    let ret := ret + verify_print c in
    (* hp->hdr_crc_table = hs->hdr_crc_table *)
    v ← hdr_get hs hdr_crc_table;
    hdr_put hp hdr_crc_table v;;
    mret (ret + verify_print (negb (v =? 0))).

(** [e1->f == e2->f] for a number. *)
Definition ent_same (e1 e2 : ptr) (f : ent_field) : St store bool :=
  a ← ent_get e1 f; b ← ent_get e2 f; mret (le_dec a =? le_dec b).

Definition ent_same_uuid (e1 e2 : ptr) (f : ent_field) : St store bool :=
  a ← ent_get e1 f; b ← ent_get e2 f; mret (uuid_eqb a b).

Definition compare_entries (e1 e2 : ptr) : St store Z :=
  if decide (e1 = PNull \/ e2 = PNull) then mret (-1)
  else
    c ← ent_same_uuid e1 e2 ent_type;
    let ret := verify_print c in
    c ← ent_same_uuid e1 e2 ent_uuid;
    let ret := ret + verify_print c in
    c ← ent_same e1 e2 ent_lba_start;
    let ret := ret + verify_print c in
    c ← ent_same e1 e2 ent_lba_end;
    let ret := ret + verify_print c in
    c ← ent_same e1 e2 ent_attr;
    let ret := ret + verify_print c in
    (* memcmp(e1->ent_name, e1->ent_name, sizeof(e1->ent_name)) *)
    n1 ← ent_get e1 ent_name;
    n2 ← ent_get e1 ent_name;
    mret (ret + verify_print (bool_decide (n1 = n2))).

(** The loop over the entries, with [n] left. *)
Fixpoint compare_loop (n : nat) (ep es : ptr) (entsz i ret : Z) : St store Z :=
  match n with
  | O => mret ret
  | S n =>
    r ← compare_entries (ptr_add ep (u32 (i * entsz))) (ptr_add es (u32 (i * entsz)));
    compare_loop n ep es entsz (i + 1) (ret + verify_print (r =? 0))
  end.

Definition compare_tables (hp hs ep es : ptr) : St store Z :=
  if decide (hp = PNull \/ hs = PNull) then mret (-1)
  else if decide (ep = PNull \/ es = PNull) then mret (-1)
  else
    n1 ← hdr_get hp hdr_entries;
    n2 ← hdr_get hs hdr_entries;
    let entries := if negb (n1 =? n2) then Z.min n1 n2 else n1 in
    z1 ← hdr_get hp hdr_entsz;
    z2 ← hdr_get hs hdr_entsz;
    let entsz := if negb (z1 =? z2) then Z.min z1 z2 else z1 in
    let entsz := if negb (entries =? entsz) then Z.min entries entsz else entsz in
    compare_loop (Z.to_nat entsz) ep es entsz 0 0.

(** [m->map_data] if [m] was found. *)
Definition data_of (m : option loc) : St store ptr :=
  match m with None => mret PNull | Some m => nd ← load m; mret (map_data nd) end.

(** The verdicts that are printed, in order. *)
Definition verify (check_pri check_sec : bool) : St store (list bool) :=
  '(go, hp, ep, out) ←
    (if check_pri then
       m ← map_find MAP_TYPE_PRI_GPT_HDR; upd_gd (set_gd_gpt m);;
       t ← map_find MAP_TYPE_PRI_GPT_TBL; upd_gd (set_gd_tbl t);;
       hp ← data_of m;
       ep ← data_of t;
       changed ←
         (match m with
          | None => mret false
          | Some _ =>
            alt ← hdr_get hp hdr_lba_alt;
            g ← gets s_gd;
            mret (negb (alt =? u64 (s64 (Z.quot (gd_mediasz g) (gd_secsz g) - 1))))
          end);
       mret (negb changed, hp, ep, [bool_decide (is_Some m); bool_decide (is_Some t)])
     else mret (true, PNull, PNull, []));
  if negb go then mret out
  else
    '(hs, es, out) ←
      (if check_sec then
         m ← map_find MAP_TYPE_SEC_GPT_HDR; upd_gd (set_gd_tpg m);;
         t ← map_find MAP_TYPE_SEC_GPT_TBL; upd_gd (set_gd_lbt t);;
         hs ← data_of m;
         es ← data_of t;
         mret (hs, es, out ++ [bool_decide (is_Some m); bool_decide (is_Some t)])
       else mret (PNull, PNull, out));
    if check_pri && check_sec then
      pmbr ← map_find MAP_TYPE_PMBR;
      r1 ← compare_headers hp hs;
      r2 ← compare_tables hp hs ep es;
      mret (out ++ [bool_decide (is_Some pmbr); r1 =? 0; r2 =? 0])
    else if check_pri then print_header hp;; mret out
    else if check_sec then print_header hs;; mret out
    else mret out.
End code.

(** ** What the comparison of the headers accepts *)
Section headers.
Context {os : Os} {gpt : SysGpt} {laws : SysGptLaws}.
Implicit Types (s : store) (h t : list Z).

(** A header in a buffer of sufficient size. *)
Record hdr_ok h : Prop := {
  hk_bytes : bytes_ok h;
  hk_min : (GPT_MIN_HDR_SIZE <= length h)%nat;
  hk_size : hget hdr_size h <= Z.of_nat (length h);
}.

(** The header with the checksum of itself computed. *)
Definition reself h : list Z :=
  hset hdr_crc_self (crc_of (take (Z.to_nat (hget hdr_size h)) (hset hdr_crc_self 0 h))) h.

Definition hsub (f : hdr_field) h : list Z := sub (off_hdr f) (width_hdr f) h.

Definition headers_match h1 h2 : Prop :=
  hsub hdr_sig h1 = hsub hdr_sig h2 /\
  hget hdr_revision h1 = hget hdr_revision h2 /\
  hget hdr_size h1 = hget hdr_size h2 /\
  hget hdr_crc_self (reself h1) <> hget hdr_crc_self (reself h2) /\
  hget hdr_lba_self h1 = hget hdr_lba_alt h2 /\
  hget hdr_lba_alt h1 = hget hdr_lba_self h2 /\
  hget hdr_lba_start h1 = hget hdr_lba_start h2 /\
  hget hdr_lba_end h1 = hget hdr_lba_end h2 /\
  hget hdr_lba_table h1 <> hget hdr_lba_table h2 /\
  hsub hdr_uuid h1 = hsub hdr_uuid h2 /\
  hget hdr_entries h1 = hget hdr_entries h2 /\
  hget hdr_entsz h1 = hget hdr_entsz h2 /\
  hget hdr_crc_table h2 <> 0.

Lemma hsub_hset f g v h : f <> g -> (GPT_MIN_HDR_SIZE <= length h)%nat ->
  hsub f (hset g v h) = hsub f h.
Proof.
  intros Hf Hl. apply sub_splice_other; rewrite length_le_enc; [by apply hdr_room|].
  destruct (hdr_apart f g Hf); auto.
Qed.

Lemma hsub_uuid h : hdr_ok h -> uuid_ok (hsub hdr_uuid h).
Proof.
  intros [Hb Hm _]. split; [by apply bytes_ok_sub|]. apply length_sub. by apply (hdr_room hdr_uuid).
Qed.

Lemma reself_same f h : hdr_ok h -> f <> hdr_crc_self ->
  hget f (reself h) = hget f h /\ hsub f (reself h) = hsub f h.
Proof. intros [] Hf. unfold reself. by rewrite hget_hset_ne, hsub_hset. Qed.

Lemma length_reself h : hdr_ok h -> length (reself h) = length h.
Proof. intros []. unfold reself. by rewrite length_hset. Qed.

Lemma wp_hdr_same b1 b2 h1 h2 f g s (Q : bool -> store -> Prop) :
  s_bufs s !! b1 = Some h1 -> s_bufs s !! b2 = Some h2 ->
  (GPT_MIN_HDR_SIZE <= length h1)%nat -> (GPT_MIN_HDR_SIZE <= length h2)%nat ->
  Q (hget f h1 =? hget g h2) s -> wp (hdr_same (PBuf b1 0) (PBuf b2 0) f g) s Q.
Proof.
  intros H1 H2 L1 L2 HQ. unfold hdr_same. apply wp_bind, (wp_hdr_get _ h1); [done..|].
  apply wp_bind, (wp_hdr_get _ h2); [done..|]. by apply wp_ret.
Qed.

Lemma wp_hsub b h f s (Q : list Z -> store -> Prop) :
  s_bufs s !! b = Some h -> (GPT_MIN_HDR_SIZE <= length h)%nat -> Q (hsub f h) s ->
  wp (mem_get (PBuf b 0) (off_hdr f) (width_hdr f)) s Q.
Proof.
  intros Hb Hl HQ. eapply wp_mem_get; [done|done| |exact HQ]. pose proof (hdr_room f h Hl). lia.
Qed.

(** [put_crc_self] of a header whose checksum was set to 0. *)
Lemma wp_put_crc_self b h s (Q : unit -> store -> Prop) : hdr_ok h ->
  s_bufs s !! b = Some (hset hdr_crc_self 0 h) -> Q tt (on_bufs <[b := reself h]> s) ->
  wp (put_crc_self (PBuf b 0)) s Q.
Proof.
  intros [Hb Hm Hs] E HQ. unfold put_crc_self.
  pose proof (length_hset hdr_crc_self 0 h Hm) as L. pose proof (hget_bound hdr_size h Hb).
  apply wp_bind. eapply wp_hdr_get; [exact E|lia|]. rewrite hget_hset_ne by done.
  apply wp_bind. eapply wp_crc32_at; [exact E|by apply bytes_ok_hset|lia|].
  eapply wp_hdr_put; [exact E|lia|]. by rewrite hset_hset by done.
Qed.

Lemma verify_print_le c : -1 <= verify_print c <= 0.
Proof. by destruct c. Qed.

Lemma verify_print_0 c : verify_print c = 0 <-> c = true.
Proof. by destruct c. Qed.
End headers.

(** The bounds of the verdicts in the goal. *)
Ltac verdict_bounds :=
  repeat match goal with
  | |- context [verify_print ?c] =>
    lazymatch goal with
    | _ : -1 <= verify_print c <= 0 |- _ => fail
    | _ => pose proof (verify_print_le c)
    end
  end.

(** A verdict in favour is its condition. *)
Ltac verdict_ok :=
  first [apply Z.eqb_eq, verify_print_0; lia
        |apply Z.eqb_neq, negb_true_iff, verify_print_0; lia
        |apply (bool_decide_unpack _), Is_true_true, verify_print_0; lia].

(** Every verdict of the goal is in favour. *)
Ltac verdicts_0 :=
  repeat match goal with
  | |- context [verify_print ?c] =>
    rewrite (proj2 (verify_print_0 c)) by
      first [by apply Z.eqb_eq | by apply negb_true_iff, Z.eqb_neq | by apply bool_decide_eq_true]
  end.

Section compare.
Context {os : Os} {gpt : SysGpt} {laws : SysGptLaws}.
Implicit Types (s : store) (h t : list Z).

(** C15: [compare_headers] of two headers in buffers of their own returns 0 exactly if they
    are the two copies of one header: the same but for their places, which must be each
    other's, and their own checksums, which must differ.  Of the checksums of the tables
    it only asks that the secondary one is not 0, and it overwrites the primary one by
    it. *)
Theorem compare_headers_checks s b1 b2 h1 h2 :
  s_bufs s !! b1 = Some h1 -> s_bufs s !! b2 = Some h2 -> b1 <> b2 ->
  hdr_ok h1 -> hdr_ok h2 ->
  exists ret s', compare_headers (PBuf b1 0) (PBuf b2 0) s = Some (ret, s') /\
    (ret = 0 <-> headers_match h1 h2) /\ -13 <= ret <= 0 /\
    s' = on_bufs (fun m => <[b1 := hset hdr_crc_table (hget hdr_crc_table h2) (reself h1)]>
      (<[b2 := reself h2]> m)) s.
Proof.
  intros Hb1 Hb2 Hne Hk1 Hk2. apply wp_elim. unfold compare_headers.
  rewrite decide_False by (by intros []).
  pose proof Hk1 as [B1 M1 S1]. pose proof Hk2 as [B2 M2 S2].
  apply wp_bind, (wp_hsub _ h1); [done..|]. apply wp_bind, (wp_hsub _ h2); [done..|].
  do 2 (apply wp_bind; eapply wp_hdr_same; [exact Hb1|exact Hb2|done|done|]).
  apply wp_bind, (wp_hdr_put _ h1); [done..|].
  apply wp_bind, (wp_hdr_put _ h2); [by rewrite bufs_insert_ne|done|].
  apply wp_bind, (wp_put_crc_self _ h1); [done|rewrite bufs_insert_ne by done; apply bufs_insert|].
  apply wp_bind, (wp_put_crc_self _ h2); [done|rewrite bufs_insert_ne by done; apply bufs_insert|].
  set (s1 := on_bufs _ _).
  assert (s_bufs s1 !! b1 = Some (reself h1)) as E1.
  { unfold s1. rewrite bufs_insert_ne by done. apply bufs_insert. }
  assert (s_bufs s1 !! b2 = Some (reself h2)) as E2 by apply bufs_insert.
  pose proof (length_reself h1 Hk1) as L1. pose proof (length_reself h2 Hk2) as L2.
  do 6 (apply wp_bind; eapply wp_hdr_same; [exact E1|exact E2|lia|lia|]).
  apply wp_bind. eapply wp_hsub; [exact E1|lia|]. apply wp_bind. eapply wp_hsub; [exact E2|lia|].
  do 2 (apply wp_bind; eapply wp_hdr_same; [exact E1|exact E2|lia|lia|]).
  apply wp_bind. eapply wp_hdr_get; [exact E2|lia|].
  apply wp_bind. eapply wp_hdr_put; [exact E1|lia|]. apply wp_ret. cbv zeta.
  assert (forall f, f <> hdr_crc_self -> hget f (reself h1) = hget f h1 /\
    hget f (reself h2) = hget f h2) as G by (intros f Hf; split; by apply reself_same).
  destruct (reself_same hdr_uuid h1 Hk1 ltac:(done)) as [_ U1].
  destruct (reself_same hdr_uuid h2 Hk2 ltac:(done)) as [_ U2].
  rewrite U1, U2, uuid_eqb_eq by by apply hsub_uuid.
  repeat match goal with
  | |- context [hget ?f (reself h1)] => rewrite (proj1 (G f ltac:(done)))
  | |- context [hget ?f (reself h2)] => rewrite (proj2 (G f ltac:(done)))
  end.
  unfold headers_match. split; [|split].
  - split; [|intros; destruct_and!; by verdicts_0].
    verdict_bounds. intros E. split_and!; verdict_ok.
  - verdict_bounds. lia.
  - unfold s1, on_bufs. simpl. f_equal. apply map_eq. intros x.
    rewrite !lookup_insert. by repeat case_decide; simplify_eq.
Qed.

(** *** The entries *)

(** The field [f] of an entry that starts at byte [o] of the table. *)
Definition efield (o : Z) (f : ent_field) t : list Z :=
  sub (Z.to_nat o + off_ent f) (width_ent f) t.

Definition ent_agree (o : Z) t1 t2 : Prop := forall f, f <> ent_name ->
  efield o f t1 = efield o f t2.

Definition ent_room_at (o : Z) t : Prop :=
  0 <= o /\ o + Z.of_nat sizeof_gpt_ent <= Z.of_nat (length t).

Lemma wp_efield b o f t s (Q : list Z -> store -> Prop) :
  s_bufs s !! b = Some t -> ent_room_at o t -> Q (efield o f t) s ->
  wp (ent_get (PBuf b o) f) s Q.
Proof.
  intros Hb [H1 H2] HQ. unfold ent_get. eapply wp_mem_get; [done|done| |exact HQ].
  pose proof (ent_inside f). lia.
Qed.

Lemma efield_ok o f t : bytes_ok t -> ent_room_at o t ->
  bytes_ok (efield o f t) /\ length (efield o f t) = width_ent f.
Proof.
  intros Hb [H1 H2]. split; [by apply bytes_ok_sub|]. apply length_sub.
  pose proof (ent_inside f). lia.
Qed.

Lemma wp_ent_same b1 b2 o t1 t2 f s (Q : bool -> store -> Prop) :
  s_bufs s !! b1 = Some t1 -> s_bufs s !! b2 = Some t2 -> bytes_ok t1 -> bytes_ok t2 ->
  ent_room_at o t1 -> ent_room_at o t2 ->
  Q (bool_decide (efield o f t1 = efield o f t2)) s ->
  wp (ent_same (PBuf b1 o) (PBuf b2 o) f) s Q.
Proof.
  intros H1 H2 B1 B2 R1 R2 HQ. unfold ent_same. apply wp_bind, (wp_efield _ _ _ t1); [done..|].
  apply wp_bind, (wp_efield _ _ _ t2); [done..|]. apply wp_ret.
  destruct (efield_ok o f t1 B1 R1) as [? L1], (efield_ok o f t2 B2 R2) as [? L2].
  replace (le_dec (efield o f t1) =? le_dec (efield o f t2))
    with (bool_decide (efield o f t1 = efield o f t2)); [done|].
  case_bool_decide as E; symmetry; [by apply Z.eqb_eq; rewrite E|].
  apply Z.eqb_neq. intros E'. apply E, le_dec_inj; congruence || done.
Qed.

Lemma wp_ent_same_uuid b1 b2 o t1 t2 f s (Q : bool -> store -> Prop) :
  f = ent_type \/ f = ent_uuid ->
  s_bufs s !! b1 = Some t1 -> s_bufs s !! b2 = Some t2 -> bytes_ok t1 -> bytes_ok t2 ->
  ent_room_at o t1 -> ent_room_at o t2 ->
  Q (bool_decide (efield o f t1 = efield o f t2)) s ->
  wp (ent_same_uuid (PBuf b1 o) (PBuf b2 o) f) s Q.
Proof.
  intros Hf H1 H2 B1 B2 R1 R2 HQ. unfold ent_same_uuid.
  apply wp_bind, (wp_efield _ _ _ t1); [done..|].
  apply wp_bind, (wp_efield _ _ _ t2); [done..|]. apply wp_ret.
  assert (width_ent f = 16%nat) as W by (by destruct Hf as [-> | ->]).
  rewrite uuid_eqb_eq; [done|..]; unfold uuid_ok; rewrite <- W; by apply efield_ok.
Qed.

Lemma ent_agree_fields o t1 t2 : ent_agree o t1 t2 <->
  efield o ent_type t1 = efield o ent_type t2 /\ efield o ent_uuid t1 = efield o ent_uuid t2 /\
  efield o ent_lba_start t1 = efield o ent_lba_start t2 /\
  efield o ent_lba_end t1 = efield o ent_lba_end t2 /\
  efield o ent_attr t1 = efield o ent_attr t2.
Proof.
  split; [intros H; split_and!; by apply H|]. intros (?&?&?&?&?) [] Hf; done.
Qed.

(** [compare_entries] never looks at the names. *)
Lemma wp_compare_entries b1 b2 o t1 t2 s (Q : Z -> store -> Prop) :
  s_bufs s !! b1 = Some t1 -> s_bufs s !! b2 = Some t2 -> bytes_ok t1 -> bytes_ok t2 ->
  ent_room_at o t1 -> ent_room_at o t2 ->
  (forall r, (r = 0 <-> ent_agree o t1 t2) -> Q r s) ->
  wp (compare_entries (PBuf b1 o) (PBuf b2 o)) s Q.
Proof.
  intros H1 H2 B1 B2 R1 R2 HQ. unfold compare_entries. rewrite decide_False by (by intros []).
  do 2 (apply wp_bind, (wp_ent_same_uuid _ _ _ t1 t2); [auto|done..|]).
  do 3 (apply wp_bind, (wp_ent_same _ _ _ t1 t2); [done..|]).
  apply wp_bind, (wp_efield _ _ _ t1); [done..|]. apply wp_bind, (wp_efield _ _ _ t1); [done..|].
  apply wp_ret, HQ. rewrite ent_agree_fields.
  split; [|intros; destruct_and!; by verdicts_0].
  verdict_bounds. intros E. split_and!; verdict_ok.
Qed.

Lemma wp_compare_loop b1 b2 t1 t2 z n s : s_bufs s !! b1 = Some t1 -> s_bufs s !! b2 = Some t2 ->
  bytes_ok t1 -> bytes_ok t2 -> 0 <= z -> forall i ret (Q : Z -> store -> Prop),
  0 <= i -> (forall j, i <= j < i + Z.of_nat n ->
    j * z < 2 ^ 32 /\ ent_room_at (j * z) t1 /\ ent_room_at (j * z) t2) ->
  (forall r, r <= ret -> (r = ret <-> forall j, i <= j < i + Z.of_nat n -> ent_agree (j * z) t1 t2) ->
     Q r s) ->
  wp (compare_loop n (PBuf b1 0) (PBuf b2 0) z i ret) s Q.
Proof.
  intros H1 H2 B1 B2 Hz. induction n as [|n IH]; intros i ret Q Hi Hr HQ; cbn [compare_loop].
  { apply wp_ret, HQ; [lia|]. split; [intros _ j Hj; lia|done]. }
  destruct (Hr i ltac:(lia)) as (R0 & R1 & R2).
  cbn [ptr_add]. rewrite Z.add_0_l, u32_small by nia.
  apply wp_bind. eapply wp_compare_entries; [done..|]. intros r Er.
  apply IH; [lia|intros j Hj; apply Hr; lia|]. intros r' Hle Er'.
  pose proof (verify_print_le (r =? 0)) as Hv. pose proof (verify_print_0 (r =? 0)) as Hv0.
  rewrite Z.eqb_eq in Hv0. apply HQ; [lia|].
  split.
  - intros E j Hj. assert (verify_print (r =? 0) = 0) as E0 by lia.
    destruct (decide (j = i)) as [->|]; [by apply Er, Hv0|]. apply Er'; lia.
  - intros A. assert (verify_print (r =? 0) = 0) as E0 by (apply Hv0, Er, A; lia).
    enough (r' = ret + verify_print (r =? 0)) by lia. apply Er'. intros j Hj. apply A. lia.
Qed.

Lemma stride_fits j z n e w : 0 <= j < 0 + z -> z <= n -> z <= e -> w <= e ->
  0 <= j * z /\ j * z + w <= n * e.
Proof.
  intros Hj Hn He Hw. split; [apply Z.mul_nonneg_nonneg; lia|].
  pose proof (Z.mul_le_mono_nonneg j (n - 1) z e ltac:(lia) ltac:(lia) ltac:(lia) He).
  rewrite Z.mul_sub_distr_r in *. lia.
Qed.

(** [compare_tables] returns 0 exactly if the entries that it looks at agree in every
    field but the name.  It looks at as many entries as the smallest of the two numbers
    of entries and the two sizes of an entry, and takes that number for the size of an
    entry too. *)
Theorem compare_tables_checks s hb1 tb1 hb2 tb2 h1 t1 h2 t2 :
  s_bufs s !! hb1 = Some h1 -> s_bufs s !! tb1 = Some t1 ->
  s_bufs s !! hb2 = Some h2 -> s_bufs s !! tb2 = Some t2 -> half_ok h1 t1 -> half_ok h2 t2 ->
  hget hdr_entries h1 * hget hdr_entsz h1 < 2 ^ 32 ->
  hget hdr_entries h2 * hget hdr_entsz h2 < 2 ^ 32 ->
  Z.of_nat sizeof_gpt_ent <= hget hdr_entsz h1 -> Z.of_nat sizeof_gpt_ent <= hget hdr_entsz h2 ->
  let z := Z.min (Z.min (hget hdr_entries h1) (hget hdr_entries h2))
             (Z.min (hget hdr_entsz h1) (hget hdr_entsz h2)) in
  exists ret, compare_tables (PBuf hb1 0) (PBuf hb2 0) (PBuf tb1 0) (PBuf tb2 0) s = Some (ret, s) /\
    (ret = 0 <-> forall i, 0 <= i < z -> ent_agree (i * z) t1 t2).
Proof.
  intros Hh1 Ht1 Hh2 Ht2 Ho1 Ho2 F1 F2 Z1 Z2 z.
  pose proof Ho1 as [B1 B1' M1 _ T1]. pose proof Ho2 as [B2 B2' M2 _ T2].
  pose proof (hget_bound hdr_entries h1 B1) as N1. pose proof (hget_bound hdr_entries h2 B2) as N2.
  pose proof (hget_bound hdr_entsz h1 B1) as E1. pose proof (hget_bound hdr_entsz h2 B2) as E2.
  unfold tbl_bytes in T1, T2. rewrite u32_small in T1, T2 by nia.
  enough (wp (compare_tables (PBuf hb1 0) (PBuf hb2 0) (PBuf tb1 0) (PBuf tb2 0)) s
    (fun ret s' => (ret = 0 <-> forall i, 0 <= i < z -> ent_agree (i * z) t1 t2) /\ s' = s))
    as (ret & s' & E & H & ->)%wp_elim by eauto.
  unfold compare_tables. rewrite decide_False by (by intros []). rewrite decide_False by (by intros []).
  apply wp_bind, (wp_hdr_get _ h1); [done..|]. apply wp_bind, (wp_hdr_get _ h2); [done..|].
  apply wp_bind, (wp_hdr_get _ h1); [done..|]. apply wp_bind, (wp_hdr_get _ h2); [done..|].
  cbv zeta.
  match goal with |- wp (compare_loop (Z.to_nat ?x) _ _ ?y _ _) _ _ =>
    assert (x = z) as -> by (unfold z;
      destruct (Z.eqb_spec (hget hdr_entries h1) (hget hdr_entries h2)),
        (Z.eqb_spec (hget hdr_entsz h1) (hget hdr_entsz h2)); cbn [negb]; zcase; cbn [negb]; lia) end.
  assert (0 <= z) by (unfold z; lia).
  eapply (wp_compare_loop _ _ t1 t2); [done..|lia| |].
  - intros j Hj. rewrite Z2Nat.id in Hj by lia.
    assert (z <= hget hdr_entries h1 /\ z <= hget hdr_entries h2 /\ z <= hget hdr_entsz h1 /\
      z <= hget hdr_entsz h2) as (A1 & A2 & A3 & A4) by (unfold z; lia).
    unfold ent_room_at.
    destruct (stride_fits j z _ _ (Z.of_nat sizeof_gpt_ent) Hj A1 A3 Z1) as [? ?].
    destruct (stride_fits j z _ _ (Z.of_nat sizeof_gpt_ent) Hj A2 A4 Z2) as [? ?].
    split_and!; lia.
  - intros r _ Er. split; [|done]. rewrite Er.
    split; intros A j Hj; apply A; lia.
Qed.
End compare.

(** ** Witnesses *)
Lemma compare_tables_checks_witness :
  exists ret, compare_tables (PBuf 10 0) (PBuf 12 0) (PBuf 11 0) (PBuf 13 0) ex_gpt_store =
    Some (ret, ex_gpt_store) /\
    (ret = 0 <-> forall i, 0 <= i < Z.min (Z.min (hget hdr_entries ex_hdr) (hget hdr_entries ex_hdr))
      (Z.min (hget hdr_entsz ex_hdr) (hget hdr_entsz ex_hdr)) ->
      ent_agree (i * Z.min (Z.min (hget hdr_entries ex_hdr) (hget hdr_entries ex_hdr)) (Z.min (hget hdr_entsz ex_hdr) (hget hdr_entsz ex_hdr))) ex_tbl ex_tbl).
Proof.
  apply (compare_tables_checks ex_gpt_store 10 11 12 13 ex_hdr ex_tbl ex_hdr ex_tbl); try done;
    apply ex_half_ok.
Defined.

Lemma ex_hdr_ok : hdr_ok ex_hdr.
Proof. destruct ex_half_ok. by split. Qed.

Lemma compare_headers_checks_witness :
  exists ret s', compare_headers (PBuf 10 0) (PBuf 12 0) ex_gpt_store = Some (ret, s') /\
    (ret = 0 <-> headers_match ex_hdr ex_hdr) /\ -13 <= ret <= 0 /\
    s' = on_bufs (fun m => <[10%nat := hset hdr_crc_table (hget hdr_crc_table ex_hdr) (reself ex_hdr)]>
      (<[12%nat := reself ex_hdr]> m)) ex_gpt_store.
Proof.
  apply (compare_headers_checks ex_gpt_store 10 12 ex_hdr ex_hdr); try done; exact ex_hdr_ok.
Defined.
