(* ===== verification/GptMake.v ===== *)
(** * GptMake: creating, recovering and destroying a GPT (sbin/fgdisk)

    [create] of create.c, [recover] and [rewrite_pmbr] of recover.c, [destroy] of
    destroy.c, on an open device.  The options, static variables of the files, are
    arguments; the UUIDs that the library generates are the sequence [uuids]. *)
From Stdlib Require Import ZArith Lia.
From stdpp Require Import base list option gmap.
From S2P Require Import Prelude Dll Gd MediaMap Crc32 CMem Stand GptIo GptRep GptSpec GptExample.
From S2P Require Import GptOpen GptEdit GptLoad GptVerify.
Open Scope Z_scope.

(** [struct mbr_part], the rest of its fields; [sizeof(struct mbr)]. *)
Definition off_part_shd : nat := 1.
Definition off_part_ssect : nat := 2.
Definition off_part_scyl : nat := 3.
Definition off_part_ehd : nat := 5.
Definition off_part_esect : nat := 6.
Definition off_part_ecyl : nat := 7.
Definition sizeof_mbr : nat := 512.

(** [uuid.node[0]] in the 16 bytes of a [uuid_t]. *)
Definition off_node : nat := 10.

Section code.
Context {os : Os} {gpt : SysGpt} {uu : Uuid} {dm : DiskMbr}.

(** [gd->mediasz / gd->secsz - 1LL] *)
Definition last_sector : St store Z :=
  g ← gets s_gd;
  if gd_secsz g =? 0 then ub
  else mret (s64 (Z.quot (gd_mediasz g) (gd_secsz g) - 1)).

(** [calloc(n, gd->secsz)] *)
Definition calloc_sectors (n : Z) : St store ptr :=
  g ← gets s_gd;
  ob ← alloc_buf (replicate (Z.to_nat (n * gd_secsz g)) 0);
  mret (match ob with Some b => PBuf b 0 | None => PNull end).

(** [memcpy(dst, src, gd->secsz)] *)
Definition copy_sector (dst src : ptr) : St store unit :=
  g ← gets s_gd;
  d ← mem_get src 0 (Z.to_nat (gd_secsz g));
  mem_put dst 0 d.

(** [bzero(map->map_data, gd->secsz)] *)
Definition clear_sector (map : loc) : St store unit :=
  nd ← load map;
  g ← gets s_gd;
  mem_put (map_data nd) 0 (replicate (Z.to_nat (gd_secsz g)) 0).

(** [mbr->mbr_part[0].f = v] for a field of [w] bytes at [o]. *)
Definition put_part0 (mbr : ptr) (w o : nat) (v : Z) : St store unit :=
  mem_put mbr (off_part 0 + o) (le_enc w v).

(** A fresh PMBR, in the map and on the device. *)
Definition fresh_pmbr (last : Z) : St store unit :=
  mbr ← gpt_read 0 1;
  mem_put mbr 0 (replicate sizeof_mbr 0);;
  mem_put mbr off_sig (le_enc 2 MBR_SIG);;
  put_part0 mbr 1 off_part_shd 0;;
  put_part0 mbr 1 off_part_ssect 2;;
  put_part0 mbr 1 off_part_scyl 0;;
  put_part0 mbr 1 off_part_typ DOSPTYP_PMBR;;
  put_part0 mbr 1 off_part_ehd 0xfe;;
  put_part0 mbr 1 off_part_esect 0xff;;
  put_part0 mbr 1 off_part_ecyl 0xff;;
  put_part0 mbr 2 off_part_start_lo 1;;
  (if 0xffffffff <? last then
     put_part0 mbr 2 off_part_size_lo 0xffff;;
     put_part0 mbr 2 off_part_size_hi 0xffff
   else
     put_part0 mbr 2 off_part_size_lo last;;
     put_part0 mbr 2 off_part_size_hi (Z.shiftr last 16));;
  map ← map_add 0 1 MAP_TYPE_PMBR mbr 1;
  map ← of_opt map;
  gpt_write map;;
  mret tt.

(** [create] up to the number of sectors of the GPT at either end, the table and the
    header; [None] if there is no room. *)
Definition create_blocks (parts last : Z) : St store (option Z) :=
  blocks ← map_free 1 0;
  if blocks =? 0 then mret None
  else
    g ← gets s_gd;
    let want := u64 (parts * Z.of_nat sizeof_gpt_ent) in
    let blocks :=
      if want <? u64 (u64 (blocks - 1) * gd_secsz g) then
        want / gd_secsz g + (if negb (want mod gd_secsz g =? 0) then 1 else 0) + 1
      else blocks in
    let half := Z.shiftr (s64 (last + 1)) 1 in
    let blocks := if half <? s64 (blocks + 1) then half - 1 else blocks in
    map ← map_last;
    map ← of_opt map;
    nd ← load map;
    if negb (map_type nd =? MAP_TYPE_UNUSED) then mret None
    else
      let blocks := if map_size nd <? blocks then map_size nd else blocks in
      mret (if blocks =? 1 then None else Some blocks).

(** [for (i = 0; i < le32toh(hdr->hdr_entries); i++)], [n] of them left: a UUID for each
    entry. *)
Fixpoint put_uuids (uuids : nat -> list Z) (n : nat) (ent : ptr) (i : Z) : St store unit :=
  match n with
  | O => mret tt
  | S n =>
    let uuid := uuids (S (Z.to_nat i)) in
    let uuid := splice off_node [Z.land (nth off_node uuid 0 + i) 0xff] uuid in
    ent_put (ptr_add ent (i * Z.of_nat sizeof_gpt_ent)) ent_uuid (uuid_enc_le uuid);;
    put_uuids uuids n ent (i + 1)
  end.

(** The header and the table filled in. *)
Definition create_hdr (uuids : nat -> list Z) (parts last blocks : Z) : St store unit :=
  gm ← gd_map gd_gpt;
  tm ← gd_map gd_tbl;
  hdr ← gd_data gd_gpt;
  mem_put hdr (off_hdr hdr_sig) GPT_HDR_SIG;;
  hdr_put hdr hdr_revision GPT_HDR_REVISION;;
  hdr_put hdr hdr_size (Z.of_nat GPT_MIN_HDR_SIZE);;
  nd ← load gm;
  hdr_put hdr hdr_lba_self (map_start nd);;
  hdr_put hdr hdr_lba_alt last;;
  nt ← load tm;
  hdr_put hdr hdr_lba_start (s64 (map_start nt + blocks));;
  hdr_put hdr hdr_lba_end (s64 (last - blocks - 1));;
  mem_put hdr (off_hdr hdr_uuid) (uuid_enc_le (uuids 0%nat));;
  hdr_put hdr hdr_lba_table (map_start nt);;
  g ← gets s_gd;
  hdr_put hdr hdr_entries (u64 (blocks * gd_secsz g) / Z.of_nat sizeof_gpt_ent);;
  n ← hdr_get hdr hdr_entries;
  (if parts <? n then hdr_put hdr hdr_entries parts else mret tt);;
  hdr_put hdr hdr_entsz (Z.of_nat sizeof_gpt_ent);;
  ent ← gd_data gd_tbl;
  n ← hdr_get hdr hdr_entries;
  put_uuids uuids (Z.to_nat n) ent 0;;
  sz ← hdr_get hdr hdr_entsz;
  c ← crc32_at ent (u32 (n * sz));
  hdr_put hdr hdr_crc_table c;;
  put_crc_self hdr.

(** The header at [from] copied to the one at [to], with the places of both and of the
    table at [tbl] exchanged, and its checksum. *)
Definition copy_hdr (to from tbl : gd -> option loc) : St store unit :=
  dst ← gd_data to;
  src ← gd_data from;
  copy_sector dst src;;
  m ← gd_map to; nd ← load m; hdr_put dst hdr_lba_self (map_start nd);;
  m ← gd_map from; nd ← load m; hdr_put dst hdr_lba_alt (map_start nd);;
  m ← gd_map tbl; nd ← load m; hdr_put dst hdr_lba_table (map_start nd);;
  hdr_put dst hdr_crc_self 0;;
  put_crc_self dst.

(** [gpt_write(gd, gd->f)] *)
Definition write_gd (f : gd -> option loc) : St store unit :=
  m ← gd_map f; gpt_write m;; mret tt.

(** [map = map_find(gd, MAP_TYPE_MBR); ...]: [false] if the MBR must not be touched. *)
Definition nuke_mbr (force : bool) : St store bool :=
  map ← map_find MAP_TYPE_MBR;
  match map with
  | None => mret true
  | Some m =>
    if negb force then mret false
    else update m (set_map_type MAP_TYPE_UNUSED);; mret true
  end.

Definition create (uuids : nat -> list Z) (parts : Z) (force primary_only : bool)
    : St store unit :=
  last ← last_sector;
  pri ← map_find MAP_TYPE_PRI_GPT_HDR;
  sec ← (if decide (pri = None) then map_find MAP_TYPE_SEC_GPT_HDR else mret pri);
  if negb (bool_decide (sec = None)) then mret tt
  else
    ok ← nuke_mbr force;
    if negb ok then mret tt
    else
      pmbr ← map_find MAP_TYPE_PMBR;
      ok ←
        (match pmbr with
         | Some _ => mret true
         | None =>
           f ← map_free 0 1;
           if f =? 0 then mret false else fresh_pmbr last;; mret true
         end);
      if negb ok then mret tt
      else
        blocks ← create_blocks parts last;
        match blocks with
        | None => mret tt
        | Some blocks =>
          p ← calloc_sectors 1;
          if decide (p = PNull) then mret tt
          else
            m ← map_add 1 1 MAP_TYPE_PRI_GPT_HDR p 1; upd_gd (set_gd_gpt m);;
            match m with
            | None => free_ptr p
            | Some _ =>
              let blocks := s64 (blocks - 1) in
              p ← calloc_sectors blocks;
              if decide (p = PNull) then mret tt
              else
                m ← map_add 2 blocks MAP_TYPE_PRI_GPT_TBL p 1; upd_gd (set_gd_tbl m);;
                match m with
                | None => free_ptr p
                | Some _ =>
                  create_hdr uuids parts last blocks;;
                  write_gd gd_gpt;;
                  write_gd gd_tbl;;
                  (if negb primary_only then
                     p ← calloc_sectors 1;
                     m ← map_add last 1 MAP_TYPE_SEC_GPT_HDR p 1; upd_gd (set_gd_tpg m);;
                     data ← gd_data gd_tbl;
                     m ← map_add (s64 (last - blocks)) blocks MAP_TYPE_SEC_GPT_TBL data 0;
                     upd_gd (set_gd_lbt m);;
                     copy_hdr gd_tpg gd_gpt gd_lbt;;
                     write_gd gd_lbt;;
                     write_gd gd_tpg
                   else mret tt);;
                  gpt_status
                end
            end
        end.

(** ** recover.c *)

(** The tables: the missing one made of the other.  [false] if that fails. *)
Definition recover_tbl (last : Z) : St store bool :=
  g ← gets s_gd;
  match gd_tbl g, gd_lbt g with
  | Some t, None =>
    nt ← load t;
    m ← map_add (s64 (last - map_size nt)) (map_size nt) MAP_TYPE_SEC_GPT_TBL (map_data nt) 1;
    upd_gd (set_gd_lbt m);;
    match m with
    | None => mret false
    | Some m => gpt_write m;; gpt_status;; mret true
    end
  | None, Some t =>
    nt ← load t;
    m ← map_add 2 (map_size nt) MAP_TYPE_PRI_GPT_TBL (map_data nt) 0;
    upd_gd (set_gd_tbl m);;
    match m with
    | None => mret false
    | Some m => gpt_write m;; gpt_status;; mret true
    end
  | _, _ => mret true
  end.

(** The headers likewise. *)
Definition recover_hdr (last : Z) : St store unit :=
  g ← gets s_gd;
  match gd_gpt g, gd_tpg g with
  | Some _, None =>
    p ← calloc_sectors 1;
    m ← map_add last 1 MAP_TYPE_SEC_GPT_HDR p 1; upd_gd (set_gd_tpg m);;
    match m with
    | None => mret tt
    | Some m => copy_hdr gd_tpg gd_gpt gd_lbt;; gpt_write m;; gpt_status
    end
  | None, Some _ =>
    p ← calloc_sectors 1;
    m ← map_add 1 1 MAP_TYPE_PRI_GPT_HDR p 1; upd_gd (set_gd_gpt m);;
    match m with
    | None => mret tt
    | Some m => copy_hdr gd_gpt gd_tpg gd_tbl;; gpt_write m;; gpt_status
    end
  | _, _ => mret tt
  end.

(** [gd->gpt = map_find(...)] and the like for the four regions. *)
Definition find_all : St store unit :=
  m ← map_find MAP_TYPE_PRI_GPT_HDR; upd_gd (set_gd_gpt m);;
  m ← map_find MAP_TYPE_SEC_GPT_HDR; upd_gd (set_gd_tpg m);;
  m ← map_find MAP_TYPE_PRI_GPT_TBL; upd_gd (set_gd_tbl m);;
  m ← map_find MAP_TYPE_SEC_GPT_TBL; upd_gd (set_gd_lbt m).

(** No header, or no table. *)
Definition no_gpt (g : gd) : bool :=
  bool_decide (gd_gpt g = None /\ gd_tpg g = None) ||
  bool_decide (gd_tbl g = None /\ gd_lbt g = None).

Definition recover (force : bool) : St store unit :=
  mbr ← map_find MAP_TYPE_MBR;
  if negb (bool_decide (mbr = None)) && negb force then mret tt
  else
    find_all;;
    g ← gets s_gd;
    if no_gpt g then mret tt
    else
      last ← last_sector;
      alt ← (match gd_gpt g with
             | Some _ => hdr ← gd_data gd_gpt; v ← hdr_get hdr hdr_lba_alt; mret (Some v)
             | None => mret None
             end);
      match alt with
      | Some v =>
        if negb (v =? u64 last) then
          if negb force then mret tt
          else
            hdr ← gd_data gd_gpt;
            hdr_put hdr hdr_lba_alt last;;
            hdr_put hdr hdr_crc_self 0;;
            put_crc_self hdr;;
            write_gd gd_gpt;;
            gpt_status
        else ok ← recover_tbl last; if negb ok then mret tt else recover_hdr last
      | None => ok ← recover_tbl last; if negb ok then mret tt else recover_hdr last
      end.

Definition rewrite_pmbr (force : bool) : St store unit :=
  map ← map_find MAP_TYPE_PMBR;
  ok ← (match map with
        | None => mret true
        | Some m =>
          if negb force then mret false
          else update m (set_map_type MAP_TYPE_UNUSED);; mret true
        end);
  if negb ok then mret tt
  else
    last ← last_sector;
    find_all;;
    g ← gets s_gd;
    if no_gpt g then mret tt
    else
      ok ← nuke_mbr force;
      if negb ok then mret tt
      else
        pmbr ← map_find MAP_TYPE_PMBR;
        match pmbr with
        | Some _ => mret tt
        | None =>
          f ← map_free 0 1;
          if f =? 0 then mret tt else fresh_pmbr last;; gpt_status
        end.

(** ** destroy.c *)

(** A header cleared, if it was found: whether the program goes on. *)
Definition wipe_hdr (m : option loc) : St store bool :=
  match m with
  | None => mret true
  | Some m => clear_sector m;; r ← gpt_write m; mret (negb (r =? -1))
  end.

Definition destroy (recoverable : bool) : St store unit :=
  pri ← map_find MAP_TYPE_PRI_GPT_HDR;
  sec ← map_find MAP_TYPE_SEC_GPT_HDR;
  if bool_decide (pri = None /\ sec = None) then mret tt
  else if recoverable && bool_decide (sec = None) then mret tt
  else
    ok ← wipe_hdr pri;
    if negb ok then mret tt
    else
      ok ← wipe_hdr (if recoverable then None else sec);
      if negb ok then mret tt else gpt_status.
End code.

(** ** destroy *)
Section destroying.
Context {os : Os} {gpt : SysGpt} {laws : SysGptLaws}.
Implicit Types (s : store) (l : segs).

(** [gpt_status] changes at most the flags. *)
Lemma wp_status s (Q : unit -> store -> Prop) :
  (forall fl, Z.testbit fl 0 = Z.testbit (gd_flags (s_gd s)) 0 ->
     Q tt (on_gd (set_gd_flags fl) s)) -> wp gpt_status s Q.
Proof.
  intros HQ. assert (Q tt s) as Hs.
  { pose proof (HQ (gd_flags (s_gd s)) eq_refl) as H. by destruct s as [? ? ? [] ?]. }
  unfold gpt_status. st_step. repeat case_match; try (by apply wp_ret). st_step.
  apply (HQ (Z.lxor (gd_flags (s_gd s)) GPT_MODIFIED)). by rewrite Z.lxor_spec, xorb_false_r.
Qed.

(** The device with the region [v] cleared, if the device takes the write. *)
Definition wiped s (v : seg) (d : list Z) : list Z :=
  splice (Z.to_nat (sg_start v * gd_secsz (s_gd s))) (replicate (Z.to_nat (gd_secsz (s_gd s))) 0) d.

(** What the program keeps of the state while it clears headers. *)
Record wiping s0 (disk : list Z) s : Prop := {
  wi_maps : s_maps s = s_maps s0;
  wi_brk : s_brk s = s_brk s0;
  wi_gd : exists fl, s_gd s = set_gd_flags fl (s_gd s0) /\
    Z.testbit fl 0 = Z.testbit (gd_flags (s_gd s0)) 0;
  wi_len : forall b, length <$> s_bufs s !! b = length <$> s_bufs s0 !! b;
  wi_disk : s_disk s = disk;
  wi_dlen : length disk = length (s_disk s0);
}.

Lemma wp_wipe_hdr s0 s l total x y c disk n v b (Q : bool -> store -> Prop) :
  gpt_rep s0 l total x y c -> wiping s0 disk s -> (n, v) ∈ l -> sg_size v = 1 ->
  sg_data v = PBuf b 0 ->
  length <$> s_bufs s0 !! b = Some (Z.to_nat (gd_secsz (s_gd s0))) ->
  (forall s', wiping s0 (if write_ok s0 v then wiped s0 v disk else disk) s' ->
     Q (write_ok s0 v) s') ->
  wp (wipe_hdr (Some n)) s Q.
Proof.
  intros Hrep [W1 W2 (fl & Eg & Ef) W4 W5 W6] Hin Hsz Hb Hlen HQ.
  pose proof (gr_map _ _ _ _ _ _ Hrep) as (Hm & Ht & _). pose proof (gr_secsz _ _ _ _ _ _ Hrep).
  pose proof (gr_dev _ _ _ _ _ _ Hrep) as [Hdev Hmax].
  destruct (tiles_in _ _ _ _ _ Ht Hin) as (T1 & T2 & T3).
  destruct (rep_node s0 l n v Hm Hin) as (nd & Hn & <-). cbn [sg_size sg_data seg_of sg_start] in *.
  assert (gd_secsz (s_gd s) = gd_secsz (s_gd s0)) as Ez by (by rewrite Eg).
  pose proof (W4 b) as Hlb. rewrite Hlen in Hlb.
  destruct (s_bufs s !! b) as [d|] eqn:Ed; [|done]. injection Hlb as Hld.
  set (z := gd_secsz (s_gd s0)) in *.
  assert (write_ok s (seg_of nd) = write_ok s0 (seg_of nd)) as Ewr.
  { unfold write_ok. rewrite Eg. cbn [set_gd_flags gd_flags gd_secsz]. by rewrite Ef. }
  unfold wipe_hdr, clear_sector. apply wp_bind, wp_bind, (wp_load n nd); [by rewrite W1|].
  st_step. rewrite Ez. fold z. rewrite Hb.
  eapply wp_mem_put; [exact Ed|done|rewrite length_replicate; lia|].
  replace (splice _ _ d) with (replicate (Z.to_nat z) 0).
  2: { unfold splice. rewrite drop_ge by (rewrite length_replicate; lia). by rewrite app_nil_r. }
  apply wp_bind. eapply wp_gpt_write_region.
  - simpl. by rewrite W1.
  - exact Hb.
  - apply bufs_insert.
  - unfold region_buf. cbn [s_gd on_bufs s_disk seg_of sg_start sg_size]. rewrite Ez, Hsz. fold z.
    rewrite length_replicate, W5, W6. unfold sg_end in T3. simpl in T3.
    split_and!; try lia. nia.
  - set (s1 := on_bufs _ s).
    assert (write_ok s1 (seg_of nd) = write_ok s0 (seg_of nd)) as Ew1 by exact Ewr.
    rewrite Ew1. apply wp_ret.
    replace (negb _) with (write_ok s0 (seg_of nd)) by (by destruct (write_ok s0 _)).
    apply HQ. unfold wrote. rewrite Ew1. unfold wiped. fold z.
    assert (forall b0, length <$> s_bufs s1 !! b0 = length <$> s_bufs s0 !! b0) as Hl.
    { intros b0. destruct (decide (b0 = b)) as [->|].
      - unfold s1. rewrite bufs_insert, Hlen. cbn [fmap option_fmap option_map].
        by rewrite length_replicate.
      - unfold s1. rewrite bufs_insert_ne by done. apply W4. }
    destruct (write_ok s0 (seg_of nd)).
    + split; try done.
      * exists (Z.lor fl GPT_MODIFIED). rewrite Z.lor_spec, Ef, orb_false_r. split; [|done].
        cbn [on_gd on_disk s_gd]. change (s_gd s1) with (s_gd s). by rewrite Eg.
      * simpl. rewrite Ez. fold z. by rewrite W5.
      * rewrite length_splice; [done|]. rewrite length_replicate, W6.
        unfold sg_end in T3. simpl in T3. cbn [seg_of sg_start]. nia.
    + split; try done. by exists fl.
Qed.

Lemma wiping_refl s : wiping s (s_disk s) s.
Proof. split; try done. exists (gd_flags (s_gd s)). split; [by destruct (s_gd s)|done]. Qed.

(** What [destroy] leaves on the device. *)
Definition destroyed s (pri sec : seg) (recoverable : bool) : list Z :=
  if write_ok s pri then
    let d := wiped s pri (s_disk s) in
    if recoverable then d else if write_ok s sec then wiped s sec d else d
  else s_disk s.

(** The region of a header of one sector. *)
Lemma half_hdr s l total x y c th tt z h t :
  gpt_rep s l total x y c -> half_at s l th tt z h t -> sg_size (hf_hdr z).2 = 1 ->
  hf_hdr z ∈ l /\ sg_type (hf_hdr z).2 = th /\
  length <$> s_bufs s !! hf_hb z = Some (Z.to_nat (gd_secsz (s_gd s))) /\
  0 <= sg_start (hf_hdr z).2 /\
  (sg_start (hf_hdr z).2 + 1) * gd_secsz (s_gd s) <= Z.of_nat (length (s_disk s)).
Proof.
  intros Hrep Hz Hs. destruct (seg_find_in _ _ _ (ha_hdr _ _ _ _ _ _ _ Hz)) as [Hin Ht].
  pose proof (gr_map _ _ _ _ _ _ Hrep) as (_ & Htile & _).
  pose proof (gr_dev _ _ _ _ _ _ Hrep) as [Hd _]. pose proof (gr_secsz _ _ _ _ _ _ Hrep).
  pose proof (ha_hlen _ _ _ _ _ _ _ Hz) as L. rewrite Hs in L.
  destruct (hf_hdr z) as [n v] eqn:Ez. destruct (tiles_in _ _ _ _ _ Htile Hin) as (T1 & _ & T3).
  unfold sg_end in T3. cbn [fst snd] in *. rewrite Hs in T3.
  split_and!; [done|done| |done|nia].
  rewrite (ha_hbuf _ _ _ _ _ _ _ Hz). cbn [fmap option_fmap option_map]. f_equal. lia.
Qed.

Lemma wp_destroy s l total x y c recoverable : gpt_rep s l total x y c ->
  sg_size (hf_hdr x).2 = 1 -> sg_size (hf_hdr y).2 = 1 ->
  wp (destroy recoverable) s (fun _ s' => exists s1 fl, s' = on_gd (set_gd_flags fl) s1 /\
    wiping s (destroyed s (hf_hdr x).2 (hf_hdr y).2 recoverable) s1).
Proof.
  intros Hrep Hx Hy. pose proof (gr_map _ _ _ _ _ _ Hrep) as (Hm & _).
  pose proof (gr_pri _ _ _ _ _ _ Hrep) as Px. pose proof (gr_sec _ _ _ _ _ _ Hrep) as Py.
  destruct (half_hdr _ _ _ _ _ _ _ _ _ _ _ Hrep Px Hx) as (Ix & _ & Lx & _).
  destruct (half_hdr _ _ _ _ _ _ _ _ _ _ _ Hrep Py Hy) as (Iy & _ & Ly & _).
  pose proof (ha_hdata _ _ _ _ _ _ _ Px) as Dx. pose proof (ha_hdata _ _ _ _ _ _ _ Py) as Dy.
  unfold destroy, destroyed.
  apply wp_bind, (wp_map_find s l); [done|]. rewrite (ha_hdr _ _ _ _ _ _ _ Px).
  apply wp_bind, (wp_map_find s l); [done|]. rewrite (ha_hdr _ _ _ _ _ _ _ Py).
  cbn [fmap option_fmap option_map]. destruct (hf_hdr x) as [nx vx], (hf_hdr y) as [ny vy].
  cbn [fst snd] in *. rewrite bool_decide_false by (by intros []).
  rewrite bool_decide_false, andb_false_r by done.
  assert (forall disk s1, wiping s disk s1 -> wp (mret tt) s1 (fun _ s' => exists s1 fl,
    s' = on_gd (set_gd_flags fl) s1 /\ wiping s disk s1)) as Kret.
  { intros disk s1 W. apply wp_ret. exists s1, (gd_flags (s_gd s1)). split; [|done].
    by destruct s1 as [? ? ? [] ?]. }
  apply wp_bind. eapply (wp_wipe_hdr s s l total x y c); [done|apply wiping_refl|exact Ix|done|done|exact Lx|].
  intros s1 W1. destruct (write_ok s vx); cbn [negb]; [|by apply Kret].
  apply wp_bind. destruct recoverable.
  - apply wp_ret. cbn [negb]. apply wp_status. intros fl _. by exists s1, fl.
  - eapply (wp_wipe_hdr s s1 l total x y c); [done|exact W1|exact Iy|done|done|exact Ly|].
    intros s2 W2. destruct (write_ok s vy); cbn [negb]; [|by apply Kret].
    apply wp_status. intros fl _. by exists s2, fl.
Qed.

(** The cleared sector is not touched by the clearing of another. *)
Lemma sub_wiped s v d : 0 <= sg_start v -> 0 < gd_secsz (s_gd s) ->
  (sg_start v + 1) * gd_secsz (s_gd s) <= Z.of_nat (length d) ->
  sub (Z.to_nat (sg_start v * gd_secsz (s_gd s))) (Z.to_nat (gd_secsz (s_gd s))) (wiped s v d) =
  replicate (Z.to_nat (gd_secsz (s_gd s))) 0.
Proof.
  intros H1 H2 H3. unfold wiped. set (n := Z.to_nat (gd_secsz (s_gd s))).
  pose proof (sub_splice_same (Z.to_nat (sg_start v * gd_secsz (s_gd s))) (replicate n 0) d) as E.
  rewrite length_replicate in E. apply E. unfold n. nia.
Qed.

Lemma sub_wiped_other s v w d : 0 <= sg_start v -> 0 <= sg_start w -> 0 < gd_secsz (s_gd s) ->
  (sg_start w + 1) * gd_secsz (s_gd s) <= Z.of_nat (length d) ->
  sg_start v + 1 <= sg_start w \/ sg_start w + 1 <= sg_start v ->
  sub (Z.to_nat (sg_start v * gd_secsz (s_gd s))) (Z.to_nat (gd_secsz (s_gd s))) (wiped s w d) =
  sub (Z.to_nat (sg_start v * gd_secsz (s_gd s))) (Z.to_nat (gd_secsz (s_gd s))) d.
Proof.
  intros H1 H2 H3 H4 H5. unfold wiped. apply sub_splice_other; rewrite length_replicate; [nia|].
  destruct H5; [left|right]; nia.
Qed.

(** C17: [destroy] of a device with both copies of a GPT clears the sector of the primary
    header and, unless it is to stay recoverable, the one of the secondary header; it
    stops at the first write that fails, and changes nothing else of the device and
    nothing of the map. *)
Theorem destroy_destroys s l total x y c recoverable :
  gpt_rep s l total x y c -> sg_size (hf_hdr x).2 = 1 -> sg_size (hf_hdr y).2 = 1 ->
  exists s', destroy recoverable s = Some (tt, s') /\ s_maps s' = s_maps s /\
    s_disk s' = destroyed s (hf_hdr x).2 (hf_hdr y).2 recoverable /\
    (writable s ->
     sectors s' (sg_start (hf_hdr x).2) 1 = replicate (Z.to_nat (gd_secsz (s_gd s))) 0 /\
     sectors s' (sg_start (hf_hdr y).2) 1 =
       if recoverable then sectors s (sg_start (hf_hdr y).2) 1
       else replicate (Z.to_nat (gd_secsz (s_gd s))) 0).
Proof.
  intros Hrep Hx Hy.
  destruct (proj1 (wp_elim _ _ _) (wp_destroy s l total x y c recoverable Hrep Hx Hy))
    as ([] & s' & E & s1 & fl & -> & [W1 _ (fl' & Eg & _) _ W5 _]).
  eexists. split; [exact E|]. split; [done|]. split; [done|]. intros [Hro Hwr].
  pose proof (gr_pri _ _ _ _ _ _ Hrep) as Px. pose proof (gr_sec _ _ _ _ _ _ Hrep) as Py.
  destruct (half_hdr _ _ _ _ _ _ _ _ _ _ _ Hrep Px Hx) as (Ix & Tx & _ & X1 & X2).
  destruct (half_hdr _ _ _ _ _ _ _ _ _ _ _ Hrep Py Hy) as (Iy & Ty & _ & Y1 & Y2).
  pose proof (gr_map _ _ _ _ _ _ Hrep) as (_ & Ht & _). pose proof (gr_secsz _ _ _ _ _ _ Hrep).
  destruct (hf_hdr x) as [nx vx], (hf_hdr y) as [ny vy]. cbn [fst snd] in *.
  assert (sg_start vx + 1 <= sg_start vy \/ sg_start vy + 1 <= sg_start vx) as Hap.
  { rewrite <- Hx at 1. rewrite <- Hy at 1. eapply tiles_disjoint; [exact Ht|exact Ix|exact Iy|].
    by rewrite Tx, Ty. }
  assert (forall v, write_ok s v = true) as Hw.
  { intros v. unfold write_ok. by rewrite Hro, Hwr. }
  assert (forall lba d, s_disk s1 = d -> sectors (on_gd (set_gd_flags fl) s1) lba 1 =
    sub (Z.to_nat (lba * gd_secsz (s_gd s))) (Z.to_nat (gd_secsz (s_gd s))) d) as Es.
  { intros lba d <-. unfold sectors. cbn [on_gd s_gd s_disk]. rewrite Eg.
    cbn [set_gd_flags gd_secsz]. by rewrite Z.mul_1_l. }
  assert (length (wiped s vx (s_disk s)) = length (s_disk s)) as Lw.
  { unfold wiped. apply length_splice. rewrite length_replicate. nia. }
  rewrite !(Es _ _ W5). unfold destroyed. rewrite !Hw. destruct recoverable.
  - split; [by apply sub_wiped|]. rewrite sub_wiped_other by (done || lia).
    unfold sectors. by rewrite Z.mul_1_l.
  - split; [|by apply sub_wiped; rewrite ?Lw].
    rewrite sub_wiped_other by (rewrite ?Lw; done || lia). by apply sub_wiped.
Qed.
End destroying.

Lemma destroy_destroys_witness :
  exists s', destroy false ex_gpt_store = Some (tt, s') /\ s_maps s' = s_maps ex_gpt_store /\
    s_disk s' = destroyed ex_gpt_store (hf_hdr ex_pri).2 (hf_hdr ex_sec).2 false /\
    (writable ex_gpt_store ->
     sectors s' (sg_start (hf_hdr ex_pri).2) 1 = replicate (Z.to_nat (gd_secsz (s_gd ex_gpt_store))) 0 /\
     sectors s' (sg_start (hf_hdr ex_sec).2) 1 = replicate (Z.to_nat (gd_secsz (s_gd ex_gpt_store))) 0).
Proof.
  apply (destroy_destroys ex_gpt_store ex_gpt_list 9 ex_pri ex_sec ex_contents false);
    [exact ex_gpt_rep|done|done].
Defined.

(** ** recover *)
Section recovering.
Context {os : Os} {gpt : SysGpt} {laws : SysGptLaws}.
Implicit Types (s : store) (l : segs) (h t d : list Z).

(** Only the device and the flags, but for the one that forbids writing, may change. *)
Record quiet s (disk : list Z) s' : Prop := {
  q_maps : s_maps s' = s_maps s;
  q_bufs : s_bufs s' = s_bufs s;
  q_brk : s_brk s' = s_brk s;
  q_gd : exists fl, s_gd s' = set_gd_flags fl (s_gd s) /\
    Z.testbit fl 0 = Z.testbit (gd_flags (s_gd s)) 0;
  q_disk : s_disk s' = disk;
}.

(** The device after the region [v] is written from a buffer that holds [d]. *)
Definition written s (v : seg) d : list Z :=
  if write_ok s v then splice (Z.to_nat (sg_start v * gd_secsz (s_gd s))) d (s_disk s)
  else s_disk s.

Lemma wp_write_status s l total n v b d (Q : unit -> store -> Prop) :
  map_ok s l total -> (n, v) ∈ l -> sg_data v = PBuf b 0 -> s_bufs s !! b = Some d ->
  region_buf s v d ->
  (forall s', quiet s (written s v d) s' -> Q tt s') ->
  wp (gpt_write n;; gpt_status) s Q.
Proof.
  intros (Hm & _) Hin Hd Hb Hr HQ. destruct (rep_node s l n v Hm Hin) as (nd & Hn & <-).
  apply wp_bind. eapply wp_gpt_write_region; [exact Hn|exact Hd|exact Hb|exact Hr|].
  apply wp_status. intros fl Hf. apply HQ.
  destruct (wrote_frame (seg_of nd) d s) as (E1 & E2 & E3 & fl' & E4).
  split; [exact E1|exact E2|exact E3| |].
  - exists fl. cbn [on_gd s_gd]. rewrite E4. split; [done|]. rewrite Hf.
    unfold wrote. destruct (write_ok s (seg_of nd)); [|done].
    cbn [on_gd s_gd set_gd_flags gd_flags on_disk]. by rewrite Z.lor_spec, orb_false_r.
  - unfold written, wrote. cbn [on_gd s_disk]. by destruct (write_ok s (seg_of nd)).
Qed.

Lemma quiet_map_ok s disk s' l total : quiet s disk s' -> map_ok s l total -> map_ok s' l total.
Proof.
  intros [E1 _ E3 (fl & E4 & _) _] H. eapply map_ok_frame; [exact H|exact E1|by rewrite E4|].
  by rewrite E3.
Qed.

Lemma quiet_secsz s disk s' : quiet s disk s' -> gd_secsz (s_gd s') = gd_secsz (s_gd s).
Proof. by intros [_ _ _ (fl & -> & _) _]. Qed.

Lemma quiet_write_ok s disk s' v : quiet s disk s' -> write_ok s' v = write_ok s v.
Proof.
  intros [_ _ _ (fl & E & F) _]. unfold write_ok. rewrite E. cbn [set_gd_flags gd_flags gd_secsz].
  by rewrite F.
Qed.

(** The header at [dst] made of the one at [src], which is at [from] while the copy is at
    [to] and its table at [tbl]. *)
Definition moved_hdr (to from tbl : Z) h : list Z :=
  reself (hset hdr_lba_table tbl (hset hdr_lba_alt from (hset hdr_lba_self to h))).

Lemma hdr_ok_hset f v h : f <> hdr_size -> hdr_ok h -> hdr_ok (hset f v h).
Proof.
  intros Hf []. split; [by apply bytes_ok_hset|by apply min_hset|].
  by rewrite hget_hset_ne, length_hset by auto.
Qed.

(** A pointer of [struct gd] to the region [v] of the map. *)
Definition points s l (f : gd -> option loc) (n : loc) (v : seg) : Prop :=
  f (s_gd s) = Some n /\ (n, v) ∈ l.

Lemma wp_points s l total f n v (Q : ptr -> store -> Prop) :
  map_ok s l total -> points s l f n v -> Q (sg_data v) s -> wp (gd_data f) s Q.
Proof.
  intros (Hm & _) [Hf Hin] HQ. destruct (rep_node s l n v Hm Hin) as (nd & Hn & <-).
  by eapply wp_gd_data.
Qed.

(** [gd->f->map_start] *)
Lemma wp_points_start s l total f n v (k : map_node -> St store unit) (Q : unit -> store -> Prop) :
  map_ok s l total -> points s l f n v ->
  (forall nd, seg_of nd = v -> wp (k nd) s Q) ->
  wp (m ← gd_map f; nd ← load m; k nd) s Q.
Proof.
  intros (Hm & _) [Hf Hin] HQ. destruct (rep_node s l n v Hm Hin) as (nd & Hn & E).
  apply wp_bind, (wp_gd_map _ n); [done|]. apply wp_bind, (wp_load n nd); [done|]. by apply HQ.
Qed.

Lemma wp_copy_hdr s l total to from tbl nt vt nf vf nl vl bd bs d h
    (Q : unit -> store -> Prop) :
  map_ok s l total -> points s l to nt vt -> points s l from nf vf -> points s l tbl nl vl ->
  sg_data vt = PBuf bd 0 -> sg_data vf = PBuf bs 0 ->
  s_bufs s !! bd = Some d -> s_bufs s !! bs = Some h -> hdr_ok h ->
  Z.of_nat (length h) = gd_secsz (s_gd s) -> length d = length h ->
  Q tt (on_bufs <[bd := moved_hdr (sg_start vt) (sg_start vf) (sg_start vl) h]> s) ->
  wp (copy_hdr to from tbl) s Q.
Proof.
  intros Hm Pt Pf Pl Dt Df Hd Hh Hok Lh Ld HQ. unfold copy_hdr.
  assert (forall e, map_ok (on_bufs <[bd := e]> s) l total) as Hm'.
  { intros e. by eapply map_ok_frame. }
  apply wp_bind. eapply wp_points; [exact Hm|exact Pt|]. rewrite Dt.
  apply wp_bind. eapply wp_points; [exact Hm|exact Pf|]. rewrite Df.
  apply wp_bind. unfold copy_sector. st_step. apply wp_bind.
  eapply wp_mem_get; [exact Hh|done|lia|].
  replace (sub _ _ h) with h by (unfold sub; rewrite take_ge by (rewrite length_drop; lia); done).
  eapply wp_mem_put; [exact Hd|done|lia|].
  replace (splice _ h d) with h.
  2: { unfold splice. rewrite drop_ge by lia. by rewrite app_nil_r. }
  pose proof (hk_min _ Hok) as Lm.
  eapply wp_points_start; [apply Hm'|exact Pt|]. intros nd1 <-.
  apply wp_bind. eapply wp_hdr_put; [apply bufs_insert|done|]. rewrite on_bufs_insert_insert.
  eapply wp_points_start; [apply Hm'|exact Pf|]. intros nd2 <-.
  apply wp_bind. eapply wp_hdr_put; [apply bufs_insert|by apply min_hset|].
  rewrite on_bufs_insert_insert.
  eapply wp_points_start; [apply Hm'|exact Pl|]. intros nd3 <-.
  apply wp_bind. eapply wp_hdr_put; [apply bufs_insert|by repeat apply min_hset|].
  rewrite on_bufs_insert_insert.
  apply wp_bind. eapply wp_hdr_put; [apply bufs_insert|by repeat apply min_hset|].
  rewrite on_bufs_insert_insert.
  eapply wp_put_crc_self; [|apply bufs_insert|].
  - by repeat apply hdr_ok_hset.
  - by rewrite on_bufs_insert_insert.
Qed.

Hypothesis Hos : forall k, os_alloc k = true.

(** What [map_add] leaves when the region it is to place fits in [v]. *)
Record added s l (total start size type : Z) (data : ptr) (alloc : Z) (v : seg) n i s' l' : Prop := {
  ad_ok : map_ok s' l' total;
  ad_grows : grows s s';
  ad_bufs : s_bufs s' = s_bufs s;
  ad_in : (n, Seg start size type i data alloc) ∈ l';
  ad_keep : forall y w, (y, w) ∈ l -> sg_end w <= start \/ start + size <= sg_start w ->
    (y, w) ∈ l';
  ad_types : forall y, 0 <= y -> type_at y l' =
    if (start <=? y) && (y <? start + size) then Some type
    else if (sg_start v <=? y) && (y <? sg_end v) then Some MAP_TYPE_UNUSED
    else type_at y l;
}.

Lemma wp_add_new s l total start size type data alloc v
    (Q : option loc -> store -> Prop) :
  map_ok s l total -> 0 <= start -> 0 < size -> start + size < 2 ^ 62 ->
  (alloc <> 0 -> owned s data) -> seg_at start l = Some v -> accepts v start size type = true ->
  (forall n i s' l', added s l total start size type data alloc v n i s' l' -> Q (Some n) s') ->
  wp (map_add start size type data alloc) s Q.
Proof.
  intros Hm H1 H2 H3 H4 Hv Ha HQ.
  eapply wp_map_add_grows; [exact Hos|exact Hm|done..|]. intros s' o Hm' G Hb.
  pose proof Hm as (_ & Ht & _).
  destruct (ao_ret o) as [n|] eqn:Eo.
  - pose proof Eo as E. eapply seg_add_types in E as (w & Hw & _ & [i Hin] & Ht'); [|exact Ht|done|done].
    rewrite Hv in Hw. injection Hw as <-. apply (HQ n i s' (ao_map o)).
    split; try done. intros y w Hy Hap. by eapply seg_add_keeps.
  - pose proof (proj1 (seg_add_none (s_brk s) start size type data alloc l total Ht H1 H2 Hos) Eo v Hv).
    congruence.
Qed.

(** Time goes on: what was allocated is as it was, and whether the device can be written. *)
Record later s s' : Prop := {
  la_brk : (s_brk s <= s_brk s')%nat;
  la_bufs : forall b, (b < s_brk s)%nat -> s_bufs s' !! b = s_bufs s !! b;
  la_secsz : gd_secsz (s_gd s') = gd_secsz (s_gd s);
  la_ro : Z.testbit (gd_flags (s_gd s')) 0 = Z.testbit (gd_flags (s_gd s)) 0;
}.

Lemma later_refl s : later s s.
Proof. by split. Qed.

Lemma later_trans s1 s2 s3 : later s1 s2 -> later s2 s3 -> later s1 s3.
Proof.
  intros [A1 A2 A3 A4] [B1 B2 B3 B4]. split; [lia| |congruence|congruence].
  intros b Hb. rewrite B2 by lia. by apply A2.
Qed.

Lemma grows_later s s' : grows s s' -> later s s'.
Proof.
  intros G. destruct (grows_gd _ _ G) as [E1 E2]. destruct G as [G1 G2 _ _].
  split; [done|done|done|by rewrite E1].
Qed.

Lemma quiet_later s disk s' : quiet s disk s' -> later s s'.
Proof.
  intros [_ E2 E3 (fl & E4 & F) _]. split; rewrite ?E2, ?E3, ?E4; try done.
Qed.

Lemma later_write_ok s s' v : later s s' -> write_ok s' v = write_ok s v.
Proof. intros [_ _ E3 E4]. unfold write_ok. by rewrite E3, E4. Qed.

(** [calloc(n, gd->secsz)] *)
Lemma wp_calloc_sectors s n (Q : ptr -> store -> Prop) :
  Q (PBuf (s_brk s) 0)
    (on_bufs <[s_brk s := replicate (Z.to_nat (n * gd_secsz (s_gd s))) 0]> (on_brk S s)) ->
  wp (calloc_sectors n) s Q.
Proof.
  intros HQ. unfold calloc_sectors. st_step. apply wp_bind, wp_alloc_buf; intros E.
  - by apply wp_ret.
  - by rewrite Hos in E.
Qed.

(** A device of [total] sectors that the map covers. *)
Definition dev_room s (total : Z) : Prop :=
  0 < gd_secsz (s_gd s) /\ total * gd_secsz (s_gd s) <= Z.of_nat (length (s_disk s)) < 2 ^ 62.

Lemma dev_room_region s total v d : dev_room s total -> 0 <= sg_start v -> sg_end v <= total ->
  Z.of_nat (length d) = sg_size v * gd_secsz (s_gd s) -> region_buf s v d.
Proof.
  intros [Hz Hd] H1 H2 H3. unfold region_buf. split_and!; try done; try lia.
  change (sg_end v * gd_secsz (s_gd s) <= Z.of_nat (length (s_disk s))). nia.
Qed.

(** A region added to the map and written to the device, [set] pointing to it. *)
Record made s l (total start size type : Z) b d n i s' l' : Prop := {
  md_ok : map_ok s' l' total;
  md_later : later s s';
  md_in : (n, Seg start size type i (PBuf b 0) 1) ∈ l';
  md_keep : forall y w, (y, w) ∈ l -> sg_end w <= start \/ start + size <= sg_start w ->
    (y, w) ∈ l';
  md_disk : s_disk s' = written s (Seg start size type i (PBuf b 0) 1) d;
  md_room : dev_room s' total;
}.

Lemma length_written s v d : region_buf s v d -> length (written s v d) = length (s_disk s).
Proof.
  intros (R1 & R2 & R3 & R4). unfold written. destruct (write_ok s v); [|done].
  apply length_splice. nia.
Qed.

(** The pointers of [struct gd] to a GPT. *)
Definition gpt_ptrs (g : gd) := (gd_gpt g, gd_tpg g, gd_tbl g, gd_lbt g).

Lemma quiet_ptrs s disk s' : quiet s disk s' -> gpt_ptrs (s_gd s') = gpt_ptrs (s_gd s).
Proof. by intros [_ _ _ (fl & -> & _) _]. Qed.

Lemma grows_ptrs s s' : grows s s' -> gpt_ptrs (s_gd s') = gpt_ptrs (s_gd s).
Proof. by intros [_ _ _ ->]. Qed.

Lemma wp_recover_tbl s l total last nt vt tb t v (Q : bool -> store -> Prop) :
  map_ok s l total -> last = total - 1 -> dev_room s total ->
  points s l gd_tbl nt vt -> gd_lbt (s_gd s) = None ->
  sg_data vt = PBuf tb 0 -> s_bufs s !! tb = Some t ->
  Z.of_nat (length t) = sg_size vt * gd_secsz (s_gd s) ->
  0 <= last - sg_size vt -> seg_at (last - sg_size vt) l = Some v ->
  sg_type v = MAP_TYPE_UNUSED -> sg_end v = total ->
  (forall n i s' l',
     made s l total (last - sg_size vt) (sg_size vt) MAP_TYPE_SEC_GPT_TBL tb t n i s' l' ->
     gpt_ptrs (s_gd s') = (gd_gpt (s_gd s), gd_tpg (s_gd s), Some nt, Some n) ->
     type_at last l' = Some MAP_TYPE_UNUSED -> Q true s') ->
  wp (recover_tbl last) s Q.
Proof.
  intros Hm Hlast Hroom [Hp Hin] Hl Hd Ht Hlen H0 Hv Hu He HQ. unfold recover_tbl. st_step.
  rewrite Hp, Hl. pose proof Hm as (Hrep & Htile & Htot).
  destruct (rep_node s l nt vt Hrep Hin) as (nd & Hn & <-). cbn [sg_size sg_data seg_of] in *.
  destruct (tiles_in _ _ _ _ _ Htile Hin) as (_ & Hsz & _). cbn [sg_size seg_of] in Hsz.
  apply wp_bind, (wp_load nt nd); [done|]. rewrite s64_small, Hd by lia.
  apply wp_bind. eapply (wp_add_new s l total _ _ _ _ _ v); [done|lia|lia|lia| |done| |].
  { intros _. split; [done|by eexists]. }
  { unfold accepts, may_split. rewrite Hu. cbn [Z.eqb orb]. rewrite orb_true_r, andb_true_r.
    apply Z.leb_le. lia. }
  intros n i s1 l1 [A1 A2 A3 A4 A5 A6]. apply wp_bind, wp_upd_gd. set (s2 := on_gd _ s1).
  assert (map_ok s2 l1 total) as Hm2 by (by eapply map_ok_frame).
  assert (dev_room s2 total) as Hroom2.
  { unfold dev_room. change (gd_secsz (s_gd s2)) with (gd_secsz (s_gd s1)).
    change (s_disk s2) with (s_disk s1). rewrite (gr_disk _ _ A2).
    destruct (grows_gd _ _ A2) as [_ ->]. exact Hroom. }
  set (v' := Seg (last - map_size nd) (map_size nd) MAP_TYPE_SEC_GPT_TBL i (PBuf tb 0) 1) in *.
  assert (region_buf s2 v' t) as Hreg.
  { apply (dev_room_region _ total); [done|simpl; lia|unfold sg_end; simpl; lia|].
    change (gd_secsz (s_gd s2)) with (gd_secsz (s_gd s1)). by rewrite (proj2 (grows_gd _ _ A2)). }
  enough (forall s', quiet s2 (written s2 v' t) s' -> Q true s') as K.
  { pose proof (wp_write_status s2 l1 total n v' tb t (fun _ => Q true)) as W.
    unfold wp, mbind, St_bind in W |- *.
    specialize (W Hm2 A4 eq_refl ltac:(by rewrite <- Ht; exact (f_equal (.!! tb) A3)) Hreg K).
    destruct (gpt_write n s2) as [[a s3]|]; [|done]. by destruct (gpt_status s3) as [[b s4]|]. }
  intros s' Hq. apply (HQ n i s' l1).
  - assert (later s s2) as L2.
    { apply (later_trans s s1); [by apply grows_later|by split]. }
    split; [by eapply quiet_map_ok| |exact A4|exact A5| |].
    + eapply later_trans; [exact L2|by eapply quiet_later].
    + rewrite (q_disk _ _ _ Hq). unfold written. rewrite (later_write_ok _ _ _ L2).
      rewrite (la_secsz _ _ L2). change (s_disk s2) with (s_disk s1). by rewrite (gr_disk _ _ A2).
    + unfold dev_room. rewrite (quiet_secsz _ _ _ Hq), (q_disk _ _ _ Hq), length_written by done.
      exact Hroom2.
  - rewrite (quiet_ptrs _ _ _ Hq). pose proof (grows_ptrs _ _ A2) as E. unfold gpt_ptrs in *.
    simpl. injection E as -> -> -> _. by rewrite Hp.
  - rewrite A6 by lia. destruct (Z.ltb_spec last (last - map_size nd + map_size nd)); [lia|].
    rewrite andb_false_r.
    assert (sg_start v <= last < sg_end v) as [X1 X2].
    { pose proof (seg_at_of_split (last - map_size nd) l) as E. rewrite Hv in E.
      destruct (seg_split (last - map_size nd) l) as [[[l2 [m w]] l3]|] eqn:Es; [|done].
      injection E as <-. destruct (seg_split_bounds _ _ _ _ _ _ _ _ Htile H0 Es) as (? & _). lia. }
    destruct (Z.leb_spec (sg_start v) last); [|lia]. by destruct (Z.ltb_spec last (sg_end v)); [|lia].
Qed.

Lemma later_alloc s d : later s (on_bufs <[s_brk s := d]> (on_brk S s)).
Proof. apply grows_later, grows_alloc. Qed.

Lemma wp_recover_hdr s l total last nh vh hb h nl vl (Q : unit -> store -> Prop) :
  map_ok s l total -> last = total - 1 -> 0 <= last -> dev_room s total ->
  points s l gd_gpt nh vh -> gd_tpg (s_gd s) = None -> points s l gd_lbt nl vl ->
  sg_data vh = PBuf hb 0 -> s_bufs s !! hb = Some h -> (hb < s_brk s)%nat -> hdr_ok h ->
  Z.of_nat (length h) = gd_secsz (s_gd s) ->
  type_at last l = Some MAP_TYPE_UNUSED -> sg_end vh <= last -> sg_end vl <= last ->
  let hs := moved_hdr last (sg_start vh) (sg_start vl) h in
  (forall n i s' l', made s l total last 1 MAP_TYPE_SEC_GPT_HDR (s_brk s) hs n i s' l' ->
     s_bufs s' !! s_brk s = Some hs -> Q tt s') ->
  wp (recover_hdr last) s Q.
Proof.
  intros Hm Hlast H0 Hroom [Hp Hin] Hs [Hpl Hinl] Hd Hb Hlt Hok Hlen Hty He Hel hs HQ.
  unfold recover_hdr. st_step. rewrite Hp, Hs.
  pose proof Hm as (Hrep & Htile & Htot).
  apply wp_bind, wp_calloc_sectors. rewrite Z.mul_1_l.
  set (b := s_brk s) in *. set (d := replicate _ 0). set (s1 := on_bufs _ _).
  assert (map_ok s1 l total) as Hm1 by (eapply map_ok_frame; done || (simpl; lia)).
  unfold type_at in Hty. destruct (seg_at last l) as [v|] eqn:Hv; [|done]. injection Hty as Hu.
  apply wp_bind. eapply (wp_add_new s1 l total _ _ _ _ _ v); [done|lia|lia|lia| |done| |].
  { intros _. split; [done|]. simpl. rewrite lookup_insert_eq. by eexists. }
  { unfold accepts, may_split. rewrite Hu. cbn [Z.eqb orb]. rewrite orb_true_r, andb_true_r.
    apply Z.leb_le. rewrite seg_at_of_split in Hv.
    destruct (seg_split last l) as [[[l2 [m w]] l3]|] eqn:Es; [|done]. injection Hv as <-.
    destruct (seg_split_bounds _ _ _ _ _ _ _ _ Htile H0 Es) as (? & _). lia. }
  intros n i s2 l2 [A1 A2 A3 A4 A5 A6]. apply wp_bind, wp_upd_gd. set (s3 := on_gd _ s2).
  set (v' := Seg last 1 MAP_TYPE_SEC_GPT_HDR i (PBuf b 0) 1) in *.
  assert (later s s3) as L3.
  { eapply later_trans; [apply later_alloc|]. eapply later_trans; [by apply grows_later|by split]. }
  pose proof (la_secsz _ _ L3) as Hz3.
  pose proof (grows_ptrs _ _ A2) as E. unfold gpt_ptrs in E. simpl in E. injection E as P1 _ _ P4.
  apply wp_bind. eapply (wp_copy_hdr s3 l2 total gd_tpg gd_gpt gd_lbt n v' nh vh nl vl b hb d h).
  - by eapply map_ok_frame.
  - by split.
  - split; [simpl; by rewrite P1|]. apply A5; [done|by left].
  - split; [simpl; by rewrite P4|]. apply A5; [done|by left].
  - done.
  - exact Hd.
  - change (s_bufs s3) with (s_bufs s2). rewrite A3. apply bufs_insert.
  - by rewrite (la_bufs _ _ L3).
  - exact Hok.
  - by rewrite Hz3.
  - unfold d. rewrite length_replicate. lia.
  - change (moved_hdr (sg_start v') _ _ h) with hs. set (s4 := on_bufs _ s3).
    assert (length hs = length h) as Lhs.
    { pose proof (hk_min _ Hok). unfold hs, moved_hdr.
      rewrite length_reself by (by repeat apply hdr_ok_hset).
      by rewrite !length_hset by (by repeat apply min_hset). }
    assert (later s s4) as L4.
    { destruct L3 as [B1 B2 B3 B4]. split; [done| |done|done]. intros x Hx. unfold s4.
      rewrite bufs_insert_ne by (unfold b; lia). by apply B2. }
    assert (dev_room s4 total) as Hroom4.
    { unfold dev_room. rewrite (la_secsz _ _ L4). change (s_disk s4) with (s_disk s2).
      rewrite (gr_disk _ _ A2). exact Hroom. }
    assert (map_ok s4 l2 total) as Hm4 by by eapply map_ok_frame.
    eapply (wp_write_status s4 l2 total n v' b hs); [exact Hm4|exact A4|done|apply bufs_insert| |].
    { apply (dev_room_region _ total); [done|simpl; lia|unfold sg_end; simpl; lia|].
      rewrite (la_secsz _ _ L4), Lhs, Hlen. simpl. lia. }
    intros s' Hq. apply (HQ n i s' l2).
    + split; [by eapply quiet_map_ok| |exact A4|exact A5| |].
      * eapply later_trans; [exact L4|by eapply quiet_later].
      * rewrite (q_disk _ _ _ Hq). unfold written. rewrite (later_write_ok _ _ _ L4).
        rewrite (la_secsz _ _ L4). change (s_disk s4) with (s_disk s2). by rewrite (gr_disk _ _ A2).
      * unfold dev_room. rewrite (quiet_secsz _ _ _ Hq), (q_disk _ _ _ Hq), length_written;
          [exact Hroom4|].
        apply (dev_room_region _ total); [done|simpl; lia|unfold sg_end; simpl; lia|].
        rewrite (la_secsz _ _ L4), Lhs, Hlen. simpl. lia.
    + rewrite (q_bufs _ _ _ Hq). apply bufs_insert.
Qed.

Lemma wp_find_all s l (Q : unit -> store -> Prop) : map_rep s l ->
  (forall s', s_maps s' = s_maps s -> s_bufs s' = s_bufs s -> s_brk s' = s_brk s ->
     s_disk s' = s_disk s ->
     s_gd s' = set_gd_lbt (fst <$> seg_find MAP_TYPE_SEC_GPT_TBL l)
       (set_gd_tbl (fst <$> seg_find MAP_TYPE_PRI_GPT_TBL l)
       (set_gd_tpg (fst <$> seg_find MAP_TYPE_SEC_GPT_HDR l)
       (set_gd_gpt (fst <$> seg_find MAP_TYPE_PRI_GPT_HDR l) (s_gd s)))) -> Q tt s') ->
  wp find_all s Q.
Proof.
  intros Hm HQ. unfold find_all.
  assert (forall f, (forall g, gd_mediamap (f g) = gd_mediamap g) -> map_rep (on_gd f s) l) as K.
  { intros f Hf. eapply rep_ext; [exact Hm|apply Hf|done|apply Hm]. }
  apply wp_bind, (wp_map_find s l); [done|]. st_step.
  apply wp_bind, (wp_map_find _ l); [by apply K|]. st_step.
  apply wp_bind, (wp_map_find _ l); [by apply (K (fun g => set_gd_tpg _ (set_gd_gpt _ g)))|].
  st_step.
  apply wp_bind, (wp_map_find _ l);
    [by apply (K (fun g => set_gd_tbl _ (set_gd_tpg _ (set_gd_gpt _ g))))|].
  apply wp_upd_gd. by apply HQ.
Qed.

(** A device whose secondary copy is lost: the primary one [x], with header [h] and table
    [t], and the unused region [v] at its end, with room for the copy. *)
Record needs_secondary s l total x h t v : Prop := {
  ns_map : map_ok s l total;
  ns_pri : half_at s l MAP_TYPE_PRI_GPT_HDR MAP_TYPE_PRI_GPT_TBL x h t;
  ns_one : sg_size (hf_hdr x).2 = 1;
  ns_old : (hf_hb x < s_brk s)%nat /\ (hf_tb x < s_brk s)%nat;
  ns_none : seg_find MAP_TYPE_SEC_GPT_HDR l = None /\ seg_find MAP_TYPE_SEC_GPT_TBL l = None /\
    seg_find MAP_TYPE_MBR l = None;
  ns_room : dev_room s total;
  ns_total : Z.quot (gd_mediasz (s_gd s)) (gd_secsz (s_gd s)) = total;
  ns_alt : hget hdr_lba_alt h = total - 1;
  ns_free : seg_at (total - 1 - sg_size (hf_tbl x).2) l = Some v /\
    sg_type v = MAP_TYPE_UNUSED /\ sg_end v = total;
  ns_fits : 0 <= total - 1 - sg_size (hf_tbl x).2;
}.

Lemma hdr_of_half h t : half_ok h t -> hdr_ok h.
Proof. intros []. by split. Qed.

(** A region that is not the last one ends before it. *)
Lemma before_last s l total x h t v n w : needs_secondary s l total x h t v ->
  (n, w) ∈ l -> sg_type w <> MAP_TYPE_UNUSED ->
  sg_end w <= total - 1 - sg_size (hf_tbl x).2.
Proof.
  intros H Hin Hw. destruct (ns_free _ _ _ _ _ _ _ H) as (Hv & Hu & He).
  destruct (ns_map _ _ _ _ _ _ _ H) as (_ & Htile & _).
  rewrite seg_at_of_split in Hv.
  destruct (seg_split _ l) as [[[l2 [m u]] l3]|] eqn:Es; [|done]. injection Hv as ->.
  destruct (seg_split_bounds _ _ _ _ _ _ _ _ Htile (ns_fits _ _ _ _ _ _ _ H) Es) as ([B _] & _).
  apply seg_split_app in Es as E.
  assert ((m, v) ∈ l) as Hvin by (rewrite E, elem_of_app, elem_of_cons; auto).
  destruct (tiles_disjoint _ _ _ _ _ _ _ Htile Hin Hvin ltac:(congruence)) as [D|D]; [lia|].
  destruct (tiles_in _ _ _ _ _ Htile Hin) as (_ & T1 & T2). unfold sg_end in *. lia.
Qed.

Lemma on_device_written s v d disk : write_ok s v = true -> region_buf s v d ->
  disk = written s v d -> sub (Z.to_nat (sg_start v * gd_secsz (s_gd s))) (length d) disk = d.
Proof.
  intros Hw (R1 & R2 & R3 & R4) ->. unfold written. rewrite Hw. apply sub_splice_same. nia.
Qed.

(** What [recover] is to leave. *)
Definition recovered s total x h t s' : Prop := exists l' n m i j b,
  let tsz := sg_size (hf_tbl x).2 in
  let tv := Seg (total - 1 - tsz) tsz MAP_TYPE_SEC_GPT_TBL i (PBuf (hf_tb x) 0) 1 in
  let hv := Seg (total - 1) 1 MAP_TYPE_SEC_GPT_HDR j (PBuf b 0) 1 in
  let hs := moved_hdr (total - 1) (sg_start (hf_hdr x).2) (total - 1 - tsz) h in
  map_ok s' l' total /\ (n, tv) ∈ l' /\ (m, hv) ∈ l' /\
  s_bufs s' !! b = Some hs /\ s_bufs s' !! hf_tb x = Some t /\
  (writable s -> on_device s' tv t /\ on_device s' hv hs).

Lemma wp_recover_both s l total x h t v : needs_secondary s l total x h t v ->
  gd_gpt (s_gd s) = Some (hf_hdr x).1 -> gd_tpg (s_gd s) = None ->
  gd_tbl (s_gd s) = Some (hf_tbl x).1 -> gd_lbt (s_gd s) = None ->
  wp (ok ← recover_tbl (total - 1); if negb ok then mret tt else recover_hdr (total - 1)) s
    (fun _ => recovered s total x h t).
Proof.
  intros H P1 P2 P3 P4. pose proof H as [Hm Hx H1 [O1 O2] _ Hr _ _ (Hv & Hu & He) Hf].
  pose proof Hm as (_ & Htile & _).
  destruct (seg_find_in _ _ _ (ha_hdr _ _ _ _ _ _ _ Hx)) as [Ih Th].
  destruct (seg_find_in _ _ _ (ha_tbl _ _ _ _ _ _ _ Hx)) as [It Tt].
  pose proof (ha_hdata _ _ _ _ _ _ _ Hx) as Dh. pose proof (ha_tdata _ _ _ _ _ _ _ Hx) as Dt.
  pose proof (ha_hlen _ _ _ _ _ _ _ Hx) as Lh. pose proof (ha_tlen _ _ _ _ _ _ _ Hx) as Lt.
  pose proof (hdr_of_half _ _ (ha_ok _ _ _ _ _ _ _ Hx)) as Hok.
  assert (sg_end (hf_hdr x).2 <= total - 1 - sg_size (hf_tbl x).2) as Eh.
  { destruct (hf_hdr x) as [n w] eqn:Ex. eapply (before_last s l total x h t v n); [done|done|].
    intros Eu. cbn [snd] in *. rewrite Th in Eu. done. }
  destruct x as [[nh vh] [nt vt] hb tb]. cbn [hf_hdr hf_tbl hf_hb hf_tb fst snd] in *.
  destruct (tiles_in _ _ _ _ _ Htile It) as (_ & Hsz & _).
  destruct (tiles_in _ _ _ _ _ Htile Ih) as (Hst & _).
  apply wp_bind. eapply (wp_recover_tbl s l total _ nt vt tb t v);
    [done|done|done|by split|done|done|apply Hx|done|done|done|done|done|].
  intros n i s1 l1 [M1 M2 M3 M4 M5 M6] Ep Ety. cbn [negb].
  set (tv := Seg (total - 1 - sg_size vt) _ _ _ _ _) in *.
  unfold gpt_ptrs in Ep. injection Ep as E1 E2 E3 E4.
  assert (gd_secsz (s_gd s1) = gd_secsz (s_gd s)) as Ez by apply M2.
  assert (s_bufs s1 !! hb = Some h) as Hb1 by (rewrite (la_bufs _ _ M2) by done; apply Hx).
  eapply (wp_recover_hdr s1 l1 total _ nh vh hb h n tv); [done|done|lia|done| | | |done|done| |done| |done| | |].
  - split; [by rewrite E1, P1|]. apply M4; [done|]. by left.
  - by rewrite E2.
  - by split.
  - pose proof (la_brk _ _ M2). lia.
  - rewrite Ez. lia.
  - lia.
  - unfold sg_end. simpl. lia.
  - intros m j s2 l2 [N1 N2 N3 N4 N5 N6] Hb2. exists l2, n, m, i, j, (s_brk s1).
    cbn [hf_hdr hf_tbl hf_hb hf_tb fst snd]. cbv zeta.
    split; [done|]. split; [apply N4; [done|unfold sg_end; simpl; lia]|]. split; [done|].
    split; [done|]. split.
    { rewrite (la_bufs _ _ N2) by (pose proof (la_brk _ _ M2); lia).
      rewrite (la_bufs _ _ M2) by done. apply Hx. }
    intros [W1 W2].
    assert (forall w, write_ok s w = true) as Hw by (intros w; unfold write_ok; by rewrite W1, W2).
    assert (region_buf s tv t) as Rt.
    { apply (dev_room_region _ total); [done|done|unfold sg_end; simpl; lia|done]. }
    set (hs := moved_hdr _ _ _ h) in *. set (hv := Seg (total - 1) _ _ _ _ _) in *.
    assert (length hs = length h) as Lhs.
    { pose proof (hk_min _ Hok). unfold hs, moved_hdr.
      rewrite length_reself by (by repeat apply hdr_ok_hset).
      by rewrite !length_hset by (by repeat apply min_hset). }
    assert (region_buf s1 hv hs) as Rh.
    { apply (dev_room_region _ total); [done|simpl; lia|unfold sg_end; simpl; lia|].
      rewrite Lhs, Ez, Lh, H1. done. }
    assert (gd_secsz (s_gd s2) = gd_secsz (s_gd s)) as Ez2 by (rewrite (la_secsz _ _ N2); done).
    assert (write_ok s1 hv = true) as Hw1 by (by rewrite (later_write_ok _ _ _ M2)).
    unfold on_device. rewrite Ez2. split.
    + rewrite N5. unfold written. rewrite Hw1, Ez. rewrite sub_splice_other.
      * eapply on_device_written; [apply Hw|exact Rt|exact M5].
      * destruct Rh as (R1 & R2 & R3 & R4). rewrite <- Ez. nia.
      * left. simpl. nia.
    + rewrite <- Ez. by eapply on_device_written.
Qed.

Lemma needs_secondary_frame s s' l total x h t v : needs_secondary s l total x h t v ->
  map_ok s' l total -> s_bufs s' = s_bufs s -> s_brk s' = s_brk s -> s_disk s' = s_disk s ->
  gd_secsz (s_gd s') = gd_secsz (s_gd s) -> gd_mediasz (s_gd s') = gd_mediasz (s_gd s) ->
  needs_secondary s' l total x h t v.
Proof.
  intros [A1 [] A3 A4 A5 A6 A7 A8 A9 A10] Hm Eb Ek Ed Ez Es. unfold dev_room in *.
  split; unfold dev_room; rewrite ?Ek, ?Ez, ?Ed, ?Es; try done.
  split; rewrite ?Eb, ?Ez; done.
Qed.

Lemma wp_last_sector s total (Q : Z -> store -> Prop) :
  0 < gd_secsz (s_gd s) -> Z.quot (gd_mediasz (s_gd s)) (gd_secsz (s_gd s)) = total ->
  0 <= total < 2 ^ 62 -> Q (total - 1) s -> wp last_sector s Q.
Proof.
  intros Hz E Ht HQ. unfold last_sector. st_step.
  destruct (Z.eqb_spec (gd_secsz (s_gd s)) 0); [lia|]. apply wp_ret.
  by rewrite E, s64_small by lia.
Qed.

(** C16: [recover] of a device that lost the secondary copy of its GPT, when memory is not
    short, makes it anew from the primary one: the table before the last sector, and in
    the last sector the header, with its own place, that of the primary header and that
    of its table, and its checksum right; both are in the map and, unless the device
    cannot be written, on it. *)
Theorem recover_restores s l total x h t v force : needs_secondary s l total x h t v ->
  exists s', recover force s = Some (tt, s') /\ recovered s total x h t s'.
Proof.
  intros H. pose proof H as [Hm Hx H1 _ (Na & Nb & Nc) Hr Hq Ha _ Hf].
  pose proof Hm as (Hrep & Htile & Htot). pose proof (tiles_mono _ _ _ Htile).
  enough (wp (recover force) s (fun _ => recovered s total x h t)) as ([] & s' & E & R)%wp_elim
    by eauto.
  unfold recover. apply wp_bind, (wp_map_find s l); [done|]. rewrite Nc. cbn [fmap option_fmap option_map].
  rewrite bool_decide_true by done. cbn [negb andb].
  apply wp_bind, (wp_find_all s l); [done|]. intros s1 E1 E2 E3 E4 E5.
  rewrite (ha_hdr _ _ _ _ _ _ _ Hx), (ha_tbl _ _ _ _ _ _ _ Hx), Na, Nb in E5.
  cbn [fmap option_fmap option_map] in E5.
  assert (map_ok s1 l total) as Hm1.
  { eapply map_ok_frame; [exact Hm|done|by rewrite E5|by rewrite E3]. }
  assert (needs_secondary s1 l total x h t v) as H'.
  { eapply needs_secondary_frame; try done; by rewrite E5. }
  st_step. rewrite E5. unfold no_gpt.
  cbn [gd_gpt gd_tpg gd_tbl gd_lbt set_gd_gpt set_gd_tpg set_gd_tbl set_gd_lbt].
  rewrite !bool_decide_false by (by intros []). cbn [orb].
  apply wp_bind, (wp_last_sector s1 total); [by rewrite E5; apply Hr|by rewrite E5|lia|].
  destruct (seg_find_in _ _ _ (ha_hdr _ _ _ _ _ _ _ Hx)) as [Ih _].
  destruct (seg_find_in _ _ _ (ha_tbl _ _ _ _ _ _ _ Hx)) as [It _].
  assert (0 < sg_size (hf_tbl x).2) as Hpos.
  { destruct (hf_tbl x) as [nt vt]. by destruct (tiles_in _ _ _ _ _ Htile It) as (_ & ? & _). }
  pose proof (hk_min _ (hdr_of_half _ _ (ha_ok _ _ _ _ _ _ _ Hx))) as Hmin.
  apply wp_bind, wp_bind. eapply (wp_points s1 l total gd_gpt (hf_hdr x).1 (hf_hdr x).2); [done| |].
  { split; [by rewrite E5|]. by destruct (hf_hdr x). }
  rewrite (ha_hdata _ _ _ _ _ _ _ Hx).
  apply wp_bind, (wp_hdr_get _ h); [rewrite E2; apply Hx|done|]. apply wp_ret.
  rewrite Ha, u64_small by lia. rewrite Z.eqb_refl. cbn [negb].
  eapply wp_mono; [eapply (wp_recover_both s1); [exact H'|by rewrite E5..]|].
  intros [] s' (l' & n & m & i & j & b & R1 & R2 & R3 & R4 & R5 & R6).
  exists l', n, m, i, j, b. split_and!; try done. intros [W1 W2]. apply R6.
  split; [by rewrite E5|done].
Qed.
End recovering.

(** ** The device of [GptLoad] with room for the secondary copy *)

(** A header that names sector 8 as the place of the other copy. *)
Definition ex_rec_hdr : list Z := hset hdr_lba_alt 8 ex_hdr.
Definition ex_rec_list : segs :=
  [(0%nat, Seg 0 1 MAP_TYPE_UNUSED 0 PNull 0);
   (1%nat, ex_hdr_seg 1 MAP_TYPE_PRI_GPT_HDR 10);
   (2%nat, ex_tbl_seg 2 MAP_TYPE_PRI_GPT_TBL 11);
   (3%nat, Seg 4 5 MAP_TYPE_UNUSED 0 PNull 0)].
Definition ex_rec_store : store :=
  Store
    (<[0%nat := ex_node (Seg 0 1 MAP_TYPE_UNUSED 0 PNull 0) None (Some 1%nat)]>
    (<[1%nat := ex_node (ex_hdr_seg 1 MAP_TYPE_PRI_GPT_HDR 10) (Some 0%nat) (Some 2%nat)]>
    (<[2%nat := ex_node (ex_tbl_seg 2 MAP_TYPE_PRI_GPT_TBL 11) (Some 1%nat) (Some 3%nat)]>
    (<[3%nat := ex_node (Seg 4 5 MAP_TYPE_UNUSED 0 PNull 0) (Some 2%nat) None]> ∅))))
    (<[10%nat := ex_rec_hdr]> (<[11%nat := ex_tbl]> ∅))
    12 (Gd 0 0 5 (Some 0%nat) None None None None 128 1152) (replicate (Z.to_nat 1152) 0).

Lemma ex_rec_needs : needs_secondary ex_rec_store ex_rec_list 9
  (Half (1%nat, ex_hdr_seg 1 MAP_TYPE_PRI_GPT_HDR 10) (2%nat, ex_tbl_seg 2 MAP_TYPE_PRI_GPT_TBL 11) 10 11)
  ex_rec_hdr ex_tbl (Seg 4 5 MAP_TYPE_UNUSED 0 PNull 0).
Proof.
  pose proof ex_half_ok as [B1 B2 B3 B4 B5].
  split; try done; try (simpl; lia).
  - split; [split|split; [vm_compute; intuition congruence|lia]].
    + repeat (split; [eexists; (split; [reflexivity|done])|]). done.
    + done.
    + apply (bool_decide_unpack _). by vm_compute.
    + simpl. intros x Hx. rewrite !lookup_insert_ne by lia. apply lookup_empty.
  - split; try done. split; [by apply bytes_ok_hset|done|..].
    + vm_compute. lia.
    + vm_compute. discriminate.
    + vm_compute. discriminate.
Qed.

Lemma recover_restores_witness :
  exists s', recover false ex_rec_store = Some (tt, s') /\
    recovered ex_rec_store 9
      (Half (1%nat, ex_hdr_seg 1 MAP_TYPE_PRI_GPT_HDR 10) (2%nat, ex_tbl_seg 2 MAP_TYPE_PRI_GPT_TBL 11) 10 11)
      ex_rec_hdr ex_tbl s'.
Proof.
  apply (recover_restores (os := ex_dev) (fun _ => eq_refl) ex_rec_store ex_rec_list 9 _ ex_rec_hdr ex_tbl
    (Seg 4 5 MAP_TYPE_UNUSED 0 PNull 0) false). exact ex_rec_needs.
Defined.
