(* ===== verification/BootGpt.v ===== *)
(** * BootGpt: the partition table as gptboot reads it

    sys/boot/common/gpt.c, which reads and verifies both copies of the GPT, chooses the
    partition to boot and records the attempt; gptinit and the retries of
    sys/boot/pc32/gptboot/gptboot.c, which call it; and the transfers of
    sys/boot/pc32/common/drv.c.  The structures on disk are those fgdisk uses ([SysGpt]).

    The BIOS decides which transfers succeed ([Bios]); what is printed is not modelled.
    [None] is an access outside a structure, the table or the sector buffer. *)
From Stdlib Require Import ZArith Lia.
From stdpp Require Import base list option.
From S2P Require Import Prelude Crc32 GptIo GptRep.
Open Scope Z_scope.

(** ** What <sys/gpt.h> adds for the boot program *)
Class BootSys := {
  sizeof_gpt_hdr : nat;
  GPT_ENT_ATTR_BOOTME : Z;
  GPT_ENT_ATTR_BOOTONCE : Z;
  GPT_ENT_ATTR_BOOTFAILED : Z;
}.

(** The structure of a header has room for its fields, an entry is 128 bytes, and the
    three attributes are distinct bits of the 64. *)
Class BootSysLaws {gpt : SysGpt} {bs : BootSys} : Prop := {
  hdr_struct : (GPT_MIN_HDR_SIZE <= sizeof_gpt_hdr <= 512)%nat;
  ent_struct : sizeof_gpt_ent = 128%nat;
  attr_bits : exists i j k, 0 <= i < 64 /\ 0 <= j < 64 /\ 0 <= k < 64 /\
    i <> j /\ i <> k /\ j <> k /\ GPT_ENT_ATTR_BOOTME = 2 ^ i /\
    GPT_ENT_ATTR_BOOTONCE = 2 ^ j /\ GPT_ENT_ATTR_BOOTFAILED = 2 ^ k;
}.

(** Which transfers of a sector the BIOS carries out, and whether it knows the size. *)
Class Bios := {
  bios_read : Z -> bool;
  bios_write : Z -> bool;
  bios_size : bool;
}.

Definition DEV_BSIZE : Z := 512.
Definition MAXTBLENTS : Z := 128.

(** ** The static variables of gpt.c, [struct dsk] and the disk *)
Record copy := Copy {
  c_hdr : list Z;
  c_table : list Z;
  c_lba : Z;
}.

Inductive which : Type := Primary | Backup.
#[export] Instance which_eq_dec : EqDecision which.
Proof. solve_decision. Defined.

Record boot := Boot {
  b_primary : copy;
  b_backup : copy;
  b_use : option which;  (* gpthdr and gpttable; None is NULL *)
  b_curent : Z;
  b_bootonce : Z;
  b_secbuf : list Z;
  b_part : Z;
  b_start : Z;
  b_disk : list Z;
}.

Definition side (w : which) (s : boot) : copy :=
  match w with Primary => b_primary s | Backup => b_backup s end.
Definition on_side (w : which) (f : copy -> copy) (s : boot) : boot :=
  match w with
  | Primary => Boot (f (b_primary s)) (b_backup s) (b_use s) (b_curent s) (b_bootonce s)
                 (b_secbuf s) (b_part s) (b_start s) (b_disk s)
  | Backup => Boot (b_primary s) (f (b_backup s)) (b_use s) (b_curent s) (b_bootonce s)
                (b_secbuf s) (b_part s) (b_start s) (b_disk s)
  end.
Definition set_use (v : option which) (s : boot) : boot :=
  Boot (b_primary s) (b_backup s) v (b_curent s) (b_bootonce s) (b_secbuf s) (b_part s)
    (b_start s) (b_disk s).
Definition set_curent (v : Z) (s : boot) : boot :=
  Boot (b_primary s) (b_backup s) (b_use s) v (b_bootonce s) (b_secbuf s) (b_part s)
    (b_start s) (b_disk s).
Definition set_bootonce (v : Z) (s : boot) : boot :=
  Boot (b_primary s) (b_backup s) (b_use s) (b_curent s) v (b_secbuf s) (b_part s)
    (b_start s) (b_disk s).
Definition set_secbuf (v : list Z) (s : boot) : boot :=
  Boot (b_primary s) (b_backup s) (b_use s) (b_curent s) (b_bootonce s) v (b_part s)
    (b_start s) (b_disk s).
Definition set_part (v : Z) (s : boot) : boot :=
  Boot (b_primary s) (b_backup s) (b_use s) (b_curent s) (b_bootonce s) (b_secbuf s) v
    (b_start s) (b_disk s).
Definition set_start (v : Z) (s : boot) : boot :=
  Boot (b_primary s) (b_backup s) (b_use s) (b_curent s) (b_bootonce s) (b_secbuf s)
    (b_part s) v (b_disk s).
Definition set_disk (v : list Z) (s : boot) : boot :=
  Boot (b_primary s) (b_backup s) (b_use s) (b_curent s) (b_bootonce s) (b_secbuf s)
    (b_part s) (b_start s) v.

Definition set_hdr (h : list Z) (c : copy) : copy := Copy h (c_table c) (c_lba c).
Definition set_table (t : list Z) (c : copy) : copy := Copy (c_hdr c) t (c_lba c).
Definition set_lba (v : Z) (c : copy) : copy := Copy (c_hdr c) (c_table c) v.

(** Reading and writing bytes of an object, inside it. *)
Definition obj_rd (o n : Z) (d : list Z) : option (list Z) :=
  if (0 <=? o) && (0 <=? n) && (o + n <=? Z.of_nat (length d))
  then Some (sub (Z.to_nat o) (Z.to_nat n) d) else None.
Definition obj_wr (o : Z) (v d : list Z) : option (list Z) :=
  if (0 <=? o) && (o + Z.of_nat (length v) <=? Z.of_nat (length d))
  then Some (splice (Z.to_nat o) v d) else None.

Section gpt_c.
Context {gpt : SysGpt} {bs : BootSys} {bios : Bios}.

Abbreviation ENT := (Z.of_nat sizeof_gpt_ent).

(** [hdr->f], of the copy [w]. *)
Definition hdr_field_of (w : which) (f : hdr_field) : St boot Z :=
  gets (fun s => hget f (c_hdr (side w s))).
Definition put_hdr (w : which) (f : hdr_field) (v : Z) : St boot unit :=
  modify (on_side w (fun c => set_hdr (hset f v (c_hdr c)) c)).

(** [table[i].f] and [table[i].ent_attr = v]. *)
Definition table_get (w : which) (i : Z) (f : ent_field) : St boot (list Z) :=
  t ← gets (fun s => c_table (side w s));
  of_opt (obj_rd (i * ENT + Z.of_nat (off_ent f)) (Z.of_nat (width_ent f)) t).
Definition table_attr (w : which) (i : Z) : St boot Z :=
  d ← table_get w i ent_attr; mret (le_dec d).
Definition table_put (w : which) (o : Z) (d : list Z) : St boot unit :=
  t ← gets (fun s => c_table (side w s));
  t ← of_opt (obj_wr o d t);
  modify (on_side w (set_table t)).
Definition put_attr (w : which) (i : Z) (v : Z) : St boot unit :=
  table_put w (i * ENT + Z.of_nat (off_ent ent_attr)) (le_enc 8 v).

(** [bcopy(d, secbuf, length of d)]. *)
Definition put_secbuf (d : list Z) : St boot unit :=
  b ← gets b_secbuf; b ← of_opt (obj_wr 0 d b); modify (set_secbuf b).

(** ** sys/boot/pc32/common/drv.c, for one sector and the buffer [secbuf] *)
Definition on_disk_lba (lba : Z) (s : boot) : bool :=
  (0 <=? lba) && ((lba + 1) * DEV_BSIZE <=? Z.of_nat (length (b_disk s))).

Definition drvread (lba : Z) : St boot Z := fun s =>
  if on_disk_lba lba s && bios_read lba then
    (put_secbuf (sub (Z.to_nat (lba * DEV_BSIZE)) 512 (b_disk s));; mret 0) s
  else Some (-1, s).

Definition drvwrite (lba : Z) : St boot Z := fun s =>
  if on_disk_lba lba s && bios_write lba then
    (d ← of_opt (obj_rd 0 DEV_BSIZE (b_secbuf s));
     modify (set_disk (splice (Z.to_nat (lba * DEV_BSIZE)) d (b_disk s)));; mret 0) s
  else Some (-1, s).

Definition drvsize : St boot Z :=
  gets (fun s => if bios_size then Z.of_nat (length (b_disk s)) / DEV_BSIZE else 0).

(** ** Writing a copy back *)

(** The checksums, then the header from [secbuf]: the end of [gptupdate] and of
    [gptbootconv]. *)
Definition write_hdr (w : which) : St boot unit :=
  t ← gets (fun s => c_table (side w s));
  n ← hdr_field_of w hdr_entries;
  sz ← hdr_field_of w hdr_entsz;
  crc ← of_opt (crc32 t (u32 (n * sz)));
  put_hdr w hdr_crc_table crc;;
  put_hdr w hdr_crc_self 0;;
  h ← gets (fun s => c_hdr (side w s));
  size ← hdr_field_of w hdr_size;
  crc ← of_opt (crc32 h size);
  put_hdr w hdr_crc_self crc;;
  put_secbuf (replicate (Z.to_nat DEV_BSIZE) 0);;
  h ← gets (fun s => c_hdr (side w s));
  d ← of_opt (obj_rd 0 size h);
  put_secbuf d;;
  lba ← hdr_field_of w hdr_lba_self;
  drvwrite (s64 lba);;
  mret tt.

Definition gptupdate (w : which) : St boot unit :=
  sz ← hdr_field_of w hdr_entsz;
  let entries_per_sec := DEV_BSIZE / sz in
  cur ← gets b_curent;
  let slba := cur / entries_per_sec in
  let firstent := slba * entries_per_sec in
  t ← gets (fun s => c_table (side w s));
  d ← of_opt (obj_rd (firstent * ENT) DEV_BSIZE t);
  put_secbuf d;;
  lba ← hdr_field_of w hdr_lba_table;
  r ← drvwrite (s64 (slba + lba));
  if negb (r =? 0) then mret tt else write_hdr w.

(** ** gptfind *)
Definition type_is (w : which) (i : Z) (uuid : list Z) : St boot bool :=
  d ← table_get w i ent_type; mret (bool_decide (d = uuid)).

(** A loop over the entries from [cur] on: the first one that has the type and whose
    attributes pass [ok]; its index is left in [curent]. *)
Fixpoint find_loop (fuel : nat) (w : which) (uuid : list Z) (ok : Z -> bool) : St boot bool :=
  match fuel with
  | O => ub
  | S fuel =>
    cur ← gets b_curent;
    n ← hdr_field_of w hdr_entries;
    if cur <? s32 n then
      ty ← type_is w cur uuid;
      attr ← table_attr w cur;
      if (ty : bool) && ok attr then mret true
      else modify (set_curent (cur + 1));; find_loop fuel w uuid ok
    else mret false
  end.

Definition has (bit attr : Z) : bool := negb (Z.land attr bit =? 0).
Definition is_bootonce (attr : Z) : bool :=
  has GPT_ENT_ATTR_BOOTME attr && has GPT_ENT_ATTR_BOOTONCE attr.
Definition is_bootme (attr : Z) : bool :=
  has GPT_ENT_ATTR_BOOTME attr && negb (has GPT_ENT_ATTR_BOOTONCE attr).
Definition any_attr (attr : Z) : bool := true.

(** The statements on [table_primary] and on [table_backup] of [gptfind] and of
    [gptbootfailed]: if the copy [w] was read, the attributes of entry [curent] are
    changed by [f] and the copy is updated. *)
Definition change_attr (f : Z -> Z) (w : which) : St boot unit :=
  c ← gets (side w);
  if negb (c_lba c =? 0) then
    cur ← gets b_curent;
    a ← table_attr w cur;
    put_attr w cur (f a);;
    gptupdate w
  else mret tt.

(** [ent_attr &= ~GPT_ENT_ATTR_BOOTME]. *)
Definition attr_tried (a : Z) : Z := u64 (Z.land a (Z.lnot GPT_ENT_ATTR_BOOTME)).

(** [ent_attr &= ~GPT_ENT_ATTR_BOOTONCE; ent_attr |= GPT_ENT_ATTR_BOOTFAILED]. *)
Definition attr_failed (a : Z) : Z :=
  u64 (Z.lor (Z.land a (Z.lnot GPT_ENT_ATTR_BOOTONCE)) GPT_ENT_ATTR_BOOTFAILED).

Definition found : St boot Z :=
  cur ← gets b_curent;
  modify (set_part (cur + 1));;
  use ← gets b_use; w ← of_opt use;
  st ← table_get w cur ent_lba_start;
  modify (set_start (s64 (le_dec st)));;
  a ← table_attr w cur;
  (if has GPT_ENT_ATTR_BOOTONCE a then change_attr attr_tried Primary;; change_attr attr_tried Backup
   else mret tt);;
  mret 0.

Definition gptfind (uuid : list Z) (part : Z) : St boot Z :=
  use ← gets b_use; w ← of_opt use;
  n ← hdr_field_of w hdr_entries;
  let fuel := S (Z.to_nat n) in
  if 0 <=? part then
    if (part =? 0) || (s32 n <? part) then mret (-1)
    else
      ty ← type_is w (part - 1) uuid;
      if negb ty then mret (-1)
      else modify (set_curent (part - 1));; found
  else
    cur ← gets b_curent;
    let firsttry := cur =? -1 in
    modify (set_curent (cur + 1));;
    if s32 n <=? cur + 1 then modify (set_curent (s32 n));; mret (-1)
    else
      once ← gets b_bootonce;
      hit ← (if negb (once =? 0) then
               hit ← find_loop fuel w uuid is_bootonce;
               if hit : bool then mret true
               else modify (set_bootonce 0);; modify (set_curent 0);; mret false
             else mret false);
      if hit : bool then found
      else
        hit ← find_loop fuel w uuid is_bootme;
        if hit : bool then found
        else if firsttry then
          modify (set_curent 0);;
          hit ← find_loop fuel w uuid any_attr;
          if hit : bool then found else mret (-1)
        else mret (-1).

(** ** gptbootfailed *)
Definition gptbootfailed : St boot unit :=
  use ← gets b_use; w ← of_opt use;
  cur ← gets b_curent;
  a ← table_attr w cur;
  if negb (has GPT_ENT_ATTR_BOOTONCE a) then mret tt
  else change_attr attr_failed Primary;; change_attr attr_failed Backup.

(** ** gptread *)

(** What makes [gptread_hdr] refuse a header before it looks at its checksum. *)
Definition hdr_invalid (h : list Z) (lba : Z) : bool :=
  negb (bool_decide (sub (off_hdr hdr_sig) (width_hdr hdr_sig) h = GPT_HDR_SIG)) ||
  negb (hget hdr_lba_self h =? lba) || (hget hdr_revision h <? 0x00010000) ||
  (hget hdr_entsz h <? ENT) || (MAXTBLENTS <? hget hdr_entries h) ||
  negb (DEV_BSIZE mod hget hdr_entsz h =? 0).

Definition gptread_hdr (w : which) (hdrlba : Z) : St boot Z :=
  r ← drvread (s64 hdrlba);
  if negb (r =? 0) then mret (-1)
  else
    b ← gets b_secbuf;
    h ← of_opt (obj_rd 0 (Z.of_nat sizeof_gpt_hdr) b);
    modify (on_side w (set_hdr h));;
    if hdr_invalid h hdrlba then mret (-1)
    else
      let crc := hget hdr_crc_self h in
      put_hdr w hdr_crc_self 0;;
      h ← gets (fun s => c_hdr (side w s));
      size ← hdr_field_of w hdr_size;
      c ← of_opt (crc32 h size);
      if negb (c =? crc) then mret (-1)
      else put_hdr w hdr_crc_self crc;; mret 0.

(** The entries of one sector, and the sectors; the result is [nent]. *)
Fixpoint part_loop (fuel : nat) (w : which) (eps n part nent : Z) : St boot Z :=
  match fuel with
  | O => ub
  | S fuel =>
    if part <? eps then
      b ← gets b_secbuf;
      d ← of_opt (obj_rd (part * ENT) ENT b);
      table_put w (nent * ENT) d;;
      if s32 n <=? nent + 1 then mret (nent + 1)
      else part_loop fuel w eps n (part + 1) (nent + 1)
    else mret nent
  end.

Fixpoint table_loop (fuel : nat) (w : which) (eps n slba nent : Z) : St boot (option Z) :=
  match fuel with
  | O => ub
  | S fuel =>
    r ← drvread slba;
    if negb (r =? 0) then mret None
    else
      nent ← part_loop (S (Z.to_nat eps)) w eps n 0 nent;
      if s32 n <=? nent then mret (Some nent)
      else table_loop fuel w eps n (slba + 1) nent
  end.

Definition gptread_table (w : which) : St boot Z :=
  n ← hdr_field_of w hdr_entries;
  if n =? 0 then mret 0
  else
    sz ← hdr_field_of w hdr_entsz;
    lba ← hdr_field_of w hdr_lba_table;
    o ← table_loop (S (Z.to_nat n)) w (DEV_BSIZE / sz) n (s64 lba) 0;
    match o with
    | None => mret (-1)
    | Some nent =>
      t ← gets (fun s => c_table (side w s));
      c ← of_opt (crc32 t (u32 (nent * sz)));
      crc ← hdr_field_of w hdr_crc_table;
      if negb (c =? crc) then mret (-1) else mret 0
    end.

(** [gptbootconv]: BOOTONCE without BOOTME becomes BOOTFAILED. *)
Definition conv_attr (a : Z) : option Z :=
  let three := Z.lor (Z.lor GPT_ENT_ATTR_BOOTME GPT_ENT_ATTR_BOOTONCE)
                 GPT_ENT_ATTR_BOOTFAILED in
  if negb (Z.land a three =? GPT_ENT_ATTR_BOOTONCE) then None
  else Some (attr_failed a).

Fixpoint conv_loop (fuel : nat) (w : which) (eps nent part : Z) (updated : bool)
    : St boot bool :=
  match fuel with
  | O => ub
  | S fuel =>
    if part <? eps then
      a ← table_attr w (nent + part);
      match conv_attr a with
      | None => conv_loop fuel w eps nent (part + 1) updated
      | Some v => put_attr w (nent + part) v;; conv_loop fuel w eps nent (part + 1) true
      end
    else mret updated
  end.

Fixpoint conv_sectors (fuel : nat) (w : which) (eps last slba nent : Z) (updated : bool)
    : St boot bool :=
  match fuel with
  | O => ub
  | S fuel =>
    if slba <? last then
      sector_updated ← conv_loop (S (Z.to_nat eps)) w eps nent 0 false;
      (if sector_updated : bool then
         t ← gets (fun s => c_table (side w s));
         d ← of_opt (obj_rd (nent * ENT) DEV_BSIZE t);
         put_secbuf d;;
         drvwrite slba;;
         mret tt
       else mret tt);;
      conv_sectors fuel w eps last (slba + 1) (nent + eps) (updated || sector_updated)
    else mret updated
  end.

Definition gptbootconv (w : which) : St boot unit :=
  sz ← hdr_field_of w hdr_entsz;
  let eps := DEV_BSIZE / sz in
  n ← hdr_field_of w hdr_entries;
  lba ← hdr_field_of w hdr_lba_table;
  updated ← conv_sectors (S (Z.to_nat n)) w eps (s64 (u64 (lba + n / eps))) (s64 lba) 0 false;
  if updated : bool then write_hdr w else mret tt.

(** [gptread_hdr(...) == 0 && gptread_table(...) == 0]. *)
Definition read_copy (w : which) (lba : Z) : St boot bool :=
  r ← gptread_hdr w lba;
  if negb (r =? 0) then mret false
  else r ← gptread_table w; mret (r =? 0).

Definition gptread (buf : list Z) : St boot Z :=
  modify (set_secbuf buf);;
  modify (on_side Primary (set_lba 0));; modify (on_side Backup (set_lba 0));;
  modify (set_curent (-1));;
  modify (set_bootonce 1);;
  modify (set_start 0);;
  ok ← read_copy Primary 1;
  (if ok : bool then
     lba ← hdr_field_of Primary hdr_lba_self;
     modify (on_side Primary (set_lba lba));; modify (set_use (Some Primary))
   else mret tt);;
  c ← gets (side Primary);
  altlba ← (if negb (c_lba c =? 0) then hdr_field_of Primary hdr_lba_alt
            else n ← drvsize; mret (if 0 <? n then n - 1 else n));
  (if altlba =? 0 then mret tt
   else
     ok ← read_copy Backup altlba;
     if ok : bool then
       lba ← hdr_field_of Backup hdr_lba_self;
       modify (on_side Backup (set_lba lba));;
       (if c_lba c =? 0 then modify (set_use (Some Backup)) else mret tt)
     else mret tt);;
  (if negb (c_lba c =? 0) then gptbootconv Primary else mret tt);;
  c' ← gets (side Backup);
  (if negb (c_lba c' =? 0) then gptbootconv Backup else mret tt);;
  if (c_lba c =? 0) && (c_lba c' =? 0) then mret (-1) else mret 0.

(** ** sys/boot/pc32/gptboot/gptboot.c *)
Definition gptinit (secbuf : list Z) : St boot Z :=
  part_retry ← gets b_part;
  start_retry ← gets b_start;
  r ← gptread secbuf;
  if r =? -1 then mret (-1)
  else
    part ← gets b_part;
    r ← gptfind (GPT_ENT_TYPE DRAGONFLY_UFS1) part;
    if r =? -1 then
      modify (set_part part_retry);;
      modify (set_start start_retry);;
      r ← gptread secbuf;
      if r =? -1 then mret (-1)
      else
        part ← gets b_part;
        r ← gptfind (GPT_ENT_TYPE FREEBSD_UFS) part;
        if r =? -1 then mret (-1) else mret 0
    else mret 0.

(** The end of the loop of [main], when nothing could be loaded: whether to try again. *)
Definition retry : St boot bool :=
  gptbootfailed;;
  r ← gptfind (GPT_ENT_TYPE DRAGONFLY_UFS1) (-1);
  if r =? -1 then
    r ← gptfind (GPT_ENT_TYPE FREEBSD_UFS) (-1);
    if r =? -1 then mret false else mret true
  else mret true.

(** The loop of [main] when no partition holds anything that can be loaded and nobody
    presses a key: the partitions tried ([dsk.part]). *)
Fixpoint tries (fuel : nat) : St boot (list Z) :=
  match fuel with
  | O => ub
  | S fuel =>
    p ← gets b_part;
    again ← retry;
    if again : bool then l ← tries fuel; mret (p :: l) else mret [p]
  end.

Definition attempts (secbuf : list Z) : St boot (list Z) :=
  r ← gptinit secbuf;
  if negb (r =? 0) then mret [] else tries (S (Z.to_nat (2 * MAXTBLENTS))).
End gpt_c.
