(* ===== verification/BootRules.v ===== *)
(** * BootRules: the structures of gptboot, and the rules of its accesses

    The copies of the GPT in memory ([shape], [plain]), the fields of their entries, and
    what the transfers and updates of [BootGpt] do to the state. *)
From Stdlib Require Import ZArith Lia.
From stdpp Require Import base list option.
From S2P Require Import Prelude Crc32 GptIo GptRep BootGpt.
Open Scope Z_scope.

Section pure.
Context {gpt : SysGpt} {laws : SysGptLaws} {bs : BootSys} {blaws : BootSysLaws}.
Implicit Types (c : copy) (s : boot) (t h d : list Z).

(** ** Attributes *)
Definition me a := has GPT_ENT_ATTR_BOOTME a.
Definition once a := has GPT_ENT_ATTR_BOOTONCE a.
Definition failed a := has GPT_ENT_ATTR_BOOTFAILED a.

Lemma has_bit k a : 0 <= k -> has (2 ^ k) a = Z.testbit a k.
Proof.
  intros Hk. unfold has. destruct (Z.testbit a k) eqn:E.
  - apply negb_true_iff, Z.eqb_neq. intros H0. apply (f_equal (fun z => Z.testbit z k)) in H0.
    rewrite Z.land_spec, Z.pow2_bits_true, Z.bits_0, E in H0 by done. done.
  - apply negb_false_iff, Z.eqb_eq, Z.bits_inj'. intros i Hi.
    rewrite Z.land_spec, Z.bits_0. destruct (Z.eq_dec i k) as [->|].
    + by rewrite E.
    + rewrite Z.pow2_bits_false by lia. by rewrite andb_false_r.
Qed.

Lemma bit_set b k a : 0 <= b < 64 -> 0 <= k ->
  has (2 ^ b) (u64 (Z.lor a (2 ^ k))) = has (2 ^ b) a || bool_decide (b = k).
Proof.
  intros Hb Hk. rewrite !has_bit by lia. unfold u64. rewrite Z.mod_pow2_bits_low by lia.
  rewrite Z.lor_spec. f_equal. case_bool_decide.
  - subst. by apply Z.pow2_bits_true.
  - by apply Z.pow2_bits_false.
Qed.

Lemma bit_clear b k a : 0 <= b < 64 -> 0 <= k ->
  has (2 ^ b) (Z.land a (Z.lnot (2 ^ k))) = has (2 ^ b) a && bool_decide (b <> k).
Proof.
  intros Hb Hk. rewrite !has_bit by lia.
  rewrite Z.land_spec, Z.lnot_spec by lia. f_equal. case_bool_decide.
  - by rewrite Z.pow2_bits_false by congruence.
  - assert (b = k) as -> by lia. by rewrite Z.pow2_bits_true.
Qed.

Lemma bit_u64 b a : 0 <= b < 64 -> has (2 ^ b) (u64 a) = has (2 ^ b) a.
Proof. intros. rewrite !has_bit by lia. unfold u64. rewrite Z.mod_pow2_bits_low; [done|lia]. Qed.

Ltac attr_cases := unfold me, once, failed, attr_tried, attr_failed;
  destruct attr_bits as (i & j & k & Hi & Hj & Hk & Hij & Hik & Hjk & -> & -> & ->).

Lemma attr_tried_bits a :
  me (attr_tried a) = false /\ once (attr_tried a) = once a /\ failed (attr_tried a) = failed a.
Proof.
  attr_cases. rewrite !bit_u64, !bit_clear by lia.
  rewrite (bool_decide_eq_false_2 (i <> i)), (bool_decide_eq_true_2 (j <> i)),
    (bool_decide_eq_true_2 (k <> i)) by lia.
  by rewrite andb_false_r, !andb_true_r.
Qed.

Lemma attr_failed_bits a :
  me (attr_failed a) = me a /\ once (attr_failed a) = false /\ failed (attr_failed a) = true.
Proof.
  attr_cases. rewrite !bit_set, !bit_clear by lia.
  rewrite (bool_decide_eq_true_2 (i <> j)), (bool_decide_eq_false_2 (i = k)),
    (bool_decide_eq_false_2 (j <> j)), (bool_decide_eq_false_2 (j = k)),
    (bool_decide_eq_true_2 (k = k)) by lia.
  by rewrite !andb_true_r, !orb_false_r, andb_false_r, orb_true_r.
Qed.

Lemma conv_attr_eq a :
  conv_attr a = if negb (me a) && once a && negb (failed a) then Some (attr_failed a) else None.
Proof.
  unfold conv_attr. cbv zeta.
  enough (E : (Z.land a (Z.lor (Z.lor GPT_ENT_ATTR_BOOTME GPT_ENT_ATTR_BOOTONCE)
     GPT_ENT_ATTR_BOOTFAILED) =? GPT_ENT_ATTR_BOOTONCE) = negb (me a) && once a && negb (failed a)).
  { rewrite E. by destruct (_ && _ && _). }
  attr_cases. rewrite !has_bit by lia. apply eq_true_iff_eq.
  rewrite Z.eqb_eq, !andb_true_iff, !negb_true_iff. split.
  - intros H. pose proof (fun x => f_equal (fun z => Z.testbit z x) H) as F.
    cbv beta in F. pose proof (F i) as F1. pose proof (F j) as F2. pose proof (F k) as F3.
    rewrite !Z.land_spec, !Z.lor_spec, ?Z.pow2_bits_true in F1, F2, F3 by lia.
    rewrite !Z.pow2_bits_false in F1, F2, F3 by lia. simpl in *.
    rewrite ?orb_false_r, ?orb_true_r, ?andb_true_r in *. done.
  - intros [[H1 H2] H3]. apply Z.bits_inj'. intros x Hx.
    rewrite Z.land_spec, !Z.lor_spec. rewrite !Z.pow2_bits_eqb by lia.
    destruct (Z.eqb_spec i x) as [<-|].
    { rewrite H1. by destruct (Z.eqb_spec j i). }
    destruct (Z.eqb_spec j x) as [<-|]; [by rewrite H2|].
    destruct (Z.eqb_spec k x) as [<-|]; [by rewrite H3|]. by rewrite andb_false_r.
Qed.

(** ** Entries of a table in memory *)
Definition tget (i : Z) (f : ent_field) t : list Z :=
  sub (Z.to_nat (i * 128) + off_ent f) (width_ent f) t.
Definition tattr (i : Z) t : Z := le_dec (tget i ent_attr t).
Definition tset (i : Z) (v : Z) t : list Z :=
  splice (Z.to_nat (i * 128) + off_ent ent_attr) (le_enc 8 v) t.

Definition table_ok t : Prop := bytes_ok t /\ length t = Z.to_nat (128 * 128).

Lemma field_room f : (off_ent f + width_ent f <= 128)%nat.
Proof. rewrite <- ent_struct. apply ent_inside. Qed.

Lemma tset_room i t : table_ok t -> 0 <= i < 128 ->
  (Z.to_nat (i * 128) + off_ent ent_attr + 8 <= length t)%nat.
Proof. intros [_ ->] Hi. pose proof (field_room ent_attr). cbn [width_ent] in *. lia. Qed.

Lemma tset_ok i v t : table_ok t -> 0 <= i < 128 -> table_ok (tset i v t).
Proof.
  intros Ht Hi. pose proof (tset_room i t Ht Hi). destruct Ht as [Hb Hl].
  unfold tset. split; [by auto with bytes|]. rewrite length_splice; [done|].
  by rewrite length_le_enc.
Qed.

Lemma tget_tset i j v f t : table_ok t -> 0 <= i < 128 -> 0 <= j < 128 ->
  tget j f (tset i v t) = if bool_decide (j = i /\ f = ent_attr) then le_enc 8 v else tget j f t.
Proof.
  intros Ht Hi Hj. pose proof (tset_room i t Ht Hi) as Hr. unfold tget, tset.
  case_bool_decide as H.
  - destruct H as [-> ->]. apply (sub_splice_same _ (le_enc 8 v)).
    by rewrite length_le_enc.
  - apply sub_splice_other; rewrite length_le_enc; [lia|].
    pose proof (field_room f). pose proof (field_room ent_attr). cbn [width_ent] in *.
    destruct (Z.eq_dec j i) as [->|]; [|lia].
    destruct (ent_apart f ent_attr) as [E|E]; [tauto|left|right]; cbn [width_ent] in E; lia.
Qed.

Lemma tattr_tset i j v t : table_ok t -> 0 <= i < 128 -> 0 <= j < 128 -> 0 <= v < 2 ^ 64 ->
  tattr j (tset i v t) = if bool_decide (j = i) then v else tattr j t.
Proof.
  intros Ht Hi Hj Hv. unfold tattr. rewrite tget_tset by done.
  rewrite (bool_decide_ext (j = i /\ ent_attr = ent_attr) (j = i)) by tauto.
  case_bool_decide; [|done]. apply le_dec_enc_small. exact Hv.
Qed.

Lemma attr_tried_bound a : 0 <= attr_tried a < 2 ^ 64.
Proof. apply u64_bound. Qed.
Lemma attr_failed_bound a : 0 <= attr_failed a < 2 ^ 64.
Proof. apply u64_bound. Qed.

(** ** The copies in memory *)
Record shape c : Prop := {
  sh_hdr : bytes_ok (c_hdr c);
  sh_hlen : length (c_hdr c) = sizeof_gpt_hdr;
  sh_table : table_ok (c_table c);
}.

(** A header that the code can work with: entries of the size of [struct gpt_ent], and
    a checksum that covers the fields and not more than the structure. *)
Record plain h : Prop := {
  pl_entsz : hget hdr_entsz h = 128;
  pl_entries : hget hdr_entries h <= 128;
  pl_size : Z.of_nat GPT_MIN_HDR_SIZE <= hget hdr_size h <= Z.of_nat sizeof_gpt_hdr;
}.

(** The state between two calls. *)
Record boot_ok s : Prop := {
  bo_shape : forall w, shape (side w s);
  bo_plain : forall w, c_lba (side w s) <> 0 -> plain (c_hdr (side w s));
  bo_secbuf : (512 <= length (b_secbuf s))%nat;
}.

Lemma side_on_side w v f s : side v (on_side w f s) = if decide (v = w) then f (side v s) else side v s.
Proof. by destruct v, w. Qed.

Lemma on_side_on_side w f g s : on_side w f (on_side w g s) = on_side w (fun c => f (g c)) s.
Proof. by destruct w. Qed.

Lemma on_side_ext w f g s : f (side w s) = g (side w s) -> on_side w f s = on_side w g s.
Proof. destruct w; simpl; by intros ->. Qed.

Lemma hdr_min c : shape c -> (GPT_MIN_HDR_SIZE <= length (c_hdr c))%nat.
Proof. intros []. pose proof hdr_struct. lia. Qed.

Lemma plain_half c : shape c -> plain (c_hdr c) -> half_ok (c_hdr c) (c_table c).
Proof.
  intros Hs [P1 P2 P3]. pose proof (hdr_min c Hs). destruct Hs as [H1 H2 [H3 H4]].
  pose proof (hget_bound hdr_entries _ H1). split; try done; [lia|].
  unfold tbl_bytes. rewrite P1, u32_small, H4 by lia. lia.
Qed.

Lemma seal_shape c : shape c -> shape (set_hdr (seal (c_hdr c) (c_table c)) c).
Proof.
  intros Hs. pose proof (hdr_min _ Hs). destruct Hs.
  split; cbn; [by apply seal_bytes|by rewrite seal_length|done].
Qed.

(** Sealing leaves a header what it was but for its checksums. *)
Lemma plain_seal c : shape c -> plain (c_hdr c) -> plain (seal (c_hdr c) (c_table c)).
Proof.
  intros Hs [P1 P2 P3]. pose proof (hdr_min c Hs).
  by split; rewrite seal_get.
Qed.
End pure.
#[export] Hint Resolve attr_tried_bound attr_failed_bound : core.

(** ** Rules for the accesses *)
Section access.
Context {gpt : SysGpt} {laws : SysGptLaws} {bs : BootSys} {blaws : BootSysLaws} {bios : Bios}.
Implicit Types (c : copy) (s : boot) (t h d : list Z) (w : which).

Lemma obj_rd_ok o n d : 0 <= o -> 0 <= n -> o + n <= Z.of_nat (length d) ->
  obj_rd o n d = Some (sub (Z.to_nat o) (Z.to_nat n) d).
Proof.
  intros. unfold obj_rd.
  by rewrite (proj2 (Z.leb_le 0 o)), (proj2 (Z.leb_le 0 n)), (proj2 (Z.leb_le _ _)) by done.
Qed.

Lemma obj_wr_ok o v d : 0 <= o -> o + Z.of_nat (length v) <= Z.of_nat (length d) ->
  obj_wr o v d = Some (splice (Z.to_nat o) v d).
Proof.
  intros. unfold obj_wr. by rewrite (proj2 (Z.leb_le 0 o)), (proj2 (Z.leb_le _ _)) by done.
Qed.

Lemma wp_hdr_field w f s (Q : Z -> boot -> Prop) :
  Q (hget f (c_hdr (side w s))) s -> wp (hdr_field_of w f) s Q.
Proof. done. Qed.

Lemma wp_put_hdr w f v s (Q : unit -> boot -> Prop) :
  Q tt (on_side w (fun c => set_hdr (hset f v (c_hdr c)) c) s) -> wp (put_hdr w f v) s Q.
Proof. done. Qed.

Lemma wp_table_get w i f s (Q : list Z -> boot -> Prop) :
  table_ok (c_table (side w s)) -> 0 <= i < 128 ->
  Q (tget i f (c_table (side w s))) s -> wp (table_get w i f) s Q.
Proof.
  intros [_ Hl] Hi HQ. unfold table_get. apply wp_bind, wp_gets.
  pose proof (field_room f). eapply wp_of_opt; [|exact HQ].
  rewrite ent_struct, obj_rd_ok by lia. unfold tget. f_equal. f_equal; lia.
Qed.

Lemma wp_table_attr w i s (Q : Z -> boot -> Prop) :
  table_ok (c_table (side w s)) -> 0 <= i < 128 ->
  Q (tattr i (c_table (side w s))) s -> wp (table_attr w i) s Q.
Proof. intros. by apply wp_bind, wp_table_get. Qed.

Lemma wp_type_is w i uuid s (Q : bool -> boot -> Prop) :
  table_ok (c_table (side w s)) -> 0 <= i < 128 ->
  Q (bool_decide (tget i ent_type (c_table (side w s)) = uuid)) s -> wp (type_is w i uuid) s Q.
Proof. intros. by apply wp_bind, wp_table_get. Qed.

Lemma wp_table_put w o d s (Q : unit -> boot -> Prop) :
  0 <= o -> o + Z.of_nat (length d) <= Z.of_nat (length (c_table (side w s))) ->
  Q tt (on_side w (set_table (splice (Z.to_nat o) d (c_table (side w s)))) s) ->
  wp (table_put w o d) s Q.
Proof.
  intros Ho Hl HQ. unfold table_put. apply wp_bind, wp_gets, wp_bind.
  eapply wp_of_opt; [by apply obj_wr_ok|]. done.
Qed.

Lemma wp_put_attr w i v s (Q : unit -> boot -> Prop) :
  table_ok (c_table (side w s)) -> 0 <= i < 128 ->
  Q tt (on_side w (set_table (tset i v (c_table (side w s)))) s) -> wp (put_attr w i v) s Q.
Proof.
  intros [_ Hl] Hi HQ. unfold put_attr. pose proof (field_room ent_attr) as Hr.
  cbn [width_ent] in Hr. apply wp_table_put; rewrite ?length_le_enc, ent_struct; [lia..|].
  unfold tset in HQ. by replace (Z.to_nat _) with (Z.to_nat (i * 128) + off_ent ent_attr)%nat by lia.
Qed.

(** *** The buffer and the disk *)
Definition with_secbuf d s : boot := set_secbuf (splice 0 d (b_secbuf s)) s.
Definition wrote_sector (lba : Z) d s : boot :=
  if on_disk_lba lba s && bios_write lba
  then set_disk (splice (Z.to_nat (lba * DEV_BSIZE)) d (b_disk s)) s else s.

(** What is read from a sector, when the BIOS reads it. *)
Definition sector (D : list Z) (lba : Z) : option (list Z) :=
  if (0 <=? lba) && ((lba + 1) * DEV_BSIZE <=? Z.of_nat (length D)) && bios_read lba
  then Some (sub (Z.to_nat (lba * DEV_BSIZE)) 512 D) else None.

Lemma sector_length D lba d : sector D lba = Some d -> length d = 512%nat.
Proof.
  unfold sector, DEV_BSIZE. destruct (_ && _) eqn:E; [|done]. intros [= <-].
  zbool. apply length_sub. lia.
Qed.

Lemma sector_bytes D lba d : bytes_ok D -> sector D lba = Some d -> bytes_ok d.
Proof.
  unfold sector. intros HD. destruct (_ && _) eqn:E; [|done]. intros [= <-]. by apply bytes_ok_sub.
Qed.

Lemma wp_put_secbuf d s (Q : unit -> boot -> Prop) : (length d <= length (b_secbuf s))%nat ->
  Q tt (with_secbuf d s) -> wp (put_secbuf d) s Q.
Proof.
  intros Hl HQ. unfold put_secbuf. apply wp_bind, wp_gets, wp_bind.
  eapply wp_of_opt; [apply obj_wr_ok; lia|]. done.
Qed.

Lemma wp_drvread lba s (Q : Z -> boot -> Prop) : (512 <= length (b_secbuf s))%nat ->
  match sector (b_disk s) lba with
  | Some d => Q 0 (with_secbuf d s)
  | None => Q (-1) s
  end -> wp (drvread lba) s Q.
Proof.
  intros Hl HQ. unfold wp, drvread, on_disk_lba. unfold sector, DEV_BSIZE in *.
  destruct (_ && _) eqn:E; [|done].
  enough (wp (put_secbuf (sub (Z.to_nat (lba * 512)) 512 (b_disk s));; mret 0) s Q) as H
    by exact H.
  zbool. apply wp_bind, wp_put_secbuf; [rewrite length_sub by lia; lia|done].
Qed.

Lemma wp_drvwrite lba d s (Q : Z -> boot -> Prop) :
  length d = 512%nat -> sub 0 512 (b_secbuf s) = d ->
  Q (if on_disk_lba lba s && bios_write lba then 0 else -1) (wrote_sector lba d s) ->
  wp (drvwrite lba) s Q.
Proof.
  intros Hd Hs HQ. unfold wp, drvwrite. unfold wrote_sector in HQ.
  destruct (_ && _); [|done].
  assert (512 <= length (b_secbuf s))%nat as Hl.
  { rewrite <- Hs in Hd. unfold sub in Hd. rewrite length_take, length_drop in Hd. lia. }
  enough (wp (d ← of_opt (obj_rd 0 DEV_BSIZE (b_secbuf s));
    modify (set_disk (splice (Z.to_nat (lba * DEV_BSIZE)) d (b_disk s)));; mret 0) s Q) as H
    by exact H.
  apply wp_bind. eapply wp_of_opt; [apply obj_rd_ok; unfold DEV_BSIZE; lia|].
  change (sub _ _ (b_secbuf s)) with (sub 0 512 (b_secbuf s)). by rewrite Hs.
Qed.

Lemma with_secbuf_twice d e s : (length d <= length e)%nat -> (length e <= length (b_secbuf s))%nat ->
  with_secbuf d (with_secbuf e s) = with_secbuf (d ++ drop (length d) e) s.
Proof.
  intros H1 H2. unfold with_secbuf, set_secbuf. cbn [b_secbuf b_primary b_backup b_use
    b_curent b_bootonce b_part b_start b_disk]. f_equal.
  change (d ++ drop (length d) (e ++ drop (length e) (b_secbuf s)) =
    (d ++ drop (length d) e) ++ drop (length (d ++ drop (length d) e)) (b_secbuf s)).
  rewrite length_app, length_drop, (drop_app_le e), <- app_assoc by done. do 3 f_equal. lia.
Qed.

Lemma length_with_secbuf d s : (length d <= length (b_secbuf s))%nat ->
  length (b_secbuf (with_secbuf d s)) = length (b_secbuf s).
Proof. intros. cbn. by apply length_splice. Qed.

Lemma sub_with_secbuf d s : (length d <= length (b_secbuf s))%nat ->
  sub 0 (length d) (b_secbuf (with_secbuf d s)) = d.
Proof. intros. cbn. by apply sub_splice_same. Qed.

(** What neither changes. *)
Record same_ctl s s' : Prop := {
  sc_use : b_use s' = b_use s;
  sc_curent : b_curent s' = b_curent s;
  sc_once : b_bootonce s' = b_bootonce s;
  sc_part : b_part s' = b_part s;
  sc_start : b_start s' = b_start s;
  sc_secbuf : length (b_secbuf s') = length (b_secbuf s);
  sc_disk : length (b_disk s') = length (b_disk s);
}.

Lemma same_ctl_refl s : same_ctl s s.
Proof. done. Qed.

Lemma same_ctl_trans s1 s2 s3 : same_ctl s1 s2 -> same_ctl s2 s3 -> same_ctl s1 s3.
Proof. intros [] []. split; congruence. Qed.

Lemma side_with_secbuf w d s : side w (with_secbuf d s) = side w s.
Proof. by destruct w. Qed.

Lemma side_wrote w lba d s : side w (wrote_sector lba d s) = side w s.
Proof. unfold wrote_sector. destruct (_ && _); by destruct w. Qed.

Lemma same_secbuf d s : (length d <= length (b_secbuf s))%nat -> same_ctl s (with_secbuf d s).
Proof. intros. split; try done. by apply length_with_secbuf. Qed.

Lemma same_wrote lba d s : length d = 512%nat -> same_ctl s (wrote_sector lba d s).
Proof.
  intros Hd. unfold wrote_sector, on_disk_lba, DEV_BSIZE. destruct (_ && _) eqn:E; [|done].
  zbool. split; try done. cbn. apply length_splice. lia.
Qed.

Lemma same_on_side w f s : same_ctl s (on_side w f s).
Proof. by destruct w. Qed.

Lemma boot_ok_sides s s' : boot_ok s -> (forall w, side w s' = side w s) ->
  length (b_secbuf s') = length (b_secbuf s) -> boot_ok s'.
Proof.
  intros [H1 H2 H3] Hs Hc. split; [intros w; by rewrite Hs|intros w; rewrite Hs; apply H2|].
  by rewrite Hc.
Qed.

Lemma boot_ok_like s s' : boot_ok s -> same_ctl s s' -> (forall w, side w s' = side w s) -> boot_ok s'.
Proof. intros H [] Hs. by eapply boot_ok_sides. Qed.

(** *** Writing a copy back *)
Definition hdr_sector h : list Z :=
  take (Z.to_nat (hget hdr_size h)) h ++ replicate (512 - Z.to_nat (hget hdr_size h)) 0.

Definition seal_side (w : which) s : boot :=
  on_side w (fun c => set_hdr (seal (c_hdr c) (c_table c)) c) s.

(** What [write_hdr] and [gptupdate] do. *)
Definition hdr_written (w : which) s : boot :=
  let h := seal (c_hdr (side w s)) (c_table (side w s)) in
  wrote_sector (s64 (hget hdr_lba_self h)) (hdr_sector h)
    (with_secbuf (hdr_sector h) (seal_side w s)).

Definition ents_sector (w : which) (n : Z) s : list Z :=
  sub (Z.to_nat (n * 512)) 512 (c_table (side w s)).

Definition updated (w : which) s : boot :=
  let d := ents_sector w (b_curent s / 4) s in
  let lba := s64 (b_curent s / 4 + hget hdr_lba_table (c_hdr (side w s))) in
  let s' := wrote_sector lba d (with_secbuf d s) in
  if on_disk_lba lba s && bios_write lba then hdr_written w s' else s'.

Lemma length_hdr_sector c : shape c -> plain (c_hdr c) -> length (hdr_sector (c_hdr c)) = 512%nat.
Proof.
  intros [H1 H2 _] [_ _ P3]. pose proof hdr_struct. unfold hdr_sector.
  rewrite length_app, length_take, length_replicate. lia.
Qed.

Lemma wp_write_hdr w s (Q : unit -> boot -> Prop) :
  boot_ok s -> plain (c_hdr (side w s)) -> Q tt (hdr_written w s) -> wp (write_hdr w) s Q.
Proof.
  intros [Hs _ Hb] Hp HQ. specialize (Hs w).
  pose proof (plain_half _ Hs Hp) as Hh. pose proof (seal_half_ok _ _ Hh) as Hh'.
  destruct (plain_seal _ Hs Hp) as [_ _ P3]. pose proof (hdr_min _ Hs) as Hm.
  pose proof Hh as [B1 B2 _ B4 B5].
  unfold write_hdr. apply wp_bind, wp_gets, wp_bind, wp_hdr_field, wp_bind, wp_hdr_field, wp_bind.
  eapply wp_of_opt; [apply crc32_of; [done|]; split; [apply u32_bound|exact B5]|].
  apply wp_bind, wp_put_hdr, wp_bind, wp_put_hdr, wp_bind, wp_gets, wp_bind, wp_hdr_field.
  rewrite !side_on_side, !decide_True by done. cbn [c_hdr set_hdr].
  set (h2 := hset hdr_crc_self 0 _).
  assert (bytes_ok h2 /\ length h2 = length (c_hdr (side w s)) /\
    hget hdr_size h2 = hget hdr_size (c_hdr (side w s))) as (E1 & E2 & E3).
  { unfold h2. split; [by repeat apply bytes_ok_hset|].
    rewrite !length_hset, !hget_hset_ne by (done || rewrite ?length_hset; lia || done). done. }
  apply wp_bind. eapply wp_of_opt; [apply crc32_of; [done|]|].
  { rewrite E2, E3. split; [by apply hget_bound|exact B4]. }
  apply wp_bind, wp_put_hdr, wp_bind.
  rewrite !on_side_on_side. rewrite (on_side_ext w _ (fun c => set_hdr (seal (c_hdr c) (c_table c)) c)) by done.
  change (on_side w _ s) with (seal_side w s).
  assert (L : length (b_secbuf (seal_side w s)) = length (b_secbuf s)) by (by destruct w).
  change (Z.to_nat DEV_BSIZE) with 512%nat.
  apply wp_put_secbuf; [rewrite length_replicate; lia|].
  apply wp_bind, wp_gets, wp_bind.
  assert (S : side w (with_secbuf (replicate 512 0) (seal_side w s)) =
    set_hdr (seal (c_hdr (side w s)) (c_table (side w s))) (side w s)) by (by destruct w).
  rewrite S, E3. set (h := seal (c_hdr (side w s)) (c_table (side w s))) in *.
  assert (E4 : hget hdr_size h = hget hdr_size (c_hdr (side w s))) by (by apply seal_get).
  pose proof hdr_struct as Hstr. destruct Hs as [_ Hl _].
  assert (length h = sizeof_gpt_hdr) as Lh by (unfold h; by rewrite seal_length).
  cbn [set_hdr c_hdr]. rewrite <- E4.
  eapply wp_of_opt; [apply obj_rd_ok; rewrite ?Lh; lia|].
  assert (E5 : sub (Z.to_nat 0) (Z.to_nat (hget hdr_size h)) h ++
    drop (Z.to_nat (hget hdr_size h)) (replicate 512 0) = hdr_sector h).
  { by rewrite drop_replicate. }
  assert (E6 : length (sub (Z.to_nat 0) (Z.to_nat (hget hdr_size h)) h) =
    Z.to_nat (hget hdr_size h)) by (apply length_sub; lia).
  assert (E7 : length (hdr_sector h) = 512%nat).
  { unfold hdr_sector. rewrite length_app, length_take, length_replicate. lia. }
  apply wp_bind, wp_put_secbuf; [rewrite length_with_secbuf; rewrite ?length_replicate; lia|].
  rewrite with_secbuf_twice, E6, E5 by (rewrite ?length_replicate; lia).
  apply wp_bind, wp_hdr_field, wp_bind.
  apply (wp_drvwrite _ (hdr_sector h)); [done| |].
  - rewrite <- E7 at 1. apply sub_with_secbuf. lia.
  - apply wp_ret. unfold hdr_written in HQ. fold h in HQ.
    by replace (hget hdr_lba_self _) with (hget hdr_lba_self h) by (by destruct w).
Qed.

(** The sector of entry [i]: the entries of a sector are four. *)
Lemma wp_gptupdate w s (Q : unit -> boot -> Prop) :
  boot_ok s -> plain (c_hdr (side w s)) -> 0 <= b_curent s < 128 ->
  Q tt (updated w s) -> wp (gptupdate w) s Q.
Proof.
  intros Hok Hp Hcur HQ. pose proof Hok as [Hs _ Hb]. destruct (Hs w) as [_ _ [_ Ht]].
  unfold gptupdate. apply wp_bind, wp_hdr_field, wp_bind, wp_gets, wp_bind, wp_gets.
  rewrite (pl_entsz _ Hp), ent_struct. change (DEV_BSIZE / 128) with 4.
  set (n := b_curent s / 4). assert (0 <= n < 32) by (unfold n; dlia).
  apply wp_bind. eapply wp_of_opt; [apply obj_rd_ok; unfold DEV_BSIZE; lia|].
  assert (E : sub (Z.to_nat (n * 4 * Z.of_nat 128)) (Z.to_nat DEV_BSIZE) (c_table (side w s)) =
    ents_sector w n s) by (unfold ents_sector; f_equal; lia).
  rewrite E. assert (length (ents_sector w n s) = 512%nat) as L by (apply length_sub; lia).
  apply wp_bind, wp_put_secbuf; [lia|]. apply wp_bind, wp_hdr_field, wp_bind.
  apply (wp_drvwrite _ (ents_sector w n s)); [done|rewrite <- L at 1; apply sub_with_secbuf; lia|].
  assert (S : side w (with_secbuf (ents_sector w n s) s) = side w s) by (by destruct w).
  rewrite S. unfold updated in HQ. fold n in HQ. cbv zeta in HQ. cbn [on_disk_lba] in *.
  change (on_disk_lba _ (with_secbuf _ s)) with
    (on_disk_lba (s64 (n + hget hdr_lba_table (c_hdr (side w s)))) s).
  destruct (_ && _); [|done].
  apply wp_write_hdr; [|by rewrite side_wrote, side_with_secbuf|done].
  eapply boot_ok_like; [exact Hok| |].
  - by eapply same_ctl_trans; [|by apply same_wrote]; apply same_secbuf; lia.
  - intros v. by rewrite side_wrote, side_with_secbuf.
Qed.

(** *** What the updates leave alone *)

(** The headers differ in their checksums only, the tables not at all. *)
Definition resealed c c' : Prop := c' = c \/ c' = set_hdr (seal (c_hdr c) (c_table c)) c.

Lemma hdr_written_side w v s :
  side v (hdr_written w s) =
  if decide (v = w) then set_hdr (seal (c_hdr (side v s)) (c_table (side v s))) (side v s)
  else side v s.
Proof.
  unfold hdr_written, seal_side. by rewrite side_wrote, side_with_secbuf, side_on_side.
Qed.

Lemma hdr_written_ctl w s : boot_ok s -> plain (c_hdr (side w s)) -> same_ctl s (hdr_written w s).
Proof.
  intros [Hs _ Hb] Hp. unfold hdr_written.
  assert (length (hdr_sector (seal (c_hdr (side w s)) (c_table (side w s)))) = 512%nat) as L.
  { apply (length_hdr_sector (set_hdr (seal (c_hdr (side w s)) (c_table (side w s))) (side w s))).
    - by apply seal_shape.
    - by apply plain_seal. }
  eapply same_ctl_trans; [apply (same_on_side w)|].
  eapply same_ctl_trans; [apply same_secbuf|by apply same_wrote].
  rewrite L. by destruct w.
Qed.

Lemma updated_side w v s :
  side v (updated w s) = side v s \/ v = w /\ resealed (side v s) (side v (updated w s)).
Proof.
  unfold updated. destruct (_ && _); [|left; by rewrite side_wrote, side_with_secbuf].
  rewrite hdr_written_side, side_wrote, side_with_secbuf.
  case_decide; [right; split; [done|by right]|by left].
Qed.

Lemma updated_ctl w s : boot_ok s -> plain (c_hdr (side w s)) -> 0 <= b_curent s < 128 ->
  same_ctl s (updated w s).
Proof.
  intros Hok Hp Hc. pose proof Hok as [Hs _ Hb]. destruct (Hs w) as [_ _ [_ Ht]].
  assert (length (ents_sector w (b_curent s / 4) s) = 512%nat) as L.
  { apply length_sub. rewrite Ht. dlia. }
  assert (same_ctl s (wrote_sector (s64 (b_curent s / 4 + hget hdr_lba_table (c_hdr (side w s))))
    (ents_sector w (b_curent s / 4) s) (with_secbuf (ents_sector w (b_curent s / 4) s) s))) as H2.
  { eapply same_ctl_trans; [|by apply same_wrote]. apply same_secbuf. lia. }
  unfold updated. destruct (_ && _); [|done].
  eapply same_ctl_trans; [exact H2|]. apply hdr_written_ctl.
  - eapply boot_ok_like; [done..|]. intros v. by rewrite side_wrote, side_with_secbuf.
  - by rewrite side_wrote, side_with_secbuf.
Qed.

Lemma resealed_shape c c' : resealed c c' -> shape c -> plain (c_hdr c) ->
  shape c' /\ plain (c_hdr c') /\ c_table c' = c_table c /\ c_lba c' = c_lba c /\
  (forall f, f <> hdr_crc_table -> f <> hdr_crc_self -> hget f (c_hdr c') = hget f (c_hdr c)).
Proof.
  intros [->| ->] Hs Hp; [done|]. pose proof (hdr_min _ Hs) as Hm.
  split_and!; [|by apply plain_seal|done..|].
  - by apply seal_shape.
  - intros f H1 H2. by apply seal_get.
Qed.

Lemma boot_ok_updated w s : boot_ok s -> plain (c_hdr (side w s)) -> 0 <= b_curent s < 128 ->
  boot_ok (updated w s).
Proof.
  intros Hok Hp Hc. pose proof (updated_ctl _ _ Hok Hp Hc) as Hctl. destruct Hok as [H1 H2 H3].
  split.
  - intros v. destruct (updated_side w v s) as [->|[-> E]]; [done|]. by eapply resealed_shape.
  - intros v. destruct (updated_side w v s) as [->|[-> E]]; [apply H2|]. intros _.
    by eapply resealed_shape.
  - by rewrite (sc_secbuf _ _ Hctl).
Qed.
End access.
