(* ===== verification/BootFind.v ===== *)
(** * BootFind: the choice of the partition to boot

    What [gptfind] picks and what it and [gptbootfailed] change ([choose], [touched]), and
    the partitions that gptboot tries, one after the other, until there are none left
    ([boot_order]). *)
From Stdlib Require Import ZArith Lia.
From stdpp Require Import base list option.
From S2P Require Import Prelude Crc32 GptIo GptRep BootGpt BootRules.
Open Scope Z_scope.

(** ** The indices that pass a test *)
Fixpoint picks (f : Z -> bool) (a : Z) (k : nat) : list Z :=
  match k with
  | O => []
  | S k => if f a then a :: picks f (a + 1) k else picks f (a + 1) k
  end.

(** Those of [a, n). *)
Definition picks_to (f : Z -> bool) (a n : Z) : list Z := picks f a (Z.to_nat (n - a)).

Lemma picks_to_nil f a n : n <= a -> picks_to f a n = [].
Proof. intros. unfold picks_to. by rewrite Z2Nat.nonpos by lia. Qed.

Lemma picks_to_cons f a n : a < n ->
  picks_to f a n = if f a then a :: picks_to f (a + 1) n else picks_to f (a + 1) n.
Proof.
  intros. unfold picks_to. replace (Z.to_nat (n - a)) with (S (Z.to_nat (n - (a + 1)))) by lia.
  done.
Qed.

Lemma picks_ext f g a n : (forall j, a <= j < n -> f j = g j) -> picks_to f a n = picks_to g a n.
Proof.
  unfold picks_to. remember (Z.to_nat (n - a)) as k eqn:E. revert a E.
  induction k as [|k IH]; intros a E H; [done|]. simpl.
  rewrite H by lia. rewrite (IH (a + 1)); [done|lia|]. intros. apply H. lia.
Qed.

Lemma picks_in f a n j : j ∈ picks_to f a n <-> a <= j < n /\ f j = true.
Proof.
  unfold picks_to. remember (Z.to_nat (n - a)) as k eqn:E. revert a E.
  induction k as [|k IH]; intros a E; simpl.
  - rewrite elem_of_nil. lia.
  - destruct (f a) eqn:F; rewrite ?elem_of_cons, IH by lia.
    + split; [intros [->|[? ?]]; (split; [lia|done])|].
      intros [? ?]. destruct (Z.eq_dec j a); [by left|right]. split; [lia|done].
    + split; intros [? ?]; (split; [|done]); [lia|].
      destruct (Z.eq_dec j a); [congruence|lia].
Qed.

(** Skipping to the first index that passes. *)
Lemma picks_skip f a b n : a <= b <= n -> (forall j, a <= j < b -> f j = false) ->
  picks_to f a n = picks_to f b n.
Proof.
  intros Hab. remember (Z.to_nat (b - a)) as k eqn:E. revert a Hab E.
  induction k as [|k IH]; intros a Hab E H.
  - by replace b with a by lia.
  - rewrite picks_to_cons, H by lia. apply IH; [lia..|]. intros. apply H. lia.
Qed.

Section find.
Context {gpt : SysGpt} {laws : SysGptLaws} {bs : BootSys} {blaws : BootSysLaws} {bios : Bios}.
Implicit Types (c : copy) (s : boot) (t h d : list Z) (w : which).

Definition entries w s : Z := hget hdr_entries (c_hdr (side w s)).

(** Entry [i] has the type and its attributes pass [ok]. *)
Definition selected w (uuid : list Z) (ok : Z -> bool) s (i : Z) : bool :=
  bool_decide (tget i ent_type (c_table (side w s)) = uuid) && ok (tattr i (c_table (side w s))).

(** The copy in use is one that was read. *)
Definition in_use w s : Prop := b_use s = Some w /\ c_lba (side w s) <> 0.

Lemma entries_bound w s : boot_ok s -> plain (c_hdr (side w s)) ->
  0 <= entries w s <= 128 /\ s32 (entries w s) = entries w s.
Proof.
  intros [H _ _] [_ Hp _]. destruct (H w) as [Hb _ _].
  pose proof (hget_bound hdr_entries _ Hb). unfold entries. split; [lia|]. apply s32_small. lia.
Qed.

Lemma side_set_curent w n s : side w (set_curent n s) = side w s.
Proof. by destruct w. Qed.

Lemma set_curent_ok n s : boot_ok s -> boot_ok (set_curent n s).
Proof. intros H. apply (boot_ok_sides s); [done| |done]. intros. apply side_set_curent. Qed.

Lemma entries_set_curent w n s : entries w (set_curent n s) = entries w s.
Proof. unfold entries. by rewrite side_set_curent. Qed.

Lemma selected_set_curent w uuid ok n s :
  selected w uuid ok (set_curent n s) = selected w uuid ok s.
Proof. unfold selected. by rewrite side_set_curent. Qed.

Lemma set_curent_twice m n s : set_curent m (set_curent n s) = set_curent m s.
Proof. done. Qed.

Lemma set_curent_id s : set_curent (b_curent s) s = s.
Proof. by destruct s. Qed.

(** ** The loops of [gptfind] *)
Lemma wp_find_loop fuel w uuid ok s (Q : bool -> boot -> Prop) :
  boot_ok s -> plain (c_hdr (side w s)) -> 0 <= b_curent s <= entries w s ->
  entries w s - b_curent s < Z.of_nat fuel ->
  match picks_to (selected w uuid ok s) (b_curent s) (entries w s) with
  | i :: _ => Q true (set_curent i s)
  | [] => Q false (set_curent (entries w s) s)
  end ->
  wp (find_loop fuel w uuid ok) s Q.
Proof.
  revert s. induction fuel as [|fuel IH]; intros s Hok Hp Hc Hf HQ; [lia|].
  destruct (entries_bound w s Hok Hp) as [Hn En]. pose proof Hok as [Hs _ _].
  destruct (Hs w) as [_ _ Ht]. cbn [find_loop].
  apply wp_bind, wp_gets, wp_bind, wp_hdr_field. fold (entries w s). rewrite En.
  destruct (Z.ltb_spec (b_curent s) (entries w s)).
  - rewrite picks_to_cons in HQ by done.
    apply wp_bind, wp_type_is; [done|lia|]. apply wp_bind, wp_table_attr; [done|lia|].
    unfold selected in HQ at 1. destruct (_ && _).
    + apply wp_ret. by rewrite set_curent_id in HQ.
    + apply wp_bind, wp_modify. apply IH; rewrite ?side_set_curent, ?entries_set_curent;
        [by apply set_curent_ok|done|cbn [b_curent set_curent]; lia..|].
      cbn [b_curent set_curent]. by rewrite selected_set_curent.
  - apply wp_ret. replace (b_curent s) with (entries w s) in HQ by lia.
    rewrite picks_to_nil in HQ by lia.
    replace (entries w s) with (b_curent s) in HQ by lia. by rewrite set_curent_id in HQ.
Qed.

(** ** The changes of attributes *)

(** The attributes of the current entry of the copy [w] changed by [f], and the copy
    written back. *)
Definition marked (f : Z -> Z) w s : boot :=
  if c_lba (side w s) =? 0 then s
  else updated w (on_side w (fun c =>
    set_table (tset (b_curent s) (f (tattr (b_curent s) (c_table c))) (c_table c)) c) s).

Definition both_marked (f : Z -> Z) s : boot := marked f Backup (marked f Primary s).

(** From [s] to [s'] the attributes of entry [i], in the copies [ws] that were read, were
    changed by [f], and what follows from it: checksums, the buffer and the disk. *)
Record touched (f : Z -> Z) (i : Z) (ws : which -> bool) s s' : Prop := {
  to_ctl : same_ctl s s';
  to_ok : boot_ok s';
  to_lba : forall w, c_lba (side w s') = c_lba (side w s);
  to_hdr : forall w g, g <> hdr_crc_table -> g <> hdr_crc_self ->
    hget g (c_hdr (side w s')) = hget g (c_hdr (side w s));
  to_get : forall w j g, 0 <= j < 128 -> (j, g) <> (i, ent_attr) ->
    tget j g (c_table (side w s')) = tget j g (c_table (side w s));
  to_attr : forall w, tattr i (c_table (side w s')) =
    if ws w && negb (c_lba (side w s) =? 0) then f (tattr i (c_table (side w s)))
    else tattr i (c_table (side w s));
}.

Lemma on_side_shape w t s : boot_ok s -> table_ok t -> boot_ok (on_side w (set_table t) s).
Proof.
  intros [H1 H2 H3] Ht. split.
  - intros v. rewrite side_on_side. case_decide; [|done]. by destruct (H1 v).
  - intros v. rewrite side_on_side. case_decide; apply H2.
  - by destruct w.
Qed.

Lemma marked_touched f w s : boot_ok s -> 0 <= b_curent s < 128 ->
  (forall a, 0 <= f a < 2 ^ 64) ->
  touched f (b_curent s) (fun v => bool_decide (v = w)) s (marked f w s).
Proof.
  intros Hok Hc Hf. unfold marked. destruct (Z.eqb_spec (c_lba (side w s)) 0) as [E|E].
  { split; try done. intros v. case_bool_decide; [subst v|done]. by rewrite E. }
  pose proof Hok as [H1 H2 _]. destruct (H1 w) as [_ _ Ht].
  set (i := b_curent s) in *. set (t' := tset i (f (tattr i (c_table (side w s)))) (c_table (side w s))).
  rewrite (on_side_ext w _ (set_table t')) by done.
  assert (table_ok t') as Ht' by by apply tset_ok.
  pose proof (on_side_shape w t' s Hok Ht') as Hok1. set (s1 := on_side w (set_table t') s) in *.
  assert (S1 : side w s1 = set_table t' (side w s)) by (unfold s1; rewrite side_on_side; by rewrite decide_True).
  assert (plain (c_hdr (side w s1))) as Hp1 by (rewrite S1; by apply H2).
  assert (b_curent s1 = i) as Ec by (unfold s1; by destruct w). rewrite <- Ec in Hc.
  assert (D : forall v, v <> w -> side v (updated w s1) = side v s).
  { intros v Hv. destruct (updated_side w v s1) as [->|[-> _]]; [|done].
    unfold s1. by rewrite side_on_side, decide_False. }
  assert (W : forall P : copy -> Prop, (forall c, resealed (side w s1) c -> P c) ->
    P (side w (updated w s1))).
  { intros P HP. apply HP. destruct (updated_side w w s1) as [->|[_ E1]]; [by left|done]. }
  assert (R : forall c, resealed (side w s1) c -> c_table c = t' /\ c_lba c = c_lba (side w s) /\
    forall g, g <> hdr_crc_table -> g <> hdr_crc_self -> hget g (c_hdr c) = hget g (c_hdr (side w s))).
  { intros c Hr. destruct (resealed_shape _ c Hr) as (_ & _ & R1 & R2 & R3); [apply Hok1|done|].
    rewrite S1 in R1, R2, R3. done. }
  split.
  - eapply same_ctl_trans; [apply (same_on_side w)|]. by apply updated_ctl.
  - by apply boot_ok_updated.
  - intros v. destruct (decide (v = w)) as [->|Hv]; [|by rewrite D]. apply W, R.
  - intros v. destruct (decide (v = w)) as [->|Hv]; [|by rewrite D].
    apply (W (fun c => forall g, _ -> _ -> hget g (c_hdr c) = _)). intros c Hr. by apply R.
  - intros v j g Hj Hne. destruct (decide (v = w)) as [->|Hv]; [|by rewrite D].
    apply (W (fun c => tget j g (c_table c) = _)). intros c Hr. destruct (R c Hr) as (-> & _).
    unfold t'. rewrite tget_tset by (done || lia).
    rewrite bool_decide_eq_false_2; [done|]. by intros [-> ->].
  - intros v. case_bool_decide as Hv; [subst v|by rewrite D].
    apply (W (fun c => tattr i (c_table c) = _)). intros c Hr. destruct (R c Hr) as (-> & _).
    rewrite (proj2 (Z.eqb_neq _ _)) by done. unfold t'.
    rewrite tattr_tset by (done || lia || auto). by rewrite bool_decide_eq_true_2.
Qed.

Lemma both_touched f s : boot_ok s -> 0 <= b_curent s < 128 -> (forall a, 0 <= f a < 2 ^ 64) ->
  touched f (b_curent s) (fun _ => true) s (both_marked f s).
Proof.
  intros Hok Hc Hf. pose proof (marked_touched f Primary s Hok Hc Hf) as [A1 A2 A3 A4 A5 A6].
  pose proof (marked_touched f Backup (marked f Primary s) A2) as B.
  rewrite (sc_curent _ _ A1) in B. destruct (B Hc Hf) as [B1 B2 B3 B4 B5 B6].
  fold (both_marked f s) in *. split; try done.
  - by eapply same_ctl_trans.
  - intros w. by rewrite B3.
  - intros w g G1 G2. by rewrite B4, A4.
  - intros w j g G1 G2. by rewrite B5, A5.
  - intros w. rewrite B6, A3, A6. by destruct w.
Qed.

Lemma wp_change_attr f w s (Q : unit -> boot -> Prop) : boot_ok s -> 0 <= b_curent s < 128 ->
  Q tt (marked f w s) -> wp (change_attr f w) s Q.
Proof.
  intros Hok Hc HQ. pose proof Hok as [H1 H2 _]. destruct (H1 w) as [_ _ Ht].
  unfold change_attr. apply wp_bind, wp_gets. unfold marked in HQ.
  destruct (Z.eqb_spec (c_lba (side w s)) 0); cbn [negb]; [by apply wp_ret|].
  apply wp_bind, wp_gets, wp_bind, wp_table_attr; [done..|].
  apply wp_bind, wp_put_attr; [done..|].
  rewrite (on_side_ext w _ (set_table (tset (b_curent s)
    (f (tattr (b_curent s) (c_table (side w s)))) (c_table (side w s))))) in HQ by done.
  apply wp_gptupdate.
  - apply on_side_shape; [done|]. by apply tset_ok.
  - rewrite side_on_side, decide_True by done. by apply H2.
  - by destruct w.
  - exact HQ.
Qed.

(** ** [gptfind] and [gptbootfailed] *)
Definition found_state w s : boot :=
  let i := b_curent s in
  let s' := set_start (s64 (le_dec (tget i ent_lba_start (c_table (side w s)))))
              (set_part (i + 1) s) in
  if once (tattr i (c_table (side w s))) then both_marked attr_tried s' else s'.

Definition failed_state w s : boot :=
  if once (tattr (b_curent s) (c_table (side w s))) then both_marked attr_failed s else s.

Lemma side_set_part w n s : side w (set_part n s) = side w s.
Proof. by destruct w. Qed.

Lemma side_set_start w n s : side w (set_start n s) = side w s.
Proof. by destruct w. Qed.

Lemma side_set_bootonce w n s : side w (set_bootonce n s) = side w s.
Proof. by destruct w. Qed.

Lemma wp_change_both f s (Q : unit -> boot -> Prop) : boot_ok s -> 0 <= b_curent s < 128 ->
  (forall a, 0 <= f a < 2 ^ 64) -> Q tt (both_marked f s) ->
  wp (change_attr f Primary;; change_attr f Backup) s Q.
Proof.
  intros Hok Hc Hf HQ. apply wp_bind, wp_change_attr; [done..|].
  destruct (marked_touched f Primary s Hok Hc Hf) as [A1 A2 _ _ _ _].
  apply wp_change_attr; [done|by rewrite (sc_curent _ _ A1)|done].
Qed.

Lemma wp_found w s (Q : Z -> boot -> Prop) : boot_ok s -> in_use w s -> 0 <= b_curent s < 128 ->
  Q 0 (found_state w s) -> wp found s Q.
Proof.
  intros Hok [Hu _] Hc HQ. pose proof Hok as [H1 _ _]. destruct (H1 w) as [_ _ Ht].
  unfold found. apply wp_bind, wp_gets, wp_bind, wp_modify, wp_bind, wp_gets, wp_bind.
  eapply wp_of_opt; [exact Hu|]. apply wp_bind, wp_table_get; rewrite ?side_set_part; [done..|].
  apply wp_bind, wp_modify, wp_bind, wp_table_attr;
    rewrite ?side_set_start, ?side_set_part; [done..|].
  unfold found_state in HQ. fold (once (tattr (b_curent s) (c_table (side w s)))).
  apply wp_bind. destruct (once _); [|by apply wp_ret, wp_ret].
  apply wp_change_both; [|done|auto|by apply wp_ret].
  apply (boot_ok_sides s); [done| |done]. intros v. by rewrite side_set_start, side_set_part.
Qed.

Lemma wp_gptbootfailed w s (Q : unit -> boot -> Prop) : boot_ok s -> in_use w s ->
  0 <= b_curent s < 128 -> Q tt (failed_state w s) -> wp gptbootfailed s Q.
Proof.
  intros Hok [Hu _] Hc HQ. pose proof Hok as [H1 _ _]. destruct (H1 w) as [_ _ Ht].
  unfold gptbootfailed. apply wp_bind, wp_gets, wp_bind.
  eapply wp_of_opt; [exact Hu|]. apply wp_bind, wp_gets, wp_bind, wp_table_attr; [done..|].
  unfold failed_state, once in HQ. destruct (has _ _); cbn [negb].
  - by apply wp_change_both; [|done|auto|].
  - by apply wp_ret.
Qed.

(** What [gptfind(uuid, dskp, -1)] picks, among [n] entries: first the ones to be booted
    once, after [cur], then the ones to be booted, and at the first call any. *)
Definition choose (first ph : bool) (cur n : Z) (o m t : Z -> bool) : option (Z * bool) :=
  if n <=? cur + 1 then None
  else
    match (if ph then head (picks_to o (cur + 1) n) else None) with
    | Some i => Some (i, true)
    | None =>
      match head (picks_to m (if ph then 0 else cur + 1) n) with
      | Some i => Some (i, false)
      | None => if first then i ← head (picks_to t 0 n); Some (i, false) else None
      end
    end.

Definition with_phase (ph : bool) s : boot := if ph then s else set_bootonce 0 s.

Definition phase s : bool := negb (b_bootonce s =? 0).

Lemma side_with_phase w ph s : side w (with_phase ph s) = side w s.
Proof. destruct ph; [done|]. apply side_set_bootonce. Qed.

Lemma with_phase_ok ph s : boot_ok s -> boot_ok (with_phase ph s).
Proof.
  intros H. apply (boot_ok_sides s); [done| |by destruct ph]. intros. apply side_with_phase.
Qed.

Lemma with_phase_id s : phase s = false -> with_phase false s = s.
Proof. unfold phase. intros H. zbool. destruct s. simpl in *. by subst. Qed.

Lemma in_use_like w s s' : in_use w s -> b_use s' = b_use s -> side w s' = side w s -> in_use w s'.
Proof. intros [H1 H2] E1 E2. split; congruence. Qed.

Lemma head_picks f a n i : head (picks_to f a n) = Some i -> a <= i < n /\ f i = true.
Proof.
  destruct (picks_to f a n) as [|j l] eqn:E; [done|]. intros [= ->].
  apply picks_in. rewrite E. apply elem_of_cons. by left.
Qed.

Lemma entries_with_phase w ph s : entries w (with_phase ph s) = entries w s.
Proof. unfold entries. by rewrite side_with_phase. Qed.

Lemma selected_with_phase w uuid ok ph s :
  selected w uuid ok (with_phase ph s) = selected w uuid ok s.
Proof. unfold selected. by rewrite side_with_phase. Qed.

Lemma wp_find_phase w uuid ok a ph s (Q : bool -> boot -> Prop) :
  boot_ok s -> plain (c_hdr (side w s)) -> 0 <= a <= entries w s ->
  match head (picks_to (selected w uuid ok s) a (entries w s)) with
  | Some i => Q true (set_curent i (with_phase ph s))
  | None => Q false (set_curent (entries w s) (with_phase ph s))
  end ->
  wp (find_loop (S (Z.to_nat (entries w s))) w uuid ok) (set_curent a (with_phase ph s)) Q.
Proof.
  intros Hok Hp Ha HQ. apply wp_find_loop;
    rewrite ?side_set_curent, ?side_with_phase, ?entries_set_curent, ?entries_with_phase,
      ?selected_set_curent, ?selected_with_phase; cbn [b_curent set_curent]; [|done|lia..|].
  - by apply set_curent_ok, with_phase_ok.
  - by destruct (picks_to _ a _).
Qed.

Lemma wp_found_at w i ph s (Q : Z -> boot -> Prop) : boot_ok s -> in_use w s -> 0 <= i < 128 ->
  Q 0 (found_state w (set_curent i (with_phase ph s))) ->
  wp found (set_curent i (with_phase ph s)) Q.
Proof.
  intros Hok Hu Hi HQ. apply (wp_found w); [by apply set_curent_ok, with_phase_ok| |done..].
  apply (in_use_like w s); [done|by destruct ph|]. by rewrite side_set_curent, side_with_phase.
Qed.

Lemma wp_gptfind w uuid s (Q : Z -> boot -> Prop) : boot_ok s -> in_use w s -> -1 <= b_curent s ->
  match choose (b_curent s =? -1) (phase s) (b_curent s) (entries w s)
    (selected w uuid is_bootonce s) (selected w uuid is_bootme s) (selected w uuid any_attr s) with
  | Some (i, ph) => Q 0 (found_state w (set_curent i (with_phase ph s)))
  | None => forall ph, Q (-1) (set_curent (entries w s) (with_phase ph s))
  end ->
  wp (gptfind uuid (-1)) s Q.
Proof.
  intros Hok Hu Hc HQ. pose proof Hok as [_ H2 _]. pose proof Hu as [Hu1 Hu2].
  pose proof (H2 _ Hu2) as Hp. destruct (entries_bound w s Hok Hp) as [Hn En].
  unfold gptfind. apply wp_bind, wp_gets, wp_bind. eapply wp_of_opt; [exact Hu1|].
  apply wp_bind, wp_hdr_field. fold (entries w s). rewrite En. cbn [Z.leb Z.compare].
  apply wp_bind, wp_gets, wp_bind, wp_modify. unfold choose in HQ.
  destruct (Z.leb_spec (entries w s) (b_curent s + 1)).
  { apply wp_bind, wp_modify, wp_ret. exact (HQ true). }
  set (o := selected w uuid is_bootonce s) in *. set (m := selected w uuid is_bootme s) in *.
  set (t := selected w uuid any_attr s) in *. set (n := entries w s) in *.
  (* The passes over the entries to be booted, and over all. *)
  assert (Hm : forall a ph, 0 <= a <= n ->
    match (match head (picks_to m a n) with
           | Some i => Some (i, ph)
           | None => if b_curent s =? -1 then i ← head (picks_to t 0 n); Some (i, ph) else None
           end) with
    | Some (i, ph) => Q 0 (found_state w (set_curent i (with_phase ph s)))
    | None => Q (-1) (set_curent n (with_phase ph s))
    end ->
    wp (hit ← find_loop (S (Z.to_nat n)) w uuid is_bootme;
        if hit : bool then found
        else if b_curent s =? -1 then
          modify (set_curent 0);;
          hit ← find_loop (S (Z.to_nat n)) w uuid any_attr;
          if hit : bool then found else mret (-1)
        else mret (-1)) (set_curent a (with_phase ph s)) Q).
  { intros a ph Ha HQ'. apply wp_bind, wp_find_phase; [done..|]. fold m n.
    destruct (head (picks_to m a n)) as [i|] eqn:Em.
    { apply head_picks in Em as [Hi _]. apply (wp_found_at w); [done..|lia|exact HQ']. }
    destruct (Z.eqb_spec (b_curent s) (-1)); [|by apply wp_ret].
    apply wp_bind, wp_modify. rewrite set_curent_twice.
    apply wp_bind, wp_find_phase; [done..|lia|]. fold t n.
    destruct (head (picks_to t 0 n)) as [i|] eqn:Et; [|by apply wp_ret].
    apply head_picks in Et as [Hi _]. apply (wp_found_at w); [done..|lia|exact HQ']. }
  apply wp_bind, wp_gets. change (negb (b_bootonce (set_curent _ s) =? 0)) with (phase s).
  destruct (phase s) eqn:Eph.
  - apply wp_bind, wp_bind. apply (wp_find_phase _ _ _ _ true); [done..|lia|]. fold o n.
    destruct (head (picks_to o (b_curent s + 1) n)) as [i|] eqn:Eo.
    { apply head_picks in Eo as [Hi _]. apply wp_ret, (wp_found_at w); [done..|lia|exact HQ]. }
    apply wp_bind, wp_modify, wp_bind, wp_modify, wp_ret.
    apply (Hm 0 false); [lia|].
    destruct (head (picks_to m 0 n)); [exact HQ|]. destruct (_ =? _); [|apply HQ].
    destruct (head (picks_to t 0 n)); [exact HQ|apply (HQ false)].
  - apply wp_bind, wp_ret. rewrite <- (with_phase_id s) at 2 by done. apply Hm; [lia|].
    destruct (head (picks_to m _ n)); [exact HQ|]. destruct (_ =? _); [|apply HQ].
    destruct (head (picks_to t 0 n)); [exact HQ|apply (HQ false)].
Qed.
End find.
