(* ===== verification/BootTries.v ===== *)
(** * BootTries: the partitions gptboot tries

    The loop of gptboot.c around [gptfind] and [gptbootfailed]: which partitions it tries,
    in which order, and that it ends ([boot_order], [remaining]). *)
From Stdlib Require Import ZArith Lia.
From stdpp Require Import base list option.
From S2P Require Import Prelude Crc32 GptIo GptRep BootGpt BootRules BootFind.
Open Scope Z_scope.

(** ** The order, as a list of indices *)
Section order.
Implicit Types (o m t : Z -> bool).

(** Those to be booted once, then those to be booted; any one if there are none.  When the
    last entry of the table is to be booted once, the second pass is not made. *)
Definition order (n : Z) o m t : list Z :=
  match picks_to o 0 n ++ (if o (n - 1) then [] else picks_to m 0 n) with
  | [] => take 1 (picks_to t 0 n)
  | l => l
  end.

(** What is left after entry [cur]: in the first pass, or in a later one. *)
Definition remaining (ph : bool) (cur n : Z) o m : list Z :=
  if n <=? cur + 1 then []
  else if ph then picks_to o (cur + 1) n ++ (if o (n - 1) then [] else picks_to m 0 n)
  else picks_to m (cur + 1) n.

Lemma picks_inv f a n i l : picks_to f a n = i :: l ->
  a <= i < n /\ f i = true /\ l = picks_to f (i + 1) n.
Proof.
  unfold picks_to. remember (Z.to_nat (n - a)) as k eqn:E. revert a E.
  induction k as [|k IH]; intros a E; simpl; [done|].
  destruct (f a) eqn:F.
  - intros [= <- <-]. split_and!; [lia..|done|]. f_equal. lia.
  - intros H. destruct (IH (a + 1)) as (? & ? & ?); [lia|done|]. split_and!; [lia..|done|done].
Qed.

Lemma picks_last o a n : picks_to o a n = [] -> a < n -> o (n - 1) = false.
Proof.
  intros E H. destruct (o (n - 1)) eqn:F; [|done].
  assert (n - 1 ∈ picks_to o a n) as Hin by (apply picks_in; split; [lia|done]).
  rewrite E in Hin. by apply elem_of_nil in Hin.
Qed.

(** A later pass goes on behind the entry picked. *)
Lemma remaining_tail i n o m : i < n -> remaining false i n o m = picks_to m (i + 1) n.
Proof.
  intros Hi. unfold remaining. destruct (Z.leb_spec n (i + 1)); [|done]. by rewrite picks_to_nil.
Qed.

Lemma remaining_pick o m a i l n : picks_to o a n = i :: l ->
  remaining true i n o m = l ++ (if o (n - 1) then [] else picks_to m 0 n).
Proof.
  intros E. destruct (picks_inv _ _ _ _ _ E) as (Hi & Ho & ->). unfold remaining.
  destruct (Z.leb_spec n (i + 1)); [|done]. rewrite picks_to_nil by done.
  by replace (n - 1) with i by lia; rewrite Ho.
Qed.

(** [gptfind] picks the first of what is left, and leaves the rest. *)
Lemma choose_remaining ph cur n o m t :
  match choose false ph cur n o m t with
  | Some (i, ph') => 0 <= cur + 1 -> (cur < i \/ ph = true) /\ 0 <= i < n /\
      (ph' = true -> ph = true /\ cur < i /\ o i = true) /\
      remaining ph cur n o m = i :: remaining ph' i n o m
  | None => 0 <= cur + 1 -> remaining ph cur n o m = []
  end.
Proof.
  unfold choose. unfold remaining at 1 3. destruct (Z.leb_spec n (cur + 1)) as [|Hn]; [done|].
  destruct ph.
  - destruct (picks_to o (cur + 1) n) as [|i l] eqn:E; cbn [head].
    + rewrite (picks_last o (cur + 1)) by done. cbn [app].
      destruct (picks_to m 0 n) as [|i l] eqn:Em; [done|]. cbn [head]. intros _.
      destruct (picks_inv _ _ _ _ _ Em) as (Hi & _ & ->).
      rewrite remaining_tail by lia. split_and!; (done || lia || auto with lia).
    + intros Hc. destruct (picks_inv _ _ _ _ _ E) as (Hi & Ho & _).
      rewrite (remaining_pick o m (cur + 1) i l) by done. split_and!; (done || lia || auto with lia).
  - destruct (picks_to m (cur + 1) n) as [|i l] eqn:Em; [done|]. cbn [head]. intros Hc.
    destruct (picks_inv _ _ _ _ _ Em) as (Hi & _ & ->).
    rewrite remaining_tail by lia. split_and!; (done || lia || auto with lia).
Qed.

(** At the first call. *)
Lemma choose_order n o m t :
  match choose true true (-1) n o m t with
  | Some (i, ph) => 0 <= i < n /\ (ph = true -> o i = true) /\
      order n o m t = i :: remaining ph i n o m
  | None => order n o m t = []
  end.
Proof.
  unfold choose, order. destruct (Z.leb_spec n (-1 + 1)) as [Hn|Hn].
  { rewrite !picks_to_nil by lia. by destruct (o _). }
  change (-1 + 1) with 0 in *. destruct (picks_to o 0 n) as [|i l] eqn:E; cbn [head app].
  - rewrite (picks_last o 0) by done. destruct (picks_to m 0 n) as [|i l] eqn:Em; cbn [head].
    + destruct (picks_to t 0 n) as [|i l] eqn:Et; cbn [head]; [done|].
      destruct (picks_inv _ _ _ _ _ Et) as (Hi & _ & _). cbn.
      rewrite remaining_tail by lia.
      rewrite (picks_skip m 0 (i + 1) n) in Em; [|lia|].
      * rewrite Em. split_and!; [lia..|done|done].
      * intros j Hj. destruct (m j) eqn:F; [|done].
        assert (j ∈ picks_to m 0 n) as Hin by (apply picks_in; split; [lia|done]).
        rewrite Em in Hin. by apply elem_of_nil in Hin.
    + destruct (picks_inv _ _ _ _ _ Em) as (Hi & _ & ->). rewrite remaining_tail by lia.
      split_and!; [lia..|done|done].
  - destruct (picks_inv _ _ _ _ _ E) as (Hi & Ho & _).
    rewrite (remaining_pick o m 0 i l) by done. split_and!; [lia..|done|done].
Qed.
End order.

Section tries.
Context {gpt : SysGpt} {laws : SysGptLaws} {bs : BootSys} {blaws : BootSysLaws} {bios : Bios}.
Implicit Types (s : boot) (w : which) (o m : Z -> bool).

(** ** What picking an entry and its failure leave *)

(** The table that is in use, seen through the selections of type [uuid]. *)
Record track w uuid n o m s : Prop := {
  tk_ok : boot_ok s;
  tk_use : in_use w s;
  tk_n : entries w s = n;
  tk_cur : -1 <= b_curent s;
  tk_me : forall j, 0 <= j < n -> selected w uuid is_bootme s j = m j;
  tk_once : phase s = true -> forall j, b_curent s < j < n -> selected w uuid is_bootonce s j = o j;
}.

Lemma touched_in_use f i ws w s s' : touched f i ws s s' -> in_use w s -> in_use w s'.
Proof. intros [[Hu _ _ _ _ _ _] _ Hl _ _ _] [H1 H2]. split; [congruence|by rewrite Hl]. Qed.

Lemma touched_entries f i ws w s s' : touched f i ws s s' -> entries w s' = entries w s.
Proof. intros H. by apply (to_hdr _ _ _ _ _ H). Qed.

Lemma touched_selected f i w uuid ok s s' j : touched f i (fun _ => true) s s' -> in_use w s ->
  0 <= j < 128 -> 0 <= i < 128 ->
  selected w uuid ok s' j =
  if decide (j = i) then
    bool_decide (tget i ent_type (c_table (side w s)) = uuid) &&
    ok (f (tattr i (c_table (side w s))))
  else selected w uuid ok s j.
Proof.
  intros H [_ Hl] Hj Hi. unfold selected. rewrite (to_get _ _ _ _ _ H) by (done || congruence).
  destruct (decide (j = i)) as [->|Hne].
  - rewrite (to_attr _ _ _ _ _ H), (proj2 (Z.eqb_neq _ _)) by done. done.
  - unfold tattr. by rewrite (to_get _ _ _ _ _ H) by (done || congruence).
Qed.

(** Neither changes which entries are to be booted. *)
Lemma tried_keeps_me a : once a = true -> is_bootme (attr_tried a) = is_bootme a.
Proof.
  intros Ho. pose proof (attr_tried_bits a) as (E1 & E2 & _).
  unfold is_bootme. fold (me a) (once a) (me (attr_tried a)) (once (attr_tried a)).
  by rewrite E1, Ho, andb_false_r.
Qed.

Lemma failed_keeps_me a : me a = false -> is_bootme (attr_failed a) = is_bootme a.
Proof.
  intros Ho. pose proof (attr_failed_bits a) as (E1 & _ & _).
  unfold is_bootme. fold (me a) (me (attr_failed a)). by rewrite E1, Ho.
Qed.

Lemma track_bound w uuid n o m s : track w uuid n o m s -> 0 <= n <= 128.
Proof.
  intros [Hok [_ Hl] <- _ _ _]. apply (entries_bound w s Hok). by apply (bo_plain _ Hok).
Qed.

Lemma track_touched f w uuid n o m s s' : track w uuid n o m s -> 0 <= b_curent s < n ->
  touched f (b_curent s) (fun _ => true) s s' ->
  (let a := tattr (b_curent s) (c_table (side w s)) in is_bootme (f a) = is_bootme a) ->
  track w uuid n o m s'.
Proof.
  intros T Hc H Hm. pose proof (track_bound _ _ _ _ _ _ T) as Hn. destruct T as [H1 H2 H3 H4 H5 H6].
  pose proof (to_ctl _ _ _ _ _ H) as [_ Ec Eo _ _ _ _].
  split.
  - apply (to_ok _ _ _ _ _ H).
  - by eapply touched_in_use.
  - by rewrite (touched_entries _ _ _ _ _ _ H).
  - by rewrite Ec.
  - intros j Hj. rewrite (touched_selected _ _ _ _ _ _ _ _ H) by (done || lia).
    destruct (decide (j = b_curent s)) as [->|]; [|by apply H5].
    cbv zeta in Hm. rewrite Hm. by apply H5.
  - unfold phase. rewrite Eo, Ec. intros Hp j Hj.
    rewrite (touched_selected _ _ _ _ _ _ _ _ H) by (done || lia).
    rewrite decide_False by lia. by apply H6.
Qed.

Lemma track_like w uuid n o m s s' : track w uuid n o m s ->
  (forall v, side v s' = side v s) -> b_use s' = b_use s -> b_curent s' = b_curent s ->
  b_bootonce s' = b_bootonce s -> b_secbuf s' = b_secbuf s -> track w uuid n o m s'.
Proof.
  intros [H1 H2 H3 H4 H5 H6] Es Eu Ec Eo Eb. unfold entries, selected, phase in *.
  split; unfold entries, selected, phase; rewrite ?Es, ?Ec, ?Eo; try done.
  - apply (boot_ok_sides s); [done..|]. by rewrite Eb.
  - by apply (in_use_like w s).
Qed.

(** The entry that was picked, [i], is not both to be booted and to be booted once. *)
Definition spent w s : Prop :=
  let a := tattr (b_curent s) (c_table (side w s)) in once a = true -> me a = false.

Lemma track_found w uuid n o m s : track w uuid n o m s -> 0 <= b_curent s < n ->
  track w uuid n o m (found_state w s) /\ spent w (found_state w s) /\
  b_part (found_state w s) = b_curent s + 1 /\ b_curent (found_state w s) = b_curent s /\
  phase (found_state w s) = phase s.
Proof.
  intros T Hc. pose proof (track_bound _ _ _ _ _ _ T) as Hn. unfold found_state.
  set (s1 := set_start _ (set_part _ s)).
  assert (forall v, side v s1 = side v s) as Es
    by (intros v; unfold s1; by rewrite side_set_start, side_set_part).
  assert (track w uuid n o m s1) as T1 by (apply (track_like _ _ _ _ _ s); done).
  unfold spent. destruct (once _) eqn:Eo.
  - pose proof (both_touched attr_tried s1 (tk_ok _ _ _ _ _ _ T1)) as H.
    change (b_curent s1) with (b_curent s) in H. specialize (H ltac:(lia) attr_tried_bound).
    pose proof (to_ctl _ _ _ _ _ H) as [_ Ec Ep Et _ _ _].
    split_and!; [| |by rewrite Et|by rewrite Ec|unfold phase; by rewrite Ep].
    + apply (track_touched attr_tried _ _ _ _ _ s1); [done..|]. cbv zeta. rewrite Es.
      by apply tried_keeps_me.
    + rewrite Ec. change (b_curent s1) with (b_curent s). intros _.
      rewrite (to_attr _ _ _ _ _ H).
      rewrite (proj2 (Z.eqb_neq _ _)) by (apply (tk_use _ _ _ _ _ _ T1)). apply attr_tried_bits.
  - split_and!; [done| |done..]. rewrite Es. change (b_curent s1) with (b_curent s).
    intros E. congruence.
Qed.

Lemma track_failed w uuid n o m s : track w uuid n o m s -> 0 <= b_curent s < n -> spent w s ->
  track w uuid n o m (failed_state w s) /\ b_curent (failed_state w s) = b_curent s /\
  phase (failed_state w s) = phase s.
Proof.
  intros T Hc Hsp. pose proof (track_bound _ _ _ _ _ _ T) as Hn. unfold failed_state.
  destruct (once _) eqn:Eo; [|done].
  pose proof (both_touched attr_failed s (tk_ok _ _ _ _ _ _ T) ltac:(lia) attr_failed_bound) as H.
  pose proof (to_ctl _ _ _ _ _ H) as [_ Ec Ep _ _ _ _].
  split_and!; [|done|unfold phase; by rewrite Ep].
  apply (track_touched attr_failed _ _ _ _ _ s); [done..|]. apply failed_keeps_me. by apply Hsp.
Qed.

(** ** The next partition *)

(** [gptfind(uuid, dskp, -1)] after a first call. *)
Lemma choose_ext first ph cur n o m t o' m' t' : -1 <= cur ->
  (ph = true -> forall j, cur < j < n -> o j = o' j) -> (forall j, 0 <= j < n -> m j = m' j) ->
  (first = true -> forall j, 0 <= j < n -> t j = t' j) ->
  choose first ph cur n o m t = choose first ph cur n o' m' t'.
Proof.
  intros Hc Ho Hm Ht. unfold choose.
  rewrite (picks_ext m m' _ n) by (intros; apply Hm; destruct ph; lia).
  assert (first = true -> picks_to t 0 n = picks_to t' 0 n) as Et
    by (intros; apply picks_ext; intros; apply Ht; (done || lia)).
  assert (ph = true -> picks_to o (cur + 1) n = picks_to o' (cur + 1) n) as Eo
    by (intros; apply picks_ext; intros; apply Ho; (done || lia)).
  destruct ph, first; rewrite ?Eo, ?Et by done; done.
Qed.

Lemma track_pick w uuid n o m s i ph : track w uuid n o m s -> 0 <= i < n ->
  (ph = true -> phase s = true /\ b_curent s < i) ->
  track w uuid n o m (set_curent i (with_phase ph s)).
Proof.
  intros [H1 H2 H3 H4 H5 H6] Hi Hph. split.
  - by apply set_curent_ok, with_phase_ok.
  - apply (in_use_like w s); [done|by destruct ph|]. by rewrite side_set_curent, side_with_phase.
  - by rewrite entries_set_curent, entries_with_phase.
  - cbn. lia.
  - intros j Hj. rewrite selected_set_curent, selected_with_phase. by apply H5.
  - destruct ph; [|done]. destruct (Hph eq_refl) as [Hp Hlt]. intros _ j Hj. cbn in Hj.
    rewrite selected_set_curent, selected_with_phase. apply H6; [done|lia].
Qed.

Lemma track_none w uuid n o m s ph : track w uuid n o m s -> boot_ok (set_curent n (with_phase ph s)) /\
  in_use w (set_curent n (with_phase ph s)) /\ entries w (set_curent n (with_phase ph s)) = n.
Proof.
  intros [H1 H2 H3 _ _ _]. split_and!.
  - by apply set_curent_ok, with_phase_ok.
  - apply (in_use_like w s); [done|by destruct ph|]. by rewrite side_set_curent, side_with_phase.
  - by rewrite entries_set_curent, entries_with_phase.
Qed.

(** When no entry is left, no type is found any more. *)
Lemma wp_gptfind_none w uuid s (Q : Z -> boot -> Prop) : boot_ok s -> in_use w s ->
  b_curent s = entries w s -> (forall s', Q (-1) s') -> wp (gptfind uuid (-1)) s Q.
Proof.
  intros Hok Hu Hc HQ. destruct Hu as [Hu Hl].
  destruct (entries_bound w s Hok) as [Hn _]; [by apply (bo_plain _ Hok)|].
  apply (wp_gptfind w); [done..|lia|]. unfold choose.
  rewrite (proj2 (Z.leb_le _ _)) by lia. auto.
Qed.

Lemma wp_retry w n o m s (Q : bool -> boot -> Prop) :
  track w (GPT_ENT_TYPE DRAGONFLY_UFS1) n o m s -> 0 <= b_curent s < n -> spent w s ->
  match remaining (phase s) (b_curent s) n o m with
  | [] => forall s', Q false s'
  | i :: l => forall s', track w (GPT_ENT_TYPE DRAGONFLY_UFS1) n o m s' -> spent w s' ->
      b_curent s' = i -> 0 <= i < n -> b_part s' = i + 1 ->
      remaining (phase s') i n o m = l -> Q true s'
  end ->
  wp retry s Q.
Proof.
  intros T Hc Hsp HQ. pose proof (track_bound _ _ _ _ _ _ T) as Hn. unfold retry.
  apply wp_bind, (wp_gptbootfailed w); [apply T|apply T|lia|].
  destruct (track_failed _ _ _ _ _ _ T Hc Hsp) as (T1 & Ec & Ep).
  set (s1 := failed_state w s) in *. rewrite <- Ec, <- Ep in HQ. rewrite <- Ec in Hc.
  apply wp_bind, (wp_gptfind w); [apply T1|apply T1|lia|].
  rewrite (proj2 (Z.eqb_neq (b_curent s1) (-1))), (tk_n _ _ _ _ _ _ T1) by lia.
  rewrite (choose_ext _ _ _ _ _ _ _ o m (selected w (GPT_ENT_TYPE DRAGONFLY_UFS1) any_attr s1))
    by (lia || done || apply T1).
  match goal with |- context [choose _ _ _ _ o m ?t] =>
    pose proof (choose_remaining (phase s1) (b_curent s1) n o m t) as Hch end.
  destruct (choose _ _ _ _ o m _) as [[i ph]|].
  - destruct Hch as (_ & Hi & Hph & Hr); [lia|]. rewrite Hr in HQ. cbn [Z.eqb].
    apply wp_ret.
    assert (track w (GPT_ENT_TYPE DRAGONFLY_UFS1) n o m (set_curent i (with_phase ph s1))) as T2.
    { apply track_pick; [done..|]. intros E. by destruct (Hph E) as (? & ? & _). }
    destruct (track_found _ _ _ _ _ _ T2) as (T3 & S3 & P3 & C3 & F3); [done|].
    apply HQ; try done. rewrite F3. destruct ph; [|done].
    destruct (Hph eq_refl) as (E & _). change (phase (set_curent _ _)) with (phase s1).
    by rewrite E.
  - rewrite Hch in HQ by lia. intros ph. cbn [Z.eqb].
    destruct (track_none _ _ _ _ _ _ ph T1) as (K1 & K2 & K3).
    apply wp_bind, (wp_gptfind_none w); [done|done|by rewrite K3|]. intros s2. by apply wp_ret.
Qed.

(** ** The loop *)
Lemma wp_tries fuel w n o m s (Q : list Z -> boot -> Prop) :
  track w (GPT_ENT_TYPE DRAGONFLY_UFS1) n o m s -> 0 <= b_curent s < n -> spent w s ->
  b_part s = b_curent s + 1 ->
  (length (remaining (phase s) (b_curent s) n o m) < fuel)%nat ->
  (forall s', Q (map (fun i => i + 1) (b_curent s :: remaining (phase s) (b_curent s) n o m)) s') ->
  wp (tries fuel) s Q.
Proof.
  revert s Q. induction fuel as [|fuel IH]; intros s Q T Hc Hsp Hpart Hf HQ; [lia|].
  cbn [tries]. apply wp_bind, wp_gets, wp_bind, (wp_retry w n o m); [done..|].
  destruct (remaining (phase s) (b_curent s) n o m) as [|i l].
  - intros s'. apply wp_ret. rewrite Hpart. apply HQ.
  - intros s' T' Hsp' Hc' Hi Hp' Hr. apply wp_bind. cbn [length] in Hf. subst i.
    apply IH; [done..|rewrite Hr; lia|]. intros s2. apply wp_ret. rewrite Hpart, Hr. apply HQ.
Qed.
End tries.
