(* ===== verification/BootRead.v ===== *)
(** * BootRead: what gptboot accepts from the disk

    The specification of a copy of the GPT on a disk ([load]), and that [gptread_hdr] and
    [gptread_table] of sys/boot/common/gpt.c read exactly that. *)
From Stdlib Require Import ZArith Lia.
From stdpp Require Import base list option.
From S2P Require Import Prelude Crc32 GptIo GptRep BootGpt BootRules BootFind.
Open Scope Z_scope.

Section load.
Context {gpt : SysGpt} {laws : SysGptLaws} {bs : BootSys} {blaws : BootSysLaws} {bios : Bios}.
Implicit Types (c : copy) (s : boot) (t h d D : list Z) (w : which).

(** ** A copy on a disk *)

(** The checksum of a header is right. *)
Definition hdr_sums h : bool :=
  crc_of (take (Z.to_nat (hget hdr_size h)) (hset hdr_crc_self 0 h)) =? hget hdr_crc_self h.

Definition hdr_at D (lba : Z) : option (list Z) :=
  d ← sector D (s64 lba); Some (take sizeof_gpt_hdr d).

Definition load_hdr D (lba : Z) : option (list Z) :=
  h ← hdr_at D lba; if hdr_invalid h lba || negb (hdr_sums h) then None else Some h.

(** The sectors from [lba] on that hold [n] entries can be read. *)
Definition readable D (lba n : Z) : bool :=
  forallb (fun i => bool_decide (is_Some (sector D (lba + Z.of_nat i)))) (seq 0 (Z.to_nat ((n + 3) / 4))).

Definition tbl_at D (lba n : Z) : list Z := sub (Z.to_nat (lba * 512)) (Z.to_nat (n * 128)) D.

Definition load_tbl D h : option (list Z) :=
  let n := hget hdr_entries h in
  let lba := s64 (hget hdr_lba_table h) in
  if n =? 0 then Some []
  else if readable D lba n && (crc_of (tbl_at D lba n) =? hget hdr_crc_table h)
  then Some (tbl_at D lba n) else None.

Definition load D (lba : Z) : option (list Z * list Z) :=
  h ← load_hdr D lba; t ← load_tbl D h; Some (h, t).

(** The code can work with the header at [lba], if it looks at it at all. *)
Definition plain_at D (lba : Z) : Prop :=
  forall h, hdr_at D lba = Some h -> hdr_invalid h lba = false -> plain h.

(** ** The state while a copy is read *)
Definition shape_ok s : Prop :=
  (forall w, shape (side w s)) /\ (512 <= length (b_secbuf s))%nat /\ bytes_ok (b_secbuf s).

Record same_but w s s' : Prop := {
  sb_ctl : same_ctl s s';
  sb_disk : b_disk s' = b_disk s;
  sb_other : forall v, v <> w -> side v s' = side v s;
  sb_lba : c_lba (side w s') = c_lba (side w s);
  sb_shape : shape_ok s';
}.

Lemma read_but_refl w s : shape_ok s -> same_but w s s.
Proof. done. Qed.

Lemma read_but_trans w s1 s2 s3 : same_but w s1 s2 -> same_but w s2 s3 -> same_but w s1 s3.
Proof.
  intros [A1 A2 A3 A4 A5] [B1 B2 B3 B4 B5]. split; try done.
  - by eapply same_ctl_trans.
  - congruence.
  - intros v Hv. by rewrite B3, A3.
  - congruence.
Qed.

Lemma same_but_secbuf w d s : shape_ok s -> (length d <= length (b_secbuf s))%nat ->
  bytes_ok d -> same_but w s (with_secbuf d s).
Proof.
  intros (H1 & H2 & H3) Hd Hb. split.
  - by apply same_secbuf.
  - done.
  - intros v _. apply side_with_secbuf.
  - by rewrite side_with_secbuf.
  - split_and!; [intros v; by rewrite side_with_secbuf|by rewrite length_with_secbuf|].
    by apply bytes_ok_splice.
Qed.

Lemma same_but_side w f s : shape_ok s -> shape (f (side w s)) ->
  c_lba (f (side w s)) = c_lba (side w s) -> same_but w s (on_side w f s).
Proof.
  intros (H1 & H2) Hf Hl. split.
  - by apply same_on_side.
  - by destruct w.
  - intros v Hv. by rewrite side_on_side, decide_False.
  - by rewrite side_on_side, decide_True.
  - split; [|by destruct w]. intros v. rewrite side_on_side. case_decide; [by subst|done].
Qed.

Lemma shape_table c t : shape c -> table_ok t -> shape (set_table t c).
Proof. intros [] ?. by split. Qed.

Lemma shape_hdr c h : shape c -> bytes_ok h -> length h = sizeof_gpt_hdr -> shape (set_hdr h c).
Proof. intros [] ??. by split. Qed.

(** ** The entries of one sector *)
Lemma splice_app_next o d e (l : list Z) : (o + length d + length e <= length l)%nat ->
  splice (o + length d) e (splice o d l) = splice o (d ++ e) l.
Proof.
  intros H. apply list_eq. intros i.
  rewrite !lookup_splice by (rewrite ?length_splice, ?length_app; lia).
  rewrite length_app. repeat case_decide; try (done || lia).
  - by rewrite lookup_app_l by lia.
  - rewrite lookup_app_r by lia. f_equal. lia.
Qed.

Lemma sub_app a n m (l : list Z) : sub a n l ++ sub (a + n) m l = sub a (n + m) l.
Proof. unfold sub. rewrite <- (take_take_drop (drop a l)). by rewrite drop_drop. Qed.

Lemma secbuf_on_side w f s : b_secbuf (on_side w f s) = b_secbuf s.
Proof. by destruct w. Qed.

Lemma wp_part_loop fuel w n part nent s (Q : Z -> boot -> Prop) :
  shape_ok s -> 0 <= part <= 4 -> 0 <= nent < n -> n <= 128 ->
  4 - part < Z.of_nat fuel ->
  let k := Z.min (4 - part) (n - nent) in
  Q (nent + k) (on_side w (fun c => set_table (splice (Z.to_nat (nent * 128))
    (sub (Z.to_nat (part * 128)) (Z.to_nat (k * 128)) (b_secbuf s)) (c_table c)) c) s) ->
  wp (part_loop fuel w 4 n part nent) s Q.
Proof.
  revert part nent s. induction fuel as [|fuel IH]; intros part nent s Hs Hp Hn Hn2 Hf; [lia|].
  cbv zeta. intros HQ. cbn [part_loop]. destruct (Z.ltb_spec part 4).
  - pose proof Hs as (H1 & H2 & Hb). destruct (H1 w) as [_ _ [T1 T2]].
    apply wp_bind, wp_gets, wp_bind. rewrite ent_struct.
    eapply wp_of_opt; [apply obj_rd_ok; lia|].
    change (Z.to_nat (Z.of_nat 128)) with 128%nat. change (Z.of_nat 128) with 128.
    set (d := sub (Z.to_nat (part * 128)) 128 (b_secbuf s)).
    assert (length d = 128%nat) as Ld by (apply length_sub; lia).
    apply wp_bind, wp_table_put; [lia|lia|].
    set (t1 := splice _ d _). set (s1 := on_side w (set_table t1) s).
    assert (table_ok t1) as Ht1.
    { split; [unfold t1; apply bytes_ok_splice; [|done]; by apply bytes_ok_sub|].
      unfold t1. rewrite length_splice; lia. }
    rewrite s32_small by lia.
    assert (same_but w s s1) as Hsb by (apply same_but_side; [done|by apply shape_table|done]).
    destruct (Z.leb_spec n (nent + 1)).
    + apply wp_ret. replace (Z.min (4 - part) (n - nent)) with 1 in HQ by lia.
      by rewrite (on_side_ext w _ (set_table t1)) in HQ.
    + destruct (Z.eq_dec part 3) as [->|].
      { apply IH; try (done || lia); [apply Hsb|]. cbv zeta.
        replace (Z.min (4 - (3 + 1)) (n - (nent + 1))) with 0 by lia.
        replace (Z.min (4 - 3) (n - nent)) with 1 in HQ by lia.
        rewrite Z.add_0_r. unfold s1. rewrite on_side_on_side.
        erewrite on_side_ext; [exact HQ|]. cbv beta. cbn [set_table c_table c_hdr c_lba].
        change (sub _ (Z.to_nat (0 * 128)) _) with (@nil Z). rewrite splice_nil. done. }
      apply IH; try (done || lia); [apply Hsb|]. cbv zeta.
      set (k := Z.min (4 - (part + 1)) (n - (nent + 1))).
      replace (Z.min (4 - part) (n - nent)) with (1 + k) in HQ by lia.
      replace (nent + 1 + k) with (nent + (1 + k)) by lia.
      unfold s1. rewrite on_side_on_side.
      erewrite on_side_ext; [exact HQ|]. cbv beta. unfold set_table. cbn [c_table c_hdr c_lba].
      f_equal. unfold t1.
      rewrite secbuf_on_side.
      replace (Z.to_nat ((nent + 1) * 128)) with (Z.to_nat (nent * 128) + length d)%nat by lia.
      rewrite splice_app_next.
      * f_equal. unfold d.
        replace (Z.to_nat ((part + 1) * 128)) with (Z.to_nat (part * 128) + 128)%nat by lia.
        rewrite sub_app. f_equal. lia.
      * rewrite length_sub by lia. lia.
  - apply wp_ret. replace (Z.min (4 - part) (n - nent)) with 0 in HQ by lia.
    rewrite Z.add_0_r in HQ. rewrite (on_side_ext w _ (fun c => c)) in HQ.
    + by destruct w, s.
    + change (sub _ (Z.to_nat (0 * 128)) _) with (@nil Z). rewrite splice_nil.
      by destruct (side w s).
Qed.

(** ** The sectors of the table *)
Lemma readable_step D lba n : 0 < n ->
  readable D lba n = bool_decide (is_Some (sector D lba)) && readable D (lba + 1) (n - 4).
Proof.
  intros Hn. unfold readable.
  replace (Z.to_nat ((n + 3) / 4)) with (S (Z.to_nat ((n - 4 + 3) / 4))) by dlia.
  cbn [seq forallb]. rewrite Z.add_0_r. f_equal. rewrite <- seq_shift.
  generalize (seq 0 (Z.to_nat ((n - 4 + 3) / 4))) as l. induction l as [|x l IH]; [done|].
  cbn [map forallb]. rewrite IH. by replace (lba + Z.of_nat (S x)) with (lba + 1 + Z.of_nat x) by lia.
Qed.

Lemma sector_sub D lba d k : sector D lba = Some d -> (k <= 512)%nat ->
  take k d = sub (Z.to_nat (lba * 512)) k D.
Proof.
  unfold sector, DEV_BSIZE. intros H Hk. destruct (_ && _); [|done]. injection H as <-.
  unfold sub. rewrite take_take. f_equal. lia.
Qed.

Lemma take_splice o d (l : list Z) k : (o + length d <= length l)%nat -> k = (o + length d)%nat ->
  take k (splice o d l) = take o l ++ d.
Proof.
  intros H ->. unfold splice. rewrite app_assoc. apply take_app_length'.
  rewrite length_app, length_take. lia.
Qed.

Definition table_in w s s' : Prop := same_but w s s' /\ c_hdr (side w s') = c_hdr (side w s).

Lemma wp_table_loop fuel w n lba j s (Q : option Z -> boot -> Prop) :
  shape_ok s -> bytes_ok (b_disk s) -> 0 <= lba -> 0 <= j -> 4 * j < n -> n <= 128 ->
  n - 4 * j < Z.of_nat fuel ->
  take (Z.to_nat (4 * j * 128)) (c_table (side w s)) = tbl_at (b_disk s) lba (4 * j) ->
  (forall s', table_in w s s' ->
    if readable (b_disk s) (lba + j) (n - 4 * j)
    then take (Z.to_nat (n * 128)) (c_table (side w s')) = tbl_at (b_disk s) lba n -> Q (Some n) s'
    else Q None s') ->
  wp (table_loop fuel w 4 n (lba + j) (4 * j)) s Q.
Proof.
  revert j s. induction fuel as [|fuel IH]; intros j s Hs HD Hlba Hj Hn Hn2 Hf Ht HQ; [lia|].
  pose proof Hs as (H1 & H2 & H3). cbn [table_loop].
  rewrite readable_step in HQ by lia.
  apply wp_bind, wp_drvread; [done|].
  destruct (sector (b_disk s) (lba + j)) as [d|] eqn:Ed; cycle 1.
  { cbn [Z.eqb negb]. apply wp_ret. exact (HQ s (conj (read_but_refl w s Hs) eq_refl)). }
  rewrite (bool_decide_eq_true_2 (is_Some (Some d))) in HQ by done. cbn [andb Z.eqb negb] in *.
  pose proof (sector_length _ _ _ Ed) as Ld. pose proof (sector_bytes _ _ _ HD Ed) as Bd.
  assert (length d <= length (b_secbuf s))%nat as Hd by lia.
  pose proof (same_but_secbuf w d s Hs Hd Bd) as Hsb.
  apply wp_bind, wp_part_loop; [apply Hsb|lia..|]. cbv zeta. rewrite s32_small by lia.
  set (k := Z.min (4 - 0) (n - 4 * j)). change (Z.to_nat (0 * 128)) with 0%nat.
  assert (0 < k <= 4 /\ 4 * j + k <= n /\ (k = 4 \/ 4 * j + k = n)) as (K1 & K2 & K3)
    by (unfold k; lia).
  set (e := sub 0 (Z.to_nat (k * 128)) (b_secbuf (with_secbuf d s))).
  assert (e = sub (Z.to_nat ((lba + j) * 512)) (Z.to_nat (k * 128)) (b_disk s)) as Ee.
  { rewrite <- (sector_sub _ _ d) by (done || lia). unfold e, sub. cbn [drop with_secbuf b_secbuf set_secbuf].
    change (splice 0 d (b_secbuf s)) with (d ++ drop (length d) (b_secbuf s)).
    rewrite drop_0. apply take_app_le. lia. }
  assert (length e = Z.to_nat (k * 128)) as Le.
  { unfold e. apply length_sub. rewrite length_with_secbuf; lia. }
  destruct (H1 w) as [_ _ Hok]. pose proof Hok as [T1 T2].
  set (t' := splice (Z.to_nat (4 * j * 128)) e (c_table (side w s))).
  assert (table_ok t') as Ht'.
  { split; [|unfold t'; rewrite length_splice; lia]. apply bytes_ok_splice; [|done].
    rewrite Ee. by apply bytes_ok_sub. }
  set (s1 := on_side w _ _).
  assert (S1 : s1 = on_side w (set_table t') (with_secbuf d s)).
  { apply on_side_ext. by rewrite side_with_secbuf. }
  assert (table_in w s s1) as [Hin1 Hin2].
  { rewrite S1. split.
    - eapply read_but_trans; [exact Hsb|]. apply same_but_side; [apply Hsb| |done].
      rewrite side_with_secbuf. by apply shape_table.
    - by rewrite side_on_side, decide_True, side_with_secbuf. }
  assert (C1 : take (Z.to_nat ((4 * j + k) * 128)) (c_table (side w s1)) =
    tbl_at (b_disk s) lba (4 * j + k)).
  { rewrite S1, side_on_side, decide_True by done. cbn [set_table c_table]. unfold t'.
    rewrite take_splice by lia. rewrite Ht, Ee. unfold tbl_at.
    replace (Z.to_nat ((lba + j) * 512)) with
      (Z.to_nat (lba * 512) + Z.to_nat (4 * j * 128))%nat by lia.
    rewrite sub_app. f_equal. lia. }
  destruct (Z.leb_spec n (4 * j + k)).
  - apply wp_ret. assert (4 * j + k = n) as Ek by lia. rewrite Ek in *.
    specialize (HQ s1 (conj Hin1 Hin2)).
    assert (readable (b_disk s) (lba + j + 1) (n - 4 * j - 4) = true) as E.
    { unfold readable. replace (Z.to_nat _) with 0%nat by dlia. done. }
    rewrite E in HQ. by apply HQ.
  - assert (k = 4) as Ek by lia. clearbody k. subst k.
    replace (lba + j + 1) with (lba + (j + 1)) in * by lia.
    replace (4 * j + 4) with (4 * (j + 1)) in * by lia.
    pose proof (sb_disk _ _ _ Hin1) as E1.
    apply IH; rewrite ?E1; [apply Hin1|done..|lia|lia|lia|lia|done|].
    intros s2 [Hin3 Hin4]. specialize (HQ s2).
    replace (n - 4 * j - 4) with (n - 4 * (j + 1)) in HQ by lia.
    apply HQ. split; [by eapply read_but_trans|]. congruence.
Qed.

(** ** The header *)
Lemma hset_hget f h : bytes_ok h -> (GPT_MIN_HDR_SIZE <= length h)%nat -> hset f (hget f h) h = h.
Proof.
  intros Hb Hl. pose proof (hdr_room f h Hl) as Hr. unfold hset, hget, le_set, le_get.
  rewrite <- (length_sub (off_hdr f) (width_hdr f) h) at 1 by done.
  rewrite le_enc_dec by (by apply bytes_ok_sub). by apply splice_sub.
Qed.

Lemma wp_gptread_hdr w lba s (Q : Z -> boot -> Prop) :
  shape_ok s -> bytes_ok (b_disk s) -> plain_at (b_disk s) lba ->
  (forall s', same_but w s s' ->
    match load_hdr (b_disk s) lba with
    | Some h => c_hdr (side w s') = h -> plain h -> Q 0 s'
    | None => Q (-1) s'
    end) ->
  wp (gptread_hdr w lba) s Q.
Proof.
  intros Hs HD Hp HQ. pose proof Hs as (H1 & H2 & H3). unfold gptread_hdr.
  unfold load_hdr in HQ. specialize (Hp : forall h, _ -> _). unfold hdr_at in *.
  apply wp_bind, wp_drvread; [done|].
  destruct (sector (b_disk s) (s64 lba)) as [d|] eqn:Ed; cycle 1.
  { cbn [Z.eqb negb]. apply wp_ret. exact (HQ s (read_but_refl w s Hs)). }
  cbn [mbind option_bind Z.eqb negb] in *.
  pose proof (sector_length _ _ _ Ed) as Ld. pose proof (sector_bytes _ _ _ HD Ed) as Bd.
  assert (length d <= length (b_secbuf s))%nat as Hd by lia.
  pose proof (same_but_secbuf w d s Hs Hd Bd) as Hsb. pose proof hdr_struct as Hst.
  apply wp_bind, wp_gets, wp_bind.
  eapply wp_of_opt; [apply obj_rd_ok; rewrite ?length_with_secbuf by done; lia|].
  set (h := take sizeof_gpt_hdr d) in *.
  assert (E : sub (Z.to_nat 0) (Z.to_nat (Z.of_nat sizeof_gpt_hdr)) (b_secbuf (with_secbuf d s)) = h).
  { rewrite Nat2Z.id. change (b_secbuf _) with (d ++ drop (length d) (b_secbuf s)).
    apply take_app_le. lia. }
  rewrite E. assert (bytes_ok h) as Hb by (by apply Forall_take).
  assert (length h = sizeof_gpt_hdr) as Lh by (unfold h; rewrite length_take; lia).
  assert (forall g, bytes_ok g -> length g = sizeof_gpt_hdr ->
    same_but w s (on_side w (set_hdr g) (with_secbuf d s))) as Hset.
  { intros g G1 G2. eapply read_but_trans; [exact Hsb|]. apply same_but_side; [apply Hsb| |done].
    rewrite side_with_secbuf. by apply shape_hdr. }
  apply wp_bind, wp_modify. destruct (hdr_invalid h lba) eqn:Ei; cbn [orb] in HQ.
  { apply wp_ret, HQ, Hset; done. }
  destruct (Hp h eq_refl Ei) as [P1 P2 P3]. cbv zeta.
  apply wp_bind, wp_put_hdr, wp_bind, wp_gets, wp_bind, wp_hdr_field.
  rewrite !on_side_on_side. rewrite (on_side_ext w _ (set_hdr (hset hdr_crc_self 0 h))) by done.
  rewrite side_on_side, decide_True by done. cbn [set_hdr c_hdr].
  rewrite hget_hset_ne by (done || lia).
  apply wp_bind. eapply wp_of_opt.
  { apply crc32_of; [by apply bytes_ok_hset|]. rewrite length_hset by lia. lia. }
  fold (hdr_sums h). destruct (hdr_sums h) eqn:Es; cbn [negb] in *.
  - apply wp_bind, wp_put_hdr, wp_ret. rewrite on_side_on_side.
    rewrite (on_side_ext w _ (set_hdr h)).
    + apply HQ; [by apply Hset|by rewrite side_on_side, decide_True|done].
    + cbn [set_hdr c_hdr]. rewrite hset_hset, hset_hget by (done || lia). done.
  - apply wp_ret, HQ, Hset; [by apply bytes_ok_hset|]. by rewrite length_hset by lia.
Qed.

(** ** The table, and both *)
Lemma wp_gptread_table w s (Q : Z -> boot -> Prop) :
  shape_ok s -> bytes_ok (b_disk s) -> plain (c_hdr (side w s)) ->
  (forall s', table_in w s s' ->
    match load_tbl (b_disk s) (c_hdr (side w s)) with
    | Some t => take (Z.to_nat (entries w s * 128)) (c_table (side w s')) = t -> Q 0 s'
    | None => Q (-1) s'
    end) ->
  wp (gptread_table w) s Q.
Proof.
  intros Hs HD [P1 P2 P3] HQ. pose proof Hs as (H1 & H2 & H3). destruct (H1 w) as [Bh _ _].
  pose proof (hget_bound hdr_entries _ Bh) as Hn. unfold gptread_table, load_tbl, entries in *.
  set (n := hget hdr_entries (c_hdr (side w s))) in *.
  apply wp_bind, wp_hdr_field. fold n. destruct (Z.eqb_spec n 0) as [E|E].
  { apply wp_ret. apply (HQ s (conj (read_but_refl w s Hs) eq_refl)). rewrite E. done. }
  apply wp_bind, wp_hdr_field, wp_bind, wp_hdr_field, wp_bind. rewrite P1.
  change (DEV_BSIZE / 128) with 4. set (lba := s64 _) in *.
  destruct (Z.lt_ge_cases lba 0) as [Hneg|Hpos].
  { assert (sector (b_disk s) lba = None) as En.
    { unfold sector. by rewrite (proj2 (Z.leb_gt 0 lba)). }
    rewrite readable_step, En in HQ by lia. cbn [table_loop].
    apply wp_bind, wp_drvread; [done|]. rewrite En. cbn [Z.eqb negb]. apply wp_ret, wp_ret.
    exact (HQ s (conj (read_but_refl w s Hs) eq_refl)). }
  rewrite <- (Z.add_0_r lba). change 0 with (4 * 0) at 3.
  apply wp_table_loop; [done|done|done|lia..|done|]. rewrite !Z.mul_0_r, Z.add_0_r, Z.sub_0_r.
  intros s' Hin. specialize (HQ s' Hin). destruct Hin as [Hin Hh].
  destruct (readable _ _ _); cbn [andb] in HQ; [|by apply wp_ret].
  intros Ht. apply wp_bind, wp_gets, wp_bind.
  destruct (proj1 (sb_shape _ _ _ Hin) w) as [_ _ [T1 T2]].
  eapply wp_of_opt; [apply crc32_of; [done|rewrite u32_small; lia]|].
  rewrite u32_small, Ht by lia. apply wp_bind, wp_hdr_field. rewrite Hh.
  destruct (_ =? _); cbn [negb]; apply wp_ret; [by apply HQ|done].
Qed.

Lemma wp_read_copy w lba s (Q : bool -> boot -> Prop) :
  shape_ok s -> bytes_ok (b_disk s) -> plain_at (b_disk s) lba ->
  (forall s', same_but w s s' ->
    match load (b_disk s) lba with
    | Some (h, t) => c_hdr (side w s') = h -> plain h ->
        take (Z.to_nat (entries w s' * 128)) (c_table (side w s')) = t -> Q true s'
    | None => Q false s'
    end) ->
  wp (read_copy w lba) s Q.
Proof.
  intros Hs HD Hp HQ. unfold read_copy. apply wp_bind, wp_gptread_hdr; [done..|].
  intros s1 Hin1. unfold load in HQ.
  destruct (load_hdr (b_disk s) lba) as [h|]; cbn [mbind option_bind] in HQ.
  - intros Hh Hpl. cbn [Z.eqb negb]. pose proof (sb_disk _ _ _ Hin1) as Ed.
    apply wp_bind, wp_gptread_table; [apply Hin1|by rewrite Ed|by rewrite Hh|].
    rewrite Ed, Hh. intros s2 [Hin2 Hh2]. specialize (HQ s2 (read_but_trans _ _ _ _ Hin1 Hin2)).
    destruct (load_tbl (b_disk s) h) as [t|]; cbn [mbind option_bind] in HQ.
    + intros Ht. apply wp_ret, HQ; [congruence|done|]. unfold entries in *. by rewrite Hh2.
    + by apply wp_ret.
  - apply wp_ret. by apply HQ.
Qed.
End load.
