(* ===== verification/BootSync.v ===== *)
(** * BootSync: the copies in memory and on the disk

    A copy read from the disk stays what the disk holds ([synced]): [gptupdate] and
    [gptbootconv] write what they change.  [gptbootconv] is [conv_table] on the table. *)
From Stdlib Require Import ZArith Lia.
From stdpp Require Import base list option.
From S2P Require Import Prelude Crc32 GptIo GptRep BootGpt BootRules BootFind BootRead.
Open Scope Z_scope.

Section sync.
Context {gpt : SysGpt} {laws : SysGptLaws} {bs : BootSys} {blaws : BootSysLaws} {bios : Bios}.
Implicit Types (c : copy) (s : boot) (t h d D : list Z) (w : which) (P : Z -> Prop).

(** ** Disks that differ in some sectors only *)
Definition disk_but P D D' : Prop :=
  length D' = length D /\ forall i, ~ P (Z.of_nat i / 512) -> D' !! i = D !! i.

Lemma disk_but_refl P D : disk_but P D D.
Proof. done. Qed.

Lemma disk_but_trans P D1 D2 D3 : disk_but P D1 D2 -> disk_but P D2 D3 -> disk_but P D1 D3.
Proof. intros [L1 H1] [L2 H2]. split; [congruence|]. intros i Hi. by rewrite H2, H1. Qed.

Lemma disk_but_mono P P' D D' : disk_but P D D' -> (forall x, P x -> P' x) -> disk_but P' D D'.
Proof. intros [L H] HP. split; [done|]. intros i Hi. apply H. auto. Qed.

Lemma disk_but_wrote lba d s : length d = 512%nat ->
  disk_but (fun x => x = lba) (b_disk s) (b_disk (wrote_sector lba d s)).
Proof.
  intros Hd. unfold wrote_sector, on_disk_lba, DEV_BSIZE. destruct (_ && _) eqn:E; [|done].
  zbool. cbn. split; [apply length_splice; lia|]. intros i Hi. rewrite lookup_splice by lia.
  repeat case_decide; [done| |done]. exfalso. apply Hi. dlia.
Qed.

(** A stretch of sectors that is left alone. *)
Lemma disk_but_sub P D D' a n : disk_but P D D' ->
  (forall i, a <= i < a + n -> ~ P (i / 512)) -> 0 <= a ->
  sub (Z.to_nat a) (Z.to_nat n) D' = sub (Z.to_nat a) (Z.to_nat n) D.
Proof.
  intros [L H] HP Ha. apply list_eq. intros i. rewrite !lookup_sub. case_decide; [|done].
  apply H. rewrite Nat2Z.inj_add, Z2Nat.id by done. apply HP. lia.
Qed.

(** What a sector holds after it was written. *)
Lemma wrote_sector_sub lba d s : length d = 512%nat -> on_disk_lba lba s && bios_write lba = true ->
  sub (Z.to_nat (lba * 512)) 512 (b_disk (wrote_sector lba d s)) = d.
Proof.
  intros Hd Hok. unfold wrote_sector. rewrite Hok. unfold on_disk_lba, DEV_BSIZE in *. zbool.
  cbn. rewrite <- Hd at 1. apply sub_splice_same. lia.
Qed.

(** ** Where a copy is *)
Lemma s64_nonneg u : 0 <= u < 2 ^ 64 -> 0 <= s64 u -> s64 u = u.
Proof.
  intros Hu Hs. destruct (Z.lt_ge_cases u (2 ^ 63)); [apply s64_small; lia|].
  unfold s64 in *. rewrite <- (Z.mod_add _ (-1)) in Hs by lia.
  rewrite Z.mod_small in Hs; lia.
Qed.

Definition c_self c : Z := s64 (hget hdr_lba_self (c_hdr c)).
Definition c_tlba c : Z := s64 (hget hdr_lba_table (c_hdr c)).
Definition c_n c : Z := hget hdr_entries (c_hdr c).

(** The sectors of its table and of its header. *)
Definition tbl_own c (x : Z) : Prop := c_tlba c <= x < c_tlba c + c_n c / 4.
Definition own c (x : Z) : Prop := x = c_self c \/ tbl_own c x.

(** They can be written, and the header is not among the sectors of the table. *)
Record placed D c : Prop := {
  pc_tlba : 0 <= c_tlba c;
  pc_apart : ~ tbl_own c (c_self c);
  pc_full : c_n c mod 4 = 0;
  pc_disk : Z.of_nat (length D) < 2 ^ 62;
  pc_room : forall x, own c x -> 0 <= x /\ (x + 1) * 512 <= Z.of_nat (length D) /\
    bios_write x = true;
}.

Definition tbl_synced D c : Prop :=
  tbl_at D (c_tlba c) (c_n c) = take (Z.to_nat (c_n c * 128)) (c_table c).

(** The disk holds the copy, with its checksums. *)
Record synced D c : Prop := {
  sy_tbl : tbl_synced D c;
  sy_hdr : sub (Z.to_nat (c_self c * 512)) (Z.to_nat (hget hdr_size (c_hdr c))) D =
    take (Z.to_nat (hget hdr_size (c_hdr c))) (c_hdr c);
  sy_sum : hdr_sums (c_hdr c) = true;
  sy_crc : c_n c <> 0 -> crc_of (take (Z.to_nat (c_n c * 128)) (c_table c)) = hget hdr_crc_table (c_hdr c);
}.

(** The fields other than the checksums. *)
Definition like_hdr c c' : Prop := forall f, f <> hdr_crc_table -> f <> hdr_crc_self ->
  hget f (c_hdr c') = hget f (c_hdr c).

Lemma like_place c c' : like_hdr c c' -> c_self c' = c_self c /\ c_tlba c' = c_tlba c /\ c_n c' = c_n c.
Proof. intros H. unfold c_self, c_tlba, c_n. by rewrite !H. Qed.

Lemma placed_like D D' c c' : placed D c -> like_hdr c c' -> length D' = length D -> placed D' c'.
Proof.
  intros [H1 H2 H3 H0 H4] Hl Hd. destruct (like_place _ _ Hl) as (E1 & E2 & E3).
  unfold own, tbl_own in *. split; unfold own, tbl_own; rewrite ?E1, ?E2, ?E3, ?Hd; try done.
Qed.

(** Writes elsewhere do not matter. *)
Lemma synced_but P D D' c : synced D c -> placed D c -> shape c -> plain (c_hdr c) ->
  disk_but P D D' -> (forall x, own c x -> ~ P x) -> synced D' c.
Proof.
  intros [S1 S2 S3 S4] [L1 L2 L3 L0 L4] Hs [P1 P2 P3] Hb HP.
  assert (0 <= c_self c) as Hself by (apply L4; by left). destruct Hs as [Hh _ _].
  pose proof (hget_bound hdr_entries _ Hh) as Hn. fold (c_n c) in *.
  split; [|rewrite <- S2|done..].
  - unfold tbl_synced in *. rewrite <- S1. unfold tbl_at. eapply disk_but_sub; [done| |lia].
    intros i Hi. apply HP. right. unfold tbl_own. dlia.
  - eapply disk_but_sub; [done| |lia]. intros i Hi. apply HP. left.
    pose proof hdr_struct. dlia.
Qed.

(** ** Writing a sector of the table *)
Definition same_sectors (j : Z) t t' : Prop :=
  length t' = length t /\ forall i, Z.of_nat i / 512 <> j -> t' !! i = t !! i.

Lemma same_sectors_trans j t1 t2 t3 : same_sectors j t1 t2 -> same_sectors j t2 t3 -> same_sectors j t1 t3.
Proof. intros [L1 H1] [L2 H2]. split; [congruence|]. intros i Hi. by rewrite H2, H1. Qed.

Lemma tset_sectors i v t : table_ok t -> 0 <= i < 128 -> same_sectors (i / 4) t (tset i v t).
Proof.
  intros Ht Hi. pose proof (tset_room i t Ht Hi) as Hr. pose proof (tset_ok i v t Ht Hi) as [_ L].
  destruct Ht as [_ L0]. split; [congruence|]. intros p Hp. unfold tset.
  pose proof (field_room ent_attr) as Hf. cbn [width_ent] in Hf.
  rewrite lookup_splice; rewrite length_le_enc; [|done].
  repeat case_decide; [done| |done]. exfalso. apply Hp. dlia.
Qed.

Lemma tbl_at_write D lba n j t t' : 0 <= lba -> 0 <= j -> 4 * (j + 1) <= n -> n <= 128 ->
  length t = Z.to_nat (128 * 128) -> lba * 512 + n * 128 <= Z.of_nat (length D) ->
  tbl_at D lba n = take (Z.to_nat (n * 128)) t -> same_sectors j t t' ->
  tbl_at (splice (Z.to_nat ((lba + j) * 512)) (sub (Z.to_nat (j * 512)) 512 t') D) lba n =
  take (Z.to_nat (n * 128)) t'.
Proof.
  intros Hl Hj Hjn Hn Lt HD E [L' Hs]. apply list_eq. intros i. unfold tbl_at in *.
  assert (length (sub (Z.to_nat (j * 512)) 512 t') = 512%nat) as Ld by (apply length_sub; lia).
  rewrite lookup_sub. case_decide as Hi; [|by rewrite lookup_take_ge by lia].
  rewrite lookup_take_lt by done. rewrite lookup_splice by lia. rewrite Ld.
  assert (Hout : Z.of_nat i / 512 <> j -> D !! (Z.to_nat (lba * 512) + i)%nat = t' !! i).
  { intros Hne. rewrite Hs by done. apply (f_equal (fun l => l !! i)) in E.
    rewrite lookup_sub, decide_True, lookup_take_lt in E by done. exact E. }
  repeat case_decide.
  - apply Hout. dlia.
  - rewrite lookup_sub, decide_True by lia. f_equal. lia.
  - apply Hout. dlia.
Qed.

(** ** Writing the header, and the update of an entry *)
Lemma seal_like c : shape c -> like_hdr c (set_hdr (seal (c_hdr c) (c_table c)) c).
Proof. intros Hs f H1 H2. apply seal_get; [done..|]. by apply hdr_min. Qed.

Lemma c_n_bound c : shape c -> plain (c_hdr c) -> 0 <= c_n c <= 128.
Proof. intros [Hh _ _] [_ P _]. pose proof (hget_bound hdr_entries _ Hh). unfold c_n. lia. Qed.

Lemma hdr_sector_take h : (Z.to_nat (hget hdr_size h) <= length h)%nat ->
  take (Z.to_nat (hget hdr_size h)) (hdr_sector h) = take (Z.to_nat (hget hdr_size h)) h.
Proof. intros. unfold hdr_sector. apply take_app_length'. rewrite length_take. lia. Qed.

Lemma can_write D s c x : placed D c -> own c x -> length (b_disk s) = length D ->
  on_disk_lba x s && bios_write x = true.
Proof.
  intros Hp Hx HD. destruct (pc_room _ _ Hp x Hx) as (H1 & H2 & ->).
  unfold on_disk_lba, DEV_BSIZE. rewrite HD.
  by rewrite (proj2 (Z.leb_le _ _) H1), (proj2 (Z.leb_le _ _) H2).
Qed.

Lemma hdr_written_ok w s : boot_ok s -> plain (c_hdr (side w s)) -> boot_ok (hdr_written w s).
Proof.
  intros Hok Hp. pose proof (hdr_written_ctl w s Hok Hp) as Hc. destruct Hok as [H1 H2 H3].
  split; [intros v|intros v|by rewrite (sc_secbuf _ _ Hc)]; rewrite hdr_written_side;
    case_decide; try apply H2.
  - by apply seal_shape.
  - done.
  - subst v. intros _. by apply plain_seal.
Qed.

Lemma hdr_written_disk w s : boot_ok s -> plain (c_hdr (side w s)) ->
  disk_but (fun x => x = c_self (side w s)) (b_disk s) (b_disk (hdr_written w s)).
Proof.
  intros [H1 _ _] Hp. pose proof (seal_shape _ (H1 w)) as Hs'.
  destruct (like_place _ _ (seal_like _ (H1 w))) as (F1 & _ & _).
  pose proof (length_hdr_sector _ Hs' (plain_seal _ (H1 w) Hp)) as L. cbn [c_hdr set_hdr] in L.
  pose proof (disk_but_wrote (c_self (side w s)) _ (with_secbuf (hdr_sector
    (seal (c_hdr (side w s)) (c_table (side w s)))) (seal_side w s)) L) as Hb.
  assert (b_disk (with_secbuf (hdr_sector (seal (c_hdr (side w s)) (c_table (side w s))))
    (seal_side w s)) = b_disk s) as D1 by (by destruct w).
  rewrite D1 in Hb. unfold hdr_written.
  change (s64 (hget hdr_lba_self (seal (c_hdr (side w s)) (c_table (side w s))))) with
    (c_self (set_hdr (seal (c_hdr (side w s)) (c_table (side w s))) (side w s))).
  by rewrite F1.
Qed.

Lemma wrote_bytes lba d s : bytes_ok d -> bytes_ok (b_disk s) -> bytes_ok (b_disk (wrote_sector lba d s)).
Proof. intros. unfold wrote_sector. destruct (_ && _); [by apply bytes_ok_splice|done]. Qed.

Lemma hdr_written_bytes w s : boot_ok s -> bytes_ok (b_disk s) -> bytes_ok (b_disk (hdr_written w s)).
Proof.
  intros [H1 _ _] HD. destruct (seal_shape _ (H1 w)) as [Hb _ _]. cbn [c_hdr set_hdr] in Hb.
  apply wrote_bytes; [|by destruct w]. apply Forall_app.
  split; [by apply Forall_take|by apply Forall_replicate].
Qed.

Lemma updated_bytes w s : boot_ok s -> bytes_ok (b_disk s) -> bytes_ok (b_disk (updated w s)).
Proof.
  intros Hok HD. destruct (bo_shape _ Hok w) as [_ _ [Hb _]].
  assert (bytes_ok (ents_sector w (b_curent s / 4) s)) as Hd by by apply bytes_ok_sub.
  unfold updated. set (s1 := wrote_sector _ _ _).
  assert (bytes_ok (b_disk s1)) as H1 by by apply wrote_bytes.
  destruct (_ && _); [|done]. unfold hdr_written, s1 in *. rewrite side_wrote, side_with_secbuf.
  apply wrote_bytes; [|by destruct w]. destruct (seal_shape _ (bo_shape _ Hok w)) as [Hh _ _].
  apply Forall_app. split; [by apply Forall_take|by apply Forall_replicate].
Qed.

Lemma hdr_written_sync w s : boot_ok s -> plain (c_hdr (side w s)) ->
  placed (b_disk s) (side w s) -> tbl_synced (b_disk s) (side w s) ->
  disk_but (fun x => x = c_self (side w s)) (b_disk s) (b_disk (hdr_written w s)) /\
  synced (b_disk (hdr_written w s)) (side w (hdr_written w s)).
Proof.
  intros Hok Hp Hpl Ht. pose proof (hdr_written_disk w s Hok Hp) as Hb.
  pose proof Hok as [H1 _ _]. pose proof (H1 w) as Hs. pose proof (seal_like _ Hs) as Hlike. pose proof (plain_half _ Hs Hp) as Hh.
  pose proof (seal_sealed _ _ Hh) as [E1 E2]. pose proof (plain_seal _ Hs Hp) as [P1 P2 P3].
  pose proof (c_n_bound _ Hs Hp) as Hn. pose proof (hdr_min _ Hs) as Hmin. pose proof hdr_struct as Hst.
  rewrite hdr_written_side, decide_True by done. unfold hdr_written in *.
  set (h := seal (c_hdr (side w s)) (c_table (side w s))) in *.
  set (c' := set_hdr h (side w s)) in *. destruct (like_place _ _ Hlike) as (F1 & F2 & F3).
  assert (hget hdr_size h = hget hdr_size (c_hdr (side w s))) as Esz by by apply seal_get.
  assert (length h = sizeof_gpt_hdr) as Lh by (unfold h; rewrite seal_length by done; apply Hs).
  assert (shape c') as Hs' by (apply shape_hdr; [done|by apply seal_bytes, Hs|done]).
  assert (length (hdr_sector h) = 512%nat) as L by (apply (length_hdr_sector c'); done).
  set (s1 := with_secbuf (hdr_sector h) (seal_side w s)).
  assert (b_disk s1 = b_disk s) as D1 by (unfold s1; by destruct w).
  fold s1 in Hb. change (s64 (hget hdr_lba_self h)) with (c_self c') in *. rewrite F1 in *.
  assert (on_disk_lba (c_self (side w s)) s1 && bios_write (c_self (side w s)) = true) as Hcan.
  { eapply can_write; [exact Hpl|by left|by rewrite D1]. }
  split; [done|]. destruct Hpl as [L1 L2 L3 L0 L4].
  split; cbn [c_hdr c_table c' set_hdr]; unfold tbl_synced; fold c'; rewrite ?F1, ?F2, ?F3.
  - change (c_table c') with (c_table (side w s)). rewrite <- Ht. unfold tbl_at. eapply disk_but_sub; [done| |lia]. intros i Hi Ei. apply L2.
    unfold tbl_own. dlia.
  - rewrite <- hdr_sector_take by lia. rewrite <- (wrote_sector_sub (c_self (side w s)) (hdr_sector h) s1) at 2 by done.
    unfold sub. rewrite take_take. f_equal. lia.
  - unfold hdr_sums. by rewrite E2, Z.eqb_refl.
  - intros _. rewrite E1. unfold h. rewrite seal_tbl_bytes by done. unfold tbl_bytes.
    rewrite (pl_entsz _ Hp), u32_small by (fold (c_n (side w s)); lia). done.
Qed.

Lemma updated_sync w s t0 : boot_ok s -> plain (c_hdr (side w s)) -> 0 <= b_curent s < c_n (side w s) ->
  placed (b_disk s) (side w s) -> length t0 = Z.to_nat (128 * 128) ->
  tbl_at (b_disk s) (c_tlba (side w s)) (c_n (side w s)) =
    take (Z.to_nat (c_n (side w s) * 128)) t0 ->
  same_sectors (b_curent s / 4) t0 (c_table (side w s)) ->
  disk_but (own (side w s)) (b_disk s) (b_disk (updated w s)) /\
  synced (b_disk (updated w s)) (side w (updated w s)).
Proof.
  intros Hok Hp Hc Hpl L0 E0 Hsec. pose proof Hok as [H1 _ Hsb]. pose proof (H1 w) as Hs.
  pose proof (c_n_bound _ Hs Hp) as Hn. pose proof (pc_full _ _ Hpl) as Hfull.
  pose proof (pc_tlba _ _ Hpl) as Hl. set (c := side w s) in *. set (j := b_curent s / 4) in *.
  assert (0 <= j /\ 4 * (j + 1) <= c_n c) as [J1 J2] by (unfold j; dlia).
  assert (own c (c_tlba c + j)) as Hown by (right; unfold tbl_own; dlia).
  assert (c_tlba c * 512 + c_n c * 128 <= Z.of_nat (length (b_disk s))) as Hroom.
  { destruct (pc_room _ _ Hpl (c_tlba c + c_n c / 4 - 1)) as (_ & R & _).
    - right. unfold tbl_own. dlia.
    - dlia. }
  assert (s64 (j + hget hdr_lba_table (c_hdr c)) = c_tlba c + j) as Elba.
  { destruct Hs as [Hh _ _]. pose proof (hget_bound hdr_lba_table _ Hh) as Hb. fold c in Hb.
    unfold c_tlba in *. rewrite (s64_nonneg (hget hdr_lba_table (c_hdr c))) in * by done.
    apply pc_disk in Hpl. rewrite s64_small; lia. }
  unfold updated. fold c j. rewrite Elba. set (d := ents_sector w j s).
  assert (length d = 512%nat) as Ld.
  { unfold d, ents_sector. fold c. apply length_sub. destruct Hs as [_ _ [_ ->]]. lia. }
  assert (on_disk_lba (c_tlba c + j) s && bios_write (c_tlba c + j) = true) as Hcan
    by (by eapply can_write).
  rewrite Hcan. set (s1 := wrote_sector (c_tlba c + j) d (with_secbuf d s)).
  assert (side w s1 = c) as Ec by (unfold s1; by rewrite side_wrote, side_with_secbuf).
  pose proof (disk_but_wrote (c_tlba c + j) d (with_secbuf d s) Ld) as Hb1. fold s1 in Hb1.
  change (b_disk (with_secbuf d s)) with (b_disk s) in Hb1.
  assert (boot_ok s1) as Hok1.
  { apply (boot_ok_sides s); [done| |].
    - intros v. unfold s1. by rewrite side_wrote, side_with_secbuf.
    - unfold s1. rewrite (sc_secbuf _ _ (same_wrote _ _ _ Ld)). apply length_with_secbuf. lia. }
  assert (tbl_synced (b_disk s1) (side w s1)) as Ht1.
  { rewrite Ec. unfold tbl_synced, s1, wrote_sector.
    change (on_disk_lba _ (with_secbuf d s)) with (on_disk_lba (c_tlba c + j) s). rewrite Hcan.
    unfold DEV_BSIZE. cbn [b_disk set_disk with_secbuf set_secbuf].
    eapply tbl_at_write; [done..|lia|exact L0|done|done|done]. }
  destruct (hdr_written_sync w s1) as [Hb2 Hsy]; [done|by rewrite Ec| |done|].
  - rewrite Ec. by apply (placed_like (b_disk s) _ c); [|intros ???|apply Hb1].
  - split; [|done]. rewrite Ec in Hb2.
    eapply disk_but_trans; (eapply disk_but_mono; [eassumption|]); intros x ->; [done|by left].
Qed.

(** ** The two copies *)
Record in_sync s : Prop := {
  is_bytes : bytes_ok (b_disk s);
  is_placed : forall w, c_lba (side w s) <> 0 -> placed (b_disk s) (side w s);
  is_synced : forall w, c_lba (side w s) <> 0 -> synced (b_disk s) (side w s);
  is_apart : c_lba (b_primary s) <> 0 -> c_lba (b_backup s) <> 0 ->
    forall x, own (b_primary s) x -> own (b_backup s) x -> False;
  is_n : c_lba (b_primary s) <> 0 -> c_lba (b_backup s) <> 0 -> c_n (b_primary s) = c_n (b_backup s);
}.

(** A step that changes the copy [w] and writes it back. *)
Lemma in_sync_step w s s' : in_sync s -> boot_ok s -> c_lba (side w s) <> 0 ->
  (forall v, v <> w -> side v s' = side v s) -> c_lba (side w s') = c_lba (side w s) ->
  like_hdr (side w s) (side w s') ->
  disk_but (own (side w s)) (b_disk s) (b_disk s') -> synced (b_disk s') (side w s') ->
  bytes_ok (b_disk s') -> in_sync s'.
Proof.
  intros [_ I1 I2 I3 I4] [B1 B2 _] Hw Ho El Hl Hb Hsy Hby. pose proof (like_place _ _ Hl) as (F1 & F2 & F3).
  assert (Hown : forall x, own (side w s') x <-> own (side w s) x).
  { intros x. unfold own, tbl_own. by rewrite F1, F2, F3. }
  assert (Hv : forall v, v <> w -> c_lba (side v s) <> 0 -> forall x, own (side v s) x -> ~ own (side w s) x).
  { intros v Hne Hv x Hx Hx'. destruct v, w; try done; by eapply (I3 ltac:(done) ltac:(done)). }
  split; [done|..].
  - intros v Hlb. destruct (decide (v = w)) as [->|Hne].
    + eapply placed_like; [by apply I1|done|apply Hb].
    + rewrite Ho in * by done. eapply placed_like; [by apply I1|intros ???; done|apply Hb].
  - intros v Hlb. destruct (decide (v = w)) as [->|Hne]; [done|]. rewrite Ho in * by done.
    eapply synced_but; [by apply I2|by apply I1|done|by apply B2|exact Hb|by apply Hv].
  - destruct w; cbn [side] in *.
    + specialize (Ho Backup ltac:(done)). cbn [side] in Ho. rewrite Ho, El. intros K1 K2 x.
      rewrite Hown. by apply I3.
    + specialize (Ho Primary ltac:(done)). cbn [side] in Ho. rewrite Ho, El. intros K1 K2 x.
      rewrite Hown. by apply I3.
  - destruct w; cbn [side] in *.
    + specialize (Ho Backup ltac:(done)). cbn [side] in Ho. rewrite Ho, El, F3. apply I4.
    + specialize (Ho Primary ltac:(done)). cbn [side] in Ho. rewrite Ho, El, F3. apply I4.
Qed.

Lemma in_sync_like s s' : in_sync s -> (forall w, side w s' = side w s) -> b_disk s' = b_disk s -> in_sync s'.
Proof.
  intros [I0 I1 I2 I3 I4] Hs Hd. pose proof (Hs Primary) as E1. pose proof (Hs Backup) as E2.
  cbn [side] in *. split; [by rewrite Hd|intros w; rewrite Hs, Hd; apply I1|intros w; rewrite Hs, Hd; apply I2|..];
    by rewrite E1, E2.
Qed.

Lemma marked_sync f w s : in_sync s -> boot_ok s -> (forall a, 0 <= f a < 2 ^ 64) ->
  (c_lba (side w s) <> 0 -> 0 <= b_curent s < c_n (side w s)) -> in_sync (marked f w s).
Proof.
  intros Hi Hok Hf Hc0. destruct (Z.eq_dec (c_lba (side w s)) 0) as [E|E].
  { unfold marked. by rewrite (proj2 (Z.eqb_eq _ _) E). }
  specialize (Hc0 E). pose proof Hok as [H1 H2 _].
  pose proof (c_n_bound _ (H1 w) (H2 w E)) as Hn.
  pose proof (marked_touched f w s Hok ltac:(lia) Hf) as [T1 T2 T3 T4 T5 T6].
  unfold marked in *. rewrite (proj2 (Z.eqb_neq _ _)) in * by done.
  set (t' := tset (b_curent s) (f (tattr (b_curent s) (c_table (side w s)))) (c_table (side w s))) in *.
  rewrite (on_side_ext w _ (set_table t')) in * by done. set (s1 := on_side w (set_table t') s) in *.
  destruct (H1 w) as [_ _ Ht].
  assert (side w s1 = set_table t' (side w s)) as S1 by (unfold s1; by rewrite side_on_side, decide_True).
  assert (b_disk s1 = b_disk s) as D1 by (unfold s1; by destruct w).
  assert (b_curent s1 = b_curent s) as C1 by (unfold s1; by destruct w).
  destruct (updated_sync w s1 (c_table (side w s))) as [U1 U2]; rewrite ?S1, ?D1, ?C1.
  - apply on_side_shape; [done|]. apply tset_ok; [done|lia].
  - by apply H2.
  - exact Hc0.
  - eapply placed_like; [by apply (is_placed _ Hi)|intros ???; done|done].
  - apply Ht.
  - apply (is_synced _ Hi w E).
  - apply tset_sectors; [done|lia].
  - apply (in_sync_step w s); try done.
    + intros v Hv. destruct (updated_side w v s1) as [->|[-> _]]; [|done].
      unfold s1. by rewrite side_on_side, decide_False.
    + intros g G1 G2. by apply T4.
    + rewrite S1, D1 in U1. exact U1.
    + apply updated_bytes; [|rewrite D1; apply Hi]. apply on_side_shape; [done|].
      apply tset_ok; [done|lia].
Qed.

Lemma both_sync f s : in_sync s -> boot_ok s -> (forall a, 0 <= f a < 2 ^ 64) -> 0 <= b_curent s < 128 ->
  (forall w, c_lba (side w s) <> 0 -> b_curent s < c_n (side w s)) -> in_sync (both_marked f s).
Proof.
  intros Hi Hok Hf Hc Hn. unfold both_marked.
  pose proof (marked_touched f Primary s Hok Hc Hf) as [T1 T2 T3 T4 _ _].
  apply marked_sync; [|done|done|].
  - apply marked_sync; [done..|]. intros H. split; [lia|by apply Hn].
  - rewrite T3, (sc_curent _ _ T1). unfold c_n. rewrite T4 by done. intros H. split; [lia|by apply Hn].
Qed.
End sync.
