(* ===== verification/BootConv.v ===== *)
(** * BootConv: what gptboot finds tried and failed

    [gptbootconv] of sys/boot/common/gpt.c on a copy: the table becomes [conv_table], in
    memory and, where it can be written, on the disk. *)
From Stdlib Require Import ZArith Lia.
From stdpp Require Import base list option.
From S2P Require Import Prelude Crc32 GptIo GptRep BootGpt BootRules BootFind BootRead BootSync.
Open Scope Z_scope.

Section conv.
Context {gpt : SysGpt} {laws : SysGptLaws} {bs : BootSys} {blaws : BootSysLaws} {bios : Bios}.
Implicit Types (c : copy) (s : boot) (t h d D : list Z) (w : which).

(** ** On a table *)
Definition conv_one (i : Z) t : list Z :=
  match conv_attr (tattr i t) with None => t | Some v => tset i v t end.

Fixpoint conv_from (k : nat) (i : Z) t : list Z :=
  match k with O => t | S k => conv_from k (i + 1) (conv_one i t) end.

Fixpoint conv_any (k : nat) (i : Z) t : bool :=
  match k with
  | O => false
  | S k => bool_decide (is_Some (conv_attr (tattr i t))) || conv_any k (i + 1) t
  end.

(** The entries of the full sectors are looked at. *)
Definition conv_table (n : Z) t : list Z := conv_from (Z.to_nat (4 * (n / 4))) 0 t.

Lemma conv_attr_range a v : conv_attr a = Some v -> 0 <= v < 2 ^ 64.
Proof. rewrite conv_attr_eq. destruct (_ && _); [|done]. intros [= <-]. auto. Qed.

Lemma conv_one_ok i t : table_ok t -> 0 <= i < 128 -> table_ok (conv_one i t).
Proof. intros. unfold conv_one. destruct (conv_attr _); [|done]. by apply tset_ok. Qed.

Lemma conv_from_ok k i t : table_ok t -> 0 <= i -> i + Z.of_nat k <= 128 -> table_ok (conv_from k i t).
Proof.
  revert i t. induction k as [|k IH]; intros i t Ht Hi Hk; [done|]. cbn [conv_from].
  apply IH; [|lia..]. apply conv_one_ok; [done|lia].
Qed.

Lemma conv_from_app a b i t :
  conv_from (a + b) i t = conv_from b (i + Z.of_nat a) (conv_from a i t).
Proof.
  revert i t. induction a as [|a IH]; intros i t; cbn [conv_from Nat.add].
  - by rewrite Z.add_0_r.
  - rewrite IH. f_equal. lia.
Qed.

Definition conv_val (a : Z) : Z := default a (conv_attr a).

Lemma conv_one_get i j f t : table_ok t -> 0 <= i < 128 -> 0 <= j < 128 ->
  tget j f (conv_one i t) =
  if bool_decide (j = i /\ f = ent_attr /\ is_Some (conv_attr (tattr i t)))
  then le_enc 8 (conv_val (tattr i t)) else tget j f t.
Proof.
  intros Ht Hi Hj. unfold conv_one, conv_val. destruct (conv_attr (tattr i t)) as [v|]; cbn [from_option id].
  - rewrite tget_tset by done. apply (f_equal (fun b : bool => if b then _ else _)).
    apply bool_decide_ext. split; [intros []|intros (?&?&?)]; eauto.
  - rewrite bool_decide_eq_false_2; [done|]. by intros (_ & _ & [? ?]).
Qed.

Lemma conv_one_attr i j t : table_ok t -> 0 <= i < 128 -> 0 <= j < 128 ->
  tattr j (conv_one i t) = if decide (j = i) then conv_val (tattr j t) else tattr j t.
Proof.
  intros Ht Hi Hj. unfold conv_one, conv_val. destruct (decide (j = i)) as [->|Hne].
  - destruct (conv_attr (tattr i t)) as [v|] eqn:E; [|done]. cbn [from_option id].
    rewrite tattr_tset by eauto using conv_attr_range. by rewrite bool_decide_eq_true_2.
  - destruct (conv_attr (tattr i t)) as [v|] eqn:E; [|done].
    rewrite tattr_tset by eauto using conv_attr_range. by rewrite bool_decide_eq_false_2.
Qed.

Lemma conv_from_attr k i j t : table_ok t -> 0 <= i -> i + Z.of_nat k <= 128 -> 0 <= j < 128 ->
  tattr j (conv_from k i t) =
  if decide (i <= j < i + Z.of_nat k) then conv_val (tattr j t) else tattr j t.
Proof.
  revert i t. induction k as [|k IH]; intros i t Ht Hi Hk Hj; cbn [conv_from].
  - by rewrite decide_False by lia.
  - rewrite IH by (lia || apply conv_one_ok; done || lia). rewrite conv_one_attr by (done || lia).
    repeat case_decide; (done || lia).
Qed.

Lemma conv_from_get k i j f t : table_ok t -> 0 <= i -> i + Z.of_nat k <= 128 -> 0 <= j < 128 ->
  f <> ent_attr -> tget j f (conv_from k i t) = tget j f t.
Proof.
  revert i t. induction k as [|k IH]; intros i t Ht Hi Hk Hj Hf; cbn [conv_from]; [done|].
  rewrite IH by (lia || done || apply conv_one_ok; done || lia).
  rewrite conv_one_get by (done || lia). rewrite bool_decide_eq_false_2; [done|]. by intros (_ & ? & _).
Qed.

Lemma conv_any_one k i j t : table_ok t -> 0 <= i < j -> j + Z.of_nat k <= 128 ->
  conv_any k j (conv_one i t) = conv_any k j t.
Proof.
  intros Ht. revert j. induction k as [|k IH]; intros j Hj Hk; cbn [conv_any]; [done|].
  rewrite conv_one_attr, decide_False by (done || lia). by rewrite IH by lia.
Qed.

Lemma conv_any_false k i t : table_ok t -> 0 <= i -> i + Z.of_nat k <= 128 ->
  conv_any k i t = false -> conv_from k i t = t.
Proof.
  revert i t. induction k as [|k IH]; intros i t Ht Hi Hk; cbn [conv_any conv_from]; [done|].
  intros [H1 H2]%orb_false_iff. apply bool_decide_eq_false in H1. unfold conv_one.
  destruct (conv_attr (tattr i t)); [by exfalso; eauto|]. apply IH; (done || lia).
Qed.

Lemma conv_any_app a b i t : conv_any (a + b) i t = conv_any a i t || conv_any b (i + Z.of_nat a) t.
Proof.
  revert i. induction a as [|a IH]; intros i; cbn [conv_any Nat.add].
  - by rewrite Z.add_0_r.
  - rewrite IH, orb_assoc. do 2 f_equal. lia.
Qed.

Lemma conv_any_from a k i t : table_ok t -> 0 <= i -> i + Z.of_nat (a + k) <= 128 ->
  conv_any k (i + Z.of_nat a) (conv_from a i t) = conv_any k (i + Z.of_nat a) t.
Proof.
  revert i t. induction a as [|a IH]; intros i t Ht Hi Hk; cbn [conv_from]; [done|].
  replace (i + Z.of_nat (S a)) with (i + 1 + Z.of_nat a) by lia.
  rewrite IH by (lia || apply conv_one_ok; done || lia).
  apply conv_any_one; (done || lia).
Qed.

(** A second time there is nothing to convert. *)
Lemma conv_val_idem a : conv_attr (conv_val a) = None.
Proof.
  unfold conv_val. rewrite (conv_attr_eq a). destruct (_ && _) eqn:E; cbn [from_option id].
  - rewrite conv_attr_eq. destruct (attr_failed_bits a) as (_ & E1 & E2). by rewrite E1, E2, andb_false_r.
  - by rewrite conv_attr_eq, E.
Qed.

(** Entries that are to be booted are not converted. *)
Lemma conv_val_me a : me (conv_val a) = me a.
Proof.
  unfold conv_val. rewrite conv_attr_eq. destruct (me a) eqn:E; cbn [negb andb from_option id]; [done|].
  destruct (_ && _); cbn [from_option id]; [|done]. by rewrite (proj1 (attr_failed_bits a)).
Qed.

Lemma conv_val_once a : is_bootonce (conv_val a) = is_bootonce a /\ is_bootme (conv_val a) = is_bootme a.
Proof.
  unfold is_bootonce, is_bootme. fold (me a) (once a) (me (conv_val a)) (once (conv_val a)).
  rewrite conv_val_me. destruct (me a) eqn:E; [|done]. unfold conv_val.
  by rewrite conv_attr_eq, E.
Qed.

(** ** The entries of one sector *)
Lemma conv_one_sectors i t : table_ok t -> 0 <= i < 128 -> same_sectors (i / 4) t (conv_one i t).
Proof.
  intros Ht Hi. unfold conv_one. destruct (conv_attr _); [by apply tset_sectors|done].
Qed.

Lemma conv_four j t : table_ok t -> 0 <= j < 32 -> same_sectors j t (conv_from 4 (4 * j) t).
Proof.
  intros Ht Hj. cbn [conv_from].
  assert (forall i t, table_ok t -> i / 4 = j -> 0 <= i < 128 ->
    table_ok (conv_one i t) /\ same_sectors j t (conv_one i t)) as H.
  { intros i t1 H1 <- H2. split; [by apply conv_one_ok|by apply conv_one_sectors]. }
  destruct (H (4 * j) t) as [K1 S1]; [done|dlia|lia|].
  destruct (H (4 * j + 1) _ K1) as [K2 S2]; [dlia|lia|].
  destruct (H (4 * j + 1 + 1) _ K2) as [K3 S3]; [dlia|lia|].
  destruct (H (4 * j + 1 + 1 + 1) _ K3) as [K4 S4]; [dlia|lia|].
  eauto using same_sectors_trans.
Qed.

Definition with_table w t s : boot := on_side w (set_table t) s.

Lemma with_table_table w t s : c_table (side w (with_table w t s)) = t.
Proof. unfold with_table. by rewrite side_on_side, decide_True. Qed.

Lemma with_table_twice w t t' s : with_table w t (with_table w t' s) = with_table w t s.
Proof. unfold with_table. rewrite on_side_on_side. by apply on_side_ext. Qed.

Lemma with_table_id w s : with_table w (c_table (side w s)) s = s.
Proof. unfold with_table. destruct w, s as [[] [] ? ? ? ? ? ? ?]; done. Qed.

Lemma wp_conv_loop fuel w nent part b s (Q : bool -> boot -> Prop) :
  table_ok (c_table (side w s)) -> 0 <= part <= 4 -> 0 <= nent -> nent + 4 <= 128 ->
  4 - part < Z.of_nat fuel ->
  (let k := Z.to_nat (4 - part) in
   let t := c_table (side w s) in
   Q (b || conv_any k (nent + part) t) (with_table w (conv_from k (nent + part) t) s)) ->
  wp (conv_loop fuel w 4 nent part b) s Q.
Proof.
  revert part b s. induction fuel as [|fuel IH]; intros part b s Ht Hp Hn Hn2 Hf; [lia|].
  cbv zeta. intros HQ. cbn [conv_loop]. destruct (Z.ltb_spec part 4).
  - replace (Z.to_nat (4 - part)) with (S (Z.to_nat (4 - (part + 1)))) in HQ by lia.
    cbn [conv_any conv_from] in HQ. replace (nent + part + 1) with (nent + (part + 1)) in HQ by lia.
    apply wp_bind, wp_table_attr; [done|lia|]. unfold conv_one in HQ.
    destruct (conv_attr (tattr (nent + part) (c_table (side w s)))) as [v|] eqn:Ev.
    + apply wp_bind, wp_put_attr; [done|lia|].
      fold (with_table w (tset (nent + part) v (c_table (side w s))) s).
      apply IH; rewrite ?with_table_table; [apply tset_ok; done || lia|lia..|]. cbv zeta.
      rewrite with_table_twice. rewrite bool_decide_eq_true_2 in HQ by done.
      cbn [orb] in *. rewrite orb_true_r in HQ. exact HQ.
    + rewrite bool_decide_eq_false_2 in HQ by (by intros []). cbn [orb] in HQ.
      apply IH; [done|lia..|exact HQ].
  - apply wp_ret. replace (Z.to_nat (4 - part)) with 0%nat in HQ by lia.
    cbn [conv_any conv_from] in HQ. rewrite orb_false_r, with_table_id in HQ. exact HQ.
Qed.

(** ** The sectors *)

(** [k] entries from [i] on were converted. *)
Record conv_run w (k : nat) (i : Z) s s' : Prop := {
  cr_ctl : same_ctl s s';
  cr_ok : boot_ok s';
  cr_other : forall v, v <> w -> side v s' = side v s;
  cr_side : side w s' = set_table (conv_from k i (c_table (side w s))) (side w s);
  cr_disk : placed (b_disk s) (side w s) ->
    disk_but (tbl_own (side w s)) (b_disk s) (b_disk s') /\
    (tbl_synced (b_disk s) (side w s) -> tbl_synced (b_disk s') (side w s'));
  cr_bytes : bytes_ok (b_disk s) -> bytes_ok (b_disk s');
}.

Lemma conv_run_refl w i s : boot_ok s -> conv_run w 0 i s s.
Proof. intros H. split; try done. cbn [conv_from]. by destruct (side w s). Qed.

Lemma conv_run_trans w a b i s1 s2 s3 : conv_run w a i s1 s2 -> conv_run w b (i + Z.of_nat a) s2 s3 ->
  conv_run w (a + b) i s1 s3.
Proof.
  intros [A1 A2 A3 A4 A5 A6'] [B1 B2 B3 B4 B5 B6']. split; try done.
  - by eapply same_ctl_trans.
  - intros v Hv. by rewrite B3, A3.
  - rewrite B4, A4. cbn [set_table c_table c_hdr c_lba]. by rewrite conv_from_app.
  - intros Hp. destruct (A5 Hp) as [A6 A7].
    assert (placed (b_disk s2) (side w s2)) as Hp2.
    { eapply placed_like; [exact Hp| |apply A6]. rewrite A4. by intros f _ _. }
    destruct (B5 Hp2) as [B6 B7]. split; [|auto].
    eapply disk_but_trans; [done|]. rewrite A4 in B6. exact B6.
  - auto.
Qed.

Lemma in_range_4 n : 0 <= n -> 4 * (n / 4) <= n.
Proof. intros. dlia. Qed.

(** The sector of entries [4 * j] to [4 * j + 3]. *)
Lemma wp_conv_sector {A} w j (K : bool -> St boot A) s (Q : A -> boot -> Prop) :
  boot_ok s -> plain (c_hdr (side w s)) -> 0 <= j -> 4 * (j + 1) <= c_n (side w s) ->
  (forall s', conv_run w 4 (4 * j) s s' -> wp (K (conv_any 4 (4 * j) (c_table (side w s)))) s' Q) ->
  wp (sector_updated ← conv_loop (S (Z.to_nat 4)) w 4 (4 * j) 0 false;
      (if sector_updated : bool then
         t ← gets (fun s => c_table (side w s));
         d ← of_opt (obj_rd (4 * j * Z.of_nat sizeof_gpt_ent) DEV_BSIZE t);
         put_secbuf d;;
         drvwrite (c_tlba (side w s) + j);;
         mret tt
       else mret tt);;
      K sector_updated) s Q.
Proof.
  intros Hok Hp Hj Hjn HQ. pose proof Hok as [H1 _ Hb]. destruct (H1 w) as [_ _ Ht].
  pose proof (c_n_bound _ (H1 w) Hp) as Hn.
  apply wp_bind, wp_conv_loop; [done|lia..|]. cbv zeta. rewrite Z.add_0_r. cbn [orb].
  change (Z.to_nat (4 - 0)) with 4%nat. set (t := c_table (side w s)) in *.
  set (t' := conv_from 4 (4 * j) t).
  assert (table_ok t') as Ht' by (apply conv_from_ok; (done || lia)).
  pose proof (proj2 Ht') as Lt'.
  assert (boot_ok (with_table w t' s)) as Hok' by by apply on_side_shape.
  assert (side w (with_table w t' s) = set_table t' (side w s)) as S1.
  { unfold with_table. by rewrite side_on_side, decide_True. }
  assert (forall v, v <> w -> side v (with_table w t' s) = side v s) as S2.
  { intros v Hv. unfold with_table. by rewrite side_on_side, decide_False. }
  assert (b_disk (with_table w t' s) = b_disk s) as D1 by (by destruct w).
  destruct (conv_any 4 (4 * j) t) eqn:Ea.
  - apply wp_bind, wp_bind, wp_gets, wp_bind. rewrite with_table_table, ent_struct.
    eapply wp_of_opt; [apply obj_rd_ok; unfold DEV_BSIZE; lia|].
    replace (Z.to_nat (4 * j * Z.of_nat 128)) with (Z.to_nat (j * 512)) by lia.
    change (Z.to_nat DEV_BSIZE) with 512%nat. set (d := sub (Z.to_nat (j * 512)) 512 t').
    assert (length d = 512%nat) as Ld by (apply length_sub; lia).
    assert (length (b_secbuf (with_table w t' s)) = length (b_secbuf s)) as Lb by (by destruct w).
    apply wp_bind, wp_put_secbuf; [lia|]. apply wp_bind, (wp_drvwrite _ d); [done| |].
    { rewrite <- Ld at 1. apply sub_with_secbuf. lia. }
    apply wp_ret, HQ.
    pose proof (same_wrote (c_tlba (side w s) + j) d (with_secbuf d (with_table w t' s)) Ld) as Hc.
    pose proof (disk_but_wrote (c_tlba (side w s) + j) d (with_secbuf d (with_table w t' s)) Ld) as Hd.
    change (b_disk (with_secbuf _ ?x)) with (b_disk x) in Hd. rewrite D1 in Hd.
    assert (Sv : forall v, side v (wrote_sector (c_tlba (side w s) + j) d
      (with_secbuf d (with_table w t' s))) = side v (with_table w t' s)).
    { intros v. by rewrite side_wrote, side_with_secbuf. }
    split.
    + eapply same_ctl_trans; [apply (same_on_side w (set_table t'))|].
      eapply same_ctl_trans; [|exact Hc]. apply same_secbuf. by rewrite Ld, Lb.
    + apply (boot_ok_sides (with_table w t' s)); [done|done|].
      rewrite (sc_secbuf _ _ Hc). apply length_with_secbuf. by rewrite Ld, Lb.
    + intros v Hv. by rewrite Sv, S2.
    + by rewrite Sv, S1.
    + intros Hpl. assert (tbl_own (side w s) (c_tlba (side w s) + j)) as Hown
        by (unfold tbl_own; dlia).
      split; [eapply disk_but_mono; [exact Hd|by intros x ->]|].
      intros Hsy. rewrite Sv, S1. unfold tbl_synced in *. unfold wrote_sector.
      assert (length (b_disk (with_secbuf d (with_table w t' s))) = length (b_disk s)) as LD
        by (by destruct w).
      erewrite can_write; [|exact Hpl|by right|exact LD].
      cbn [b_disk set_disk with_secbuf set_secbuf]. rewrite D1. unfold DEV_BSIZE.
      eapply tbl_at_write; [apply Hpl|done|done|exact (proj2 Hn)|apply Ht| |exact Hsy|by apply conv_four; [|lia]].
      change (c_tlba (set_table t' (side w s))) with (c_tlba (side w s)).
      change (c_n (set_table t' (side w s))) with (c_n (side w s)).
      destruct (pc_room _ _ Hpl (c_tlba (side w s) + c_n (side w s) / 4 - 1)) as (_ & R & _).
      * right. unfold tbl_own. dlia.
      * pose proof (pc_full _ _ Hpl). dlia.
    + intros HD. apply wrote_bytes; [apply bytes_ok_sub, Ht'|].
      change (b_disk (with_secbuf d ?x)) with (b_disk x). by rewrite D1.
  - assert (t' = t) as Et by (apply conv_any_false; (done || lia)).
    apply wp_bind, wp_ret, HQ. rewrite Et. unfold t. rewrite with_table_id.
    split; try done. fold t. fold t'. rewrite Et. unfold t. by destruct (side w s).
Qed.

Lemma wp_conv_sectors fuel w j b s (Q : bool -> boot -> Prop) :
  let c := side w s in
  boot_ok s -> plain (c_hdr c) -> 0 <= j <= c_n c / 4 -> c_n c / 4 - j < Z.of_nat fuel ->
  (let k := Z.to_nat (4 * (c_n c / 4 - j)) in
   forall s', conv_run w k (4 * j) s s' -> Q (b || conv_any k (4 * j) (c_table c)) s') ->
  wp (conv_sectors fuel w 4 (c_tlba c + c_n c / 4) (c_tlba c + j) (4 * j) b) s Q.
Proof.
  cbv zeta. revert j b s. induction fuel as [|fuel IH]; intros j b s Hok Hp Hj Hf HQ; [lia|].
  pose proof (c_n_bound _ (bo_shape _ Hok w) Hp) as Hn.
  cbn [conv_sectors]. destruct (Z.ltb_spec (c_tlba (side w s) + j) (c_tlba (side w s) + c_n (side w s) / 4)).
  - apply (wp_conv_sector w j (fun u => conv_sectors fuel w 4 (c_tlba (side w s) + c_n (side w s) / 4)
      (c_tlba (side w s) + j + 1) (4 * j + 4) (b || u))); [done|done|lia|dlia|].
    intros s1 R1. pose proof (cr_side _ _ _ _ _ R1) as E1.
    destruct (bo_shape _ Hok w) as [_ _ Ht].
    assert (c_n (side w s1) = c_n (side w s)) as E2 by (by rewrite E1).
    assert (c_tlba (side w s1) = c_tlba (side w s)) as E3 by (by rewrite E1).
    rewrite <- E3, <- E2, <- Z.add_assoc. replace (4 * j + 4) with (4 * (j + 1)) by lia.
    apply IH; rewrite ?E2; [apply R1|by rewrite E1|lia|lia|].
    intros s2 R2.
    assert (Ek : Z.to_nat (4 * (c_n (side w s) / 4 - j)) =
      (4 + Z.to_nat (4 * (c_n (side w s) / 4 - (j + 1))))%nat) by lia.
    specialize (HQ s2). rewrite Ek in HQ.
    replace (4 * (j + 1)) with (4 * j + Z.of_nat 4) in * by lia.
    rewrite conv_any_app, orb_assoc in HQ. rewrite E1. cbn [set_table c_table].
    rewrite conv_any_from by (done || dlia). apply HQ. by eapply conv_run_trans.
  - assert (j = c_n (side w s) / 4) as Ej by lia. apply wp_ret. specialize (HQ s).
    replace (Z.to_nat (4 * (c_n (side w s) / 4 - j))) with 0%nat in HQ by lia.
    cbn [conv_any] in HQ. rewrite orb_false_r in HQ. apply HQ. by apply conv_run_refl.
Qed.

(** ** [gptbootconv] *)
Record converted w s s' : Prop := {
  cv_ctl : same_ctl s s';
  cv_ok : boot_ok s';
  cv_other : forall v, v <> w -> side v s' = side v s;
  cv_lba : c_lba (side w s') = c_lba (side w s);
  cv_like : like_hdr (side w s) (side w s');
  cv_table : c_table (side w s') = conv_table (c_n (side w s)) (c_table (side w s));
  cv_disk : placed (b_disk s) (side w s) -> disk_but (own (side w s)) (b_disk s) (b_disk s');
  cv_sync : placed (b_disk s) (side w s) -> synced (b_disk s) (side w s) ->
    synced (b_disk s') (side w s');
  cv_bytes : bytes_ok (b_disk s) -> bytes_ok (b_disk s');
}.

Lemma conv_range n : 0 <= n <= 128 -> 0 + Z.of_nat (Z.to_nat (4 * (n / 4))) <= 128.
Proof. intros. dlia. Qed.

Lemma wp_gptbootconv w s (Q : unit -> boot -> Prop) :
  boot_ok s -> c_lba (side w s) <> 0 ->
  (0 <= c_tlba (side w s) < 2 ^ 62 \/ c_n (side w s) = 0) ->
  (forall s', converted w s s' -> Q tt s') -> wp (gptbootconv w) s Q.
Proof.
  intros Hok Hl Hpos HQ. pose proof Hok as [H1 H2 _]. pose proof (H2 _ Hl) as Hp.
  pose proof (c_n_bound _ (H1 w) Hp) as Hn. pose proof (H1 w) as Hs. destruct (H1 w) as [Hh _ Ht].
  unfold gptbootconv. apply wp_bind, wp_hdr_field, wp_bind, wp_hdr_field, wp_bind, wp_hdr_field.
  rewrite (pl_entsz _ Hp). change (DEV_BSIZE / 128) with 4.
  fold (c_n (side w s)). fold (c_tlba (side w s)).
  assert (E : s64 (u64 (hget hdr_lba_table (c_hdr (side w s)) + c_n (side w s) / 4)) =
    c_tlba (side w s) + c_n (side w s) / 4).
  { pose proof (hget_bound hdr_lba_table _ Hh) as Hb.
    change (256 ^ Z.of_nat (width_hdr hdr_lba_table)) with (2 ^ 64) in Hb.
    destruct Hpos as [[Hpos Hsmall]|Hpos].
    - assert (c_tlba (side w s) = hget hdr_lba_table (c_hdr (side w s))) as Et
        by (by apply s64_nonneg).
      rewrite Et in *. assert (0 <= c_n (side w s) / 4 <= 32) by dlia.
      rewrite u64_small, s64_small; lia.
    - rewrite Hpos, !Z.add_0_r. unfold c_tlba. by rewrite u64_small. }
  rewrite E. assert (0 <= c_n (side w s) / 4 <= 32 /\ c_n (side w s) / 4 <= c_n (side w s)) as Hq by dlia.
  pose proof (fun Q => wp_conv_sectors (S (Z.to_nat (c_n (side w s)))) w 0 false s Q) as K.
  cbv zeta in K. rewrite Z.mul_0_r, Z.add_0_r, Z.sub_0_r in K.
  apply wp_bind, K; [done|done|lia|lia|]. intros s1 R1. cbn [orb].
  fold (conv_table (c_n (side w s)) (c_table (side w s))) in *.
  destruct R1 as [R1 R2 R3 R4 R5 R6]. fold (conv_table (c_n (side w s)) (c_table (side w s))) in R4.
  assert (Hlk : like_hdr (side w s) (side w s1)) by (rewrite R4; by intros ???).
  destruct (conv_any _ _ _) eqn:Ea.
  - assert (plain (c_hdr (side w s1))) as Hp1 by (by rewrite R4).
    pose proof (seal_like _ (bo_shape _ R2 w)) as Hsl.
    pose proof (hdr_written_ctl w s1 R2 Hp1) as Hctl.
    apply wp_write_hdr; [done..|]. apply HQ.
    assert (Sv : forall v, side v (hdr_written w s1) = if decide (v = w) then
      set_hdr (seal (c_hdr (side v s1)) (c_table (side v s1))) (side v s1) else side v s1)
      by (intros; apply hdr_written_side).
    assert (like_hdr (side w s) (side w (hdr_written w s1))) as Hl2.
    { rewrite Sv, decide_True by done. intros f F1 F2. by rewrite Hsl, Hlk. }
    assert (Hpl : placed (b_disk s) (side w s) -> placed (b_disk s1) (side w s1)).
    { intros Hp0. eapply placed_like; [done..|]. by apply R5. }
    split; try done.
    + by eapply same_ctl_trans.
    + by apply hdr_written_ok.
    + intros v Hv. by rewrite Sv, decide_False, R3.
    + rewrite Sv, decide_True, R4 by done. done.
    + rewrite Sv, decide_True, R4 by done. done.
    + intros Hp0. destruct (R5 Hp0) as [D1 _].
      eapply disk_but_trans; [eapply disk_but_mono; [exact D1|by right]|].
      eapply disk_but_mono; [by apply hdr_written_disk|].
      intros x ->. left. by destruct (like_place _ _ Hlk) as (-> & _ & _).
    + intros Hp0 Hsy. apply hdr_written_sync; [done..|by apply Hpl|]. apply R5; [done|apply Hsy].
    + intros HD. apply hdr_written_bytes; auto.
  - apply wp_ret, HQ.
    assert (conv_table (c_n (side w s)) (c_table (side w s)) = c_table (side w s)) as Et.
    { apply conv_any_false; [done|lia|by apply conv_range|done]. }
    assert (side w s1 = side w s) as Es by (rewrite R4, Et; by destruct (side w s)).
    split; try done; rewrite ?Es; try done.
    + intros Hp0. eapply disk_but_mono; [by apply R5|by right].
    + intros Hp0 Hsy. destruct Hsy as [S1 S2 S3 S4]. destruct (R5 Hp0) as [D1 D2].
      rewrite Es in D2. split; [by apply D2| |done..]. rewrite <- S2.
      eapply disk_but_sub; [exact D1| |]; [|apply Z.mul_nonneg_nonneg; [|done]; apply (pc_room _ _ Hp0); by left].
      intros i Hi Ho. apply (pc_apart _ _ Hp0).
      destruct (pl_size _ Hp) as [_ P3]. pose proof hdr_struct.
      assert (c_self (side w s) = i / 512) as -> by dlia. done.
Qed.
End conv.
