(* ===== verification/BootLoad.v ===== *)
(** * BootLoad: what [gptread] leaves

    The two copies of the GPT after [gptread] of sys/boot/common/gpt.c, in terms of what
    the disk held ([load]), and that the disk it leaves can be read again ([reload]). *)
From Stdlib Require Import ZArith Lia.
From stdpp Require Import base list option.
From S2P Require Import Prelude Crc32 GptIo GptRep BootGpt BootRules BootFind BootRead BootSync BootConv.
Open Scope Z_scope.

Section load.
Context {gpt : SysGpt} {laws : SysGptLaws} {bs : BootSys} {blaws : BootSysLaws} {bios : Bios}.
Implicit Types (c : copy) (s : boot) (t h d D : list Z) (w : which).

(** A copy that consists of a header. *)
Definition hc h : copy := Copy h [] 0.

(** ** Headers that agree on the bytes their checksum covers *)
Lemma take_splice_in k o d (l : list Z) : (o + length d <= k)%nat -> (k <= length l)%nat ->
  take k (splice o d l) = splice o d (take k l).
Proof.
  intros H1 H2. apply list_eq. intros i. rewrite lookup_splice by (rewrite length_take; lia).
  destruct (decide (i < k)%nat).
  - rewrite !lookup_take_lt by done. by rewrite lookup_splice by lia.
  - rewrite !lookup_take_ge by lia. rewrite !decide_False by lia. done.
Qed.

Lemma take_sub k o n (l : list Z) : (o + n <= k)%nat -> sub o n (take k l) = sub o n l.
Proof.
  intros H. apply list_eq. intros i. rewrite !lookup_sub. case_decide; [|done].
  by rewrite lookup_take_lt by lia.
Qed.

Lemma hget_take k f h h' : (GPT_MIN_HDR_SIZE <= k)%nat -> take k h' = take k h -> hget f h' = hget f h.
Proof.
  intros Hk E. unfold hget, le_get. pose proof (hdr_inside f).
  rewrite <- (take_sub k _ _ h'), E, take_sub by lia. done.
Qed.

Lemma sums_take k h h' : (GPT_MIN_HDR_SIZE <= k)%nat -> (k <= length h)%nat -> (k <= length h')%nat ->
  k = Z.to_nat (hget hdr_size h) -> take k h' = take k h -> hdr_sums h' = hdr_sums h.
Proof.
  intros Hk L L' E Et. unfold hdr_sums. rewrite !(hget_take k _ h h') by done. rewrite <- E.
  pose proof (hdr_inside hdr_crc_self). unfold hset, le_set.
  by rewrite !take_splice_in, Et by (rewrite ?length_le_enc; lia).
Qed.

(** Whether a header is refused is a matter of its fields. *)
Lemma invalid_like c c' lba : shape c -> bytes_ok (c_hdr c') -> (GPT_MIN_HDR_SIZE <= length (c_hdr c'))%nat ->
  like_hdr c c' -> hdr_invalid (c_hdr c') lba = hdr_invalid (c_hdr c) lba.
Proof.
  intros Hs Hb Hl Hk. unfold hdr_invalid. rewrite !Hk by done. do 5 f_equal. f_equal.
  pose proof (hdr_min _ Hs) as Hm. destruct Hs as [H1 H2 _].
  enough (sub (off_hdr hdr_sig) (width_hdr hdr_sig) (c_hdr c') =
    sub (off_hdr hdr_sig) (width_hdr hdr_sig) (c_hdr c)) as -> by done.
  apply le_dec_inj; [by apply bytes_ok_sub..| |by apply Hk].
  by rewrite !length_sub by (apply hdr_room; done).
Qed.

(** ** Reading again *)
Lemma sector_some D D' x : length D' = length D -> is_Some (sector D x) -> is_Some (sector D' x).
Proof. intros HL. unfold sector. rewrite HL. destruct (_ && _); [eauto|done]. Qed.

Lemma readable_len D D' lba n : length D' = length D -> readable D lba n = true -> readable D' lba n = true.
Proof.
  intros HL. unfold readable. rewrite !forallb_forall. intros H x Hx. specialize (H x Hx).
  apply bool_decide_eq_true in H. apply bool_decide_eq_true. by eapply sector_some.
Qed.

Lemma load_inv D lba h t : load D lba = Some (h, t) ->
  (exists d, sector D (s64 lba) = Some d /\ h = take sizeof_gpt_hdr d) /\
  hdr_invalid h lba = false /\ hdr_sums h = true /\ t = tbl_at D (s64 (hget hdr_lba_table h)) (hget hdr_entries h) /\
  (hget hdr_entries h <> 0 -> readable D (s64 (hget hdr_lba_table h)) (hget hdr_entries h) = true /\
     crc_of t = hget hdr_crc_table h).
Proof.
  unfold load, load_hdr, hdr_at. destruct (sector D (s64 lba)) as [d|]; [|done]. cbn [mbind option_bind].
  destruct (hdr_invalid _ _) eqn:Ei; [done|]. destruct (hdr_sums _) eqn:Es; [|done].
  cbn [orb negb mbind option_bind]. unfold load_tbl.
  destruct (Z.eqb_spec (hget hdr_entries (take sizeof_gpt_hdr d)) 0) as [E|E]; cbn [mbind option_bind].
  - intros [= <- <-]. split_and!; [eauto|done|done| |done]. rewrite E. done.
  - destruct (readable _ _ _) eqn:Er; [|done]. destruct (_ =? _) eqn:Ec; [|done]. cbn [andb mbind option_bind].
    intros [= <- <-]. zbool. split_and!; eauto.
Qed.

Lemma load_intro D lba d : let h := take sizeof_gpt_hdr d in
  let n := hget hdr_entries h in let tl := s64 (hget hdr_lba_table h) in
  sector D (s64 lba) = Some d -> hdr_invalid h lba = false -> hdr_sums h = true ->
  (n <> 0 -> readable D tl n = true /\ crc_of (tbl_at D tl n) = hget hdr_crc_table h) ->
  load D lba = Some (h, tbl_at D tl n).
Proof.
  cbv zeta. intros Ed Ei Es Ht. unfold load, load_hdr, hdr_at. rewrite Ed. cbn [mbind option_bind].
  rewrite Ei, Es. cbn [orb negb mbind option_bind]. unfold load_tbl.
  destruct (Z.eqb_spec (hget hdr_entries (take sizeof_gpt_hdr d)) 0) as [E|E].
  - by rewrite E.
  - destruct (Ht E) as [-> ->]. by rewrite Z.eqb_refl.
Qed.

Lemma invalid_self h lba : hdr_invalid h lba = false -> hget hdr_lba_self h = lba.
Proof. unfold hdr_invalid. rewrite !orb_false_iff. intros (((((_ & H) & _) & _) & _) & _). by zbool. Qed.

(** A copy that was read from [D] is still what [D'] holds: it is read again. *)
Lemma reload D D' lba h t c : load D lba = Some (h, t) -> bytes_ok D -> bytes_ok D' ->
  length D' = length D -> shape c -> plain (c_hdr c) -> like_hdr (hc h) c -> synced D' c ->
  exists h', load D' lba = Some (h', take (Z.to_nat (c_n c * 128)) (c_table c)) /\
    like_hdr c (hc h') /\ plain h'.
Proof.
  intros Hl HD HD' HL Hs Hp Hk [S1 S2 S3 S4]. apply load_inv in Hl as ((d & Ed & ->) & Ei & _ & _ & Hr).
  destruct (sector_some D D' (s64 lba) HL) as [d' Ed']; [by eexists|].
  pose proof (sector_length _ _ _ Ed) as Ld. pose proof (sector_length _ _ _ Ed') as Ld'.
  pose proof (sector_bytes _ _ _ HD' Ed') as Bd'. pose proof (sector_bytes _ _ _ HD Ed) as Bd.
  pose proof hdr_struct as Hst. set (h0 := take sizeof_gpt_hdr d) in *. set (h' := take sizeof_gpt_hdr d').
  assert (length h' = sizeof_gpt_hdr) as Lh' by (unfold h'; rewrite length_take; lia).
  assert (length h0 = sizeof_gpt_hdr) as Lh0 by (unfold h0; rewrite length_take; lia).
  assert (bytes_ok h' /\ bytes_ok h0) as [Bh' Bh0] by (split; by apply Forall_take).
  assert (c_self c = s64 lba) as Eself.
  { unfold c_self. rewrite Hk by done. cbn [hc c_hdr]. by rewrite (invalid_self _ _ Ei). }
  pose proof Hp as [P1 P2 P3]. pose proof (hdr_min _ Hs) as Hm. pose proof Hs as [Hh Hlen [Ht1 Ht2]].
  pose proof (c_n_bound _ Hs Hp) as Hn. set (k := Z.to_nat (hget hdr_size (c_hdr c))) in *.
  assert (take k h' = take k (c_hdr c)) as Ek.
  { rewrite <- S2. unfold h'. rewrite take_take, Nat.min_l by lia. rewrite Eself.
    by apply sector_sub; [|lia]. }
  assert (Hg : forall f, hget f h' = hget f (c_hdr c)) by (intros f; apply (hget_take k); (done || lia)).
  assert (tbl_at D' (s64 (hget hdr_lba_table h')) (hget hdr_entries h') =
    take (Z.to_nat (c_n c * 128)) (c_table c)) as Et by (rewrite !Hg; exact S1).
  exists h'. split_and!.
  - rewrite <- Et. apply load_intro; [done|fold h'|fold h'|fold h'].
    + rewrite (invalid_like (Copy (c_hdr c) (c_table c) 0) (hc h')); [|by split|done|cbn; lia|by intros f _ _; apply Hg].
      rewrite (invalid_like (Copy h0 (c_table c) 0) c); [done|by split|done|lia|].
      intros f F1 F2. by apply Hk.
    + rewrite <- S3. apply (sums_take k); (done || lia).
    + rewrite Et. rewrite !Hg. fold (c_n c). intros Hn0. split; [|by apply S4].
      eapply readable_len; [done|]. assert (c_n c = hget hdr_entries h0) as En by (by apply Hk).
      rewrite En. replace (hget hdr_lba_table (c_hdr c)) with (hget hdr_lba_table h0) by (symmetry; by apply Hk).
      apply Hr. by rewrite <- En.
  - intros f _ _. apply Hg.
  - split; rewrite !Hg; done.
Qed.

(** ** The two copies on a disk *)

(** Where the second copy is looked for. *)
Definition alt_lba D : Z :=
  match load D 1 with
  | Some (h, _) => hget hdr_lba_alt h
  | None => let n := if bios_size then Z.of_nat (length D) / DEV_BSIZE else 0 in
      if 0 <? n then n - 1 else n
  end.

Definition lba_of D w : Z := match w with Primary => 1 | Backup => alt_lba D end.

Definition loads D w : option (list Z * list Z) :=
  if lba_of D w =? 0 then None else load D (lba_of D w).

Definition use_of D (old : option which) : option which :=
  match loads D Primary, loads D Backup with
  | Some _, _ => Some Primary
  | None, Some _ => Some Backup
  | None, None => old
  end.

(** Both copies that are there can be written, and do not overlap. *)
Record good_disk D : Prop := {
  gk_placed : forall w h t, loads D w = Some (h, t) -> placed D (hc h);
  gk_apart : forall h t h' t', loads D Primary = Some (h, t) -> loads D Backup = Some (h', t') ->
    c_n (hc h) = c_n (hc h') /\ forall x, own (hc h) x -> own (hc h') x -> False;
}.

(** The copies after they were read. *)
Definition staged_copy D w s : Prop :=
  match loads D w with
  | None => c_lba (side w s) = 0
  | Some (h, t) => c_lba (side w s) = lba_of D w /\ c_hdr (side w s) = h /\ plain h /\
      take (Z.to_nat (hget hdr_entries h * 128)) (c_table (side w s)) = t
  end.

(** The same after [gptbootconv]. *)
Definition read_in D w s : Prop :=
  match loads D w with
  | None => c_lba (side w s) = 0
  | Some (h, t) => c_lba (side w s) = lba_of D w /\ like_hdr (hc h) (side w s) /\
      exists t0, table_ok t0 /\ take (Z.to_nat (hget hdr_entries h * 128)) t0 = t /\
        c_table (side w s) = conv_table (hget hdr_entries h) t0
  end.

(** What [gptread] leaves. *)
Record after_read D s s' : Prop := {
  ar_ok : boot_ok s';
  ar_use : b_use s' = use_of D (b_use s);
  ar_curent : b_curent s' = -1;
  ar_once : b_bootonce s' = 1;
  ar_part : b_part s' = b_part s;
  ar_len : length (b_disk s') = length D;
  ar_copy : forall w, read_in D w s';
  ar_sync : good_disk D -> in_sync s';
}.

Lemma loads_lba D w x : loads D w = Some x -> lba_of D w <> 0 /\ load D (lba_of D w) = Some x.
Proof. unfold loads. destruct (Z.eqb_spec (lba_of D w) 0); [done|]. auto. Qed.

Lemma staged_plain D w s : staged_copy D w s -> c_lba (side w s) <> 0 -> plain (c_hdr (side w s)).
Proof. unfold staged_copy. destruct (loads D w) as [[h t]|]; [|done]. by intros (_ & -> & ? & _). Qed.

Lemma load_lba_range D lba h t : load D lba = Some (h, t) -> Z.of_nat (length D) < 2 ^ 62 -> bytes_ok h ->
  0 <= c_tlba (hc h) < 2 ^ 62 \/ c_n (hc h) = 0.
Proof.
  intros Hl HD Hb. apply load_inv in Hl as (_ & _ & _ & _ & Hr).
  destruct (Z.eq_dec (c_n (hc h)) 0) as [|E]; [by right|left]. destruct (Hr E) as [Hrd _].
  pose proof (hget_bound hdr_entries h Hb) as Hn. unfold c_n in E. cbn [hc c_hdr] in *.
  rewrite readable_step in Hrd by lia. apply andb_prop in Hrd as [Hs _].
  apply bool_decide_eq_true in Hs as [d Hs]. unfold sector, DEV_BSIZE in Hs.
  destruct (_ && _) eqn:E2; [|done]. zbool. unfold c_tlba. cbn [hc c_hdr]. lia.
Qed.

(** A copy that was just read is what the disk holds. *)
Lemma staged_synced D w s : staged_copy D w s -> c_lba (side w s) <> 0 -> synced D (side w s).
Proof.
  unfold staged_copy. destruct (loads D w) as [[h t]|] eqn:E; [|done].
  intros (Hl & Eh & Hp & Et) _. apply loads_lba in E as [_ E].
  apply load_inv in E as ((d & Ed & Ehd) & Ei & Es & Ett & Hr).
  pose proof (sector_length _ _ _ Ed) as Ld. pose proof hdr_struct. pose proof (pl_size _ Hp) as [_ P3].
  split; unfold tbl_synced, c_tlba, c_n, c_self; rewrite ?Eh.
  - by rewrite Et, Ett.
  - rewrite (invalid_self _ _ Ei). rewrite <- (sector_sub D _ d) by (done || lia).
    set (k := Z.to_nat (hget hdr_size h)) in *. assert (k <= sizeof_gpt_hdr)%nat by lia.
    clearbody k. rewrite Ehd, take_take. f_equal. lia.
  - done.
  - rewrite Et. intros Hn. by apply Hr.
Qed.

Lemma staged_in_sync D s : (forall w, staged_copy D w s) -> b_disk s = D -> bytes_ok D ->
  good_disk D -> in_sync s.
Proof.
  intros Hst HD HB [G1 G2].
  assert (Hw : forall w, c_lba (side w s) <> 0 -> exists h t, loads D w = Some (h, t) /\ c_hdr (side w s) = h).
  { intros w Hl. specialize (Hst w). unfold staged_copy in Hst.
    destruct (loads D w) as [[h t]|]; [|done]. exists h, t. by destruct Hst as (_ & ? & _). }
  split; [by rewrite HD|..].
  - intros w Hl. destruct (Hw w Hl) as (h & t & El & Eh). rewrite HD.
    eapply placed_like; [by eapply G1| |done]. intros f _ _. by rewrite Eh.
  - intros w Hl. rewrite HD. by apply staged_synced.
  - intros H1 H2 x. destruct (Hw Primary H1) as (h & t & El & Eh).
    destruct (Hw Backup H2) as (h' & t' & El' & Eh'). cbn [side] in *.
    destruct (G2 _ _ _ _ El El') as [_ G3]. unfold own, tbl_own, c_self, c_tlba, c_n in *.
    rewrite Eh, Eh'. apply G3.
  - intros H1 H2. destruct (Hw Primary H1) as (h & t & El & Eh).
    destruct (Hw Backup H2) as (h' & t' & El' & Eh'). cbn [side] in *.
    destruct (G2 _ _ _ _ El El') as [G3 _]. unfold c_n in *. by rewrite Eh, Eh'.
Qed.

(** One conversion, among the two. *)
Lemma converted_sync w s s' : boot_ok s -> c_lba (side w s) <> 0 -> in_sync s -> converted w s s' -> in_sync s'.
Proof.
  intros Hok Hl Hi [C1 C2 C3 C4 C5 C6 C7 C8 C9]. pose proof (is_placed _ Hi w Hl) as Hp.
  apply (in_sync_step w s); try done; [by apply C7| |apply C9, Hi]. apply C8; [done|]. by apply is_synced.
Qed.

Lemma converted_read_in D w s s' : staged_copy D w s -> boot_ok s -> c_lba (side w s) <> 0 ->
  converted w s s' -> read_in D w s'.
Proof.
  intros Hst Hok Hl [C1 C2 C3 C4 C5 C6 _ _ _]. unfold staged_copy, read_in in *.
  destruct (loads D w) as [[h t]|]; [|done]. destruct Hst as (E1 & E2 & E3 & E4).
  split_and!; [congruence| |].
  - intros f F1 F2. rewrite C5 by done. by rewrite E2.
  - exists (c_table (side w s)). split_and!; [apply (bo_shape _ Hok)|done|].
    rewrite C6. unfold c_n. by rewrite E2.
Qed.

(** What both conversions leave. *)
Record conv_both D s s' : Prop := {
  cb_ok : boot_ok s';
  cb_ctl : same_ctl s s';
  cb_copy : forall w, read_in D w s';
  cb_sync : good_disk D -> in_sync s';
}.

Lemma read_in_none D w s : loads D w = None -> read_in D w s <-> c_lba (side w s) = 0.
Proof. unfold read_in. by intros ->. Qed.

Lemma staged_none D w s : staged_copy D w s -> c_lba (side w s) = 0 <-> loads D w = None.
Proof.
  unfold staged_copy. destruct (loads D w) as [[h t]|] eqn:E; [|done].
  apply loads_lba in E as [E _]. intros [-> _]. by split.
Qed.

Lemma staged_range D w s : staged_copy D w s -> Z.of_nat (length D) < 2 ^ 62 -> boot_ok s ->
  c_lba (side w s) <> 0 -> 0 <= c_tlba (side w s) < 2 ^ 62 \/ c_n (side w s) = 0.
Proof.
  unfold staged_copy. intros Hst HD Hok Hl. destruct (loads D w) as [[h t]|] eqn:E; [|done].
  apply loads_lba in E as [_ E]. destruct Hst as (_ & Eh & _).
  destruct (bo_shape _ Hok w) as [Hb _ _]. rewrite Eh in Hb.
  pose proof (load_lba_range _ _ _ _ E HD Hb) as H. unfold c_tlba, c_n in *. by rewrite Eh.
Qed.

Lemma wp_conv_both D s (Q : Z -> boot -> Prop) : boot_ok s -> b_disk s = D -> bytes_ok D ->
  Z.of_nat (length D) < 2 ^ 62 -> (forall w, staged_copy D w s) ->
  (forall s', conv_both D s s' ->
    Q (if (c_lba (b_primary s) =? 0) && (c_lba (b_backup s) =? 0) then -1 else 0) s') ->
  wp ((if negb (c_lba (b_primary s) =? 0) then gptbootconv Primary else mret tt);;
      c' ← gets (side Backup);
      (if negb (c_lba c' =? 0) then gptbootconv Backup else mret tt);;
      if (c_lba (b_primary s) =? 0) && (c_lba c' =? 0) then mret (-1) else mret 0) s Q.
Proof.
  intros Hok HD HB Hlen Hst HQ.
  assert (H0 : good_disk D -> in_sync s) by (intros; by eapply staged_in_sync).
  assert (Hsecond : forall s1, boot_ok s1 -> same_ctl s s1 -> side Backup s1 = side Backup s ->
    read_in D Primary s1 -> (good_disk D -> in_sync s1) ->
    wp (c' ← gets (side Backup);
      (if negb (c_lba c' =? 0) then gptbootconv Backup else mret tt);;
      if (c_lba (b_primary s) =? 0) && (c_lba c' =? 0) then mret (-1) else mret 0) s1 Q).
  { intros s1 Hok1 Hc1 E1 Hr1 Hs1. apply wp_bind, wp_gets. rewrite E1.
    apply wp_bind. cbn [side]. destruct (Z.eqb_spec (c_lba (b_backup s)) 0) as [Hl|Hl]; cbn [negb].
    - apply wp_ret.
      assert (conv_both D s s1) as H.
      { split; try done. intros []; [done|]. apply read_in_none; [by eapply (staged_none _ Backup)|by rewrite E1]. }
      specialize (HQ s1 H). by destruct (_ && _).
    - assert (staged_copy D Backup s1) as Hst1 by (unfold staged_copy; rewrite E1; apply Hst).
      assert (c_lba (side Backup s1) <> 0) as Hl1 by (by rewrite E1).
      apply wp_gptbootconv; [done|done| |].
      { apply (staged_range D); done. }
      intros s2 Hcv. rewrite andb_false_r in *.
      apply wp_ret, HQ. pose proof Hcv as [C1 C2 C3 _ _ _ _ _ _]. split.
      + done.
      + by eapply same_ctl_trans.
      + intros []; [|by eapply converted_read_in]. unfold read_in in *. by rewrite C3.
      + intros Hg. eapply converted_sync; [exact Hok1|exact Hl1|by apply Hs1|done]. }
  apply wp_bind. destruct (Z.eqb_spec (c_lba (b_primary s)) 0) as [Hl|Hl]; cbn [negb].
  - apply wp_ret, Hsecond; try done. apply read_in_none; [by apply (staged_none _ Primary s)|done].
  - apply wp_gptbootconv; [done|done|by apply (staged_range D)|]. intros s1 Hcv.
    pose proof Hcv as [C1 C2 C3 _ _ _ _ _ _].
    apply Hsecond; [done|done|by apply C3|by eapply converted_read_in|].
    intros Hg. apply (converted_sync Primary s s1); [exact Hok|exact Hl|by apply H0|done].
Qed.

Lemma wp_read_copy_staged D w s (Q : bool -> boot -> Prop) :
  shape_ok s -> b_disk s = D -> bytes_ok D -> plain_at D (lba_of D w) ->
  (forall s', same_but w s s' ->
    match load D (lba_of D w) with
    | Some (h, t) => c_hdr (side w s') = h /\ plain h /\ hget hdr_lba_self h = lba_of D w /\
        take (Z.to_nat (hget hdr_entries h * 128)) (c_table (side w s')) = t
    | None => True
    end -> Q (bool_decide (is_Some (load D (lba_of D w)))) s') ->
  wp (read_copy w (lba_of D w)) s Q.
Proof.
  intros Hs <- HD Hp HQ. apply wp_read_copy; [done..|]. intros s' Hin. specialize (HQ s' Hin).
  destruct (load _ _) as [[h t]|] eqn:E.
  - intros Eh Hpl Et. apply HQ. split_and!; [done|done| |].
    + apply load_inv in E as (_ & Ei & _). by apply invalid_self.
    + unfold entries in Et. by rewrite Eh in Et.
  - by apply HQ.
Qed.

Lemma decide_some {A} (o : option A) :
  bool_decide (is_Some o) = match o with Some _ => true | None => false end.
Proof.
  destruct o; [by apply bool_decide_eq_true_2|]. apply bool_decide_eq_false_2. by intros [].
Qed.

(** The state while [gptread] runs. *)
Record reading D (part : Z) s : Prop := {
  rd_shape : shape_ok s;
  rd_disk : b_disk s = D;
  rd_curent : b_curent s = -1;
  rd_once : b_bootonce s = 1;
  rd_part : b_part s = part;
}.

Lemma reading_but D part w s s' : reading D part s -> same_but w s s' -> reading D part s'.
Proof. intros [R1 R2 R3 R4 R5] [[] ? ? ? ?]. split; congruence || done. Qed.

Lemma reading_lba D part w n u s : reading D part s ->
  reading D part (set_use u (on_side w (set_lba n) s)).
Proof.
  intros [(H1 & H2 & H3) R2 R3 R4 R5]. split; [split_and!|..]; try (by destruct w).
  intros v. destruct (H1 v). by destruct v, w.
Qed.

Lemma wp_gptread buf s (Q : Z -> boot -> Prop) : let D := b_disk s in
  (forall w, shape (side w s)) -> (512 <= length buf)%nat -> bytes_ok buf -> bytes_ok D ->
  Z.of_nat (length D) < 2 ^ 62 -> plain_at D 1 -> plain_at D (alt_lba D) ->
  (forall s', after_read D s s' ->
    Q (match use_of D None with Some _ => 0 | None => -1 end) s') ->
  wp (gptread buf) s Q.
Proof.
  intros D Hs Hbl Hbb HD Hlen Hp1 Hp2 HQ. unfold gptread.
  do 6 apply wp_bind, wp_modify. set (s0 := set_start 0 _).
  assert (reading D (b_part s) s0) as R0.
  { split; try done. split; [|done]. intros v. destruct (Hs v). by destruct v. }
  apply wp_bind, (wp_read_copy_staged D Primary); [apply R0|done..|]. intros s1 Hin1 Hl1.
  apply wp_bind. set (ok1 := bool_decide (is_Some (load D 1))) in *.
  change (lba_of D Primary) with 1 in *. fold ok1.
  set (s2 := if ok1 then set_use (Some Primary) (on_side Primary (set_lba 1) s1) else s1).
  apply (wp_mono _ _ (fun _ s' => s' = s2)).
  { unfold s2, ok1. destruct (load D 1) as [[h t]|].
    - rewrite bool_decide_eq_true_2 by done. destruct Hl1 as (E1 & E2 & E3 & E4).
      apply wp_bind, wp_hdr_field. rewrite E1, E3. by apply wp_bind, wp_modify, wp_modify.
    - rewrite bool_decide_eq_false_2 by (by intros []). by apply wp_ret. }
  intros _ _ ->. pose proof (reading_but _ _ _ _ _ R0 Hin1) as R1.
  assert (reading D (b_part s) s2) as R2.
  { unfold s2. destruct ok1; [|done]. by apply (reading_lba D _ Primary). }
  assert (staged_copy D Primary s2) as St1.
  { unfold staged_copy, loads, s2, ok1. cbn [lba_of Z.eqb]. destruct (load D 1) as [[h t]|].
    - rewrite bool_decide_eq_true_2 by done. destruct Hl1 as (E1 & E2 & E3 & E4). done.
    - rewrite bool_decide_eq_false_2 by (by intros []). by rewrite (sb_lba _ _ _ Hin1). }
  assert (c_lba (side Backup s2) = 0) as L2.
  { assert (side Backup s2 = side Backup s1) as -> by (unfold s2; by destruct ok1).
    by rewrite (sb_other _ _ _ Hin1). }
  assert (b_use s2 = if ok1 then Some Primary else b_use s) as U2.
  { unfold s2. destruct ok1; [done|]. by rewrite (sc_use _ _ (sb_ctl _ _ _ Hin1)). }
  clearbody s2. apply wp_bind, wp_gets, wp_bind. cbn [side].
  apply (wp_mono _ _ (fun a s' => a = alt_lba D /\ s' = s2)).
  { unfold staged_copy, loads in St1. cbn [lba_of Z.eqb side] in St1. unfold alt_lba.
    destruct (load D 1) as [[h t]|].
    - destruct St1 as (-> & E & _). cbn [Z.eqb negb]. apply wp_hdr_field. cbn [side]. by rewrite E.
    - rewrite St1. cbn [Z.eqb negb]. apply wp_bind, wp_gets, wp_ret.
      by rewrite (rd_disk _ _ _ R2). }
  intros _ _ [-> ->]. apply wp_bind.
  set (ok2 := bool_decide (is_Some (loads D Backup))).
  apply (wp_mono _ _ (fun _ s4 => reading D (b_part s) s4 /\ (forall w, staged_copy D w s4) /\
    b_primary s4 = b_primary s2 /\ b_use s4 = if ok1 then Some Primary else
      if ok2 then Some Backup else b_use s)).
  { unfold ok2, loads. cbn [lba_of]. destruct (Z.eqb_spec (alt_lba D) 0) as [Ea|Ea].
    { apply wp_ret. split_and!; [done| |done|exact U2]. intros []; [done|].
      unfold staged_copy, loads. cbn [lba_of]. by rewrite (proj2 (Z.eqb_eq _ _) Ea). }
    apply wp_bind, (wp_read_copy_staged D Backup); [apply R2|apply R2|done|done|].
    intros s3 Hin3 Hl3. cbn [lba_of] in *. pose proof (reading_but _ _ _ _ _ R2 Hin3) as R3.
    assert (Primary <> Backup) as Hne by discriminate.
    pose proof (sb_other _ _ _ Hin3 Primary Hne) as P3. cbn [side] in P3.
    pose proof (sc_use _ _ (sb_ctl _ _ _ Hin3)) as U3.
    destruct (load D (alt_lba D)) as [[h t]|] eqn:El; cycle 1.
    - rewrite bool_decide_eq_false_2 by (by intros []). apply wp_ret.
      split_and!; [done| |done|by rewrite U3, U2]. intros [].
      + unfold staged_copy in *. cbn [side] in *. by rewrite P3.
      + unfold staged_copy, loads. cbn [lba_of]. rewrite (proj2 (Z.eqb_neq _ _)), El by done.
        by rewrite (sb_lba _ _ _ Hin3).
    - rewrite bool_decide_eq_true_2 by done. destruct Hl3 as (E1 & E2 & E3 & E4).
      apply wp_bind, wp_hdr_field. rewrite E1, E3. apply wp_bind, wp_modify.
      assert (forall u, reading D (b_part s) (set_use u (on_side Backup (set_lba (alt_lba D)) s3)) /\
        (forall w, staged_copy D w (set_use u (on_side Backup (set_lba (alt_lba D)) s3))) /\
        b_primary (on_side Backup (set_lba (alt_lba D)) s3) = b_primary s2) as H.
      { intros u. split_and!; [by apply (reading_lba D _ Backup)| |done]. intros [].
        - unfold staged_copy in *. cbn [side set_use on_side b_primary] in *. by rewrite P3.
        - unfold staged_copy, loads. cbn [lba_of]. by rewrite (proj2 (Z.eqb_neq _ _)), El. }
      assert (c_lba (b_primary s2) = if ok1 then 1 else 0) as Ep.
      { unfold staged_copy, loads in St1. cbn [lba_of Z.eqb side] in St1. unfold ok1.
        destruct (load D 1) as [[? ?]|]; [by destruct St1 as (-> & _)|done]. }
      rewrite Ep. destruct ok1; cbn [Z.eqb].
      + apply wp_ret. destruct (H (b_use s3)) as (H1 & H2 & H3). split_and!; [exact H1|exact H2|done|].
        by rewrite <- U2, <- U3.
      + apply wp_modify. destruct (H (Some Backup)) as (H1 & H2 & H3). by split_and!. }
  intros _ s4 (R4 & St4 & P4 & U4). rewrite <- P4.
  apply (wp_conv_both D); [|apply R4|done|done|done|].
  { destruct (rd_shape _ _ _ R4) as (K1 & K2 & _). split; [done| |done].
    intros w. apply staged_plain with (D := D), St4. }
  intros s' [B1 B2 B3 B4].
  replace (if _ && _ then -1 else 0) with (match use_of D None with Some _ => 0 | None => -1 end).
  - apply HQ. destruct B2 as [C1 C2 C3 C4 _ _ C7]. destruct R4 as [_ Q1 Q2 Q3 Q4].
    split; [exact B1| |congruence|congruence|congruence|congruence|exact B3|exact B4].
    rewrite C1, U4. unfold use_of, ok1, ok2. change (loads D Primary) with (load D 1).
    rewrite !decide_some. by destruct (load D 1), (loads D Backup).
  - pose proof (staged_none _ _ _ (St4 Primary)) as N1. pose proof (staged_none _ _ _ (St4 Backup)) as N2.
    cbn [side] in *. unfold use_of.
    destruct (loads D Primary).
    { rewrite (proj2 (Z.eqb_neq (c_lba (b_primary s4)) 0)); [done|]. intros E; by apply N1 in E. }
    rewrite (proj2 (Z.eqb_eq (c_lba (b_primary s4)) 0)) by (by apply N1). cbn [andb].
    destruct (loads D Backup).
    + rewrite (proj2 (Z.eqb_neq (c_lba (b_backup s4)) 0)); [done|]. intros E; by apply N2 in E.
    + by rewrite (proj2 (Z.eqb_eq (c_lba (b_backup s4)) 0)) by (by apply N2).
Qed.
End load.
