(* ===== verification/BootHeld.v ===== *)
(** * BootHeld: from one call of gptboot to the next

    What memory and disk hold between [gptread], [gptfind] and the next boot ([held],
    [held_again]), and the order of the partitions in terms of the table on the disk
    ([order_of]). *)
From Stdlib Require Import ZArith Lia.
From stdpp Require Import base list option.
From S2P Require Import Prelude Crc32 GptIo GptRep BootGpt BootRules BootFind BootTries BootRead BootSync BootConv BootLoad.
Open Scope Z_scope.

Section props.
Context {gpt : SysGpt} {laws : SysGptLaws} {bs : BootSys} {blaws : BootSysLaws} {bios : Bios}.
Implicit Types (c : copy) (s : boot) (t h d D : list Z) (w : which).

(** ** The program and the disk when the machine is started *)
Record power_on s (buf : list Z) : Prop := {
  po_shape : forall w, shape (side w s);
  po_part : b_part s = -1;
  po_buf : (512 <= length buf)%nat;
  po_bytes : bytes_ok buf;
}.

(** A disk of bytes, the headers of which the code can work with, and where copies do not
    overlap. *)
Record boot_disk D : Prop := {
  bd_bytes : bytes_ok D;
  bd_len : Z.of_nat (length D) < 2 ^ 62;
  bd_plain : plain_at D 1;
  bd_plain_alt : plain_at D (alt_lba D);
  bd_good : good_disk D;
}.

(** The order in which the entries of a table on the disk are tried. *)
Definition sel_in (uuid : list Z) (ok : Z -> bool) t (i : Z) : bool :=
  bool_decide (tget i ent_type t = uuid) && ok (tattr i t).

Definition order_of (uuid : list Z) h t : list Z :=
  order (hget hdr_entries h) (sel_in uuid is_bootonce t) (sel_in uuid is_bootme t)
    (sel_in uuid any_attr t).

(** ** What the conversion keeps *)
Lemma tget_take n j f t : 0 <= j < n -> tget j f (take (Z.to_nat (n * 128)) t) = tget j f t.
Proof. intros Hj. pose proof (field_room f). apply take_sub. lia. Qed.

Lemma tattr_take n j t : 0 <= j < n -> tattr j (take (Z.to_nat (n * 128)) t) = tattr j t.
Proof. intros Hj. unfold tattr. by rewrite tget_take. Qed.

Lemma conv_table_attr n j t : table_ok t -> 0 <= j < n -> n <= 128 ->
  tattr j (conv_table n t) = if decide (j < 4 * (n / 4)) then conv_val (tattr j t) else tattr j t.
Proof.
  intros Ht Hj Hn. unfold conv_table.
  rewrite conv_from_attr by (done || lia || (apply conv_range; lia)).
  assert (0 <= 4 * (n / 4)) by dlia. repeat case_decide; (done || lia).
Qed.

Lemma sel_conv uuid ok n j t0 : table_ok t0 -> 0 <= j < n -> n <= 128 ->
  (forall a, ok (conv_val a) = ok a) ->
  sel_in uuid ok (conv_table n t0) j = sel_in uuid ok (take (Z.to_nat (n * 128)) t0) j.
Proof.
  intros Ht Hj Hn Hok. unfold sel_in. rewrite tget_take, tattr_take by done. f_equal.
  - unfold conv_table. rewrite conv_from_get; [done|done|lia| |lia|done]. apply conv_range. lia.
  - rewrite conv_table_attr by done. case_decide; [apply Hok|done].
Qed.

Lemma order_ext n (o m t o' m' t' : Z -> bool) : (forall j, 0 <= j < n -> o j = o' j) ->
  (forall j, 0 <= j < n -> m j = m' j) -> (forall j, 0 <= j < n -> t j = t' j) ->
  order n o m t = order n o' m' t'.
Proof.
  intros Ho Hm Ht. unfold order. rewrite (picks_ext o o'), (picks_ext m m'), (picks_ext t t') by auto.
  destruct (Z.lt_ge_cases 0 n); [by rewrite Ho by lia|].
  rewrite !picks_to_nil by lia. by destruct (o _), (o' _).
Qed.

(** A table and its conversion are tried in the same order. *)
Lemma order_conv uuid n t0 : table_ok t0 -> n <= 128 ->
  order n (sel_in uuid is_bootonce (conv_table n t0)) (sel_in uuid is_bootme (conv_table n t0))
    (sel_in uuid any_attr (conv_table n t0)) =
  order n (sel_in uuid is_bootonce (take (Z.to_nat (n * 128)) t0))
    (sel_in uuid is_bootme (take (Z.to_nat (n * 128)) t0))
    (sel_in uuid any_attr (take (Z.to_nat (n * 128)) t0)).
Proof.
  intros Ht Hn. apply order_ext; intros j Hj; (apply sel_conv; [done..|]); intros a; [..|done];
    apply conv_val_once.
Qed.

(** ** The state holds what it read from the disk *)
Record held D s : Prop := {
  he_ok : boot_ok s;
  he_sync : in_sync s;
  he_len : length (b_disk s) = length D;
  he_copy : forall w h t, loads D w = Some (h, t) ->
    c_lba (side w s) = lba_of D w /\ like_hdr (hc h) (side w s);
}.

Lemma after_read_held D s s' : after_read D s s' -> good_disk D -> held D s'.
Proof.
  intros [A1 _ _ _ _ A6 A7 A8] Hg. split; [done|auto|done|]. intros w h t E. specialize (A7 w).
  unfold read_in in A7. rewrite E in A7. by destruct A7 as (H1 & H2 & _).
Qed.

Lemma held_touched D f i ws s s' : held D s -> touched f i ws s s' -> in_sync s' -> held D s'.
Proof.
  intros [H1 H2 H3 H4] [T1 T2 T3 T4 _ _] Hi. split; [done|done| |].
  - by rewrite (sc_disk _ _ T1).
  - intros w h t E. destruct (H4 w h t E) as [E1 E2]. split; [by rewrite T3|].
    intros g G1 G2. by rewrite T4, E2.
Qed.

Lemma held_like D s s' : held D s -> (forall w, side w s' = side w s) -> b_disk s' = b_disk s ->
  length (b_secbuf s') = length (b_secbuf s) -> held D s'.
Proof.
  intros [H1 H2 H3 H4] Hs Hd Hb. split.
  - by eapply boot_ok_sides.
  - by eapply in_sync_like.
  - congruence.
  - intros w h t E. rewrite Hs. by apply (H4 w h t).
Qed.

(** Both copies are there. *)
Definition two_copies D h t h' t' : Prop := loads D Primary = Some (h, t) /\ loads D Backup = Some (h', t').

Lemma hdr_at_load D lba h t : load D lba = Some (h, t) -> hdr_at D lba = Some h.
Proof.
  intros ((d & Ed & ->) & _)%load_inv. unfold hdr_at. by rewrite Ed.
Qed.

Lemma plain_at_load D lba h t : load D lba = Some (h, t) -> plain h -> plain_at D lba.
Proof. intros H%hdr_at_load Hp h' E _. rewrite H in E. by injection E as <-. Qed.

Lemma alt_of D h t : loads D Primary = Some (h, t) -> alt_lba D = hget hdr_lba_alt h.
Proof. unfold loads, alt_lba. cbn [lba_of Z.eqb]. by intros ->. Qed.

(** The disk that is left is read again, with the tables as they are in memory. *)
Lemma held_again D s h t h' t' : boot_disk D -> two_copies D h t h' t' -> held D s ->
  boot_disk (b_disk s) /\ exists g g',
    two_copies (b_disk s) g (take (Z.to_nat (hget hdr_entries h * 128)) (c_table (b_primary s)))
      g' (take (Z.to_nat (hget hdr_entries h' * 128)) (c_table (b_backup s))) /\
    hget hdr_entries g = hget hdr_entries h.
Proof.
  intros HD [L1 L2] [H1 H2 H3 H4]. pose proof HD as [B1 B2 _ _ B5].
  assert (Hone : forall w hw tw, loads D w = Some (hw, tw) ->
    exists g, load (b_disk s) (lba_of D w) =
      Some (g, take (Z.to_nat (hget hdr_entries hw * 128)) (c_table (side w s))) /\
      like_hdr (side w s) (hc g) /\ plain g /\ like_hdr (hc hw) (side w s)).
  { intros w hw tw E. destruct (H4 w hw tw E) as [E1 E2]. destruct (loads_lba _ _ _ E) as [Hne El].
    assert (c_lba (side w s) <> 0) as Hl by congruence.
    destruct (reload D (b_disk s) (lba_of D w) hw tw (side w s)) as (g & G1 & G2 & G3);
      [done|done|apply H2|done|apply H1|by apply (bo_plain _ H1)|done|by apply H2|].
    exists g. split_and!; [|done..]. rewrite G1. unfold c_n. by rewrite (E2 hdr_entries). }
  destruct (Hone Primary h t L1) as (g & G1 & G2 & G3 & G4).
  destruct (Hone Backup h' t' L2) as (g' & G1' & G2' & G3' & G4'). cbn [lba_of side] in *.
  assert (forall f, f <> hdr_crc_table -> f <> hdr_crc_self -> hget f g = hget f h) as Eg.
  { intros f F1 F2. transitivity (hget f (c_hdr (b_primary s))); [by apply G2|by apply G4]. }
  assert (loads (b_disk s) Primary = Some (g, take (Z.to_nat (hget hdr_entries h * 128)) (c_table (b_primary s))))
    as N1 by exact G1.
  assert (alt_lba (b_disk s) = alt_lba D) as Ealt.
  { rewrite (alt_of _ _ _ N1), (alt_of _ _ _ L1). by apply Eg. }
  assert (loads (b_disk s) Backup = Some (g', take (Z.to_nat (hget hdr_entries h' * 128)) (c_table (b_backup s)))) as N2.
  { unfold loads. cbn [lba_of]. rewrite Ealt. destruct (loads_lba _ _ _ L2) as [Hne _].
    cbn [lba_of] in Hne. by rewrite (proj2 (Z.eqb_neq _ _)). }
  assert (c_lba (b_primary s) <> 0 /\ c_lba (b_backup s) <> 0) as [Z1 Z2].
  { pose proof (proj1 (H4 _ _ _ L1)) as E1. pose proof (proj1 (H4 _ _ _ L2)) as E2.
    cbn [side] in *. rewrite E1, E2.
    split; [apply (loads_lba D Primary _ L1)|apply (loads_lba D Backup _ L2)]. }
  split.
  - split.
    + apply H2.
    + by rewrite H3.
    + by eapply plain_at_load.
    + rewrite Ealt. by eapply plain_at_load.
    + split.
      * intros [] x y E; rewrite ?N1, ?N2 in E; injection E as <- <-.
        -- by apply (placed_like (b_disk s) _ (b_primary s)); [apply (is_placed _ H2 Primary)|..].
        -- by apply (placed_like (b_disk s) _ (b_backup s)); [apply (is_placed _ H2 Backup)|..].
      * intros x y x' y' E E'. rewrite N1 in E. rewrite N2 in E'. injection E as <- <-. injection E' as <- <-.
        destruct (like_place _ _ G2) as (P1 & P2 & P3), (like_place _ _ G2') as (Q1 & Q2 & Q3).
        split; [rewrite P3, Q3; by apply H2|]. intros z. unfold own, tbl_own.
        rewrite P1, P2, P3, Q1, Q2, Q3. by apply (is_apart _ H2).
  - exists g, g'. split; [done|]. by apply Eg.
Qed.

(** ** The first call of [gptfind] after [gptread] *)
Lemma two_use D h t h' t' old : two_copies D h t h' t' -> use_of D old = Some Primary.
Proof. intros [E _]. unfold use_of. by rewrite E. Qed.

Lemma two_entries D h t h' t' : two_copies D h t h' t' -> good_disk D ->
  hget hdr_entries h' = hget hdr_entries h /\ hget hdr_entries h mod 4 = 0.
Proof.
  intros [E1 E2] [G1 G2]. split; [symmetry; exact (proj1 (G2 _ _ _ _ E1 E2))|].
  exact (pc_full _ _ (G1 _ _ _ E1)).
Qed.

(** The table in memory is the converted one of the disk. *)
Lemma read_table D s s' w h t : after_read D s s' -> good_disk D -> loads D w = Some (h, t) ->
  c_lba (side w s') <> 0 /\ entries w s' = hget hdr_entries h /\ 0 <= hget hdr_entries h <= 128 /\
  exists t0, table_ok t0 /\ take (Z.to_nat (hget hdr_entries h * 128)) t0 = t /\
    c_table (side w s') = conv_table (hget hdr_entries h) t0.
Proof.
  intros [A1 _ _ _ _ _ A7 _] Hg E. specialize (A7 w). unfold read_in in A7. rewrite E in A7.
  destruct A7 as (H1 & H2 & H3). destruct (loads_lba _ _ _ E) as [Hne _].
  assert (c_lba (side w s') <> 0) as Hl by congruence.
  assert (entries w s' = hget hdr_entries h) as En by (by apply H2).
  destruct (entries_bound w s' A1 (bo_plain _ A1 w Hl)) as [Hn _]. rewrite En in Hn.
  split_and!; (done || lia).
Qed.

Lemma read_side D s s' w h t h' t' : after_read D s s' -> good_disk D -> two_copies D h t h' t' ->
  c_lba (side w s') <> 0 /\ c_n (side w s') = hget hdr_entries h.
Proof.
  intros A Hg H2. destruct (two_entries _ _ _ _ _ H2 Hg) as [E _], H2 as [E1 E2]. destruct w.
  - by destruct (read_table _ _ _ _ _ _ A Hg E1) as (? & ? & _).
  - destruct (read_table _ _ _ _ _ _ A Hg E2) as (? & En & _). rewrite E in En. by split.
Qed.

Lemma conv_val_failed a : me a = false -> once a = true -> failed (conv_val a) = true.
Proof.
  intros Hm Ho. unfold conv_val. rewrite conv_attr_eq, Hm, Ho. cbn [negb andb].
  destruct (failed a) eqn:E; cbn [negb]; [done|]. apply attr_failed_bits.
Qed.

Lemma read_attr D s s' w h t i : after_read D s s' -> good_disk D -> loads D w = Some (h, t) ->
  hget hdr_entries h mod 4 = 0 -> 0 <= i < hget hdr_entries h ->
  tattr i (c_table (side w s')) = conv_val (tattr i t).
Proof.
  intros A Hg E Hm Hi. destruct (read_table _ _ _ _ _ _ A Hg E) as (_ & _ & Hn & t0 & T1 & <- & T3).
  rewrite T3, conv_table_attr, decide_True by (done || dlia || lia). by rewrite tattr_take.
Qed.

Lemma read_selected D s s' w h t uuid ok j : after_read D s s' -> good_disk D ->
  loads D w = Some (h, t) -> 0 <= j < hget hdr_entries h -> (forall a, ok (conv_val a) = ok a) ->
  selected w uuid ok s' j = sel_in uuid ok t j.
Proof.
  intros A Hg E Hj Hok. destruct (read_table _ _ _ _ _ _ A Hg E) as (_ & _ & Hn & t0 & T1 & <- & T3).
  unfold selected. rewrite T3. apply (sel_conv uuid ok _ j t0); (done || lia).
Qed.

Lemma read_track D s s' h t h' t' uuid : after_read D s s' -> good_disk D ->
  two_copies D h t h' t' ->
  track Primary uuid (hget hdr_entries h) (sel_in uuid is_bootonce t) (sel_in uuid is_bootme t) s'.
Proof.
  intros A Hg H2. pose proof (proj1 H2) as E.
  destruct (read_table _ _ _ _ _ _ A Hg E) as (Hl & En & Hn & _).
  split; [apply A|split; [|done]|done|rewrite (ar_curent _ _ _ A); lia|..].
  - rewrite (ar_use _ _ _ A). by eapply two_use.
  - intros j Hj. eapply read_selected; [done..|]. intros a. apply conv_val_once.
  - intros _ j Hj. rewrite (ar_curent _ _ _ A) in Hj.
    eapply read_selected; [done|done|done|lia|]. intros a. apply conv_val_once.
Qed.

Lemma wp_gptfind_first w uuid n o m (a : Z -> bool) s (Q : Z -> boot -> Prop) :
  track w uuid n o m s -> b_curent s = -1 -> phase s = true ->
  (forall j, 0 <= j < n -> selected w uuid any_attr s j = a j) ->
  match order n o m a with
  | [] => forall ph, Q (-1) (set_curent n (with_phase ph s))
  | i :: l => forall ph, 0 <= i < n -> remaining ph i n o m = l ->
      Q 0 (found_state w (set_curent i (with_phase ph s)))
  end ->
  wp (gptfind uuid (-1)) s Q.
Proof.
  intros T Hc Hp Ha HQ. apply (wp_gptfind w); [apply T|apply T|lia|].
  rewrite (tk_n _ _ _ _ _ _ T), Hc, Hp.
  rewrite (choose_ext _ _ _ _ _ _ _ o m a); [|lia| |apply T|done].
  - pose proof (choose_order n o m a) as Hch. change (-1 =? -1) with true.
    destruct (choose _ _ _ _ _ _ _) as [[i ph]|].
    + destruct Hch as (Hi & _ & Hr). rewrite Hr in HQ. by apply HQ.
    + by rewrite Hch in HQ.
  - intros _ j Hj. apply (tk_once _ _ _ _ _ _ T); [done|lia].
Qed.

Lemma track_first w uuid n o m s i ph : track w uuid n o m s -> b_curent s = -1 ->
  phase s = true -> 0 <= i < n -> let s' := found_state w (set_curent i (with_phase ph s)) in
  track w uuid n o m s' /\ spent w s' /\ b_part s' = i + 1 /\ b_curent s' = i /\ phase s' = ph.
Proof.
  intros T Hc Hp Hi s'.
  assert (track w uuid n o m (set_curent i (with_phase ph s))) as T2
    by (apply track_pick; [done..|]; rewrite Hc, Hp; split; [done|lia]).
  destruct (track_found _ _ _ _ _ _ T2) as (T3 & S3 & P3 & C3 & F3); [done|].
  split_and!; try done. unfold s'. rewrite F3. destruct ph; [exact Hp|done].
Qed.

(** ** The order is short, and has what is to be booted *)
Lemma length_picks f a k : (length (picks f a k) <= k)%nat.
Proof.
  revert a. induction k as [|k IH]; intros a; cbn [picks]; [done|].
  specialize (IH (a + 1)). destruct (f a); cbn [length]; lia.
Qed.

Lemma length_order n (o m a : Z -> bool) : 0 <= n -> (length (order n o m a) <= S (Z.to_nat (2 * n)))%nat.
Proof.
  intros Hn. pose proof (length_picks o 0 (Z.to_nat (n - 0))) as L1.
  pose proof (length_picks m 0 (Z.to_nat (n - 0))) as L2. unfold order.
  fold (picks_to o 0 n) in L1. fold (picks_to m 0 n) in L2.
  destruct (_ ++ _) as [|x l] eqn:E; [rewrite length_take; lia|].
  rewrite <- E, length_app. destruct (o _); cbn [length]; lia.
Qed.

Lemma order_in n (o m a : Z -> bool) j : 0 <= j < n -> o j || (m j && negb (o (n - 1))) = true ->
  j ∈ order n o m a.
Proof.
  intros Hj H.
  assert (j ∈ picks_to o 0 n ++ (if o (n - 1) then [] else picks_to m 0 n)) as Hin.
  { apply elem_of_app. destruct (o j) eqn:Eo; [left; by apply picks_in|right].
    destruct (o (n - 1)), (m j) eqn:Em; try done. by apply picks_in. }
  unfold order. destruct (_ ++ _); [by apply elem_of_nil in Hin|done].
Qed.

(** Nothing of the type, nothing to try. *)
Lemma order_nil n (o m a : Z -> bool) : order n o m a = [] -> forall j, 0 <= j < n -> a j = false.
Proof.
  unfold order. destruct (_ ++ _); [|done]. intros E j Hj. destruct (a j) eqn:Ea; [|done].
  assert (j ∈ picks_to a 0 n) as Hin by by apply picks_in.
  destruct (picks_to a 0 n); [by apply elem_of_nil in Hin|done].
Qed.

Lemma remaining_none ph i n : remaining ph i n (fun _ => false) (fun _ => false) = [].
Proof.
  assert (forall a k, picks (fun _ => false) a k = []) as E
    by (intros a k; revert a; induction k; intros; cbn [picks]; auto).
  unfold remaining, picks_to. rewrite !E. by repeat case_match.
Qed.

(** ** [gptread], twice *)
Lemma wp_gptread_two buf s h t h' t' (Q : Z -> boot -> Prop) : let D := b_disk s in
  (forall w, shape (side w s)) -> (512 <= length buf)%nat -> bytes_ok buf -> boot_disk D ->
  two_copies D h t h' t' -> (forall s', after_read D s s' -> Q 0 s') -> wp (gptread buf) s Q.
Proof.
  intros D Hs Hl Hb [B1 B2 B3 B4 B5] H2 HQ. apply wp_gptread; [done..|]. intros s' A.
  fold D in A |- *. rewrite (two_use _ _ _ _ _ None H2). by apply HQ.
Qed.

Lemma held_read D s s' h t h' t' n ph : boot_disk D -> two_copies D h t h' t' -> after_read D s s' ->
  let s1 := set_curent n (with_phase ph s') in
  (forall w, shape (side w s1)) /\ boot_disk (b_disk s1) /\ exists g g' u u',
    two_copies (b_disk s1) g u g' u' /\ hget hdr_entries g = hget hdr_entries h /\
    forall uuid ok j, 0 <= j < hget hdr_entries h -> (forall a, ok (conv_val a) = ok a) ->
      sel_in uuid ok u j = sel_in uuid ok t j.
Proof.
  intros HD H2 A s1. pose proof (bd_good _ HD) as Hg.
  assert (forall w, side w s1 = side w s') as Es
    by (intros w; unfold s1; by rewrite side_set_curent, side_with_phase).
  assert (held D s1) as Hh by (apply (held_like D s'); [by eapply after_read_held|done|by destruct ph..]).
  split; [apply (he_ok _ _ Hh)|]. destruct (held_again D s1 h t h' t' HD H2 Hh) as (HD' & g & g' & G1 & G2).
  split; [done|]. exists g, g'. do 2 eexists. split_and!; [exact G1|done|]. intros uuid ok j Hj Hok.
  destruct (read_table _ _ _ _ _ _ A Hg (proj1 H2)) as (_ & _ & Hn & t0 & T1 & <- & T3).
  change (b_primary s1) with (side Primary s1). rewrite Es, T3.
  rewrite <- (sel_conv uuid ok (hget hdr_entries h) j t0) by (done || lia).
  unfold sel_in. by rewrite tget_take, tattr_take.
Qed.

(** The whole loop, from the first partition on. *)
Lemma wp_tries_first n i ph s (o m : Z -> bool) (Q : list Z -> boot -> Prop) : let s' := found_state Primary (set_curent i (with_phase ph s)) in
  track Primary (GPT_ENT_TYPE DRAGONFLY_UFS1) n o m s -> b_curent s = -1 -> phase s = true ->
  0 <= i < n -> (length (remaining ph i n o m) < S (Z.to_nat (2 * MAXTBLENTS)))%nat ->
  (forall s'', Q (map (fun i => i + 1) (i :: remaining ph i n o m)) s'') ->
  wp (tries (S (Z.to_nat (2 * MAXTBLENTS)))) s' Q.
Proof.
  intros s' T Hc Hp Hi Hlen HQ.
  destruct (track_first _ _ _ _ _ _ i ph T Hc Hp Hi) as (T1 & S1 & P1 & C1 & F1). fold s' in T1, S1, P1, C1, F1.
  apply (wp_tries _ Primary n o m); rewrite ?C1, ?F1; done.
Qed.

(** No entry has the first type: the loop has nothing to go on with. *)
Lemma track_nothing uuid uuid' n o m s : track Primary uuid' n o m s -> b_curent s = -1 ->
  (forall ok j, 0 <= j < n -> (forall a, ok (conv_val a) = ok a) -> selected Primary uuid ok s j = false) ->
  track Primary uuid n (fun _ => false) (fun _ => false) s.
Proof.
  intros [X1 X2 X3 X4 _ _] Hc Hno. split; [done..| |].
  - intros j Hj. apply Hno; [done|]. intros a. apply conv_val_once.
  - rewrite Hc. intros _ j Hj. apply Hno; [lia|]. intros a. apply conv_val_once.
Qed.

Lemma order_nil_sel uuid n t : order n (sel_in uuid is_bootonce t) (sel_in uuid is_bootme t) (sel_in uuid any_attr t) = [] ->
  forall ok j, 0 <= j < n -> sel_in uuid ok t j = false.
Proof.
  intros Hnil ok j Hj. pose proof (order_nil _ _ _ _ Hnil j Hj) as E. unfold sel_in, any_attr in *.
  rewrite andb_true_r in E. by rewrite E.
Qed.

Abbreviation UFS1 := (GPT_ENT_TYPE DRAGONFLY_UFS1).
Abbreviation UFS2 := (GPT_ENT_TYPE FREEBSD_UFS).

(** The second call of [gptread] and [gptfind] of gptinit, and the loop: the table on the
    disk may have changed, but not what is selected from [t]. *)
Lemma wp_fallback buf s n g u g' u' t (Q : list Z -> boot -> Prop) : let D := b_disk s in
  (forall w, shape (side w s)) -> (512 <= length buf)%nat -> bytes_ok buf -> boot_disk D ->
  b_part s = -1 -> two_copies D g u g' u' -> hget hdr_entries g = n ->
  (forall uuid ok j, 0 <= j < n -> (forall a, ok (conv_val a) = ok a) ->
    sel_in uuid ok u j = sel_in uuid ok t j) ->
  (forall ok j, 0 <= j < n -> sel_in UFS1 ok t j = false) ->
  (forall s', Q (map (fun i => i + 1) (take 1 (order n (sel_in UFS2 is_bootonce t)
    (sel_in UFS2 is_bootme t) (sel_in UFS2 any_attr t)))) s') ->
  wp (r ← gptread buf;
      if r =? -1 then mret (-1)
      else part ← gets b_part;
           r ← gptfind UFS2 part;
           if r =? -1 then mret (-1) else mret 0) s
    (fun r s' => wp (if negb (r =? 0) then mret [] else tries (S (Z.to_nat (2 * MAXTBLENTS)))) s' Q).
Proof.
  intros D P1 P3 P4 HD P2 H2 En Heq Hno HQ. pose proof (bd_good _ HD) as Hg.
  apply wp_bind, (wp_gptread_two _ _ g u g' u'); [done..|]. intros s3 B. fold D in B.
  cbn [Z.eqb]. apply wp_bind, wp_gets. rewrite (ar_part _ _ _ B), P2.
  assert (forall uuid ok j, 0 <= j < n -> (forall a, ok (conv_val a) = ok a) ->
    selected Primary uuid ok s3 j = sel_in uuid ok t j) as Hsel.
  { intros uuid ok j Hj Hok. rewrite <- Heq by done.
    apply (read_selected _ _ _ _ _ _ _ _ _ B Hg (proj1 H2)); [by rewrite En|done]. }
  pose proof (read_track _ _ _ _ _ _ _ UFS2 B Hg H2) as T3. rewrite En in T3.
  assert (phase s3 = true) as Hp by (unfold phase; by rewrite (ar_once _ _ _ B)).
  assert (track Primary UFS1 n (fun _ => false) (fun _ => false) s3) as T0.
  { apply (track_nothing _ _ _ _ _ _ T3); [apply B|]. intros ok j Hj Hok.
    rewrite Hsel by done. by apply Hno. }
  apply wp_bind, (wp_gptfind_first Primary _ n _ _ (sel_in UFS2 any_attr t) s3 _ T3);
    [apply B|done|intros j Hj; by apply Hsel|].
  rewrite (order_ext n _ _ _ (sel_in UFS2 is_bootonce t) (sel_in UFS2 is_bootme t) (sel_in UFS2 any_attr t));
    [|intros j Hj; apply Heq; (done || intros a; apply conv_val_once)..|done].
  destruct (order n (sel_in UFS2 _ _) _ _) as [|i l].
  - intros ph2. cbn [Z.eqb]. apply wp_ret. cbn [Z.eqb negb]. apply wp_ret. apply HQ.
  - intros ph2 Hi _. cbn [Z.eqb]. apply wp_ret. cbn [Z.eqb negb].
    apply (wp_tries_first n i ph2 s3 (fun _ => false) (fun _ => false)); [done|apply B|done..| |];
      rewrite remaining_none; [cbn; lia|exact HQ].
Qed.

Lemma wp_attempts buf s h t h' t' (Q : list Z -> boot -> Prop) :
  power_on s buf -> boot_disk (b_disk s) -> two_copies (b_disk s) h t h' t' ->
  (forall s', Q (map (fun i => i + 1)
    match order_of UFS1 h t with [] => take 1 (order_of UFS2 h t) | l => l end) s') ->
  wp (attempts buf) s Q.
Proof.
  intros [P1 P2 P3 P4] HD H2 HQ. pose proof (bd_good _ HD) as Hg. unfold attempts, gptinit.
  apply wp_bind, wp_bind, wp_gets, wp_bind, wp_gets, wp_bind, (wp_gptread_two _ _ h t h' t'); [done..|].
  intros s1 A. cbn [Z.eqb]. apply wp_bind, wp_gets. rewrite (ar_part _ _ _ A), P2.
  unfold order_of in HQ. set (n := hget hdr_entries h) in *.
  pose proof (read_track _ _ _ _ _ _ _ UFS1 A Hg H2) as T1. fold n in T1.
  pose proof (track_bound _ _ _ _ _ _ T1) as Hn.
  pose proof (length_order n (sel_in UFS1 is_bootonce t) (sel_in UFS1 is_bootme t)
    (sel_in UFS1 any_attr t) (proj1 Hn)) as Hlen.
  assert (phase s1 = true) as Hp by (unfold phase; by rewrite (ar_once _ _ _ A)).
  apply wp_bind, (wp_gptfind_first Primary _ n _ _ (sel_in UFS1 any_attr t) s1 _ T1);
    [apply A|done|intros j Hj; by apply (read_selected _ _ _ _ _ _ _ _ _ A Hg (proj1 H2))|].
  destruct (order n (sel_in UFS1 _ _) _ _) as [|i l] eqn:Eo.
  - intros ph. cbn [Z.eqb].
    destruct (held_read _ _ _ _ _ _ _ n ph HD H2 A) as (K1 & K2 & g & g' & u & u' & K3 & K4 & K5).
    apply wp_bind, wp_modify, wp_bind, wp_modify, (wp_fallback buf _ n g u g' u' t);
      [|done..|by apply order_nil_sel|exact HQ].
    intros v. rewrite side_set_start, side_set_part. apply K1.
  - intros ph Hi Hr. cbn [Z.eqb]. apply wp_ret. cbn [Z.eqb negb].
    eapply wp_tries_first; [exact T1|apply A|done..| |]; rewrite Hr; [|exact HQ].
    cbn [length] in Hlen. unfold MAXTBLENTS. lia.
Qed.

(** ** A partition to be booted once *)
Lemma found_once w s : once (tattr (b_curent s) (c_table (side w s))) = true ->
  exists s1, found_state w s = both_marked attr_tried s1 /\ (forall v, side v s1 = side v s) /\
    b_curent s1 = b_curent s /\ b_part s1 = b_curent s + 1 /\ b_disk s1 = b_disk s /\
    length (b_secbuf s1) = length (b_secbuf s).
Proof.
  intros E. unfold found_state. rewrite E. eexists. split; [done|].
  split_and!; [|done..]. intros v. by rewrite side_set_start, side_set_part.
Qed.

(** After [gptfind] picked it, both copies say that it was tried, also on the disk. *)
Lemma wp_pick_once uuid i D s0 s h t h' t' (Q : Z -> boot -> Prop) : boot_disk D ->
  two_copies D h t h' t' -> after_read D s0 s ->
  head (order_of uuid h t) = Some i -> is_bootonce (tattr i t) = true ->
  (forall s', held D s' -> b_part s' = i + 1 -> 0 <= i < hget hdr_entries h ->
    (forall w, me (tattr i (c_table (side w s'))) = false) ->
    once (tattr i (c_table (b_primary s'))) = true -> Q 0 s') ->
  wp (gptfind uuid (-1)) s Q.
Proof.
  intros HD H2 A Hi Ho HQ. pose proof (bd_good _ HD) as Hg. set (n := hget hdr_entries h) in *.
  pose proof (read_track _ _ _ _ _ _ _ uuid A Hg H2) as T. fold n in T.
  pose proof (track_bound _ _ _ _ _ _ T) as Hn.
  assert (phase s = true) as Hp by (unfold phase; by rewrite (ar_once _ _ _ A)).
  apply (wp_gptfind_first Primary _ n _ _ (sel_in uuid any_attr t) s _ T);
    [apply A|done|intros j Hj; by apply (read_selected _ _ _ _ _ _ _ _ _ A Hg (proj1 H2))|].
  unfold order_of in Hi. fold n in Hi. destruct (order n _ _ _) as [|i' l]; [done|].
  injection Hi as ->. intros ph Hi _. set (s1 := set_curent i (with_phase ph s)).
  assert (forall v, side v s1 = side v s) as Es
    by (intros v; unfold s1; by rewrite side_set_curent, side_with_phase).
  destruct (read_table _ _ _ _ _ _ A Hg (proj1 H2)) as (Hl & _ & _ & t0 & X1 & X2 & X3). fold n in X2, X3.
  assert (once (tattr i (c_table (side Primary s1))) = true) as Ho1.
  { rewrite Es, X3, conv_table_attr by (done || lia). rewrite <- X2, tattr_take in Ho by done.
    assert (is_bootonce (conv_val (tattr i t0)) = true) as Hc by by rewrite (proj1 (conv_val_once _)).
    unfold is_bootonce in Hc, Ho. apply andb_prop in Hc as [_ Hc]. apply andb_prop in Ho as [_ Ho].
    by case_decide. }
  destruct (found_once Primary s1 Ho1) as (s2 & -> & F1 & F2 & F3 & F4 & F5).
  assert (held D s2) as Hh.
  { apply (held_like D s); [by eapply after_read_held|intros v; by rewrite F1, Es|by rewrite F4; destruct ph|
      rewrite F5; by destruct ph]. }
  change (b_curent s1) with i in F2, F3.
  pose proof (both_touched attr_tried s2 (he_ok _ _ Hh)) as B. rewrite F2 in B. specialize (B ltac:(lia) attr_tried_bound).
  pose proof (fun w => read_side _ _ _ w _ _ _ _ A Hg H2) as Hside. fold n in Hside.
  assert (forall w, tattr i (c_table (side w (both_marked attr_tried s2))) =
    attr_tried (tattr i (c_table (side w s)))) as Ea.
  { intros w. rewrite (to_attr _ _ _ _ _ B), F1, Es.
    by rewrite (proj2 (Z.eqb_neq (c_lba (side w s)) 0)) by apply Hside. }
  apply HQ; [|rewrite (sc_part _ _ (to_ctl _ _ _ _ _ B)); exact F3|done| |].
  - apply (held_touched _ _ _ _ _ _ Hh B). apply both_sync; [apply Hh|apply Hh|apply attr_tried_bound|lia|].
    intros w _. rewrite F2, F1, Es. destruct (Hside w) as [_ ->]. lia.
  - intros w. rewrite Ea. apply attr_tried_bits.
  - change (b_primary ?x) with (side Primary x). rewrite Ea.
    rewrite (proj1 (proj2 (attr_tried_bits _))). by rewrite <- Es.
Qed.
End props.
