(* ===== verification/BootProps.v ===== *)
(** * BootProps: the boot protocol of gptboot

    What [gptread] accepts, which partitions gptboot tries and in which order, and that a
    partition that is to be booted once is not tried again after a crash; with a small disk
    on which the theorems apply. *)
From Stdlib Require Import ZArith Lia String.
From stdpp Require Import base list option.
From S2P Require Import Prelude Crc32 GptIo GptRep GptExample BootGpt BootRules BootFind BootTries BootRead BootSync BootConv BootLoad BootHeld.
Open Scope Z_scope.

(** ** A disk of six sectors *)

(** Sector 1 has the primary header, 2 its table, 3 the partitions, 4 the table of the backup
    and 5 its header.  The first of the four entries is to be booted once, the second one to be
    booted. *)
#[export] Instance ex_bs : BootSys := {|
  sizeof_gpt_hdr := 92;
  GPT_ENT_ATTR_BOOTME := 2 ^ 59;
  GPT_ENT_ATTR_BOOTONCE := 2 ^ 58;
  GPT_ENT_ATTR_BOOTFAILED := 2 ^ 57;
|}.
#[export] Instance ex_blaws : BootSysLaws.
Proof. split; [cbn; lia|done|]. exists 59, 58, 57. cbn. lia. Qed.
#[export] Instance ex_bios : Bios :=
  {| bios_read := fun _ => true; bios_write := fun _ => true; bios_size := true |}.

Definition ex_ent (kind : list Z) (attr : Z) : list Z :=
  kind ++ replicate 16 0 ++ le_enc 8 3 ++ le_enc 8 3 ++ le_enc 8 attr ++ replicate 72 0.
Definition ex_table : list Z :=
  ex_ent (ex_kind DRAGONFLY_UFS1) (2 ^ 59 + 2 ^ 58) ++ ex_ent (ex_kind DRAGONFLY_UFS1) (2 ^ 59) ++
  ex_ent (ex_kind DRAGONFLY_UFS1) 0 ++ replicate 128 0.
Definition ex_head (self alt tbl : Z) : list Z :=
  seal (hset hdr_lba_self self (hset hdr_lba_alt alt (hset hdr_lba_table tbl
    (hset hdr_size 92 (hset hdr_entries 4 (hset hdr_entsz 128 (hset hdr_revision 65536
      (cstr "EFI PART" ++ replicate 84 0)))))))) ex_table.
Definition ex_head1 : list Z := Eval vm_compute in ex_head 1 5 2.
Definition ex_head2 : list Z := Eval vm_compute in ex_head 5 1 4.
Definition ex_disk : list Z := Eval vm_compute in
  replicate 512 0 ++ ex_head1 ++ replicate 420 0 ++ ex_table ++ replicate 512 0 ++
  ex_table ++ ex_head2 ++ replicate 420 0.

Definition ex_copy : copy := Copy (replicate 92 0) (replicate (Z.to_nat (128 * 128)) 0) 0.
Definition ex_boot (D : list Z) : boot := Boot ex_copy ex_copy None 0 0 [] (-1) 0 D.

Lemma ex_power_on D : power_on (ex_boot D) (replicate 512 0).
Proof.
  split; [|done|by rewrite length_replicate|by apply Forall_replicate].
  assert (shape ex_copy) as H.
  { split; [by apply Forall_replicate|done|]. split; [by apply Forall_replicate|apply length_replicate]. }
  by intros [].
Qed.

Lemma ex_loads : two_copies ex_disk ex_head1 ex_table ex_head2 ex_table.
Proof. split; by vm_compute. Qed.

Lemma some_pair_fst {A B} (a a' : A) (b b' : B) : Some (a, b) = Some (a', b') -> a = a'.
Proof. by injection 1. Qed.

Lemma ex_place1 : c_n (hc ex_head1) = 4 /\ plain ex_head1 /\
  c_self (hc ex_head1) = 1 /\ c_tlba (hc ex_head1) = 2.
Proof. split_and!; [by vm_compute|split; by vm_compute|by vm_compute..]. Qed.

Lemma ex_place2 : c_n (hc ex_head2) = 4 /\ plain ex_head2 /\
  c_self (hc ex_head2) = 5 /\ c_tlba (hc ex_head2) = 4.
Proof. split_and!; [by vm_compute|split; by vm_compute|by vm_compute..]. Qed.

Lemma ex_owns w h t : loads ex_disk w = Some (h, t) ->
  let c := hc h in c_n c = 4 /\ plain h /\
  match w with Primary => c_self c = 1 /\ c_tlba c = 2 | Backup => c_self c = 5 /\ c_tlba c = 4 end.
Proof.
  destruct w; intros E; [rewrite (proj1 ex_loads) in E|rewrite (proj2 ex_loads) in E];
    apply some_pair_fst in E as <-; [exact ex_place1|exact ex_place2].
Qed.

Lemma ex_placed c a b : c_n c = 4 -> c_self c = a -> c_tlba c = b -> 0 <= a < 6 -> 0 <= b < 6 ->
  a <> b -> placed ex_disk c.
Proof.
  assert (Z.of_nat (length ex_disk) = 3072) as L by by vm_compute.
  intros H1 H2 H3 Ha Hb Hne. split; unfold own, tbl_own; rewrite ?H1, ?H2, ?H3, ?L; change (4 / 4) with 1; [lia|lia|done|lia|].
  intros x Hx. split_and!; [lia..|done].
Qed.

Lemma ex_boot_disk : boot_disk ex_disk.
Proof.
  split.
  - apply (bool_decide_unpack _). by vm_compute.
  - by vm_compute.
  - apply (plain_at_load _ _ ex_head1 ex_table); [by vm_compute|apply ex_place1].
  - apply (plain_at_load _ _ ex_head2 ex_table); [by vm_compute|apply ex_place2].
  - split.
    + intros w h t E. destruct (ex_owns w h t E) as (H1 & _ & H3). clear E.
      destruct w, H3 as [H3 H4]; eapply ex_placed; (done || lia).
    + intros h t h' t' E E'. destruct (ex_owns _ _ _ E) as (H1 & _ & H2 & H3), (ex_owns _ _ _ E') as (H1' & _ & H2' & H3').
      clear E E'. split; [congruence|]. intros x. unfold own, tbl_own. rewrite H1, H2, H3, H1', H2', H3'. change (4 / 4) with 1. lia.
Qed.

(** ** The properties *)
Section props.
Context {gpt : SysGpt} {laws : SysGptLaws} {bs : BootSys} {blaws : BootSysLaws} {bios : Bios}.
Implicit Types (c : copy) (s : boot) (t h d D : list Z) (w : which).
Abbreviation UFS1 := (GPT_ENT_TYPE DRAGONFLY_UFS1).
Abbreviation UFS2 := (GPT_ENT_TYPE FREEBSD_UFS).




End props.

(** The properties on the example disk. *)
Definition ex_buf : list Z := replicate 512 0.



