(* ===== verification/BootFlag.v ===== *)
(** * BootFlag: what fgdisk writes, gptboot boots

    The two programs share the GPT on the disk: gptboot accepts both copies of a table that
    fgdisk left sealed on the device ([labelled_loads]), and a partition that fgdisk flag marks
    to be booted once is the first that gptboot tries. *)
From Stdlib Require Import ZArith Lia.
From stdpp Require Import base list option gmap.
From S2P Require Import Prelude Dll Gd MediaMap Crc32 GptIo GptRep GptSpec GptEdit GptExample BootGpt BootRules BootFind BootTries BootRead BootSync BootConv BootLoad BootHeld BootProps.
Open Scope Z_scope.

Section flag.
Context {os : Os} {gpt : SysGpt} {laws : SysGptLaws} {uu : Uuid} {uul : UuidLaws}.
Context {bs : BootSys} {blaws : BootSysLaws} {bios : Bios}.
Implicit Types (s : store) (l : segs) (h t D : list Z) (x y : half) (c : contents).

(** ** The headers that fgdisk writes for a disk with sectors of 512 bytes *)

(** The header [h] of the copy [x], whose other copy has its header in sector [alt]. *)
Record boot_label x h (alt : Z) : Prop := {
  lb_sig : sub (off_hdr hdr_sig) (width_hdr hdr_sig) h = GPT_HDR_SIG;
  lb_rev : 0x10000 <= hget hdr_revision h;
  lb_self : hget hdr_lba_self h = sg_start (hf_hdr x).2;
  lb_alt : hget hdr_lba_alt h = alt;
  lb_tbl : hget hdr_lba_table h = sg_start (hf_tbl x).2;
  lb_entsz : hget hdr_entsz h = 128;
  lb_entries : 0 < hget hdr_entries h <= 128;
  lb_full : hget hdr_entries h mod 4 = 0;
  lb_size : Z.of_nat GPT_MIN_HDR_SIZE <= hget hdr_size h <= Z.of_nat sizeof_gpt_hdr;
}.

(** Both copies. *)
Record bootable s x y c : Prop := {
  ba_secsz : gd_secsz (s_gd s) = 512;
  ba_bytes : bytes_ok (s_disk s);
  ba_pri : boot_label x c.1.1 (sg_start (hf_hdr y).2);
  ba_sec : boot_label y c.2.1 (sg_start (hf_hdr x).2);
  ba_first : sg_start (hf_hdr x).2 = 1;
  ba_last : sg_start (hf_hdr y).2 <> 0;
  ba_n : hget hdr_entries c.2.1 = hget hdr_entries c.1.1;
}.

Lemma hget_sub f h h' : bytes_ok h -> bytes_ok h' -> (GPT_MIN_HDR_SIZE <= length h)%nat ->
  (GPT_MIN_HDR_SIZE <= length h')%nat -> hget f h' = hget f h ->
  sub (off_hdr f) (width_hdr f) h' = sub (off_hdr f) (width_hdr f) h.
Proof.
  intros Hb Hb' Hl Hl' E. pose proof (hdr_inside f).
  apply le_dec_inj; [by apply bytes_ok_sub..| |exact E]. by rewrite !length_sub by lia.
Qed.

(** A header whose checksums alone changed. *)
Lemma label_like x h h' alt : boot_label x h alt -> bytes_ok h -> bytes_ok h' ->
  (GPT_MIN_HDR_SIZE <= length h)%nat -> (GPT_MIN_HDR_SIZE <= length h')%nat ->
  (forall f, f <> hdr_crc_table -> f <> hdr_crc_self -> hget f h' = hget f h) -> boot_label x h' alt.
Proof.
  intros [] Hb Hb' Hl Hl' E. split; try (by rewrite E).
  rewrite (hget_sub hdr_sig h h'); [done..|]. by apply E.
Qed.

(** ** gptboot accepts it *)
Section reads.
Context (Hread : forall lba, bios_read lba = true) (Hwrite : forall lba, bios_write lba = true).

Lemma sector_some_of D lba : 0 <= lba -> (lba + 1) * 512 <= Z.of_nat (length D) ->
  sector D lba = Some (sub (Z.to_nat (lba * 512)) 512 D).
Proof.
  intros H1 H2. unfold sector, DEV_BSIZE. rewrite Hread.
  by rewrite (proj2 (Z.leb_le _ _) H1), (proj2 (Z.leb_le _ _) H2).
Qed.

Lemma sealed_sums h t : sealed h t -> hdr_sums h = true.
Proof. intros [_ E]. unfold hdr_sums. apply Z.eqb_eq. by rewrite E. Qed.

Lemma label_valid x h alt : boot_label x h alt -> (sizeof_gpt_hdr <= length h)%nat ->
  hdr_invalid (take sizeof_gpt_hdr h) (sg_start (hf_hdr x).2) = false.
Proof.
  intros [] Hl. pose proof hdr_struct as Hst. pose proof ent_struct as He.
  assert (forall f, hget f (take sizeof_gpt_hdr h) = hget f h) as Eg.
  { intros f. apply (hget_take sizeof_gpt_hdr); [lia|]. by rewrite take_take, Nat.min_id. }
  unfold hdr_invalid, MAXTBLENTS, DEV_BSIZE.
  rewrite take_sub by (pose proof (hdr_inside hdr_sig); lia).
  rewrite !Eg, lb_sig0, lb_self0, lb_entsz0, He, Z.eqb_refl, bool_decide_true by done.
  cbn [negb orb]. rewrite !orb_false_iff. split_and!; try done; apply Z.ltb_ge; lia.
Qed.

(** A copy in the map, sealed and on the device. *)
Record on_disk s l total th tt x h t : Prop := {
  od_half : half_at s l th tt x h t;
  od_types : th <> tt;
  od_seal : sealed h t;
  od_hdr : on_device s (hf_hdr x).2 h;
  od_tbl : on_device s (hf_tbl x).2 t;
  od_map : map_ok s l total;
  od_room : total * 512 <= Z.of_nat (length (s_disk s)) < 2 ^ 62;
  od_secsz : gd_secsz (s_gd s) = 512;
}.

Definition boot_hdr h : list Z := take sizeof_gpt_hdr h.
Definition boot_tbl h t : list Z := take (Z.to_nat (hget hdr_entries h * 128)) t.

Lemma boot_hdr_get h f : hget f (boot_hdr h) = hget f h.
Proof.
  pose proof hdr_struct. apply (hget_take sizeof_gpt_hdr); [lia|].
  unfold boot_hdr. by rewrite take_take, Nat.min_id.
Qed.

(** Where it lies. *)
Lemma on_disk_place s l total th tt x h t alt : on_disk s l total th tt x h t -> boot_label x h alt ->
  let v := (hf_hdr x).2 in let w := (hf_tbl x).2 in let n := hget hdr_entries h in
  0 <= sg_start v /\ sg_start v + 1 <= total /\ (512 <= length h)%nat /\
  0 <= sg_start w /\ n / 4 <= sg_size w /\ sg_start w + sg_size w <= total /\
  n * 128 <= Z.of_nat (length t) /\ tbl_bytes h = n * 128 /\
  (sg_start v + sg_size v <= sg_start w \/ sg_start w + sg_size w <= sg_start v).
Proof.
  intros [Hh Hne _ _ _ (_ & Ht & _) _ Hz] [_ _ _ _ _ E1 E2 E3 _] v w n.
  destruct (half_in _ _ _ _ _ _ _ Hh) as [[I1 T1] [I2 T2]]. destruct Hh as [_ _ _ _ _ _ L1 L2 [_ _ _ _ O]].
  destruct (hf_hdr x) as [nv sv] eqn:Ev, (hf_tbl x) as [nw sw] eqn:Ew. cbn [snd] in *. subst v w.
  destruct (tiles_in _ _ _ _ _ Ht I1) as (? & ? & ?), (tiles_in _ _ _ _ _ Ht I2) as (? & ? & ?).
  destruct (tiles_disjoint _ _ _ _ _ _ _ Ht I1 I2) as [?|?]; [congruence|..]; unfold sg_end in *;
    rewrite Hz in *;
    assert (tbl_bytes h = n * 128) as Eb by (unfold tbl_bytes; rewrite E1; apply u32_small; lia);
    rewrite Eb in O; split_and!; (dlia || auto).
Qed.

Lemma on_disk_hdr s l total th tt x h t alt : on_disk s l total th tt x h t -> boot_label x h alt ->
  hdr_at (s_disk s) (sg_start (hf_hdr x).2) = Some (boot_hdr h).
Proof.
  intros H Hl. destruct (on_disk_place _ _ _ _ _ _ _ _ _ H Hl) as (P1 & P2 & P3 & _).
  destruct H as [_ _ _ Hd _ (_ & _ & Ht) Hr Hz]. pose proof hdr_struct as Hst. unfold hdr_at.
  rewrite s64_small by lia. rewrite sector_some_of by lia. cbn [mbind option_bind]. f_equal.
  unfold on_device in Hd. rewrite Hz in Hd. unfold boot_hdr.
  transitivity (take sizeof_gpt_hdr (sub (Z.to_nat (sg_start (hf_hdr x).2 * 512)) (length h) (s_disk s)));
    [|by rewrite Hd].
  unfold sub. rewrite !take_take. f_equal. lia.
Qed.

Lemma tbl_on_device s w t n : on_device s w t -> gd_secsz (s_gd s) = 512 -> (n <= length t)%nat ->
  sub (Z.to_nat (sg_start w * 512)) n (s_disk s) = take n t.
Proof.
  intros Hd Hz Hn. unfold on_device in Hd. rewrite Hz in Hd.
  transitivity (take n (sub (Z.to_nat (sg_start w * 512)) (length t) (s_disk s))); [|by rewrite Hd].
  unfold sub. rewrite take_take. f_equal. lia.
Qed.

Lemma on_disk_loads s l total th tt x h t alt : on_disk s l total th tt x h t -> boot_label x h alt ->
  load (s_disk s) (sg_start (hf_hdr x).2) = Some (boot_hdr h, boot_tbl h t).
Proof.
  intros H Hl. pose proof (on_disk_place _ _ _ _ _ _ _ _ _ H Hl) as (P1 & P2 & P3 & P4 & P5 & P6 & P7 & P8 & _).
  pose proof Hl as []. pose proof hdr_struct as Hst. set (n := hget hdr_entries h) in *.
  unfold load, load_hdr. rewrite (on_disk_hdr _ _ _ _ _ _ _ _ _ H Hl). cbn [mbind option_bind].
  unfold boot_hdr at 1. rewrite (label_valid _ _ _ Hl) by lia. cbn [orb].
  assert (hdr_sums (boot_hdr h) = true) as ->.
  { rewrite <- (sealed_sums h t (od_seal _ _ _ _ _ _ _ _ H)).
    apply (sums_take (Z.to_nat (hget hdr_size h))); [lia| | |done|].
    - lia.
    - unfold boot_hdr. rewrite length_take. lia.
    - unfold boot_hdr. rewrite take_take. f_equal. lia. }
  cbn [negb mbind option_bind]. unfold load_tbl. rewrite !boot_hdr_get. fold n. rewrite lb_tbl0.
  destruct H as [_ _ [Hs _] _ Hd (_ & _ & Ht) Hr Hz]. rewrite s64_small by dlia.
  rewrite (proj2 (Z.eqb_neq n 0)) by lia.
  assert (readable (s_disk s) (sg_start (hf_tbl x).2) n = true) as ->.
  { apply forallb_forall. intros i Hi%in_seq. apply bool_decide_eq_true.
    rewrite sector_some_of by dlia. by eexists. }
  unfold tbl_at. rewrite (tbl_on_device s (hf_tbl x).2 t) by (done || lia).
  rewrite Hs, P8, Z.eqb_refl. done.
Qed.

Lemma on_disk_placed s l total th tt x h t alt : on_disk s l total th tt x h t -> boot_label x h alt ->
  let c := hc (boot_hdr h) in
  c_self c = sg_start (hf_hdr x).2 /\ c_tlba c = sg_start (hf_tbl x).2 /\ c_n c = hget hdr_entries h /\
  placed (s_disk s) c /\ plain (boot_hdr h).
Proof.
  intros H Hl c. pose proof (on_disk_place _ _ _ _ _ _ _ _ _ H Hl) as (P1 & P2 & P3 & P4 & P5 & P6 & P7 & P8 & P9).
  pose proof Hl as []. destruct H as [Hh _ _ _ _ (_ & Ht & Hb) Hr Hz].
  assert (c_self c = sg_start (hf_hdr x).2) as E1.
  { unfold c_self, c. cbn [hc c_hdr]. rewrite boot_hdr_get, lb_self0. apply s64_small. lia. }
  assert (c_tlba c = sg_start (hf_tbl x).2) as E2.
  { unfold c_tlba, c. cbn [hc c_hdr]. rewrite boot_hdr_get, lb_tbl0. apply s64_small. dlia. }
  assert (c_n c = hget hdr_entries h) as E3 by (unfold c_n, c; cbn [hc c_hdr]; apply boot_hdr_get).
  destruct (half_in _ _ _ _ _ _ _ Hh) as [[I1 _] _].
  assert (0 < sg_size (hf_hdr x).2) as Hpos.
  { destruct (hf_hdr x) as [nv sv]. by destruct (tiles_in _ _ _ _ _ Ht I1) as (_ & ? & _). }
  split_and!; [done..| |].
  - split; unfold own, tbl_own; rewrite ?E1, ?E2, ?E3; [done|lia|done|lia|].
    intros z Hx. split_and!; [lia..|done].
  - split; rewrite boot_hdr_get; (done || lia).
Qed.

(** Both copies. *)
Record labelled s l total x y c : Prop := {
  la_rep : gpt_rep s l total x y c;
  la_boot : bootable s x y c;
  la_pri : sealed c.1.1 c.1.2;
  la_sec : sealed c.2.1 c.2.2;
  la_sync : GptRep.synced s x y c;
}.

Lemma labelled_both s l total x y c : labelled s l total x y c ->
  on_disk s l total MAP_TYPE_PRI_GPT_HDR MAP_TYPE_PRI_GPT_TBL x c.1.1 c.1.2 /\
  on_disk s l total MAP_TYPE_SEC_GPT_HDR MAP_TYPE_SEC_GPT_TBL y c.2.1 c.2.2.
Proof.
  intros [[G1 G2 G3 G4 G5 G6] [Hz _ _ _ _ _ _] S1 S2 (D1 & D2 & D3 & D4)]. rewrite Hz in G6. by split; split.
Qed.

Lemma labelled_loads s l total x y c : labelled s l total x y c ->
  two_copies (s_disk s) (boot_hdr c.1.1) (boot_tbl c.1.1 c.1.2) (boot_hdr c.2.1) (boot_tbl c.2.1 c.2.2).
Proof.
  intros H. destruct (labelled_both _ _ _ _ _ _ H) as [H1 H2]. destruct H as [_ [] _ _ _].
  pose proof (on_disk_loads _ _ _ _ _ _ _ _ _ H1 ba_pri0) as L1. rewrite ba_first0 in L1.
  pose proof (on_disk_loads _ _ _ _ _ _ _ _ _ H2 ba_sec0) as L2.
  assert (alt_lba (s_disk s) = sg_start (hf_hdr y).2) as Ea.
  { unfold alt_lba. rewrite L1, boot_hdr_get. by destruct ba_pri0. }
  split; unfold loads; cbn [lba_of]; [exact L1|]. by rewrite Ea, (proj2 (Z.eqb_neq _ _)).
Qed.

Lemma labelled_apart s l total x y c z : labelled s l total x y c ->
  own (hc (boot_hdr c.1.1)) z -> own (hc (boot_hdr c.2.1)) z -> False.
Proof.
  intros H. destruct (labelled_both _ _ _ _ _ _ H) as [H1 H2]. pose proof H as [_ [] _ _ _].
  destruct (on_disk_placed _ _ _ _ _ _ _ _ _ H1 ba_pri0) as (E1 & E2 & E3 & _).
  destruct (on_disk_placed _ _ _ _ _ _ _ _ _ H2 ba_sec0) as (F1 & F2 & F3 & _).
  destruct (on_disk_place _ _ _ _ _ _ _ _ _ H1 ba_pri0) as (_ & _ & _ & _ & N1 & _).
  destruct (on_disk_place _ _ _ _ _ _ _ _ _ H2 ba_sec0) as (_ & _ & _ & _ & N2 & _).
  destruct (half_in _ _ _ _ _ _ _ (od_half _ _ _ _ _ _ _ _ H1)) as [[I1 T1] [I2 T2]].
  destruct (half_in _ _ _ _ _ _ _ (od_half _ _ _ _ _ _ _ _ H2)) as [[J1 U1] [J2 U2]].
  pose proof (od_map _ _ _ _ _ _ _ _ H1) as (_ & Ht & _).
  unfold own, tbl_own. rewrite E1, E2, E3, F1, F2, F3.
  destruct (hf_hdr x) as [n1 v1], (hf_tbl x) as [n2 v2], (hf_hdr y) as [n3 v3], (hf_tbl y) as [n4 v4].
  cbn [snd] in *.
  destruct (tiles_in _ _ _ _ _ Ht I1) as (_ & ? & _), (tiles_in _ _ _ _ _ Ht J1) as (_ & ? & _).
  destruct (tiles_disjoint _ _ _ _ _ _ _ Ht I1 J1) as [?|?]; [by rewrite T1, U1|..];
  destruct (tiles_disjoint _ _ _ _ _ _ _ Ht I1 J2) as [?|?]; try (by rewrite T1, U2);
  destruct (tiles_disjoint _ _ _ _ _ _ _ Ht I2 J1) as [?|?]; try (by rewrite T2, U1);
  destruct (tiles_disjoint _ _ _ _ _ _ _ Ht I2 J2) as [?|?]; try (by rewrite T2, U2);
  unfold sg_end in *; lia.
Qed.

Lemma labelled_disk s l total x y c : labelled s l total x y c -> boot_disk (s_disk s).
Proof.
  intros H. destruct (labelled_both _ _ _ _ _ _ H) as [H1 H2]. pose proof (labelled_loads _ _ _ _ _ _ H) as H3.
  pose proof H as [_ [] _ _ _].
  destruct (on_disk_placed _ _ _ _ _ _ _ _ _ H1 ba_pri0) as (_ & _ & E1 & P1 & K1).
  destruct (on_disk_placed _ _ _ _ _ _ _ _ _ H2 ba_sec0) as (_ & _ & E2 & P2 & K2).
  destruct H3 as [L1 L2]. split.
  - done.
  - apply H1.
  - eapply plain_at_load; [exact L1|done].
  - eapply plain_at_load; [|exact K2]. by apply (loads_lba (s_disk s) Backup).
  - split.
    + intros [] h t E; [rewrite L1 in E|rewrite L2 in E]; by injection E as <- <-.
    + intros h t h' t' E E'. rewrite L1 in E. rewrite L2 in E'. injection E as <- <-. injection E' as <- <-.
      split; [by rewrite E1, E2|]. intros z. by eapply labelled_apart.
Qed.
End reads.

(** ** What a command of fgdisk leaves *)
Lemma on_device_byte s v d i z : on_device s v d -> bytes_ok d -> 0 <= sg_start v -> 0 <= gd_secsz (s_gd s) ->
  Z.of_nat (length d) = sg_size v * gd_secsz (s_gd s) -> in_region s v i ->
  s_disk s !! i = Some z -> 0 <= z < 256.
Proof.
  intros Hd Hb Hs Hz Hl Hi E. unfold in_region in Hi. unfold on_device in Hd.
  set (a := Z.to_nat (sg_start v * gd_secsz (s_gd s))) in *.
  assert (d !! (i - a)%nat = Some z) as E2.
  { rewrite <- Hd, lookup_sub, decide_True by nia. rewrite <- E. f_equal. nia. }
  eapply (Forall_lookup_1 _ d _ _ Hb E2).
Qed.

Lemma edited_bytes s0 s l total x y c : gpt_rep s l total x y c -> edits x y s0 s ->
  gd_secsz (s_gd s0) = gd_secsz (s_gd s) -> bytes_ok (s_disk s0) -> GptRep.synced s x y c ->
  bytes_ok (s_disk s).
Proof.
  intros Hrep Hed Hz Hb (D1 & D2 & D3 & D4). pose proof Hrep as [(_ & Ht & _) X Y _ G5 _].
  destruct (half_in _ _ _ _ _ _ _ X) as [[I1 _] [I2 _]], (half_in _ _ _ _ _ _ _ Y) as [[J1 _] [J2 _]].
  destruct X as [_ _ _ _ _ _ L1 L2 [B1 B2 _ _ _]], Y as [_ _ _ _ _ _ M1 M2 [B3 B4 _ _ _]].
  assert (forall nv d, nv ∈ l -> on_device s nv.2 d -> bytes_ok d ->
    Z.of_nat (length d) = sg_size nv.2 * gd_secsz (s_gd s) ->
    forall i z, in_region s0 nv.2 i -> s_disk s !! i = Some z -> 0 <= z < 256) as K.
  { intros [n v] d Hin Hd Hbd Hl i z Hi E. destruct (tiles_in _ _ _ _ _ Ht Hin) as (? & _).
    unfold in_region in Hi. rewrite Hz in Hi. by apply (on_device_byte s v d i z); (done || lia). }
  apply Forall_lookup. intros i z E.
  assert (forall v, Decision (in_region s0 v i)) as Dec by (intros v; unfold in_region; apply _).
  destruct (decide (in_region s0 (hf_hdr x).2 i)); [by eapply (K _ _ I1 D1)|].
  destruct (decide (in_region s0 (hf_tbl x).2 i)); [by eapply (K _ _ I2 D2)|].
  destruct (decide (in_region s0 (hf_hdr y).2 i)); [by eapply (K _ _ J1 D3)|].
  destruct (decide (in_region s0 (hf_tbl y).2 i)); [by eapply (K _ _ J2 D4)|].
  rewrite (ed_disk _ _ _ _ Hed) in E by tauto. exact (Forall_lookup_1 _ _ _ _ Hb E).
Qed.

Lemma outcome_labelled s l total x y c c' s' pick f val : gpt_rep s l total x y c -> bootable s x y c ->
  writable s -> edited l pick f val c c' -> outcome s l total x y true c c' s' -> labelled s' l total x y c'.
Proof.
  intros Hrep [Hz Hb Hp Hs Hf Hla Hn] Hw [_ _ Eh] [O1 O2 O3 _]. destruct (O3 eq_refl) as (S1 & S2 & S3).
  specialize (S3 Hw). destruct (ed_gd _ _ _ _ O2) as (fl & Eg & _).
  assert (gd_secsz (s_gd s') = gd_secsz (s_gd s)) as Ez by by rewrite Eg.
  pose proof (gr_pri _ _ _ _ _ _ Hrep) as [_ _ _ _ _ _ _ _ [X1 _ X2 _ _]].
  pose proof (gr_sec _ _ _ _ _ _ Hrep) as [_ _ _ _ _ _ _ _ [Y1 _ Y2 _ _]].
  pose proof (gr_pri _ _ _ _ _ _ O1) as [_ _ _ _ _ _ _ _ [X3 _ X4 _ _]].
  pose proof (gr_sec _ _ _ _ _ _ O1) as [_ _ _ _ _ _ _ _ [Y3 _ Y4 _ _]].
  split; [done| |done..]. split.
  - by rewrite Ez.
  - by eapply (edited_bytes (link x y s) s'); [..|exact S3].
  - apply (label_like _ c.1.1); try done. intros g G1 G2. by apply Eh.
  - apply (label_like _ c.2.1); try done. intros g G1 G2. by apply Eh.
  - done.
  - done.
  - by rewrite (proj1 (Eh hdr_entries ltac:(done) ltac:(done))), (proj2 (Eh hdr_entries ltac:(done) ltac:(done))).
Qed.

(** ** The attributes that fgdisk flag sets *)
Definition once_mask : Z := Z.lor GPT_ENT_ATTR_BOOTME GPT_ENT_ATTR_BOOTONCE.

Lemma once_mask_64 : u64 once_mask = once_mask.
Proof.
  unfold once_mask. destruct attr_bits as (i & j & k & Hi & Hj & Hk & _ & _ & _ & -> & -> & _).
  apply u64_bits. intros b Hb. rewrite Z.lor_spec, !Z.pow2_bits_false by lia. done.
Qed.

Lemma flagged_once d : is_bootonce (le_dec (flags_val once_mask 0 GPT_ENT_ATTR_BOOTFAILED d)) = true.
Proof.
  unfold flags_val. rewrite le_dec_enc. change (256 ^ Z.of_nat 8) with (2 ^ 64). fold (u64 (Z.land
    (Z.lxor (Z.lor (le_dec d) once_mask) 0) (u64 (Z.lnot GPT_ENT_ATTR_BOOTFAILED)))).
  unfold is_bootonce, once_mask.
  destruct attr_bits as (i & j & k & Hi & Hj & Hk & Hij & Hik & Hjk & -> & -> & ->).
  rewrite !bit_u64, !has_bit, !Z.land_spec, Z.lxor_0_r, !Z.lor_spec by lia.
  unfold u64. rewrite !Z.mod_pow2_bits_low, !Z.lnot_spec by lia.
  rewrite !Z.pow2_bits_true, !(Z.pow2_bits_false k), !orb_true_r by lia.
  by rewrite ?orb_true_r.
Qed.

(** ** The order of the entries in terms of fgdisk's table *)
Lemma tget_boot h t j f : hget hdr_entsz h = 128 -> 0 <= j < hget hdr_entries h ->
  tget j f (boot_tbl h t) = eget j f h t.
Proof.
  intros E Hj. unfold boot_tbl. rewrite tget_take by done. unfold tget, eget, ent_ofs. by rewrite E.
Qed.

Lemma order_first n (o m a : Z -> bool) i : 0 <= i < n -> o i = true -> (forall j, 0 <= j < i -> o j = false) ->
  exists r, order n o m a = i :: r.
Proof.
  intros Hi Ho Hj. unfold order. rewrite (picks_skip o 0 i n), picks_to_cons, Ho by (done || lia). by eexists.
Qed.

Lemma ent_in_below i j h t : bytes_ok h -> ent_in i h t -> 0 <= j <= i -> ent_in j h t.
Proof. intros Hb (H1 & H2 & H3) Hj. pose proof (hget_bound hdr_entsz h Hb). unfold ent_in. nia. Qed.

Lemma picked_flag l e c j : 0 < e -> picked l (flag_pick e) c j =
  (j =? e - 1) && existsb (fun nv => is_part nv.2 && (sg_index nv.2 =? e)) l.
Proof.
  intros He. unfold picked. induction l as [|[n v] l IH]; cbn [existsb]; [by rewrite andb_false_r|].
  rewrite IH. unfold flag_pick. cbn [snd]. rewrite (proj2 (Z.leb_gt e 0)) by lia. cbn [orb].
  destruct (Z.eqb_spec j (e - 1)) as [->|Hne]; cbn [andb].
  - replace (e - 1 + 1) with e by lia. rewrite (Z.eqb_sym e). destruct (sg_index v =? e); [done|].
    cbn [andb]. by rewrite andb_false_r.
  - destruct (Z.eqb_spec (sg_index v) (j + 1)) as [E|]; cbn [andb orb]; [|done].
    rewrite (proj2 (Z.eqb_neq e (sg_index v))) by lia. by rewrite andb_false_r.
Qed.

Lemma some_picked_flag l c n v : (n, v) ∈ l -> is_part v = true -> some_picked l (flag_pick (sg_index v)) c = true.
Proof.
  intros Hin Hp. apply existsb_exists. exists (n, v). split; [by apply list_elem_of_In|].
  unfold flag_pick. cbn [snd]. rewrite Hp, Z.eqb_refl, orb_true_r. done.
Qed.

(** The entries that gptboot selects from what fgdisk flag leaves: the flagged one is to be
    booted once, those before it are as they were. *)
Lemma flagged_sel l x y c c' s' total n v j : labelled s' l total x y c' ->
  halves_ok c -> parts_ok l c -> (n, v) ∈ l -> is_part v = true ->
  edited l (flag_pick (sg_index v)) ent_attr (flags_val once_mask 0 GPT_ENT_ATTR_BOOTFAILED) c c' ->
  0 <= j < sg_index v -> sg_index v <= hget hdr_entries c.1.1 ->
  sel_in (GPT_ENT_TYPE DRAGONFLY_UFS1) is_bootonce (boot_tbl c'.1.1 c'.1.2) j =
  bool_decide (eget j ent_type c.1.1 c.1.2 = GPT_ENT_TYPE DRAGONFLY_UFS1) &&
  ((j =? sg_index v - 1) || is_bootonce (le_dec (eget j ent_attr c.1.1 c.1.2))).
Proof.
  intros [_ [_ _ Hl _ _ _ _] _ _ _] [[Hb _ _ _ _] [Hb' _ _ _ _]] Hparts Hin Hp [E1 _ E3] Hj Hn.
  destruct (po_in _ _ Hparts n v Hin Hp) as [_ [I1 I2]].
  pose proof (ent_in_below _ j _ _ Hb I1 ltac:(lia)) as J1.
  pose proof (ent_in_below _ j _ _ Hb' I2 ltac:(lia)) as J2.
  assert (hget hdr_entries c'.1.1 = hget hdr_entries c.1.1) as En by (by apply E3).
  unfold sel_in, tattr. rewrite !tget_boot by (apply Hl || lia). rewrite !E1 by done.
  unfold field_of. rewrite (bool_decide_eq_false_2 (ent_type = ent_attr)), (bool_decide_eq_true_2 (ent_attr = ent_attr)) by done.
  cbn [andb]. f_equal. rewrite picked_flag by lia.
  assert (existsb (fun nv => is_part nv.2 && (sg_index nv.2 =? sg_index v)) l = true) as ->.
  { apply existsb_exists. exists (n, v). split; [by apply list_elem_of_In|]. cbn [snd]. by rewrite Hp, Z.eqb_refl. }
  rewrite andb_true_r. destruct (_ =? _); [apply flagged_once|done].
Qed.

(** C40: fgdisk flag, given the index of a DragonFly UFS1 partition and the attributes BOOTME and
    BOOTONCE, succeeds, and when the machine is started on the disk that it leaves, that
    partition is the first that gptboot tries, unless one before it was to be booted once
    already. *)
Theorem flag_boots s l total x y c n v buf (Hrep : gpt_rep s l total x y c) (Hparts : parts_ok l c)
  (Hboot : bootable s x y c) (Hw : writable s)
  (Hread : forall lba, bios_read lba = true) (Hwrite : forall lba, bios_write lba = true)
  (Hin : (n, v) ∈ l) (Hpart : is_part v = true) (Hn : sg_index v <= hget hdr_entries c.1.1)
  (Htype : eget (sg_index v - 1) ent_type c.1.1 c.1.2 = GPT_ENT_TYPE DRAGONFLY_UFS1)
  (Hbefore : forall j, 0 <= j < sg_index v - 1 ->
    eget j ent_type c.1.1 c.1.2 = GPT_ENT_TYPE DRAGONFLY_UFS1 ->
    is_bootonce (le_dec (eget j ent_attr c.1.1 c.1.2)) = false) :
  exists s', change_flags (sg_index v) once_mask 0 GPT_ENT_ATTR_BOOTFAILED s = Some (tt, s') /\
    forall b, power_on b buf -> b_disk b = s_disk s' ->
      exists rest b', attempts buf b = Some (sg_index v :: rest, b').
Proof.
  destruct (change_flags_edits s l total x y c (sg_index v) once_mask 0 GPT_ENT_ATTR_BOOTFAILED
    Hrep Hparts once_mask_64 eq_refl) as [(s' & c' & E & Hed & Hout) _].
  rewrite (some_picked_flag l c n v Hin Hpart) in Hout. exists s'. split; [exact E|].
  pose proof (outcome_labelled _ _ _ _ _ _ _ _ _ _ _ Hrep Hboot Hw Hed Hout) as Hlab.
  pose proof (rep_halves _ _ _ _ _ _ Hrep) as Hh.
  assert (1 <= sg_index v) as Hi by (unfold is_part in Hpart; zbool; lia).
  assert (hget hdr_entries (boot_hdr c'.1.1) = hget hdr_entries c.1.1) as En.
  { rewrite boot_hdr_get. by apply (ed_hdr _ _ _ _ _ _ Hed). }
  intros b Hp Hd. pose proof (labelled_disk Hread Hwrite _ _ _ _ _ _ Hlab) as HD.
  pose proof (labelled_loads Hread _ _ _ _ _ _ Hlab) as H2. rewrite <- Hd in HD, H2.
  assert (wp (attempts buf) b (fun r _ => exists rest, r = sg_index v :: rest)) as W.
  { eapply wp_attempts; [done..|]. intros b'. unfold order_of. rewrite En.
    set (t := boot_tbl c'.1.1 c'.1.2). set (U := GPT_ENT_TYPE DRAGONFLY_UFS1).
    destruct (order_first (hget hdr_entries c.1.1) (sel_in U is_bootonce t) (sel_in U is_bootme t)
      (sel_in U any_attr t) (sg_index v - 1)) as [r Er].
    - lia.
    - unfold U, t. erewrite flagged_sel by (done || lia). by rewrite Htype, bool_decide_true, Z.eqb_refl.
    - intros j Hj. unfold U, t. erewrite flagged_sel by (done || lia).
      rewrite (proj2 (Z.eqb_neq j _)) by lia. case_bool_decide as Ht; [|done]. by rewrite Hbefore.
    - rewrite Er. cbn [map]. exists (map (fun i => i + 1) r). f_equal. lia. }
  apply wp_elim in W as (r & b' & Eb & rest & ->). eauto.
Qed.
End flag.

(** ** A device of six sectors of 512 bytes, open in fgdisk *)
Definition ex_open_tbl : list Z := Eval vm_compute in ex_ent (ex_kind DRAGONFLY_UFS1) 0 ++ replicate 384 0.
Definition ex_open_hdr1 : list Z := Eval vm_compute in ex_head1 ++ replicate 420 0.
Definition ex_open_hdr2 : list Z := Eval vm_compute in ex_head2 ++ replicate 420 0.

Definition ex_seg (start type index : Z) (b : option loc) : seg :=
  Seg start 1 type index (match b with Some b => PBuf b 0 | None => PNull end) (if b is Some _ then 1 else 0).
Definition ex_open_list : segs :=
  [(0%nat, ex_seg 0 MAP_TYPE_UNUSED 0 None);
   (1%nat, ex_seg 1 MAP_TYPE_PRI_GPT_HDR 0 (Some 10%nat));
   (2%nat, ex_seg 2 MAP_TYPE_PRI_GPT_TBL 0 (Some 11%nat));
   (3%nat, ex_seg 3 MAP_TYPE_GPT_PART 1 None);
   (4%nat, ex_seg 4 MAP_TYPE_SEC_GPT_TBL 0 (Some 13%nat));
   (5%nat, ex_seg 5 MAP_TYPE_SEC_GPT_HDR 0 (Some 12%nat))].
Definition ex_open_maps : gmap loc map_node :=
  <[0%nat := ex_node (ex_seg 0 MAP_TYPE_UNUSED 0 None) None (Some 1%nat)]>
  (<[1%nat := ex_node (ex_seg 1 MAP_TYPE_PRI_GPT_HDR 0 (Some 10%nat)) (Some 0%nat) (Some 2%nat)]>
  (<[2%nat := ex_node (ex_seg 2 MAP_TYPE_PRI_GPT_TBL 0 (Some 11%nat)) (Some 1%nat) (Some 3%nat)]>
  (<[3%nat := ex_node (ex_seg 3 MAP_TYPE_GPT_PART 1 None) (Some 2%nat) (Some 4%nat)]>
  (<[4%nat := ex_node (ex_seg 4 MAP_TYPE_SEC_GPT_TBL 0 (Some 13%nat)) (Some 3%nat) (Some 5%nat)]>
  (<[5%nat := ex_node (ex_seg 5 MAP_TYPE_SEC_GPT_HDR 0 (Some 12%nat)) (Some 4%nat) None]> ∅))))).
Definition ex_open : store :=
  Store ex_open_maps
    (<[10%nat := ex_open_hdr1]> (<[11%nat := ex_open_tbl]> (<[12%nat := ex_open_hdr2]> (<[13%nat := ex_open_tbl]> ∅))))
    14 (Gd 0 0 5 (Some 0%nat) None None None None 512 3072) ex_disk.

Definition ex_open_pri : half :=
  Half (1%nat, ex_seg 1 MAP_TYPE_PRI_GPT_HDR 0 (Some 10%nat)) (2%nat, ex_seg 2 MAP_TYPE_PRI_GPT_TBL 0 (Some 11%nat)) 10 11.
Definition ex_open_sec : half :=
  Half (5%nat, ex_seg 5 MAP_TYPE_SEC_GPT_HDR 0 (Some 12%nat)) (4%nat, ex_seg 4 MAP_TYPE_SEC_GPT_TBL 0 (Some 13%nat)) 12 13.
Definition ex_open_contents : contents := (ex_open_hdr1, ex_open_tbl, (ex_open_hdr2, ex_open_tbl)).

Lemma ex_open_ok h : bytes_ok h -> (length h = 512)%nat -> hget hdr_size h = 92 -> tbl_bytes h = 512 ->
  half_ok h ex_open_tbl.
Proof.
  intros Hb Hl Hs Ht. assert (length ex_open_tbl = 512%nat) as Lt by by vm_compute.
  split; [done| |rewrite Hl; cbn; lia|rewrite Hs, Hl; lia|rewrite Ht, Lt; lia].
  apply (bool_decide_unpack _). by vm_compute.
Qed.

Lemma ex_open_map : map_ok ex_open ex_open_list 6.
Proof.
  split; [split|split; [vm_compute; intuition congruence|lia]].
  - repeat (split; [eexists; (split; [reflexivity|done])|]). done.
  - done.
  - apply (bool_decide_unpack _). by vm_compute.
  - simpl. intros x Hx. unfold ex_open_maps. rewrite !lookup_insert_ne by lia. apply lookup_empty.
Qed.

Lemma ex_open_rep : gpt_rep ex_open ex_open_list 6 ex_open_pri ex_open_sec ex_open_contents.
Proof.
  split.
  - exact ex_open_map.
  - split; try (by vm_compute). apply ex_open_ok; [apply (bool_decide_unpack _)|..]; by vm_compute.
  - split; try (by vm_compute). apply ex_open_ok; [apply (bool_decide_unpack _)|..]; by vm_compute.
  - apply (bool_decide_unpack _). by vm_compute.
  - done.
  - by vm_compute.
Qed.

Lemma ex_open_parts : parts_ok ex_open_list ex_open_contents.
Proof.
  split; [|apply (bool_decide_unpack _); by vm_compute|vm_compute; discriminate..].
  intros n v Hin Hp. unfold ex_open_list in Hin. rewrite !elem_of_cons in Hin.
  destruct Hin as [E|[E|[E|[E|[E|[E|[]%not_elem_of_nil]]]]]]; injection E as -> ->; try done.
Qed.

Lemma ex_open_bootable : bootable ex_open ex_open_pri ex_open_sec ex_open_contents.
Proof.
  split; [done|apply ex_boot_disk|split; by vm_compute|split; by vm_compute|by vm_compute..].
Qed.

Lemma flag_boots_witness : exists s', change_flags 1 once_mask 0 GPT_ENT_ATTR_BOOTFAILED ex_open = Some (tt, s') /\
  forall b, power_on b ex_buf -> b_disk b = s_disk s' -> exists rest b', attempts ex_buf b = Some (1 :: rest, b').
Proof.
  apply (flag_boots ex_open ex_open_list 6 ex_open_pri ex_open_sec ex_open_contents 3%nat
    (ex_seg 3 MAP_TYPE_GPT_PART 1 None) ex_buf ex_open_rep ex_open_parts ex_open_bootable).
  - by split.
  - done.
  - done.
  - unfold ex_open_list. rewrite !elem_of_cons. auto 10.
  - done.
  - by vm_compute.
  - by vm_compute.
  - cbn. lia.
Defined.
